(* ===== verification/_CoqProject ===== *)
-Q . S2P
Prelude.v
Decimal.v
ApiTypes.v
EqDec.v
ApiClient.v
K8sLib.v
ReferenceLib.v
Priority.v
ResourceProfile.v
Admission.v
Mutation.v
Webhook.v
Scheduling.v
Conditions.v
Kueue.v
ModelController.v
TenantController.v
TenantQuota.v
TenantIsolation.v
InferenceServiceController.v
Progress.v
MemCluster.v
Rbac.v
TenantAccess.v
System.v
Convergence.v
Interference.v
Overlap.v
Concurrent.v
Workqueue.v
Fairness.v
Settled.v
Schema.v
GoStd.v
Manager.v
Watch.v
Settling.v
GoMemory.v
DeepCopy.v
DeepCopyWitness.v
TestUtils.v
Witnesses.v
WatchWitness.v
