(* ===== verification/Prelude.v ===== *)
(** * Verification of the inference-platform operator

    The operator ([operator/] of the repository, in Go) turns four custom
    resources into Kubernetes objects: a Tenant into an isolated namespace with
    a quota, a Model into a verified artifact, an InferenceService into a Job
    that Kueue queues, under a PlatformPolicy.  Two admission webhooks vet and
    annotate InferenceServices; three controllers reconcile the rest.  The
    parts communicate only through the API server.

    ** The model

    - [Prelude] (this file): Go's [int32], strings and their %q quoting, errors
      and the API status reason they carry, maps with string keys.
    - [Decimal]: decimal texts and their values.
    - [ApiTypes]: the Go structs of [operator/api/v1alpha1], field by field, and
      the fields the operator uses of the Kubernetes objects; [Kind] and [obj]
      index them, so that one client interface serves all; [EqDec] decides
      their equality.
    - [ApiClient]: a handler is a program over the requests of
      controller-runtime's client ([Prog], a free monad: every call of the client
      is one request, in the order of the code).  Whatever the server answers is
      covered by [exec] (all traces) and by the program logic [wp]; [Cluster] is
      an API server with a state, [ClusterLaws] what the documentation of
      Kubernetes promises of it (failed writes may have taken effect),
      [Available] one that is up.
    - [K8sLib]: the four library functions the operator calls on values
      (conditions, quantities, owner references), as an interface with the laws
      of their documentation; [ReferenceLib] is one implementation of it.
    - [Priority], [ResourceProfile]: [internal/priority],
      [internal/resourceprofile], [internal/capacityenvelope].
    - [Admission], [Mutation], [Webhook]: [internal/admission] and the handlers of
      [internal/webhook].
    - [Scheduling]: [internal/scheduling], the Job of an InferenceService.
    - [Conditions]: [statusUnchanged] of [internal/controller/controller_helpers.go],
      and condition lists as association lists, the algebra the three
      controllers share.
    - [ModelController], [TenantController], [InferenceServiceController]: the
      reconcilers of [internal/controller], with the helpers of
      [controller_helpers.go] in [TenantController].
    - [TenantQuota], [TenantIsolation], [Rbac], [TenantAccess]: what the quota, the
      network policy, and the roles and bindings mean, those of the cluster
      included that [operator/config/rbac] deploys, under the documented semantics
      of these objects.
    - [Kueue]: the priority classes, flavors and quotas of
      [gitops/kueue-resources/cluster-queue.yaml], against the Jobs.
    - [Progress]: liveness of each controller; [System]: all of them
      interleaved; [Convergence]: run one after the other, in any order.
    - [Interference]: a rely-guarantee logic of programs that others interfere
      with; [Overlap]: each controller in it, next to the others; [Concurrent]:
      the operator with any number of reconciles under way, never two of one
      object; [Workqueue]: what starts them, and starts them again; [Fairness]:
      its endless runs.
    - [Settled]: what each reconcile leaves of its object, against a server that
      may fail; [Watch]: what fills the queue, by [SetupWithManager] of the
      controllers, while anyone changes Tenants, Models and InferenceServices;
      [Settling]: how that system comes to rest.
    - [Schema]: the CRDs of [operator/config/crd/bases] as types of the stored
      objects, their patterns as regular expressions.
    - [GoStd], [Manager]: [cmd/main.go], with what it uses of Go's slices, flags
      and paths; every call that can fail is a step, answered by its position.
    - [GoMemory], [DeepCopy], [DeepCopyWitness]: the generated
      [operator/api/v1alpha1/zz_generated.deepcopy.go], on pointers and slices in
      a store of cells, with the words of each type ([X_m]) and what they stand
      for; the copies of the types of the library are an interface
      ([LibraryTypes]), with a concrete one as witness.
    - [TestUtils]: [operator/test/utils/utils.go], in a state monad over the
      host; the outcomes of commands and system calls are parameters.
    - [MemCluster]: an API server in memory that satisfies the laws;
      [Witnesses], [WatchWitness]: the theorems that have hypotheses, applied to
      concrete runs.

    Mutable Go state is threaded explicitly: a function that assigns to the
    object it is given returns the object; only [DeepCopy] is about sharing, and
    has a store.  A pointer to a scalar is an
    [option], a nil map the [None] of [GoMap], a panic [Panic] (in programs) or
    [None] (in pure functions).  The clock is an argument of the functions that
    set conditions.

    ** What is proved

    - Admission: which InferenceServices are admitted and with which denial;
      mutation is idempotent and keeps the verdict; the webhooks never write.
    - Each controller: after a run without error the store agrees with the
      specification of the desired state (refinement); a second run writes
      nothing or changes nothing (idempotence); whatever the server answers,
      writes are ordered after what they depend on and touch only the
      controller's own objects; failures are reported and returned.
    - Tenants: no traffic between tenants; in the namespace of a tenant nobody acts
      but its workload account, the operator, and whoever else is bound for the
      whole cluster; quotas are exactly what was asked for.  This is so as long as
      nobody adds policies or bindings to the namespace.
    - The Job: what Kueue and Pod Security see of it.
    - Kueue: which gangs fit the quotas of a queue, and that every priority
      class a Job can ask for is declared, with the order of the priorities.
    - The whole: against a server that is up each controller succeeds, and
      reconciles, in any order and overlapping in any way, bring an
      InferenceService (of a known profile, on a Model that verifies, in a Tenant
      whose quota parses) to a queued Job, and keep it there, in at most eight
      requests each, as long as others leave alone what they own; in every fair endless run they are up from some moment on,
      and the work queue can always be drained of them.
      Whatever anyone changes, whatever fails and however changes are announced,
      an object that does not wait is as its controller is to make it, for the
      spec it has now (of a service, if InferenceServices can be listed; its
      priority is derived from a default the tenant may have had, [Defaults] of
      [Settled]); and from every such state the operator, left alone by a server
      that is up, can come to rest, although its own writes are announced to it.
      Under every interleaving, crash and failure the stored statuses
      stay coherent, every Job is queued for its owner, and the stored objects
      keep the types of the CRDs.
    - Deep copies stand for the value of their original, and share nothing with
      it.
    - The entry point: the flags are read back as given, the manager starts only
      when everything is registered, and each server gets its own certificate
      although the lists of options share a slice.
    - The helpers of the tests: what uncommenting does to a file, and that it
      undoes commenting; what the helpers find out and install.
    - Deviations the model exposed are theorems too: a quota failure reports
      resources that were never attempted as ready; a changed digest of a Ready
      model is never recorded; a failing policy lookup admits unsigned models;
      a changed default of a tenant does not reach the priorities derived from
      it; a GPU pod violates the Pod Security level its namespace enforces; the
      decimal printer fails on the least [int32].

    ** Bounds

    The loop of [itoa] runs on fuel ([itoa_fuel], 11): an [int32] has at most ten
    digits, and [itoa_decimal] shows that the loop ends on all of them.  The loop
    of [UncommentCode] runs on the length of its target plus one: every line
    scanned takes at least a byte of it ([Scan_length], [copy_lines_spec]).

    ** Not modelled

    Of what controller-runtime makes of a registration: leader election, and the
    delays of its queue ([Workqueue] has what waits reconciled in any order).
    [Watch] supposes that every change of a watched object is announced in the
    end, and that others leave alone what a controller makes for an object that
    exists ([respects]): the controllers do not watch what they make, so what is
    deleted behind their back comes back only at the next reconcile.  Not
    modelled either: the registration of the types with the scheme, which calls
    the libraries only, the end-to-end tests themselves, and the logging.  The
    flags of libraries are a parameter of [main], as is the capacity of a grown slice, which the language leaves open.
    Messages of conditions are kept, but the theorems on statuses speak of types,
    statuses and reasons, which is what the change detection compares; [Schema]
    leaves out their lengths and the generations.  A nil slice of conditions is
    the empty list.  [DeepCopyInto] is given as the value it leaves in its
    target, which every call of the code has just allocated.  That the platform
    comes up supposes a server that is up; [System] and [Schema], which show
    safety, do not.  The informer cache is part of the
    server: a read may be stale in the trace semantics, and reads the current
    state in [Cluster]. *)
From Stdlib Require Export ZArith Lia Ascii.
From stdpp Require Export base gmap strings list pretty numbers.

Open Scope Z_scope.
Open Scope list_scope.

(** ** Tactics and hint databases of the development *)

(** Rewriting rules and facts about the operations of the components. *)
Create HintDb cnip.
Create Rewrite HintDb cnip_rw.

(** Destructs every existential and conjunction of the context. *)
Ltac unpack :=
  repeat match goal with
  | H : _ /\ _ |- _ => destruct H
  | H : exists x, _ |- _ => let x' := fresh x in destruct H as [x' H]
  | H : prod _ _ |- _ => destruct H
  end.

(** ** Fixed-width integers *)

(** Go's [int32] as the integers of this range, with the wrap-around of the
    language's two's-complement arithmetic. *)
Definition min_int32 : Z := -2147483648.
Definition max_int32 : Z := 2147483647.
Definition int32_ok (z : Z) : Prop := min_int32 <= z <= max_int32.
Definition wrap32 (z : Z) : Z := (z + 2147483648) mod 4294967296 - 2147483648.

#[export] Instance int32_ok_dec z : Decision (int32_ok z).
Proof. unfold int32_ok. apply _. Defined.

Lemma wrap32_range z : int32_ok (wrap32 z).
Proof.
  unfold int32_ok, wrap32, min_int32, max_int32.
  pose proof (Z.mod_pos_bound (z + 2147483648) 4294967296 ltac:(lia)). lia.
Qed.

Lemma wrap32_id z : int32_ok z -> wrap32 z = z.
Proof.
  unfold int32_ok, wrap32, min_int32, max_int32. intros H.
  rewrite Z.mod_small; lia.
Qed.

(** Dividing an [int32] by a positive constant never overflows. *)
Lemma quot_int32_ok z d : int32_ok z -> 0 < d -> int32_ok (Z.quot z d).
Proof.
  unfold int32_ok, min_int32, max_int32. intros Hz Hd.
  destruct (Z_le_gt_dec 0 z).
  - pose proof (Z.quot_pos z d ltac:(lia) ltac:(lia)).
    pose proof (Z.quot_le_upper_bound z d max_int32 ltac:(lia)) as Hu.
    unfold max_int32 in Hu. split; [lia|]. apply Hu. nia.
  - pose proof (Z.quot_pos (- z) d ltac:(lia) ltac:(lia)) as Hp.
    pose proof (Z.quot_le_upper_bound (- z) d 2147483648 ltac:(lia) ltac:(nia)) as Hu.
    rewrite Z.quot_opp_l in Hp, Hu by lia. lia.
Qed.

#[export] Hint Resolve wrap32_range quot_int32_ok : cnip.

(** ** Go strings and the formatting verbs the program uses

    A Go string is a sequence of bytes; [string] is the same with [ascii] as
    the byte.  [quote] is [strconv.Quote], what the verb %q prints: the
    delimiters, the escapes of the quote, of the backslash and of the control
    characters.  A byte of 128 or more is copied, which is what Quote does
    with well-formed printable UTF-8. *)
Definition char_dquote : Ascii.ascii := "034"%char.
Definition char_backslash : Ascii.ascii := "092"%char.

Definition lowerhex (n : N) : Ascii.ascii :=
  if (n <? 10)%N then Ascii.ascii_of_N (48 + n) else Ascii.ascii_of_N (87 + n).

Definition quote_char (c : Ascii.ascii) : string :=
  let n := Ascii.N_of_ascii c in
  let esc (x : Ascii.ascii) := String char_backslash (String x EmptyString) in
  if decide (c = char_dquote \/ c = char_backslash) then esc c
  else if decide (n = 7%N) then esc "a"%char
  else if decide (n = 8%N) then esc "b"%char
  else if decide (n = 9%N) then esc "t"%char
  else if decide (n = 10%N) then esc "n"%char
  else if decide (n = 11%N) then esc "v"%char
  else if decide (n = 12%N) then esc "f"%char
  else if decide (n = 13%N) then esc "r"%char
  else if decide ((n < 32)%N \/ n = 127%N) then
    esc "x"%char +:+ String (lowerhex (N.shiftr n 4))
                       (String (lowerhex (N.land n 15)) EmptyString)
  else String c EmptyString.

Fixpoint quote_body (s : string) : string :=
  match s with
  | EmptyString => EmptyString
  | String c s' => quote_char c +:+ quote_body s'
  end.

Definition quote (s : string) : string :=
  String char_dquote (quote_body s +:+ String char_dquote EmptyString).

Lemma string_app_nil_r s : s +:+ "" = s.
Proof. induction s as [|c s IH]; [done|]. change (String c (s +:+ "") = String c s). by rewrite IH. Qed.

Lemma string_app_assoc (s1 s2 s3 : string) : (s1 +:+ s2) +:+ s3 = s1 +:+ (s2 +:+ s3).
Proof.
  induction s1 as [|c s1 IH]; [done|].
  change (String c ((s1 +:+ s2) +:+ s3) = String c (s1 +:+ (s2 +:+ s3))). by rewrite IH.
Qed.

(** ** Errors and results

    A Go [error] is observed by the program in three ways: it is nil or not,
    its message is printed, and [apierrors.IsNotFound] asks for the API status
    reason it carries.  A nil error is [None] of [option error]. *)
Inductive StatusReason :=
  | StatusReasonNotFound
  | StatusReasonAlreadyExists
  | StatusReasonConflict
  | StatusReasonUnknown.

#[export] Instance StatusReason_eq_dec : EqDecision StatusReason.
Proof. solve_decision. Defined.

Record error := mkError {
  error_reason : StatusReason;
  Error_ : string
}.

#[export] Instance error_eq_dec : EqDecision error.
Proof. solve_decision. Defined.

(** [fmt.Errorf] without %w, and with a trailing ": %w", which keeps the
    wrapped error's status reason. *)
Definition errorf (msg : string) : error := mkError StatusReasonUnknown msg.
Definition wrapf (prefix : string) (err : error) : error :=
  mkError (error_reason err) (prefix +:+ Error_ err).

(** [apierrors.IsNotFound] and [client.IgnoreNotFound]. *)
Definition IsNotFound (err : error) : bool :=
  bool_decide (error_reason err = StatusReasonNotFound).
Definition IgnoreNotFound (err : error) : option error :=
  if IsNotFound err then None else Some err.

(** A pair (value, error) of which exactly one is meaningful. *)
Inductive result (A : Type) : Type :=
  | Ok (a : A)
  | Err (err : error).
Arguments Ok {A} a.
Arguments Err {A} err.

Lemma IgnoreNotFound_None err : IgnoreNotFound err = None <-> IsNotFound err = true.
Proof. unfold IgnoreNotFound. destruct (IsNotFound err); naive_solver. Qed.

Lemma wrapf_IsNotFound prefix err : IsNotFound (wrapf prefix err) = IsNotFound err.
Proof. done. Qed.

#[export] Hint Rewrite wrapf_IsNotFound : cnip_rw.

(** ** Go maps with string keys

    A nil map is [None].  The program only assigns to a map after the guard
    [if m == nil { m = map[string]string{} }], which is [ensure_map]. *)
Abbreviation StringMap := (gmap string string).
Definition GoMap : Type := option StringMap.
Definition ensure_map (m : GoMap) : StringMap := default ∅ m.

(** Reading a nil map finds nothing. *)
Definition GoMap_lookup (m : GoMap) (k : string) : option string := ensure_map m !! k.
