(* ===== verification/Decimal.v ===== *)
(** * Decimal texts

    The digits of a number, their value, and how they relate to stdpp's
    [pretty], the reference printer of the development. *)
From S2P Require Import Prelude.

Definition is_digit (c : Ascii.ascii) : bool :=
  let n := Ascii.N_of_ascii c in (48 <=? n)%N && (n <=? 57)%N.

Definition digit_value (c : Ascii.ascii) : N := (Ascii.N_of_ascii c - 48)%N.

Fixpoint all_digits (s : string) : bool :=
  match s with
  | EmptyString => true
  | String c s' => is_digit c && all_digits s'
  end.

(** One digit or more: the pattern [0-9]+. *)
Definition digits (s : string) : Prop := s <> EmptyString /\ all_digits s = true.

#[export] Instance digits_dec s : Decision (digits s).
Proof. unfold digits. apply _. Defined.

(** The value of the digits, given the value of those before them. *)
Fixpoint value_from (acc : N) (s : string) : N :=
  match s with
  | EmptyString => acc
  | String c s' => value_from (acc * 10 + digit_value c) s'
  end.

Definition value (s : string) : N := value_from 0 s.

(** The longest prefix of digits, and what follows it. *)
Fixpoint span_digits (s : string) : string * string :=
  match s with
  | EmptyString => (EmptyString, EmptyString)
  | String c s' =>
      if is_digit c then let '(d, r) := span_digits s' in (String c d, r)
      else (EmptyString, s)
  end.

(** A number read back from its decimal text: an optional minus sign and one
    digit or more. *)
Definition parse_int (s : string) : option Z :=
  match s with
  | String c s' =>
      if decide (c = "-"%char) then
        if decide (digits s') then Some (- Z.of_N (value s')) else None
      else if decide (digits s) then Some (Z.of_N (value s)) else None
  | EmptyString => None
  end.

Lemma pretty_N_char_digit x :
  (x < 10)%N -> is_digit (pretty_N_char x) = true /\ digit_value (pretty_N_char x) = x.
Proof.
  intros. assert (x = 0 \/ x = 1 \/ x = 2 \/ x = 3 \/ x = 4 \/ x = 5 \/ x = 6
    \/ x = 7 \/ x = 8 \/ x = 9)%N as Hx by lia.
  by repeat destruct Hx as [->|Hx]; [..|subst x].
Qed.

Lemma pretty_N_go_digits x s :
  all_digits s = true -> all_digits (pretty_N_go x s) = true.
Proof.
  revert s. induction (N.lt_wf_0 x) as [x _ IH]; intros s Hs.
  destruct (decide (x = 0%N)) as [->|Hx]; [by rewrite pretty_N_go_0|].
  rewrite pretty_N_go_step by lia. apply IH; [apply N.div_lt; lia|].
  simpl. rewrite (proj1 (pretty_N_char_digit _ (N.mod_lt x 10 ltac:(done)))). done.
Qed.

Lemma pretty_N_go_value x s : value_from 0 (pretty_N_go x s) = value_from x s.
Proof.
  revert s. induction (N.lt_wf_0 x) as [x _ IH]; intros s.
  destruct (decide (x = 0%N)) as [->|Hx]; [by rewrite pretty_N_go_0|].
  rewrite pretty_N_go_step by lia. rewrite IH by (apply N.div_lt; lia). simpl.
  rewrite (proj2 (pretty_N_char_digit _ (N.mod_lt x 10 ltac:(done)))).
  f_equal. rewrite (N.div_mod x 10) at 3 by done. lia.
Qed.

Lemma pretty_N_go_length x s :
  (0 < x)%N -> (String.length s < String.length (pretty_N_go x s))%nat.
Proof.
  revert s. induction (N.lt_wf_0 x) as [x _ IH]; intros s Hx.
  rewrite pretty_N_go_step by lia.
  destruct (decide (x / 10 = 0)%N) as [->|Hq]; [rewrite pretty_N_go_0; simpl; lia|].
  assert (String.length s < String.length (String (pretty_N_char (x mod 10)) s))%nat
    by (simpl; lia).
  etrans; [done|]. apply IH; [by apply N.div_lt|]. by apply N.neq_0_lt_0.
Qed.

Lemma pretty_N_digits (n : N) : digits (pretty n).
Proof.
  unfold pretty, pretty_N. case_decide; [done|]. split; [|by apply pretty_N_go_digits].
  pose proof (pretty_N_go_length n "" ltac:(lia)) as Hl. intros Heq.
  rewrite Heq in Hl. simpl in Hl. lia.
Qed.

Lemma pretty_N_value (n : N) : value (pretty n) = n.
Proof.
  unfold pretty, pretty_N, value. case_decide as Hn; [by subst|]. apply pretty_N_go_value.
Qed.

Lemma span_digits_app d r :
  all_digits d = true -> (forall c r', r = String c r' -> is_digit c = false) ->
  span_digits (d +:+ r) = (d, r).
Proof.
  intros Hd Hr. induction d as [|c d IH].
  - destruct r as [|c r]; [done|]. simpl. by rewrite (Hr c r eq_refl).
  - simpl in Hd. apply andb_true_iff in Hd as [Hc Hd].
    change (String c d +:+ r) with (String c (d +:+ r)). simpl.
    by rewrite Hc, (IH Hd).
Qed.

(** Printing and reading back gives the number. *)
Lemma parse_int_pretty (z : Z) : parse_int (pretty z) = Some z.
Proof.
  assert (forall p, exists c s, pretty (N.pos p) = String c s /\ c <> "-"%char) as Hhead.
  { intros p. destruct (pretty_N_digits (N.pos p)) as [Hne Hall].
    destruct (pretty (N.pos p)) as [|c s]; [done|]. exists c, s. split; [done|].
    simpl in Hall. apply andb_true_iff in Hall as [Hc _]. by intros ->. }
  destruct z as [|p|p]; [done| |].
  - change (pretty (Z.pos p)) with (pretty (N.pos p)).
    pose proof (pretty_N_value (N.pos p)) as Hv. pose proof (pretty_N_digits (N.pos p)) as Hd.
    destruct (Hhead p) as (c & s & Heq & Hc). rewrite Heq in *. unfold parse_int.
    rewrite decide_False, decide_True by done. by rewrite Hv.
  - change (pretty (Z.neg p)) with (String "-"%char (pretty (N.pos p))).
    unfold parse_int. rewrite decide_True by done.
    rewrite decide_True by apply pretty_N_digits. by rewrite pretty_N_value.
Qed.
