(* ===== verification/ApiTypes.v ===== *)
(** * API objects

    The custom resources of [operator/api/v1alpha1] field by field, and of the
    Kubernetes objects the operator reads or writes the fields it uses.  A
    pointer to a scalar is an [option]; a map is a [gmap], under an [option]
    where the program distinguishes nil.  [Kind] and [obj] gather the kinds in
    one family, which the client's requests are indexed by. *)
From S2P Require Import Prelude.

(** ** Metadata and conditions *)

(** A point in time, in seconds ([metav1.Time]). *)
Definition Time : Type := Z.

Record OwnerReference := mkOwnerReference {
  owner_APIVersion : string;
  owner_Kind : string;
  owner_Name : string;
  owner_UID : string;
  owner_Controller : option bool;
  owner_BlockOwnerDeletion : option bool
}.

Record ObjectMeta := mkObjectMeta {
  Name : string;
  Namespace_ : string;
  UID : string;
  ResourceVersion : Z;
  Generation : Z;
  Labels : GoMap;
  Annotations : GoMap;
  OwnerReferences : list OwnerReference
}.

(** [metav1.ObjectMeta{Name: n, Namespace: ns}]. *)
Definition named (ns n : string) : ObjectMeta :=
  mkObjectMeta n ns "" 0 0 None None [].

Definition set_Labels (l : StringMap) (m : ObjectMeta) : ObjectMeta :=
  mkObjectMeta (Name m) (Namespace_ m) (UID m) (ResourceVersion m)
    (Generation m) (Some l) (Annotations m) (OwnerReferences m).

Definition set_Annotations (a : StringMap) (m : ObjectMeta) : ObjectMeta :=
  mkObjectMeta (Name m) (Namespace_ m) (UID m) (ResourceVersion m)
    (Generation m) (Labels m) (Some a) (OwnerReferences m).

Definition set_OwnerReferences (r : list OwnerReference) (m : ObjectMeta) : ObjectMeta :=
  mkObjectMeta (Name m) (Namespace_ m) (UID m) (ResourceVersion m)
    (Generation m) (Labels m) (Annotations m) r.

(** [types.NamespacedName]; a cluster-scoped object has the empty namespace. *)
Record NamespacedName := mkNN { nn_Namespace : string; nn_Name : string }.

Definition key_of (m : ObjectMeta) : NamespacedName := mkNN (Namespace_ m) (Name m).

Inductive ConditionStatus := ConditionTrue | ConditionFalse | ConditionUnknown.

Record Condition := mkCondition {
  Type_ : string;
  Status_ : ConditionStatus;
  ObservedGeneration_ : Z;
  LastTransitionTime : Time;
  Reason : string;
  Message : string
}.

(** ** InferenceService: [inference_service_types.go] *)

Record InferenceSLO := mkInferenceSLO {
  TTFTP99Milliseconds : option Z;
  TPOTP99Milliseconds : option Z;
  Availability : option string
}.

Record InferenceServiceSpec := mkInferenceServiceSpec {
  isvc_Model : string;
  WorkloadClass : string;
  ResourceProfile : string;
  Priority : option Z;
  Statefulness : string;
  Replicas : option Z;
  GPU : option bool;
  GPUType : string;
  SLO : InferenceSLO
}.

Record InferenceServiceStatus := mkInferenceServiceStatus {
  isvc_Conditions : list Condition;
  isvc_Phase : string;
  Endpoint : string;
  ObservedGeneration : Z;
  DerivedPriority : Z
}.

Record InferenceService := mkInferenceService {
  isvc_ObjectMeta : ObjectMeta;
  isvc_Spec : InferenceServiceSpec;
  isvc_Status : InferenceServiceStatus
}.

(** ** Model: [model_types.go] *)

Record ModelSource := mkModelSource {
  source_Type : string;
  URI : string;
  Digest : string
}.

Record ModelSpec := mkModelSpec {
  Source : ModelSource;
  Version : string;
  RequireSignedImage : bool
}.

Record ModelStatus := mkModelStatus {
  model_Conditions : list Condition;
  model_Phase : string;
  ResolvedDigest : string
}.

Record Model := mkModel {
  model_ObjectMeta : ObjectMeta;
  model_Spec : ModelSpec;
  model_Status : ModelStatus
}.

(** ** Tenant: [tenant_types.go] *)

Record TenantResourceQuota := mkTenantResourceQuota {
  quota_CPU : string;
  quota_Memory : string;
  quota_GPU : string;
  quota_Pods : string;
  quota_Jobs : string
}.

Record TenantPriority := mkTenantPriority { Default : Z }.

Record TenantSpec := mkTenantSpec {
  tenant_ResourceQuota : TenantResourceQuota;
  tenant_Priority : TenantPriority
}.

Record TenantStatus := mkTenantStatus {
  tenant_Conditions : list Condition;
  tenant_Phase : string
}.

Record Tenant := mkTenant {
  tenant_ObjectMeta : ObjectMeta;
  tenant_Spec : TenantSpec;
  tenant_Status : TenantStatus
}.

(** ** PlatformPolicy: [platform_policy_types.go] *)

Record IsolationPolicy := mkIsolationPolicy { Tier : string }.
Record SignedModelsPolicy := mkSignedModelsPolicy { Required : bool }.
Record SchedulingPolicy := mkSchedulingPolicy { Preemption : bool }.

Record PlatformPolicySpec := mkPlatformPolicySpec {
  Isolation : IsolationPolicy;
  SignedModels : SignedModelsPolicy;
  Scheduling_ : SchedulingPolicy
}.

Record PlatformPolicy := mkPlatformPolicy {
  policy_ObjectMeta : ObjectMeta;
  policy_Spec : PlatformPolicySpec
}.

(** [GroupVersion] of [groupversion_info.go], as its [String] method prints it. *)
Definition Group : string := "platform.platform.io".
Definition GroupVersion : string := Group +:+ "/" +:+ "v1alpha1".

(** ** Kubernetes objects *)

(** A [resource.Quantity] is a fixed-point number; [nano] is its value in
    billionths, the finest unit the type keeps. *)
Record Quantity := mkQuantity { nano : Z }.
Abbreviation ResourceList := (gmap string Quantity).

Record Namespace := mkNamespace { ns_ObjectMeta : ObjectMeta }.

Record ResourceQuota := mkResourceQuota {
  rq_ObjectMeta : ObjectMeta;
  Hard : ResourceList
}.

Record ServiceAccount := mkServiceAccount { sa_ObjectMeta : ObjectMeta }.

Record PolicyRule := mkPolicyRule {
  APIGroups : list string;
  Resources : list string;
  Verbs : list string
}.

Record Role := mkRole {
  role_ObjectMeta : ObjectMeta;
  Rules : list PolicyRule
}.

Record RoleRef := mkRoleRef {
  roleref_APIGroup : string;
  roleref_Kind : string;
  roleref_Name : string
}.

Record Subject := mkSubject {
  subject_Kind : string;
  subject_Name : string;
  subject_Namespace : string
}.

Record RoleBinding := mkRoleBinding {
  binding_ObjectMeta : ObjectMeta;
  RoleRef_ : RoleRef;
  Subjects : list Subject
}.

(** A label selector with match labels only; the empty one selects everything. *)
Record LabelSelector := mkLabelSelector { MatchLabels : StringMap }.

Inductive Protocol := ProtocolTCP | ProtocolUDP | ProtocolSCTP.

(** [intstr.IntOrString] with an integer in it. *)
Record NetworkPolicyPort := mkNetworkPolicyPort {
  port_Protocol : option Protocol;
  port_Port : option Z
}.

Record NetworkPolicyPeer := mkNetworkPolicyPeer {
  peer_NamespaceSelector : option LabelSelector;
  peer_PodSelector : option LabelSelector
}.

Record NetworkPolicyIngressRule := mkIngressRule {
  From : list NetworkPolicyPeer;
  ingress_Ports : list NetworkPolicyPort
}.

Record NetworkPolicyEgressRule := mkEgressRule {
  To : list NetworkPolicyPeer;
  egress_Ports : list NetworkPolicyPort
}.

Inductive PolicyType := PolicyTypeIngress | PolicyTypeEgress.

Record NetworkPolicySpec := mkNetworkPolicySpec {
  PodSelector : LabelSelector;
  PolicyTypes : list PolicyType;
  Ingress : list NetworkPolicyIngressRule;
  Egress : list NetworkPolicyEgressRule
}.

Record NetworkPolicy := mkNetworkPolicy {
  np_ObjectMeta : ObjectMeta;
  np_Spec : NetworkPolicySpec
}.

Record Capabilities := mkCapabilities {
  cap_Add : list string;
  cap_Drop : list string
}.

Inductive SeccompProfileType := SeccompProfileTypeRuntimeDefault
  | SeccompProfileTypeUnconfined | SeccompProfileTypeLocalhost.

Record SecurityContext := mkSecurityContext {
  AllowPrivilegeEscalation : option bool;
  RunAsNonRoot : option bool;
  RunAsUser : option Z;
  Capabilities_ : option Capabilities;
  SeccompProfile : option SeccompProfileType
}.

Record PodSecurityContext := mkPodSecurityContext {
  pod_SeccompProfile : option SeccompProfileType
}.

Record ResourceRequirements := mkResourceRequirements {
  Requests : ResourceList;
  Limits : ResourceList
}.

Record Container := mkContainer {
  container_Name : string;
  Image : string;
  Command : list string;
  Args : list string;
  container_SecurityContext : option SecurityContext;
  container_Resources : ResourceRequirements
}.

Inductive RestartPolicy_t := RestartPolicyAlways | RestartPolicyOnFailure | RestartPolicyNever.

Record PodSpec := mkPodSpec {
  RestartPolicy : RestartPolicy_t;
  Containers : list Container;
  pod_SecurityContext : option PodSecurityContext;
  RuntimeClassName : option string
}.

Record PodTemplateSpec := mkPodTemplateSpec {
  template_Labels : GoMap;
  template_Spec : PodSpec
}.

Record JobSpec := mkJobSpec {
  Suspend : option bool;
  BackoffLimit : option Z;
  Completions : option Z;
  Parallelism : option Z;
  Template : PodTemplateSpec
}.

Record Job := mkJob {
  job_ObjectMeta : ObjectMeta;
  job_Spec : JobSpec
}.

(** ** Kinds *)

Inductive Kind :=
  | KTenant | KModel | KInferenceService | KPlatformPolicy
  | KNamespace | KResourceQuota | KServiceAccount | KRole | KRoleBinding
  | KNetworkPolicy | KJob.

#[export] Instance Kind_eq_dec : EqDecision Kind.
Proof. solve_decision. Defined.

Definition obj (k : Kind) : Type :=
  match k with
  | KTenant => Tenant | KModel => Model
  | KInferenceService => InferenceService | KPlatformPolicy => PlatformPolicy
  | KNamespace => Namespace | KResourceQuota => ResourceQuota
  | KServiceAccount => ServiceAccount | KRole => Role
  | KRoleBinding => RoleBinding | KNetworkPolicy => NetworkPolicy
  | KJob => Job
  end.

Definition obj_meta (k : Kind) : obj k -> ObjectMeta :=
  match k with
  | KTenant => tenant_ObjectMeta | KModel => model_ObjectMeta
  | KInferenceService => isvc_ObjectMeta | KPlatformPolicy => policy_ObjectMeta
  | KNamespace => ns_ObjectMeta | KResourceQuota => rq_ObjectMeta
  | KServiceAccount => sa_ObjectMeta | KRole => role_ObjectMeta
  | KRoleBinding => binding_ObjectMeta | KNetworkPolicy => np_ObjectMeta
  | KJob => job_ObjectMeta
  end.

Definition key (k : Kind) (o : obj k) : NamespacedName := key_of (obj_meta k o).

(** A [runtime.Object] or [client.Object]: a pointer to one of the kinds, or to any other Go type,
    known by its name. *)
Inductive Object : Type :=
  | Typed (k : Kind) (o : obj k)
  | Untyped (gotype : string).

(** ** Decidable equality *)

#[export] Instance OwnerReference_eq_dec : EqDecision OwnerReference.
Proof. solve_decision. Defined.
#[export] Instance ObjectMeta_eq_dec : EqDecision ObjectMeta.
Proof. solve_decision. Defined.
#[export] Instance NamespacedName_eq_dec : EqDecision NamespacedName.
Proof. solve_decision. Defined.
#[export] Instance NamespacedName_countable : Countable NamespacedName.
Proof.
  refine (inj_countable' (fun n => (nn_Namespace n, nn_Name n))
            (fun p => mkNN (fst p) (snd p)) _).
  by intros [].
Defined.
#[export] Instance ConditionStatus_eq_dec : EqDecision ConditionStatus.
Proof. solve_decision. Defined.
#[export] Instance Condition_eq_dec : EqDecision Condition.
Proof. solve_decision. Defined.
#[export] Instance Protocol_eq_dec : EqDecision Protocol.
Proof. solve_decision. Defined.
#[export] Instance Quantity_eq_dec : EqDecision Quantity.
Proof. solve_decision. Defined.
#[export] Instance SeccompProfileType_eq_dec : EqDecision SeccompProfileType.
Proof. solve_decision. Defined.
