(* ===== verification/EqDec.v ===== *)
(** * Decidable equality of the objects

    For updates that change nothing, and for changes of which nobody need be
    told. *)
From S2P Require Import Prelude.
From S2P Require Import ApiTypes.

#[export] Instance Namespace_eq_dec : EqDecision Namespace.
Proof. solve_decision. Defined.
#[export] Instance ResourceQuota_eq_dec : EqDecision ResourceQuota.
Proof. solve_decision. Defined.
#[export] Instance ServiceAccount_eq_dec : EqDecision ServiceAccount.
Proof. solve_decision. Defined.
#[export] Instance PolicyRule_eq_dec : EqDecision PolicyRule.
Proof. solve_decision. Defined.
#[export] Instance Role_eq_dec : EqDecision Role.
Proof. solve_decision. Defined.
#[export] Instance RoleRef_eq_dec : EqDecision RoleRef.
Proof. solve_decision. Defined.
#[export] Instance Subject_eq_dec : EqDecision Subject.
Proof. solve_decision. Defined.
#[export] Instance RoleBinding_eq_dec : EqDecision RoleBinding.
Proof. solve_decision. Defined.
#[export] Instance LabelSelector_eq_dec : EqDecision LabelSelector.
Proof. solve_decision. Defined.
#[export] Instance NetworkPolicyPort_eq_dec : EqDecision NetworkPolicyPort.
Proof. solve_decision. Defined.
#[export] Instance NetworkPolicyPeer_eq_dec : EqDecision NetworkPolicyPeer.
Proof. solve_decision. Defined.
#[export] Instance IngressRule_eq_dec : EqDecision NetworkPolicyIngressRule.
Proof. solve_decision. Defined.
#[export] Instance EgressRule_eq_dec : EqDecision NetworkPolicyEgressRule.
Proof. solve_decision. Defined.
#[export] Instance PolicyType_eq_dec : EqDecision PolicyType.
Proof. solve_decision. Defined.
#[export] Instance NetworkPolicySpec_eq_dec : EqDecision NetworkPolicySpec.
Proof. solve_decision. Defined.
#[export] Instance NetworkPolicy_eq_dec : EqDecision NetworkPolicy.
Proof. solve_decision. Defined.

#[export] Instance InferenceSLO_eq_dec : EqDecision InferenceSLO.
Proof. solve_decision. Defined.
#[export] Instance InferenceServiceSpec_eq_dec : EqDecision InferenceServiceSpec.
Proof. solve_decision. Defined.
#[export] Instance InferenceServiceStatus_eq_dec : EqDecision InferenceServiceStatus.
Proof. solve_decision. Defined.
#[export] Instance InferenceService_eq_dec : EqDecision InferenceService.
Proof. solve_decision. Defined.
#[export] Instance ModelSource_eq_dec : EqDecision ModelSource.
Proof. solve_decision. Defined.
#[export] Instance ModelSpec_eq_dec : EqDecision ModelSpec.
Proof. solve_decision. Defined.
#[export] Instance ModelStatus_eq_dec : EqDecision ModelStatus.
Proof. solve_decision. Defined.
#[export] Instance Model_eq_dec : EqDecision Model.
Proof. solve_decision. Defined.
#[export] Instance TenantResourceQuota_eq_dec : EqDecision TenantResourceQuota.
Proof. solve_decision. Defined.
#[export] Instance TenantPriority_eq_dec : EqDecision TenantPriority.
Proof. solve_decision. Defined.
#[export] Instance TenantSpec_eq_dec : EqDecision TenantSpec.
Proof. solve_decision. Defined.
#[export] Instance TenantStatus_eq_dec : EqDecision TenantStatus.
Proof. solve_decision. Defined.
#[export] Instance Tenant_eq_dec : EqDecision Tenant.
Proof. solve_decision. Defined.
#[export] Instance IsolationPolicy_eq_dec : EqDecision IsolationPolicy.
Proof. solve_decision. Defined.
#[export] Instance SignedModelsPolicy_eq_dec : EqDecision SignedModelsPolicy.
Proof. solve_decision. Defined.
#[export] Instance SchedulingPolicy_eq_dec : EqDecision SchedulingPolicy.
Proof. solve_decision. Defined.
#[export] Instance PlatformPolicySpec_eq_dec : EqDecision PlatformPolicySpec.
Proof. solve_decision. Defined.
#[export] Instance PlatformPolicy_eq_dec : EqDecision PlatformPolicy.
Proof. solve_decision. Defined.
#[export] Instance Capabilities_eq_dec : EqDecision Capabilities.
Proof. solve_decision. Defined.
#[export] Instance SecurityContext_eq_dec : EqDecision SecurityContext.
Proof. solve_decision. Defined.
#[export] Instance PodSecurityContext_eq_dec : EqDecision PodSecurityContext.
Proof. solve_decision. Defined.
#[export] Instance ResourceRequirements_eq_dec : EqDecision ResourceRequirements.
Proof. solve_decision. Defined.
#[export] Instance Container_eq_dec : EqDecision Container.
Proof. solve_decision. Defined.
#[export] Instance RestartPolicy_t_eq_dec : EqDecision RestartPolicy_t.
Proof. solve_decision. Defined.
#[export] Instance PodSpec_eq_dec : EqDecision PodSpec.
Proof. solve_decision. Defined.
#[export] Instance PodTemplateSpec_eq_dec : EqDecision PodTemplateSpec.
Proof. solve_decision. Defined.
#[export] Instance JobSpec_eq_dec : EqDecision JobSpec.
Proof. solve_decision. Defined.
#[export] Instance Job_eq_dec : EqDecision Job.
Proof. solve_decision. Defined.

#[export] Instance obj_eq_dec (k : Kind) : EqDecision (obj k).
Proof. destruct k; apply _. Defined.
