(* ===== verification/ApiClient.v ===== *)
(** * The API client

    Every effect of the operator is a call of controller-runtime's
    [client.Client] (or of [controllerutil.CreateOrUpdate], which is given the
    client).  A handler is modelled as a program [Prog A] over those requests:
    its code runs, in order, and each request waits for a response.  The client
    and the API server behind it are not part of the repository, so a response
    is whatever the other side sends: [exec] relates a program to all its
    traces, whatever the responses, and [wp] is a program logic for them.
    [Cluster] is the interface of a concrete API server, [ClusterLaws] what its
    documentation promises, and [run] executes a program against one. *)
From S2P Require Import Prelude.
From S2P Require Import ApiTypes.

(** ** Requests and responses *)

Inductive Req : Type :=
  | Get (k : Kind) (nn : NamespacedName)
  | List_ (k : Kind) (ns : string)
  | Create (k : Kind) (o : obj k)
  | StatusUpdate (k : Kind) (o : obj k)
  | CreateOrUpdate (k : Kind) (o : obj k) (mutate : obj k -> obj k).

(** [Get] and [List] fill the object they are passed, [Status().Update]
    replaces the one it is passed by the server's copy; [Create] and
    [CreateOrUpdate] only report an error here, since no caller looks at the
    object afterwards.  The callbacks given to [CreateOrUpdate] never fail. *)
Definition Resp (r : Req) : Type :=
  match r with
  | Get k _ => result (obj k)
  | List_ k _ => result (list (obj k))
  | Create _ _ => option error
  | StatusUpdate k _ => result (obj k)
  | CreateOrUpdate _ _ _ => option error
  end.

Arguments Resp : simpl never.

Definition is_write (r : Req) : bool :=
  match r with Get _ _ | List_ _ _ => false | _ => true end.

(** What a request is about: for a write, the kind and the key of its object. *)
Definition req_kind (r : Req) : Kind :=
  match r with
  | Get k _ | List_ k _ | Create k _ | StatusUpdate k _ | CreateOrUpdate k _ _ => k
  end.

Definition req_key (r : Req) : NamespacedName :=
  match r with
  | Get _ nn => nn
  | List_ _ ns => mkNN ns ""
  | Create k o | StatusUpdate k o | CreateOrUpdate k o _ => key k o
  end.

Record Event := Ev { ev_req : Req; ev_resp : Resp ev_req }.

(** ** Programs *)

Inductive Prog (A : Type) : Type :=
  | Ret (a : A)
  | Panic
  | Call (r : Req) (cont : Resp r -> Prog A).
Arguments Ret {A} a.
Arguments Panic {A}.
Arguments Call {A} r cont.

Fixpoint bind {A B} (p : Prog A) (f : A -> Prog B) : Prog B :=
  match p with
  | Ret a => f a
  | Panic => Panic
  | Call r cont => Call r (fun x => bind (cont x) f)
  end.

Arguments bind : simpl never.

Declare Scope prog_scope.
Delimit Scope prog_scope with prog.
Notation "'let!' x := p 'in' q" := (bind p (fun x => q))
  (at level 10, x name, p at level 100, q at level 200,
   format "'[v' 'let!'  x  :=  p  'in' '//' q ']'") : prog_scope.
Notation "'let!' ' x := p 'in' q" := (bind p (fun x => q))
  (at level 10, x pattern, p at level 100, q at level 200,
   format "'[v' 'let!'  ' x  :=  p  'in' '//' q ']'") : prog_scope.
Open Scope prog_scope.

Definition call (r : Req) : Prog (Resp r) := Call r Ret.
Arguments call : simpl never.

(** ** Reconcile results *)

(** [ctrl.Result] and the error of a reconcile; the delay is a [time.Duration],
    in nanoseconds, and zero asks for none. *)
Record Result := mkResult { RequeueAfter : Z }.
Definition Result0 : Result := mkResult 0.
Definition Second : Z := 1000000000.

(** ** Traces *)

(** The program, the events of a run in order, and what it returns ([None]:
    it panicked). *)
Inductive exec {A : Type} : Prog A -> list Event -> option A -> Prop :=
  | exec_ret a : exec (Ret a) [] (Some a)
  | exec_panic : exec Panic [] None
  | exec_call r cont x t o :
      exec (cont x) t o -> exec (Call r cont) (Ev r x :: t) o.

(** Each request of the trace satisfies [P] of the events before it. *)
Fixpoint guarded (P : list Event -> Req -> Prop) (past t : list Event) : Prop :=
  match t with
  | [] => True
  | e :: t' => P past (ev_req e) /\ guarded P (past ++ [e]) t'
  end.

(** The program issues only requests that satisfy [P] of the events before
    them, and ends with [Q] of all the events and the outcome. *)
Fixpoint wp {A} (P : list Event -> Req -> Prop)
    (Q : list Event -> option A -> Prop) (past : list Event) (p : Prog A) : Prop :=
  match p with
  | Ret a => Q past (Some a)
  | Panic => Q past None
  | Call r cont => P past r /\ forall x, wp P Q (past ++ [Ev r x]) (cont x)
  end.

Section program_logic.
Context {A B : Type} (P : list Event -> Req -> Prop).

Lemma wp_sound (Q : list Event -> option A -> Prop) p t o :
  exec p t o -> forall past, wp P Q past p -> guarded P past t /\ Q (past ++ t) o.
Proof.
  induction 1 as [a| |r cont x t o _ IH]; intros past Hwp; simpl in *.
  - by rewrite app_nil_r.
  - by rewrite app_nil_r.
  - destruct Hwp as [HP Hwp]. destruct (IH _ (Hwp x)) as [Hg HQ].
    rewrite <- app_assoc in HQ. by split.
Qed.

Lemma wp_bind (Q : list Event -> option B -> Prop) (p : Prog A) (f : A -> Prog B) past :
  wp P (fun past' o => match o with
                       | Some a => wp P Q past' (f a)
                       | None => Q past' None
                       end) past p ->
  wp P Q past (bind p f).
Proof.
  revert past. induction p as [a| |r cont IH]; intros past H; simpl in *; try done.
  destruct H as [HP H]. split; [done|]. intros x. by apply IH.
Qed.

Lemma wp_mono (Q Q' : list Event -> option A -> Prop) p past :
  (forall past' o, Q past' o -> Q' past' o) -> wp P Q past p -> wp P Q' past p.
Proof.
  intros HQ. revert past. induction p as [a| |r cont IH]; intros past H; simpl in *; auto.
  destruct H as [HP H]. split; [done|]. intros x. by apply IH.
Qed.

Lemma wp_call (r : Req) (Q : list Event -> option (Resp r) -> Prop) past :
  P past r -> (forall x, Q (past ++ [Ev r x]) (Some x)) -> wp P Q past (call r).
Proof. unfold call. simpl. auto. Qed.

(** A guard that does not look at the past holds of every event. *)
Lemma guarded_Forall (R : Req -> Prop) past t :
  guarded (fun _ r => R r) past t <-> Forall (fun e => R (ev_req e)) t.
Proof.
  revert past. induction t as [|e t IH]; intros past; simpl.
  - split; [constructor|done].
  - rewrite Forall_cons_iff, IH. done.
Qed.

Lemma guarded_impl (R : Req -> Prop) past t :
  (forall past r, P past r -> R r) -> guarded P past t -> Forall (fun e => R (ev_req e)) t.
Proof.
  intros HR. revert past. induction t as [|e t IH]; intros past; simpl; [constructor|].
  intros [HP Hg]. constructor; eauto.
Qed.

(** An event of a guarded trace is guarded by the events before it. *)
Lemma guarded_split past t1 e t2 :
  guarded P past (t1 ++ e :: t2) -> P (past ++ t1) (ev_req e).
Proof.
  revert past. induction t1 as [|e1 t1 IH]; intros past; simpl.
  - rewrite app_nil_r. by intros [? _].
  - intros [_ H]. apply IH in H. by rewrite <- app_assoc in H.
Qed.
End program_logic.

(** Steps through a program whose definitions are unfolded: every request is
    answered arbitrarily and every case of the code considered. *)
Ltac wp_step :=
  match goal with
  | |- wp _ _ _ (bind _ _) => apply wp_bind
  | |- wp _ _ _ (call _) => apply wp_call; cbn [app]
  | |- wp _ _ _ (Ret _) => cbn [wp]
  | |- wp _ _ _ Panic => cbn [wp]
  | |- wp _ _ _ (let '(_, _) := ?x in _) => destruct x
  | |- wp _ _ _ (match ?x with _ => _ end) => destruct x eqn:?
  | |- _ /\ _ => split
  | |- forall _, _ => intros ?
  | |- ?a = ?a => reflexivity
  | |- True => exact I
  end; cbn beta iota in *; simplify_eq.
Ltac wp_steps := repeat wp_step.

(** Only reads: the requests of the program are [Get]s and [List]s. *)
Definition read_only {A} (p : Prog A) : Prop :=
  wp (fun _ r => is_write r = false) (fun _ _ => True) [] p.

(** ** Running against a cluster *)

(** Metadata as the server stores it: name, namespace and owners are the
    client's, labels and annotations may be added, the rest is the server's. *)
Definition meta_accepted (m m' : ObjectMeta) : Prop :=
  key_of m' = key_of m /\
  ensure_map (Labels m) ⊆ ensure_map (Labels m') /\
  ensure_map (Annotations m) ⊆ ensure_map (Annotations m') /\
  OwnerReferences m' = OwnerReferences m.

(** A Job as the server stores it: the fields of the pod template the client
    leaves out may be defaulted. *)
Definition job_accepted (s s' : JobSpec) : Prop :=
  Suspend s' = Suspend s /\ BackoffLimit s' = BackoffLimit s /\
  Completions s' = Completions s /\ Parallelism s' = Parallelism s /\
  ensure_map (template_Labels (Template s)) ⊆ ensure_map (template_Labels (Template s')) /\
  let p := template_Spec (Template s) in
  let p' := template_Spec (Template s') in
  RestartPolicy p' = RestartPolicy p /\ Containers p' = Containers p /\
  RuntimeClassName p' = RuntimeClassName p.

(** What is stored of an object that was created or updated. *)
Definition accepted (k : Kind) : obj k -> obj k -> Prop :=
  match k with
  | KTenant => fun o o' => meta_accepted (tenant_ObjectMeta o) (tenant_ObjectMeta o')
      /\ tenant_Spec o' = tenant_Spec o
  | KModel => fun o o' => meta_accepted (model_ObjectMeta o) (model_ObjectMeta o')
      /\ model_Spec o' = model_Spec o
  | KInferenceService => fun o o' => meta_accepted (isvc_ObjectMeta o) (isvc_ObjectMeta o')
      /\ isvc_Spec o' = isvc_Spec o
  | KPlatformPolicy => fun o o' => meta_accepted (policy_ObjectMeta o) (policy_ObjectMeta o')
      /\ policy_Spec o' = policy_Spec o
  | KNamespace => fun o o' => meta_accepted (ns_ObjectMeta o) (ns_ObjectMeta o')
  | KResourceQuota => fun o o' => meta_accepted (rq_ObjectMeta o) (rq_ObjectMeta o')
      /\ Hard o' = Hard o
  | KServiceAccount => fun o o' => meta_accepted (sa_ObjectMeta o) (sa_ObjectMeta o')
  | KRole => fun o o' => meta_accepted (role_ObjectMeta o) (role_ObjectMeta o')
      /\ Rules o' = Rules o
  | KRoleBinding => fun o o' => meta_accepted (binding_ObjectMeta o) (binding_ObjectMeta o')
      /\ RoleRef_ o' = RoleRef_ o /\ Subjects o' = Subjects o
  | KNetworkPolicy => fun o o' => meta_accepted (np_ObjectMeta o) (np_ObjectMeta o')
      /\ np_Spec o' = np_Spec o
  | KJob => fun o o' => meta_accepted (job_ObjectMeta o) (job_ObjectMeta o')
      /\ job_accepted (job_Spec o) (job_Spec o')
  end.

(** Metadata that differs in the resource version at most. *)
Definition same_meta (m m' : ObjectMeta) : Prop :=
  mkObjectMeta (Name m) (Namespace_ m) (UID m) 0 (Generation m)
    (Labels m) (Annotations m) (OwnerReferences m) =
  mkObjectMeta (Name m') (Namespace_ m') (UID m') 0 (Generation m')
    (Labels m') (Annotations m') (OwnerReferences m').

(** Updating the status subresource with [o] of an object stored as [o0] gives
    [o']: the status of the one, the rest of the other. *)
Definition status_written (k : Kind) : obj k -> obj k -> obj k -> Prop :=
  match k with
  | KTenant => fun o o0 o' => same_meta (tenant_ObjectMeta o0) (tenant_ObjectMeta o')
      /\ tenant_Spec o' = tenant_Spec o0 /\ tenant_Status o' = tenant_Status o
  | KModel => fun o o0 o' => same_meta (model_ObjectMeta o0) (model_ObjectMeta o')
      /\ model_Spec o' = model_Spec o0 /\ model_Status o' = model_Status o
  | KInferenceService => fun o o0 o' => same_meta (isvc_ObjectMeta o0) (isvc_ObjectMeta o')
      /\ isvc_Spec o' = isvc_Spec o0 /\ isvc_Status o' = isvc_Status o
  | _ => fun _ _ _ => True
  end.

(** An API server with its state [W]: how it answers, and what it stores. *)
Class Cluster (W : Type) := {
  handle : forall r : Req, W -> Resp r * W;
  stored : forall k : Kind, W -> NamespacedName -> option (obj k)
}.

Section run.
Context {W : Type} `{!Cluster W}.

(** Runs the program; gives the events, the outcome and the final state. *)
Fixpoint run {A} (p : Prog A) (w : W) : list Event * option A * W :=
  match p with
  | Ret a => ([], Some a, w)
  | Panic => ([], None, w)
  | Call r cont =>
      let '(x, w1) := handle r w in
      let '(t, o, w2) := run (cont x) w1 in
      (Ev r x :: t, o, w2)
  end.

Definition events {A} (p : Prog A) (w : W) : list Event := (run p w).1.1.
Definition outcome {A} (p : Prog A) (w : W) : option A := (run p w).1.2.
Definition final {A} (p : Prog A) (w : W) : W := (run p w).2.

(** Every run is one of the executions, so the theorems about [exec] apply. *)
Lemma run_exec {A} (p : Prog A) w : exec p (events p w) (outcome p w).
Proof.
  unfold events, outcome. revert w.
  induction p as [a| |r cont IH]; intros w; simpl; [constructor..|].
  destruct (handle r w) as [x w1] eqn:Hh. specialize (IH x w1).
  destruct (run (cont x) w1) as [[t o] w2]. by constructor.
Qed.

Lemma run_call r w : run (call r) w =
  ([Ev r (handle r w).1], Some (handle r w).1, (handle r w).2).
Proof. unfold call. simpl. by destruct (handle r w). Qed.

Lemma run_bind {A B} (f : A -> Prog B) (p : Prog A) w :
  run (bind p f) w =
    let '(t, o, w1) := run p w in
    match o with
    | Some a => let '(t', o', w') := run (f a) w1 in (t ++ t', o', w')
    | None => (t, None, w1)
    end.
Proof.
  revert w. induction p as [a| |r cont IH]; intros w.
  - unfold bind. simpl. by destruct (run (f a) w) as [[t o] w'].
  - done.
  - change (run (bind (Call r cont) f) w) with
      (let '(x, w1) := handle r w in
       let '(t, o, w2) := run (bind (cont x) f) w1 in (Ev r x :: t, o, w2)).
    simpl. destruct (handle r w) as [x w1]. rewrite IH.
    destruct (run (cont x) w1) as [[t [a|]] w2]; [|done].
    by destruct (run (f a) w2) as [[t' o'] w'].
Qed.

(** The three projections of a run, for rewriting. *)
Lemma outcome_bind {A B} (f : A -> Prog B) (p : Prog A) w :
  outcome (bind p f) w =
    match outcome p w with Some a => outcome (f a) (final p w) | None => None end.
Proof.
  unfold outcome, final. rewrite run_bind. destruct (run p w) as [[t [a|]] w1]; [|done].
  simpl. by destruct (run (f a) w1) as [[t' o'] w'].
Qed.

Lemma final_bind {A B} (f : A -> Prog B) (p : Prog A) w :
  final (bind p f) w =
    match outcome p w with Some a => final (f a) (final p w) | None => final p w end.
Proof.
  unfold outcome, final. rewrite run_bind. destruct (run p w) as [[t [a|]] w1]; [|done].
  simpl. by destruct (run (f a) w1) as [[t' o'] w'].
Qed.

Lemma events_bind {A B} (f : A -> Prog B) (p : Prog A) w :
  events (bind p f) w =
    events p w ++
    match outcome p w with Some a => events (f a) (final p w) | None => [] end.
Proof.
  unfold events, outcome, final. rewrite run_bind.
  destruct (run p w) as [[t [a|]] w1]; simpl; [|by rewrite app_nil_r].
  by destruct (run (f a) w1) as [[t' o'] w'].
Qed.

Lemma outcome_call r w : outcome (call r) w = Some (handle r w).1.
Proof. unfold outcome. by rewrite run_call. Qed.
Lemma final_call r w : final (call r) w = (handle r w).2.
Proof. unfold final. by rewrite run_call. Qed.
Lemma events_call r w : events (call r) w = [Ev r (handle r w).1].
Proof. unfold events. by rewrite run_call. Qed.

(** One request and its continuation. *)
Lemma outcome_next {A} r (f : Resp r -> Prog A) w :
  outcome (bind (call r) f) w = outcome (f (handle r w).1) (handle r w).2.
Proof. by rewrite outcome_bind, outcome_call, final_call. Qed.
Lemma final_next {A} r (f : Resp r -> Prog A) w :
  final (bind (call r) f) w = final (f (handle r w).1) (handle r w).2.
Proof. by rewrite final_bind, outcome_call, final_call. Qed.
Lemma events_next {A} r (f : Resp r -> Prog A) w :
  events (bind (call r) f) w =
    Ev r (handle r w).1 :: events (f (handle r w).1) (handle r w).2.
Proof. by rewrite events_bind, outcome_call, final_call, events_call. Qed.

Lemma outcome_ret {A} (a : A) w : outcome (Ret a) w = Some a.
Proof. done. Qed.
Lemma final_ret {A} (a : A) w : final (Ret a) w = w.
Proof. done. Qed.
Lemma events_ret {A} (a : A) w : events (Ret a) w = [].
Proof. done. Qed.

(** The run issues no write, and leaves the state as it was. *)
Definition quiet {A} (p : Prog A) (w : W) : Prop :=
  Forall (fun e => is_write (ev_req e) = false) (events p w) /\ final p w = w.

(** What the client reads of a key. *)
Definition read (k : Kind) (nn : NamespacedName) (w : W) : result (obj k) :=
  (handle (Get k nn) w).1.
End run.

#[export] Hint Rewrite @outcome_bind @final_bind @events_bind @events_call
  @outcome_ret @final_ret @events_ret : cnip_rw.

(** What the documentation of the API server and of the client promises.  A
    failed write may or may not have taken effect. *)
Class ClusterLaws (W : Type) `{!Cluster W} : Prop := {
  stored_key k w nn o : stored k w nn = Some o -> key k o = nn;
  get_pure k nn w : (handle (Get k nn) w).2 = w;
  get_ok k nn w o : (handle (Get k nn) w).1 = Ok o -> stored k w nn = Some o;
  get_missing k nn w e :
    (handle (Get k nn) w).1 = Err e -> IsNotFound e = true -> stored k w nn = None;
  list_pure k ns w : (handle (List_ k ns) w).2 = w;
  list_ok k ns w l : (handle (List_ k ns) w).1 = Ok l ->
    forall o, o ∈ l <-> nn_Namespace (key k o) = ns /\ stored k w (key k o) = Some o;
  (** A write touches the object it names and nothing else. *)
  write_frame r w k nn : is_write r = true -> (k, nn) <> (req_kind r, req_key r) ->
    stored k (handle r w).2 nn = stored k w nn;
  create_ok k o w : (handle (Create k o) w).1 = None ->
    stored k w (key k o) = None /\
    exists o', stored k (handle (Create k o) w).2 (key k o) = Some o' /\ accepted k o o';
  create_any k o w :
    stored k (handle (Create k o) w).2 (key k o) = stored k w (key k o) \/
    stored k w (key k o) = None /\
    exists o', stored k (handle (Create k o) w).2 (key k o) = Some o' /\ accepted k o o';
  status_ok k o w o' : (handle (StatusUpdate k o) w).1 = Ok o' ->
    exists o0, stored k w (key k o) = Some o0 /\ status_written k o o0 o' /\
               stored k (handle (StatusUpdate k o) w).2 (key k o) = Some o';
  status_any k o w :
    stored k (handle (StatusUpdate k o) w).2 (key k o) = stored k w (key k o) \/
    exists o0 o', stored k w (key k o) = Some o0 /\ status_written k o o0 o' /\
                  stored k (handle (StatusUpdate k o) w).2 (key k o) = Some o';
  upsert_ok k o f w : (handle (CreateOrUpdate k o f) w).1 = None ->
    exists o', stored k (handle (CreateOrUpdate k o f) w).2 (key k o) = Some o' /\
               accepted k (f (default o (stored k w (key k o)))) o';
  upsert_any k o f w :
    stored k (handle (CreateOrUpdate k o f) w).2 (key k o) = stored k w (key k o) \/
    exists o', stored k (handle (CreateOrUpdate k o f) w).2 (key k o) = Some o' /\
               accepted k (f (default o (stored k w (key k o)))) o';
  (** An update that would change nothing is not sent. *)
  upsert_noop k o f w o0 : stored k w (key k o) = Some o0 -> f o0 = o0 ->
    (handle (CreateOrUpdate k o f) w).2 = w
}.

Section laws.
Context {W : Type} `{!Cluster W, !ClusterLaws W}.

(** A program that only reads leaves the cluster as it was. *)
Lemma read_only_final {A} (p : Prog A) w : read_only p -> final p w = w.
Proof.
  unfold final, read_only. generalize (@nil Event) as past.
  revert w. induction p as [a| |r cont IH]; intros w past; simpl; try done.
  intros [Hr Hc]. assert ((handle r w).2 = w) as Hw.
  { destruct r; simpl in Hr; try done; [apply get_pure|apply list_pure]. }
  destruct (handle r w) as [x w1]; simpl in *; subst.
  specialize (IH x w (past ++ [Ev r x]) (Hc x)).
  by destruct (run (cont x) w) as [[t o] w'].
Qed.

(** A write keeps what is stored of the other kinds. *)
Lemma stored_frame r w x w' k nn :
  handle r w = (x, w') -> is_write r = true -> k <> req_kind r ->
  stored k w' nn = stored k w nn.
Proof.
  intros E Hr Hk. pose proof (write_frame r w k nn Hr) as H. rewrite E in H.
  apply H. congruence.
Qed.

(** What may be stored after a status update, and after a creation, whether
    or not it succeeded. *)
Lemma status_update_cases k o w x w' nn o1 :
  handle (StatusUpdate k o) w = (x, w') -> stored k w' nn = Some o1 ->
  stored k w nn = Some o1 \/ exists o0, stored k w nn = Some o0 /\ status_written k o o0 o1.
Proof.
  intros E Hs. destruct (decide (nn = key k o)) as [->|Hne].
  - destruct (status_any k o w) as [Hsame|(o0 & o' & Ho0 & Hwr & Ho')]; rewrite E in *; simpl in *.
    + left. congruence.
    + right. exists o0. split; [done|]. congruence.
  - left. pose proof (write_frame (StatusUpdate k o) w k nn eq_refl) as Hf. rewrite E in Hf.
    simpl in Hf. rewrite <- Hf; [done|]. congruence.
Qed.

Lemma create_cases k o w x w' nn o1 :
  handle (Create k o) w = (x, w') -> stored k w' nn = Some o1 ->
  stored k w nn = Some o1 \/ nn = key k o /\ accepted k o o1.
Proof.
  intros E Hs. destruct (decide (nn = key k o)) as [->|Hne].
  - destruct (create_any k o w) as [Hsame|(_ & o' & Ho' & Hacc)]; rewrite E in *; simpl in *.
    + left. congruence.
    + right. split; [done|]. congruence.
  - left. pose proof (write_frame (Create k o) w k nn eq_refl) as Hf. rewrite E in Hf.
    simpl in Hf. rewrite <- Hf; [done|]. congruence.
Qed.

(** A successful [CreateOrUpdate] and a successful status update. *)
Lemma upsert_stored k o f w w' :
  handle (CreateOrUpdate k o f) w = (None, w') ->
  exists o', stored k w' (key k o) = Some o' /\
             accepted k (f (default o (stored k w (key k o)))) o'.
Proof. intros E. pose proof (upsert_ok k o f w) as H. rewrite E in H. by apply H. Qed.

Lemma status_stored k o w o' w' :
  handle (StatusUpdate k o) w = (Ok o', w') ->
  exists o0, stored k w (key k o) = Some o0 /\ status_written k o o0 o' /\
             stored k w' (key k o) = Some o'.
Proof. intros E. pose proof (status_ok k o w o') as H. rewrite E in H. by apply H. Qed.

Lemma final_Get k nn w : final (call (Get k nn)) w = w.
Proof. rewrite final_call. apply get_pure. Qed.

Lemma outcome_Get k nn w : outcome (call (Get k nn)) w = Some (read k nn w).
Proof. apply outcome_call. Qed.

(** What no request of a run writes stays as it was. *)
Lemma run_frame {A} (p : Prog A) w k nn :
  Forall (fun e => is_write (ev_req e) = true ->
                   (k, nn) <> (req_kind (ev_req e), req_key (ev_req e))) (events p w) ->
  stored k (final p w) nn = stored k w nn.
Proof.
  unfold events, final. revert w. induction p as [a| |r cont IH]; intros w; simpl; [done..|].
  destruct (handle r w) as [x w1] eqn:E. specialize (IH x w1).
  destruct (run (cont x) w1) as [[t o] w2]. simpl in *.
  intros [Hr Ht]%Forall_cons_iff. rewrite IH by done. simpl in Hr.
  destruct (is_write r) eqn:Hw.
  - pose proof (write_frame r w k nn Hw (Hr eq_refl)) as Hf. by rewrite E in Hf.
  - destruct r; try done.
    + pose proof (get_pure k0 nn0 w) as Hp. rewrite E in Hp. by simpl in Hp; subst.
    + pose proof (list_pure k0 ns w) as Hp. rewrite E in Hp. by simpl in Hp; subst.
Qed.

(** Programs that write nothing, composed. *)
Lemma quiet_ret {A} (a : A) w : quiet (Ret a) w.
Proof. split; [constructor|done]. Qed.

Lemma quiet_bind {A B} (p : Prog A) (f : A -> Prog B) w a :
  quiet p w -> outcome p w = Some a -> quiet (f a) w -> quiet (bind p f) w.
Proof.
  intros [He Hf] Ho [He' Hf']. unfold quiet.
  rewrite events_bind, final_bind, Ho, Hf. split; [by apply Forall_app|done].
Qed.

Lemma quiet_Get {A} k nn (f : Resp (Get k nn) -> Prog A) w :
  quiet (f (read k nn w)) w -> quiet (bind (call (Get k nn)) f) w.
Proof.
  intros [He Hf]. unfold quiet.
  rewrite events_bind, final_bind, events_call, outcome_Get, final_Get.
  split; [by constructor|done].
Qed.

Lemma quiet_List {A} k ns (f : Resp (List_ k ns) -> Prog A) w :
  (forall r, quiet (f r) w) -> quiet (bind (call (List_ k ns)) f) w.
Proof.
  intros Hq. unfold quiet. rewrite events_next, final_next, list_pure.
  destruct (Hq (handle (List_ k ns) w).1) as [He Hf]. split; [by constructor|done].
Qed.
End laws.

(** Writes the response type of a request that reports an error as [Resp]. *)
Ltac fold_Resp :=
  match goal with
  | |- context [@bind (option error) ?B (call ?r) ?f] =>
      change (@bind (option error) B (call r) f) with (@bind (Resp r) B (call r) f)
  | |- context [@outcome ?W ?C (option error) (call ?r) ?w] =>
      change (@outcome W C (option error) (call r) w) with (@outcome W C (Resp r) (call r) w)
  | |- context [@final ?W ?C (option error) (call ?r) ?w] =>
      change (@final W C (option error) (call r) w) with (@final W C (Resp r) (call r) w)
  end.

(** Brings the first requests of the programs of the goal to the front. *)
Ltac next := repeat first
  [ progress cbn beta iota | fold_Resp | rewrite outcome_call | rewrite final_call
  | rewrite outcome_next | rewrite final_next | rewrite events_next
  | rewrite outcome_bind | rewrite final_bind | rewrite events_bind ].

(** The response to the next write request of the goal, and the state after it. *)
Ltac response x w' :=
  match goal with
  | |- context [handle ?r ?w] =>
      is_var w; let E := fresh "E" in destruct (handle r w) as [x w'] eqn:E; cbn [fst snd]
  end.

(** Traces a stored object back through the writes to other kinds. *)
Ltac frames :=
  repeat match goal with
  | E : handle ?r ?w = (_, ?w') |- context [stored ?k ?w' ?nn] =>
      rewrite (stored_frame r w _ w' k nn E) by done
  end.

#[export] Hint Rewrite @final_Get @outcome_Get using apply _ : cnip_rw.

(** A server that is up and refuses nothing it need not refuse: it finds what
    is stored, accepts the status of an object that was not changed since it
    was read, creates what does not exist, and updates what keeps its key. *)
Class Available (W : Type) `{!Cluster W} : Prop := {
  get_avail k nn w o : stored k w nn = Some o -> (handle (Get k nn) w).1 = Ok o;
  get_avail_missing k nn w : stored k w nn = None ->
    exists e, (handle (Get k nn) w).1 = Err e /\ IsNotFound e = true;
  status_avail k o w o0 : stored k w (key k o) = Some o0 -> obj_meta k o = obj_meta k o0 ->
    exists o', (handle (StatusUpdate k o) w).1 = Ok o';
  create_avail k o w : stored k w (key k o) = None -> (handle (Create k o) w).1 = None;
  upsert_avail k o f w : key k (f (default o (stored k w (key k o)))) = key k o ->
    (handle (CreateOrUpdate k o f) w).1 = None
}.

(** Evaluates the outcome, the events and the final state of a program whose
    definition is unfolded, as far as the responses are known. *)
Ltac cluster_simpl := repeat (progress (autorewrite with cnip_rw); simpl in *).
