(* ===== verification/K8sLib.v ===== *)
(** * The library functions the operator calls

    [K8sLib] gathers the functions of apimachinery and controller-runtime whose
    code is not in the repository and which are not requests to the API server:
    [meta.SetStatusCondition], [meta.IsStatusConditionTrue],
    [resource.ParseQuantity] and [controllerutil.SetControllerReference].
    [K8sLibLaws] states their documentation.  The components are defined over
    any [K8sLib], and proved against the laws. *)
From S2P Require Import Prelude.
From S2P Require Import Decimal.
From S2P Require Import ApiTypes.

(** ** Quantities *)

(** The suffixes in use and the number of billionths each one stands for. *)
Definition suffix_scale (suffix : string) : option Z :=
  if decide (suffix = "") then Some 1000000000
  else if decide (suffix = "m") then Some 1000000
  else if decide (suffix = "Ki") then Some (2 ^ 10 * 1000000000)
  else if decide (suffix = "Mi") then Some (2 ^ 20 * 1000000000)
  else if decide (suffix = "Gi") then Some (2 ^ 30 * 1000000000)
  else if decide (suffix = "Ti") then Some (2 ^ 40 * 1000000000)
  else None.

(** The largest magnitude a quantity represents exactly. *)
Definition max_quantity : Z := (2 ^ 63 - 1) * 1000000000.

(** ** Conditions *)

(** The fields of a condition that the caller of SetStatusCondition chooses. *)
Definition same_condition (c c' : Condition) : Prop :=
  Type_ c' = Type_ c /\ Status_ c' = Status_ c /\
  Reason c' = Reason c /\ Message c' = Message c.

Definition no_type (ty : string) (cs : list Condition) : Prop :=
  Forall (fun c => Type_ c <> ty) cs.

(** ** Owner references *)

(** The reference names this InferenceService. *)
Definition refers_to (isvc : InferenceService) (ref : OwnerReference) : Prop :=
  owner_APIVersion ref = GroupVersion /\ owner_Kind ref = "InferenceService" /\
  owner_Name ref = Name (isvc_ObjectMeta isvc) /\
  owner_UID ref = UID (isvc_ObjectMeta isvc).

#[export] Instance refers_to_dec isvc ref : Decision (refers_to isvc ref).
Proof. unfold refers_to. apply _. Defined.

(** The object's managing controller is this InferenceService. *)
Definition controlled_by (isvc : InferenceService) (m : ObjectMeta) : Prop :=
  exists ref, ref ∈ OwnerReferences m /\ owner_Controller ref = Some true /\
              refers_to isvc ref.

(** ** The interface *)

Class K8sLib := {
  (** The time is the clock reading of the call. *)
  SetStatusCondition : Time -> list Condition -> Condition -> list Condition;
  IsStatusConditionTrue : list Condition -> string -> bool;
  ParseQuantity : string -> result Quantity;
  SetControllerReference : InferenceService -> Job -> result Job
}.

Class K8sLibLaws `{L : K8sLib} : Prop := {
  (** The first condition of the type is updated in place... *)
  SetStatusCondition_present now pre c0 post c :
    no_type (Type_ c) pre -> Type_ c0 = Type_ c ->
    exists c', SetStatusCondition now (pre ++ c0 :: post) c = pre ++ c' :: post
               /\ same_condition c c';
  (** ... and a condition of a new type is appended. *)
  SetStatusCondition_absent now cs c :
    no_type (Type_ c) cs ->
    exists c', SetStatusCondition now cs c = cs ++ [c'] /\ same_condition c c';
  IsStatusConditionTrue_spec cs ty :
    IsStatusConditionTrue cs ty = true <->
    exists pre c post, cs = pre ++ c :: post /\ no_type ty pre /\
                       Type_ c = ty /\ Status_ c = ConditionTrue;
  (** A decimal integer with a suffix is its value, ... *)
  ParseQuantity_integer (n : N) suffix scale :
    suffix_scale suffix = Some scale -> Z.of_N n * scale <= max_quantity ->
    ParseQuantity (pretty n +:+ suffix) = Ok (mkQuantity (Z.of_N n * scale));
  (** ... and a decimal number with a suffix is always accepted. *)
  ParseQuantity_number i f suffix scale :
    digits i -> f = "" \/ (exists f', f = "." +:+ f' /\ digits f') ->
    suffix_scale suffix = Some scale ->
    exists q, ParseQuantity (i +:+ f +:+ suffix) = Ok q;
  (** Only the owner references change, *)
  SetControllerReference_frame isvc job job' :
    SetControllerReference isvc job = Ok job' ->
    job_Spec job' = job_Spec job /\
    job_ObjectMeta job' =
      set_OwnerReferences (OwnerReferences (job_ObjectMeta job')) (job_ObjectMeta job);
  (** the owner controls the object, *)
  SetControllerReference_controls isvc job job' :
    SetControllerReference isvc job = Ok job' ->
    controlled_by isvc (job_ObjectMeta job');
  (** and there is no error when no other controller owns it already. *)
  SetControllerReference_ok isvc job :
    Namespace_ (job_ObjectMeta job) = Namespace_ (isvc_ObjectMeta isvc) ->
    (forall ref, ref ∈ OwnerReferences (job_ObjectMeta job) ->
       owner_Controller ref = Some true -> refers_to isvc ref) ->
    exists job', SetControllerReference isvc job = Ok job'
}.

(** [resource.MustParse] panics ([None]) when the text does not parse. *)
Definition MustParse `{L : K8sLib} (s : string) : option Quantity :=
  match ParseQuantity s with Ok q => Some q | Err _ => None end.

Lemma MustParse_integer `{L : K8sLib, !K8sLibLaws} s (n : N) suffix scale :
  s = pretty n +:+ suffix -> suffix_scale suffix = Some scale ->
  Z.of_N n * scale <= max_quantity -> MustParse s = Some (mkQuantity (Z.of_N n * scale)).
Proof.
  intros -> Hs Hn. unfold MustParse. by rewrite (ParseQuantity_integer _ _ _ Hs Hn).
Qed.
