(* ===== verification/ReferenceLib.v ===== *)
(** * An implementation of the library interface

    A [K8sLib] that satisfies [K8sLibLaws], so that the theorems proved against
    the interface can be evaluated on concrete inputs. *)
From S2P Require Import Prelude.
From S2P Require Import Decimal.
From S2P Require Import ApiTypes.
From S2P Require Import K8sLib.

(** ** Conditions *)

Definition update_condition (now : Time) (c c0 : Condition) : Condition :=
  mkCondition (Type_ c0) (Status_ c) (ObservedGeneration_ c)
    (if decide (Status_ c0 = Status_ c) then LastTransitionTime c0 else now)
    (Reason c) (Message c).

Definition stamp_condition (now : Time) (c : Condition) : Condition :=
  mkCondition (Type_ c) (Status_ c) (ObservedGeneration_ c) now (Reason c) (Message c).

Fixpoint ref_SetStatusCondition (now : Time) (cs : list Condition) (c : Condition)
    : list Condition :=
  match cs with
  | [] => [stamp_condition now c]
  | c0 :: cs' =>
      if decide (Type_ c0 = Type_ c) then update_condition now c c0 :: cs'
      else c0 :: ref_SetStatusCondition now cs' c
  end.

Fixpoint ref_IsStatusConditionTrue (cs : list Condition) (ty : string) : bool :=
  match cs with
  | [] => false
  | c :: cs' =>
      if decide (Type_ c = ty) then bool_decide (Status_ c = ConditionTrue)
      else ref_IsStatusConditionTrue cs' ty
  end.

Lemma ref_Set_present now pre c0 post c :
  no_type (Type_ c) pre -> Type_ c0 = Type_ c ->
  exists c', ref_SetStatusCondition now (pre ++ c0 :: post) c = pre ++ c' :: post
             /\ same_condition c c'.
Proof.
  intros Hpre Hc0. induction Hpre as [|c1 pre Hc1 _ IH]; simpl.
  - rewrite decide_True by done. eexists; split; [done|]. by repeat split.
  - rewrite decide_False by done. destruct IH as (c' & -> & Hs). by exists c'.
Qed.

Lemma ref_Set_absent now cs c :
  no_type (Type_ c) cs ->
  exists c', ref_SetStatusCondition now cs c = cs ++ [c'] /\ same_condition c c'.
Proof.
  induction 1 as [|c1 cs Hc1 _ IH]; simpl.
  - eexists; split; [done|]. by repeat split.
  - rewrite decide_False by done. destruct IH as (c' & -> & Hs). by exists c'.
Qed.

Lemma ref_IsTrue cs ty :
  ref_IsStatusConditionTrue cs ty = true <->
  exists pre c post, cs = pre ++ c :: post /\ no_type ty pre /\
                     Type_ c = ty /\ Status_ c = ConditionTrue.
Proof.
  induction cs as [|c cs IH]; simpl.
  - split; [done|]. by intros ([|] & ? & ? & ? & _).
  - case_decide as Hc.
    + rewrite bool_decide_eq_true. split.
      * intros Hs. exists [], c, cs. split; [done|]. split; [constructor|done].
      * intros (pre & c' & post & Heq & Hpre & Ht & Hs).
        destruct pre as [|c1 pre]; simplify_eq/=; [done|].
        by apply Forall_cons_1 in Hpre as [].
    + rewrite IH. split.
      * intros (pre & c' & post & -> & Hpre & Ht & Hs). exists (c :: pre), c', post.
        split; [done|]. split; [by constructor|done].
      * intros (pre & c' & post & Heq & Hpre & Ht & Hs).
        destruct pre as [|c1 pre]; simplify_eq/=.
        apply Forall_cons_1 in Hpre as [_ Hpre]. by exists pre, c', post.
Qed.

(** ** Quantities *)

(** Digits, an optional fraction, a suffix; what is finer than a billionth is
    rounded up. *)
Definition ref_ParseQuantity (s : string) : result Quantity :=
  let bad := Err (errorf "quantities must match the regular expression") in
  let '(i, r) := span_digits s in
  let '(f, suffix) :=
    match r with
    | String c r' => if decide (c = "."%char) then span_digits r' else (EmptyString, r)
    | EmptyString => (EmptyString, EmptyString)
    end in
  if decide (digits i) then
    match suffix_scale suffix with
    | Some scale =>
        let n := Z.of_N (value (i +:+ f)) * scale in
        Ok (mkQuantity (- ((- n) / 10 ^ Z.of_nat (String.length f))))
    | None => bad
    end
  else bad.

Lemma suffix_head suffix scale c r :
  suffix_scale suffix = Some scale -> suffix = String c r ->
  is_digit c = false /\ c <> "."%char.
Proof. unfold suffix_scale. intros. repeat case_decide; naive_solver. Qed.

Lemma ref_Parse_suffix i suffix scale :
  digits i -> suffix_scale suffix = Some scale ->
  ref_ParseQuantity (i +:+ suffix) = Ok (mkQuantity (Z.of_N (value i) * scale)).
Proof.
  intros Hi Hs. unfold ref_ParseQuantity.
  rewrite span_digits_app; [|apply Hi|].
  - assert ((match suffix with
             | String c r' => if decide (c = "."%char) then span_digits r'
                              else (EmptyString, suffix)
             | EmptyString => (EmptyString, EmptyString)
             end) = ("", suffix)) as ->.
    { destruct suffix as [|c r]; [done|].
      rewrite decide_False; [done|]. by eapply suffix_head. }
    rewrite decide_True by done. rewrite Hs. do 2 f_equal.
    rewrite string_app_nil_r. simpl. rewrite Z.div_1_r. lia.
  - intros c r ->. by eapply suffix_head.
Qed.

Lemma ref_Parse_number i f suffix scale :
  digits i -> f = "" \/ (exists f', f = "." +:+ f' /\ digits f') ->
  suffix_scale suffix = Some scale ->
  exists q, ref_ParseQuantity (i +:+ f +:+ suffix) = Ok q.
Proof.
  intros Hi [->|(f' & -> & Hf)] Hs.
  - eexists. by apply (ref_Parse_suffix _ _ scale).
  - unfold ref_ParseQuantity.
    rewrite span_digits_app; [|apply Hi|by intros c r [= <- _]].
    change (("." +:+ f') +:+ suffix) with (String "."%char (f' +:+ suffix)).
    cbv iota beta. rewrite decide_True by done.
    rewrite span_digits_app; [|apply Hf|intros c r ->; by eapply suffix_head].
    rewrite decide_True by done. rewrite Hs. by eexists.
Qed.

(** ** Owner references *)

Definition controller_ref (isvc : InferenceService) : OwnerReference :=
  mkOwnerReference GroupVersion "InferenceService" (Name (isvc_ObjectMeta isvc))
    (UID (isvc_ObjectMeta isvc)) (Some true) (Some true).

Definition foreign_controller (isvc : InferenceService) (ref : OwnerReference) : bool :=
  bool_decide (owner_Controller ref = Some true) && negb (bool_decide (refers_to isvc ref)).

Definition ref_SetControllerReference (isvc : InferenceService) (job : Job) : result Job :=
  let m := job_ObjectMeta job in
  if existsb (foreign_controller isvc) (OwnerReferences m) then
    Err (errorf ("Object " +:+ Name m +:+ " is already owned by another controller"))
  else if decide (Namespace_ m = Namespace_ (isvc_ObjectMeta isvc)) then
    let others := List.filter (fun r => negb (bool_decide (refers_to isvc r))) (OwnerReferences m) in
    Ok (mkJob (set_OwnerReferences (others ++ [controller_ref isvc]) m) (job_Spec job))
  else Err (errorf "cross-namespace owner references are disallowed").

#[export] Instance ref_lib : K8sLib := {|
  SetStatusCondition := ref_SetStatusCondition;
  IsStatusConditionTrue := ref_IsStatusConditionTrue;
  ParseQuantity := ref_ParseQuantity;
  SetControllerReference := ref_SetControllerReference
|}.

#[export] Instance ref_lib_laws : K8sLibLaws.
Proof.
  split; simpl.
  - apply ref_Set_present.
  - apply ref_Set_absent.
  - apply ref_IsTrue.
  - intros n suffix scale Hs _. rewrite <- (pretty_N_value n) at 2.
    by apply ref_Parse_suffix; [apply pretty_N_digits|].
  - apply ref_Parse_number.
  - intros isvc job job'. unfold ref_SetControllerReference.
    intros. repeat case_match; by simplify_eq.
  - intros isvc job job'. unfold ref_SetControllerReference.
    intros. repeat case_match; simplify_eq. exists (controller_ref isvc). simpl.
    split; [set_solver|]. by repeat split.
  - intros isvc job Hns Hrefs. unfold ref_SetControllerReference.
    rewrite decide_True by done.
    destruct (existsb _ _) eqn:He; [|by eexists].
    apply existsb_exists in He as (ref & Hin & Hf). exfalso.
    unfold foreign_controller in Hf. apply andb_true_iff in Hf as [Hc Hn].
    apply bool_decide_eq_true in Hc. apply negb_true_iff, bool_decide_eq_false in Hn.
    apply Hn, Hrefs; [by apply list_elem_of_In|done].
Qed.
