(* ===== verification/Priority.v ===== *)
(** * Priority derivation: [operator/internal/priority/priority.go]

    The priority of an InferenceService from its tenant's default, its
    workload class and its own override, on Go's [int32]. *)
From S2P Require Import Prelude.

(** ** Model *)

(** [int32] division truncates toward zero; the wrap-around is the one of the
    language, which division by 3 or 10 never reaches. *)
Definition Calculate (tenantPriority : Z) (workloadClass : string)
    (override : option Z) : Z :=
  match override with
  | Some o => o
  | None =>
      if decide (workloadClass = "interactive") then tenantPriority
      else if decide (workloadClass = "batch") then wrap32 (Z.quot tenantPriority 3)
      else if decide (workloadClass = "background") then wrap32 (Z.quot tenantPriority 10)
      else tenantPriority
  end.

(** The cases of [priority_test.go]. *)
Example Calculate_test_cases :
  Calculate 100 "interactive" None = 100 /\ Calculate 90 "batch" None = 30 /\
  Calculate 100 "background" None = 10 /\ Calculate 100 "interactive" (Some 5) = 5.
Proof. by vm_compute. Qed.

(** ** Properties *)

Lemma Calculate_int32 tenant class override :
  int32_ok tenant -> (forall o, override = Some o -> int32_ok o) ->
  int32_ok (Calculate tenant class override).
Proof.
  intros Ht Ho. unfold Calculate. destruct override as [o|]; [by apply Ho|].
  repeat case_decide; auto with cnip.
Qed.

Lemma Calculate_exact tenant class :
  int32_ok tenant ->
  Calculate tenant class None =
    (if decide (class = "batch") then Z.quot tenant 3
     else if decide (class = "background") then Z.quot tenant 10
     else tenant).
Proof.
  intros Ht. unfold Calculate.
  repeat case_decide; subst; try done; apply wrap32_id; by apply quot_int32_ok.
Qed.

Lemma quot_scale z d d' : 0 <= z -> 0 < d -> d <= d' ->
  0 <= Z.quot z d' <= Z.quot z d /\ Z.quot z d <= z.
Proof.
  intros Hz Hd Hd'. rewrite !Z.quot_div_nonneg by lia.
  split; [split|].
  - apply Z.div_pos; lia.
  - apply Z.div_le_compat_l; lia.
  - apply Z.div_le_upper_bound; nia.
Qed.

(** C38: without an override, a tenant priority the CRD accepts (0 to 1000)
    gives a derived priority in the same range and never above the tenant's;
    the classes are ordered, a background service never before a batch one and
    a batch one never before an interactive one of the same tenant; and the
    result is the exact quotient, no int32 arithmetic wraps.  An override is
    taken as it is, whatever the tenant's priority and the class. *)
Theorem Calculate_bounded_and_ordered (tenant : Z) (class : string) :
  (forall override, Calculate tenant class (Some override) = override) /\
  (0 <= tenant <= 1000 ->
   0 <= Calculate tenant class None <= tenant /\
   Calculate tenant "background" None <= Calculate tenant "batch" None /\
   Calculate tenant "batch" None <= Calculate tenant "interactive" None /\
   Calculate tenant "batch" None = tenant / 3 /\
   Calculate tenant "background" None = tenant / 10).
Proof.
  split; [done|]. intros Htenant.
  assert (int32_ok tenant) as Hi by (unfold int32_ok, min_int32, max_int32; lia).
  rewrite !Calculate_exact by done.
  pose proof (quot_scale tenant 3 10 ltac:(lia) ltac:(lia) ltac:(lia)) as [[??] ?].
  pose proof (quot_scale tenant 10 10 ltac:(lia) ltac:(lia) ltac:(lia)) as [[??] ?].
  rewrite !Z.quot_div_nonneg in * by lia.
  repeat case_decide; subst; try done; lia.
Qed.

Lemma Calculate_bounded_and_ordered_witness :
  0 <= 100 <= 1000 /\ 0 <= Calculate 100 "batch" None <= 100.
Proof.
  split; [lia|]. exact (proj1 (proj2 (Calculate_bounded_and_ordered 100 "batch") ltac:(lia))).
Defined.
