(* ===== verification/ResourceProfile.v ===== *)
(** * Resource profiles and the capacity envelope

    [operator/internal/resourceprofile/profile.go] resolves a profile by name
    in a fixed table; [operator/internal/capacityenvelope/envelope.go] is the
    capacity check, which always grants for now. *)
From Stdlib Require Import SpecFloat.
From S2P Require Import Prelude.

(** ** Resource profiles *)

Record Profile := mkProfile {
  profile_Name : string;
  GPUMemoryGiB : Z;
  Sharing : string;
  Preemptible : bool
}.

Definition profiles : gmap string Profile :=
  {[ "protected-gpu" := mkProfile "protected-gpu" 24 "guaranteed" false;
     "shared-gpu" := mkProfile "shared-gpu" 8 "shared" true;
     "batch-shared" := mkProfile "batch-shared" 8 "shared" true ]}.

Definition Resolve (name : string) : result Profile :=
  match profiles !! name with
  | None => Err (errorf ("unknown resource profile " +:+ quote name))
  | Some p => Ok p
  end.

(** ** Capacity envelope *)

Record Envelope := mkEnvelope {
  MaxQPS : spec_float;
  Available : bool
}.

Definition Check (model profileName : string) : result Envelope :=
  Ok (mkEnvelope (S754_zero false) true).

(** ** Properties *)

Lemma profiles_names name p : profiles !! name = Some p -> profile_Name p = name.
Proof.
  unfold profiles. rewrite !lookup_insert, lookup_singleton. repeat case_decide; intros; by simplify_eq.
Qed.

(** A name resolves exactly when it is one of the three known profiles, the
    profile returned carries that name, and in the table exactly the profiles
    that guarantee their GPU are protected from preemption; any other name is
    an error that prints the name quoted. *)
Theorem Resolve_spec (name : string) :
  ((exists p, Resolve name = Ok p) <->
     name = "protected-gpu" \/ name = "shared-gpu" \/ name = "batch-shared") /\
  (forall p, Resolve name = Ok p ->
     profile_Name p = name /\ 0 < GPUMemoryGiB p /\
     (Preemptible p = false <-> Sharing p = "guaranteed")) /\
  (forall e, Resolve name = Err e ->
     Error_ e = "unknown resource profile " +:+ quote name /\ IsNotFound e = false).
Proof.
  split; [|split].
  - unfold Resolve, profiles. rewrite !lookup_insert, lookup_singleton.
    repeat case_decide; subst; split; intros Hx;
      first [by eexists | by auto | by destruct Hx | by destruct Hx as [?|[?|?]]].
  - intros p Hp. unfold Resolve in Hp. destruct (profiles !! name) as [q|] eqn:Hq; simplify_eq.
    split; [by apply profiles_names|]. unfold profiles in Hq. rewrite !lookup_insert, lookup_singleton in Hq.
    repeat case_decide; simplify_eq/=; by split.
  - intros e He. unfold Resolve in He. by destruct (profiles !! name); simplify_eq.
Qed.

(** The capacity check grants every model on every profile. *)
Lemma Check_available model profileName :
  exists e, Check model profileName = Ok e /\ Available e = true.
Proof. by eexists. Qed.

