(* ===== verification/Admission.v ===== *)
(** * Admission decisions and validation

    [operator/internal/admission]: [admission_decision.go], [errors.go] and
    [validation.go].  A check reads the cluster through the client and gives a
    decision; [ValidateInferenceService] runs the four checks in order and
    stops at the first denial. *)
From S2P Require Import Prelude.
From S2P Require Import ApiTypes.
From S2P Require Import ApiClient.
From S2P Require Import ResourceProfile.

(** ** Decisions: [admission_decision.go], [errors.go] *)

Record AdmissionDecision := mkDecision {
  Allowed : bool;
  Code : string;
  decision_Reason : string;
  Suggestion : string
}.

#[export] Instance AdmissionDecision_eq_dec : EqDecision AdmissionDecision.
Proof. solve_decision. Defined.

Definition Allow : AdmissionDecision := mkDecision true "" "" "".

Definition Deny (code reason suggestion : string) : AdmissionDecision :=
  mkDecision false code reason suggestion.

Fixpoint FirstDenial (decisions : list AdmissionDecision) : AdmissionDecision :=
  match decisions with
  | [] => Allow
  | d :: decisions' => if negb (Allowed d) then d else FirstDenial decisions'
  end.

(** The [Error] method of a decision. *)
Definition decision_Error (d : AdmissionDecision) : string :=
  if Allowed d then ""
  else if decide (Suggestion d <> "") then
    "[" +:+ Code d +:+ "] " +:+ decision_Reason d +:+ " (" +:+ Suggestion d +:+ ")"
  else "[" +:+ Code d +:+ "] " +:+ decision_Reason d.

(** A decision used as a Go error. *)
Definition decision_as_error (d : AdmissionDecision) : error :=
  mkError StatusReasonUnknown (decision_Error d).

(** ** Validation: [validation.go] *)

Definition validateTenantExists (isvc : InferenceService) : Prog AdmissionDecision :=
  let! r := call (Get KTenant (mkNN "" (Namespace_ (isvc_ObjectMeta isvc)))) in
  Ret (match r with
  | Err err =>
      if IsNotFound err then
        Deny "TENANT_NOT_FOUND"
          ("tenant " +:+ quote (Namespace_ (isvc_ObjectMeta isvc)) +:+ " does not exist")
          "create the Tenant before submitting InferenceService objects in its namespace"
      else
        Deny "TENANT_LOOKUP_ERROR" (Error_ err)
          "retry; if this persists, check API server health"
  | Ok _ => Allow
  end).

Definition validateResourceProfile (isvc : InferenceService) : AdmissionDecision :=
  match Resolve (ResourceProfile (isvc_Spec isvc)) with
  | Err err =>
      Deny "PROFILE_INVALID" (Error_ err)
        "use one of the known profiles: protected-gpu, shared-gpu, batch-shared"
  | Ok _ => Allow
  end.

Definition validateSLO (isvc : InferenceService) : AdmissionDecision :=
  let slo := SLO (isvc_Spec isvc) in
  let not_positive (v : option Z) :=
    match v with Some v => bool_decide (v <= 0) | None => false end in
  if not_positive (TTFTP99Milliseconds slo) then
    Deny "SLO_INVALID" "slo.ttftP99 must be positive"
      "set a realistic millisecond value, or omit the field"
  else if not_positive (TPOTP99Milliseconds slo) then
    Deny "SLO_INVALID" "slo.tpotP99 must be positive"
      "set a realistic millisecond value, or omit the field"
  else Allow.

(** (nil, nil) when there is no policy. *)
Definition getEffectivePlatformPolicy : Prog (option PlatformPolicy * option error) :=
  let! r := call (Get KPlatformPolicy (mkNN "" "default")) in
  Ret (match r with
  | Err err => if IsNotFound err then (None, None) else (None, Some err)
  | Ok policy => (Some policy, None)
  end).

Definition validateSignedModelPolicy (isvc : InferenceService) : Prog AdmissionDecision :=
  let! '(policy, err) := getEffectivePlatformPolicy in
  match err, policy with
  | None, Some policy =>
      if Required (SignedModels (policy_Spec policy)) then
        let! r := call (Get KModel (mkNN (Namespace_ (isvc_ObjectMeta isvc))
                                         (isvc_Model (isvc_Spec isvc)))) in
        Ret (match r with
        | Err err =>
            if IsNotFound err then Allow
            else Deny "MODEL_LOOKUP_ERROR" (Error_ err)
                   "retry; if this persists, check API server health"
        | Ok model =>
            if negb (RequireSignedImage (model_Spec model)) then
              Deny "SIGNED_MODEL_REQUIRED"
                ("platform policy requires signed models, but Model "
                 +:+ quote (isvc_Model (isvc_Spec isvc))
                 +:+ " does not set requireSignedImage")
                "set spec.requireSignedImage: true on the Model"
            else Allow
        end)
      else Ret Allow
  | _, _ => Ret Allow
  end.

Definition ValidateInferenceService (isvc : InferenceService) : Prog AdmissionDecision :=
  let! d := validateTenantExists isvc in
  if negb (Allowed d) then Ret d else
  let d := validateResourceProfile isvc in
  if negb (Allowed d) then Ret d else
  let d := validateSLO isvc in
  if negb (Allowed d) then Ret d else
  let! d := validateSignedModelPolicy isvc in
  if negb (Allowed d) then Ret d else
  Ret Allow.

(** ** What each check decides *)

(** The first denial of a list is a denial of the list, and nothing denies when
    there is none. *)
Lemma FirstDenial_allowed ds :
  Allowed (FirstDenial ds) = true <-> Forall (fun d => Allowed d = true) ds.
Proof.
  induction ds as [|d ds IH]; simpl; [by split; [constructor|]|].
  rewrite Forall_cons_iff, <- IH. destruct (Allowed d) eqn:Hd; simpl; [by split; [|intros []]|].
  rewrite Hd. by split; [|intros []].
Qed.

(** Both objectives are absent or positive. *)
Definition slo_positive (slo : InferenceSLO) : Prop :=
  (forall v, TTFTP99Milliseconds slo = Some v -> 0 < v) /\
  (forall v, TPOTP99Milliseconds slo = Some v -> 0 < v).

Lemma validateSLO_allowed isvc :
  Allowed (validateSLO isvc) = true <-> slo_positive (SLO (isvc_Spec isvc)).
Proof.
  unfold validateSLO, slo_positive.
  destruct (SLO (isvc_Spec isvc)) as [[a|] [b|] av]; simpl;
    repeat case_bool_decide; simpl; split; try done;
    try (intros _; split; intros; simplify_eq; lia);
    intros [Ha Hb]; exfalso;
    first [specialize (Ha _ eq_refl); lia | specialize (Hb _ eq_refl); lia].
Qed.

Lemma validateResourceProfile_allowed isvc :
  Allowed (validateResourceProfile isvc) = true <->
  exists p, Resolve (ResourceProfile (isvc_Spec isvc)) = Ok p.
Proof.
  unfold validateResourceProfile.
  destruct (Resolve _) as [p|e]; simpl; split; [by eexists|done|done|by intros []].
Qed.

(** Validation only reads, so a decision never changes the cluster. *)
Lemma ValidateInferenceService_read_only isvc : read_only (ValidateInferenceService isvc).
Proof.
  unfold read_only, ValidateInferenceService, validateTenantExists,
    validateSignedModelPolicy, getEffectivePlatformPolicy.
  wp_steps; done.
Qed.

Section cluster.
Context {W : Type} `{!Cluster W, !ClusterLaws W}.

(** The namespace's tenant can be read. *)
Definition tenant_readable (isvc : InferenceService) (w : W) : Prop :=
  exists t, read KTenant (mkNN "" (Namespace_ (isvc_ObjectMeta isvc))) w = Ok t.

(** If the policy read says that signed models are required, then the model
    requires a signed image or is known not to exist yet. *)
Definition signed_models_respected (isvc : InferenceService) (w : W) : Prop :=
  forall policy, read KPlatformPolicy (mkNN "" "default") w = Ok policy ->
  Required (SignedModels (policy_Spec policy)) = true ->
  match read KModel (mkNN (Namespace_ (isvc_ObjectMeta isvc))
                          (isvc_Model (isvc_Spec isvc))) w with
  | Ok model => RequireSignedImage (model_Spec model) = true
  | Err err => IsNotFound err = true
  end.

Lemma validateTenantExists_run isvc w :
  exists d, outcome (validateTenantExists isvc) w = Some d /\
            final (validateTenantExists isvc) w = w /\
            (Allowed d = true <-> tenant_readable isvc w).
Proof.
  unfold validateTenantExists, tenant_readable. cluster_simpl.
  destruct (read _ _ w) as [t|e]; eexists; (split; [done|]); (split; [done|]).
  - split; [by eexists|done].
  - split; [|by intros []]. by case_match.
Qed.

Lemma validateSignedModelPolicy_run isvc w :
  exists d, outcome (validateSignedModelPolicy isvc) w = Some d /\
            final (validateSignedModelPolicy isvc) w = w /\
            (Allowed d = true <-> signed_models_respected isvc w).
Proof.
  unfold validateSignedModelPolicy, getEffectivePlatformPolicy, signed_models_respected.
  cluster_simpl.
  destruct (read KPlatformPolicy _ w) as [p|e]; simpl.
  2:{ destruct (IsNotFound e); eexists; (split; [done|]); (split; [done|]); by split. }
  destruct (Required _) eqn:Hreq.
  2:{ eexists; (split; [done|]); (split; [done|]). split; [|done].
      intros _ p' ? Hr. simplify_eq. by rewrite Hreq in Hr. }
  cluster_simpl.
  destruct (read KModel _ w) as [m|e]; eexists; (split; [done|]); (split; [done|]).
  - destruct (RequireSignedImage (model_Spec m)) eqn:Hs; simpl; split; try done.
    intros H. by specialize (H p eq_refl Hreq).
  - destruct (IsNotFound e) eqn:Hn; simpl; split; try done.
    intros H. by specialize (H p eq_refl Hreq).
Qed.

Lemma ValidateInferenceService_run isvc w d1 d4 :
  outcome (validateTenantExists isvc) w = Some d1 ->
  outcome (validateSignedModelPolicy isvc) w = Some d4 ->
  outcome (ValidateInferenceService isvc) w =
    Some (FirstDenial [d1; validateResourceProfile isvc; validateSLO isvc; d4]).
Proof.
  intros Ho1 Ho4. destruct (validateTenantExists_run isvc w) as (d & Ho & Hf & _).
  unfold ValidateInferenceService. cluster_simpl. rewrite Ho1, Hf.
  destruct (Allowed d1); simpl; [|done].
  destruct (Allowed (validateResourceProfile isvc)); simpl; [|done].
  destruct (Allowed (validateSLO isvc)); simpl; [|done].
  cluster_simpl. rewrite Ho4. by destruct (Allowed d4).
Qed.

(** The validation always decides. *)
Lemma ValidateInferenceService_decides isvc w :
  exists d, outcome (ValidateInferenceService isvc) w = Some d.
Proof.
  destruct (validateTenantExists_run isvc w) as (d1 & Ho1 & _).
  destruct (validateSignedModelPolicy_run isvc w) as (d4 & Ho4 & _).
  eexists. by apply ValidateInferenceService_run.
Qed.

(** C12: an InferenceService is admitted exactly when its namespace's Tenant
    can be read, its resource profile is known, its latency objectives are
    positive where given, and, if the PlatformPolicy that was read requires
    signed models, its Model requires a signed image or does not exist yet;
    the verdict is reached without changing the cluster.  Although the code
    stops at the first denial, the verdict is that of the reference semantics,
    which runs all four checks, in the order tenant, profile, objectives,
    policy, and reports the first denial of the list. *)
Theorem ValidateInferenceService_allowed_iff (isvc : InferenceService) (w : W) :
  exists d1 d4 d,
    outcome (validateTenantExists isvc) w = Some d1 /\
    outcome (validateSignedModelPolicy isvc) w = Some d4 /\
    d = FirstDenial [d1; validateResourceProfile isvc; validateSLO isvc; d4] /\
    outcome (ValidateInferenceService isvc) w = Some d /\
    final (ValidateInferenceService isvc) w = w /\
    (Allowed d = true <->
       tenant_readable isvc w /\
       (exists p, Resolve (ResourceProfile (isvc_Spec isvc)) = Ok p) /\
       slo_positive (SLO (isvc_Spec isvc)) /\
       signed_models_respected isvc w).
Proof.
  destruct (validateTenantExists_run isvc w) as (d1 & Ho1 & _ & Ha1).
  destruct (validateSignedModelPolicy_run isvc w) as (d4 & Ho4 & _ & Ha4).
  do 3 eexists. do 2 (split; [done|]). split; [done|].
  split; [by apply ValidateInferenceService_run|]. split.
  - apply read_only_final, ValidateInferenceService_read_only.
  - rewrite FirstDenial_allowed, !Forall_cons_iff, Ha1, Ha4,
      validateResourceProfile_allowed, validateSLO_allowed.
    split; [by intros (?&?&?&?&_)|intros (?&?&?&?)].
    split; [done|]. split; [done|]. split; [done|]. split; [done|constructor].
Qed.

(** C35: the checks treat a failing client differently.  When the Tenant
    cannot be read the request is denied whatever the error, with the code
    TENANT_NOT_FOUND exactly for a missing Tenant; but when the
    PlatformPolicy cannot be read the signed-model check allows the request,
    whatever the error, so a failing policy lookup admits unsigned models. *)
Theorem lookup_failure_closed_for_tenant_open_for_policy
    (isvc : InferenceService) (w : W) (err : error) :
  (read KTenant (mkNN "" (Namespace_ (isvc_ObjectMeta isvc))) w = Err err ->
     exists d, outcome (ValidateInferenceService isvc) w = Some d /\
       Allowed d = false /\
       Code d = if IsNotFound err then "TENANT_NOT_FOUND" else "TENANT_LOOKUP_ERROR") /\
  (read KPlatformPolicy (mkNN "" "default") w = Err err ->
     outcome (validateSignedModelPolicy isvc) w = Some Allow).
Proof.
  split; intros Hr.
  - unfold ValidateInferenceService, validateTenantExists. cluster_simpl. rewrite Hr.
    destruct (IsNotFound err); simpl; by eexists.
  - unfold validateSignedModelPolicy, getEffectivePlatformPolicy. cluster_simpl.
    rewrite Hr. by destruct (IsNotFound err).
Qed.
End cluster.

(** What a denied request is told: a denial of the validation has a code,
    and its error text is the code in brackets, the reason, and the suggestion
    in parentheses; an allowed decision has the empty text. *)
Lemma decision_Error_format (d : AdmissionDecision) :
  (Allowed d = true -> decision_Error d = "") /\
  (Allowed d = false -> Suggestion d <> "" ->
     decision_Error d =
       "[" +:+ Code d +:+ "] " +:+ decision_Reason d +:+ " (" +:+ Suggestion d +:+ ")") /\
  (Allowed d = false -> Suggestion d = "" ->
     decision_Error d = "[" +:+ Code d +:+ "] " +:+ decision_Reason d) /\
  (Allowed d = false -> decision_Error d <> "").
Proof.
  unfold decision_Error. split_and!; intros Ha; rewrite Ha; try done.
  - intros. by rewrite decide_True.
  - intros ->. done.
  - by case_decide.
Qed.
