(* ===== verification/Mutation.v ===== *)
(** * Admission mutation: [operator/internal/admission/mutation.go]

    The annotations injected into an InferenceService, and [itoa], the decimal
    printer of the derived priority, with its fixed buffer. *)
From S2P Require Import Prelude.
From S2P Require Import Decimal.
From S2P Require Import ApiTypes.
From S2P Require Import ApiClient.
From S2P Require Import Priority.

Definition AnnotationTenant : string := "platform.platform.io/tenant".
Definition AnnotationDerivedPriority : string := "platform.platform.io/derived-priority".
Definition AnnotationFairnessID : string := "platform.platform.io/fairness-id".

(** ** itoa *)

(** How the loop and the function end: with a value, with the run-time panic of
    an index outside the buffer, or, in the model only, without fuel. *)
Inductive loop_result (A : Type) :=
  | Done (a : A)
  | IndexOutOfRange
  | OutOfFuel.
Arguments Done {A} a.
Arguments IndexOutOfRange {A}.
Arguments OutOfFuel {A}.

(** [byte('0' + i%10)]: the remainder has the sign of the dividend, and the
    conversion keeps the low eight bits. *)
Definition itoa_byte (i : Z) : Ascii.ascii :=
  Ascii.ascii_of_N (Z.to_N ((48 + Z.rem i 10) mod 256)).

(** [for i > 0 { pos--; buf[pos] = ...; i /= 10 }] *)
Fixpoint itoa_loop (fuel : nat) (i pos : Z) (buf : list Ascii.ascii)
    : loop_result (Z * list Ascii.ascii) :=
  if decide (0 < i) then
    match fuel with
    | O => OutOfFuel
    | S fuel' =>
        let pos := pos - 1 in
        if decide (0 <= pos < Z.of_nat (length buf)) then
          itoa_loop fuel' (Z.quot i 10) pos (<[Z.to_nat pos := itoa_byte i]> buf)
        else IndexOutOfRange
    end
  else Done (pos, buf).

(** The fuel of [itoa]: one more than the digits of any [int32]. *)
Definition itoa_fuel : nat := 11.

(** [string(buf[pos:])]. *)
Definition string_from (pos : Z) (buf : list Ascii.ascii) : string :=
  String.string_of_list_ascii (drop (Z.to_nat pos) buf).

Definition itoa (i : Z) : loop_result string :=
  if decide (i = 0) then Done "0" else
  let neg := bool_decide (i < 0) in
  let i := if neg then wrap32 (- i) else i in
  let buf := replicate 12 (Ascii.ascii_of_N 0) in
  match itoa_loop itoa_fuel i (Z.of_nat (length buf)) buf with
  | Done (pos, buf) =>
      if neg then
        let pos := pos - 1 in
        if decide (0 <= pos < Z.of_nat (length buf)) then
          Done (string_from pos (<[Z.to_nat pos := "-"%char]> buf))
        else IndexOutOfRange
      else Done (string_from pos buf)
  | IndexOutOfRange => IndexOutOfRange
  | OutOfFuel => OutOfFuel
  end.

(** ** MutateInferenceService *)

Definition set_isvc_Annotations (a : StringMap) (isvc : InferenceService) : InferenceService :=
  mkInferenceService (set_Annotations a (isvc_ObjectMeta isvc)) (isvc_Spec isvc)
    (isvc_Status isvc).

(** The service is mutated in place: the first component is the object after
    the call. *)
Definition MutateInferenceService (isvc : InferenceService)
    : Prog (InferenceService * option error) :=
  let ns := Namespace_ (isvc_ObjectMeta isvc) in
  let annotations := ensure_map (Annotations (isvc_ObjectMeta isvc)) in
  let annotations := <[AnnotationTenant := ns]> annotations in
  let annotations := <[AnnotationFairnessID := ns]> annotations in
  let isvc := set_isvc_Annotations annotations isvc in
  let! r := call (Get KTenant (mkNN "" ns)) in
  match r with
  | Err err =>
      if IsNotFound err then Ret (isvc, None) else Ret (isvc, Some err)
  | Ok tenant =>
      let derived := Calculate (Default (tenant_Priority (tenant_Spec tenant)))
                       (WorkloadClass (isvc_Spec isvc)) (Priority (isvc_Spec isvc)) in
      match itoa derived with
      | Done s =>
          Ret (set_isvc_Annotations (<[AnnotationDerivedPriority := s]> annotations) isvc, None)
      | _ => Panic
      end
  end.

(** ** Properties of itoa *)

Example itoa_samples :
  itoa 0 = Done "0" /\ itoa 30 = Done "30" /\ itoa (-7) = Done "-7" /\
  itoa 2147483647 = Done "2147483647" /\ itoa (-2147483647) = Done "-2147483647".
Proof. by vm_compute. Qed.

Lemma itoa_byte_digit i :
  0 <= i -> itoa_byte i = pretty_N_char (Z.to_N i mod 10).
Proof.
  intros Hi. unfold itoa_byte. rewrite Z.rem_mod_nonneg by lia.
  rewrite (Z.mod_small (48 + i mod 10)) by (pose proof (Z.mod_pos_bound i 10); lia).
  replace (Z.to_N i mod 10)%N with (Z.to_N (i mod 10)) by (rewrite Z2N.inj_mod by lia; done).
  pose proof (Z.mod_pos_bound i 10 ltac:(lia)) as Hb. generalize dependent (i mod 10).
  intros d Hd. assert (d = 0 \/ d = 1 \/ d = 2 \/ d = 3 \/ d = 4 \/ d = 5 \/ d = 6
    \/ d = 7 \/ d = 8 \/ d = 9) as Hx by lia.
  by repeat destruct Hx as [->|Hx]; [..|subst d].
Qed.

Lemma drop_insert_here (l : list Ascii.ascii) (n : nat) c :
  (n < length l)%nat -> drop n (<[n := c]> l) = c :: drop (S n) l.
Proof.
  intros Hn. rewrite (drop_S (<[n:=c]> l) c n).
  - by rewrite drop_insert_lt by lia.
  - by apply list_lookup_insert_eq.
Qed.

(** The loop writes the digits of [i], last first, to the left of what the
    buffer holds; [n] digits take [n] rounds and [n] bytes. *)
Lemma itoa_loop_spec (n fuel : nat) i pos buf :
  0 <= i < 10 ^ Z.of_nat n -> (n <= fuel)%nat ->
  Z.of_nat n <= pos <= Z.of_nat (length buf) ->
  exists pos' buf', itoa_loop fuel i pos buf = Done (pos', buf') /\
    pos - Z.of_nat n <= pos' <= pos /\ length buf' = length buf /\
    string_from pos' buf' = pretty_N_go (Z.to_N i) (string_from pos buf).
Proof.
  revert fuel i pos buf. induction n as [|n IH]; intros fuel i pos buf Hi Hf Hp.
  - assert (i = 0) as -> by (simpl in Hi; lia).
    exists pos, buf. destruct fuel; simpl; rewrite pretty_N_go_0; split_and!; done || lia.
  - destruct (decide (i = 0)) as [->|Hi0].
    { exists pos, buf. destruct fuel; simpl; rewrite pretty_N_go_0; split_and!; done || lia. }
    destruct fuel as [|fuel]; [lia|]. simpl.
    rewrite decide_True by lia. rewrite decide_True by lia.
    set (buf1 := <[Z.to_nat (pos - 1) := itoa_byte i]> buf).
    assert (length buf1 = length buf) as Hl1 by apply length_insert.
    destruct (IH fuel (Z.quot i 10) (pos - 1) buf1) as (pos' & buf' & Hr & Hp' & Hl & Hs).
    + rewrite Z.quot_div_nonneg by lia. split; [apply Z.div_pos; lia|].
      apply Z.div_lt_upper_bound; [lia|].
      rewrite <- Z.pow_succ_r by lia. rewrite <- Nat2Z.inj_succ. lia.
    + lia.
    + rewrite Hl1. lia.
    + exists pos', buf'. split; [done|]. split; [lia|]. split; [by rewrite Hl|].
      rewrite Hs. rewrite (pretty_N_go_step (Z.to_N i)) by lia.
      rewrite Z.quot_div_nonneg, Z2N.inj_div by lia. f_equal.
      unfold string_from, buf1. rewrite drop_insert_here by lia.
      simpl. rewrite itoa_byte_digit by lia. f_equal. do 2 f_equal. lia.
Qed.

Lemma pretty_pos (p : positive) : pretty (Z.pos p) = pretty_N_go (N.pos p) "".
Proof. done. Qed.

(** What the loop leaves in the buffer for a positive [int32]. *)
Lemma itoa_digits (p : positive) :
  Z.pos p <= max_int32 ->
  exists pos buf, itoa_loop itoa_fuel (Z.pos p) 12 (replicate 12 (Ascii.ascii_of_N 0))
                    = Done (pos, buf) /\
    2 <= pos <= 12 /\ length buf = 12%nat /\ string_from pos buf = pretty (Z.pos p).
Proof.
  intros Hp. unfold max_int32 in Hp.
  destruct (itoa_loop_spec 10 itoa_fuel (Z.pos p) 12 (replicate 12 (Ascii.ascii_of_N 0)))
    as (pos & buf & Hr & Hpos & Hl & Hs); [simpl; lia|unfold itoa_fuel; lia|simpl; lia|].
  exists pos, buf. split; [done|]. split; [lia|]. split; [done|]. by rewrite Hs, pretty_pos.
Qed.

(** The text of every [int32]. *)
Lemma itoa_prints (i : Z) (Hi : int32_ok i) :
  itoa i = Done (if decide (i = min_int32) then "-" else pretty i).
Proof.
  case_decide as Hmin; [by subst|]. unfold int32_ok, min_int32, max_int32 in *.
  destruct i as [|p|p]; [done| |].
  - destruct (itoa_digits p) as (pos & buf & Hr & _ & _ & Hs); [unfold max_int32; lia|].
    unfold itoa. rewrite decide_False, bool_decide_eq_false_2 by lia.
    rewrite length_replicate. change (Z.of_nat 12) with 12. by rewrite Hr, Hs.
  - destruct (itoa_digits p) as (pos & buf & Hr & Hpos & Hl & Hs); [unfold max_int32; lia|].
    unfold itoa. rewrite decide_False, bool_decide_eq_true_2 by lia.
    rewrite length_replicate. change (Z.of_nat 12) with 12.
    rewrite wrap32_id by (unfold int32_ok, min_int32, max_int32; lia).
    change (- Z.neg p) with (Z.pos p). rewrite Hr.
    rewrite decide_True by lia. do 2 f_equal. unfold string_from.
    rewrite drop_insert_here by lia.
    replace (S (Z.to_nat (pos - 1))) with (Z.to_nat pos) by lia.
    simpl. unfold string_from in Hs. by rewrite Hs.
Qed.

(** C39: [itoa] ends normally on every [int32], its twelve-byte buffer is never
    overrun, and it prints the decimal text of the number, the one stdpp's
    [pretty] prints and which reads back as the number, with a single
    exception: on the least [int32] the negation wraps, no digit is printed and
    the result is a lone minus sign, which is no number. *)
Theorem itoa_decimal (i : Z) (Hi : int32_ok i) :
  itoa i = Done (if decide (i = min_int32) then "-" else pretty i) /\
  exists s, itoa i = Done s /\ parse_int s = if decide (i = min_int32) then None else Some i.
Proof.
  rewrite itoa_prints by done. split; [done|]. eexists. split; [done|].
  case_decide; [done|]. apply parse_int_pretty.
Qed.

Lemma itoa_decimal_witness : int32_ok (-2147483648) /\ itoa (-2147483648) = Done "-".
Proof.
  assert (int32_ok (-2147483648)) as H by (unfold int32_ok, min_int32, max_int32; lia).
  split; [exact H|]. exact (proj1 (itoa_decimal (-2147483648) H)).
Defined.

(** ** Properties of the mutation *)

(** Mutation only reads the cluster: it is declared free of side effects. *)
Lemma MutateInferenceService_read_only isvc : read_only (MutateInferenceService isvc).
Proof. unfold read_only, MutateInferenceService. wp_steps; done. Qed.

(** What [itoa] prints. *)
Definition printed (d : Z) : string := if decide (d = min_int32) then "-" else pretty d.

(** The annotations after a mutation, given the printed priority if the tenant
    was found. *)
Definition injected (ns : string) (derived : option string) (m : StringMap) : StringMap :=
  let m := <[AnnotationFairnessID := ns]> (<[AnnotationTenant := ns]> m) in
  match derived with Some s => <[AnnotationDerivedPriority := s]> m | None => m end.

Lemma injected_lookup ns derived m :
  injected ns derived m !! AnnotationTenant = Some ns /\
  injected ns derived m !! AnnotationFairnessID = Some ns /\
  (forall s, derived = Some s -> injected ns derived m !! AnnotationDerivedPriority = Some s) /\
  (forall k, k <> AnnotationTenant -> k <> AnnotationFairnessID ->
     k <> AnnotationDerivedPriority -> injected ns derived m !! k = m !! k).
Proof.
  unfold injected, AnnotationTenant, AnnotationFairnessID, AnnotationDerivedPriority.
  destruct derived as [s|]; split_and!; intros; by simplify_map_eq.
Qed.

Lemma injected_idem ns derived m :
  injected ns derived (injected ns derived m) = injected ns derived m.
Proof.
  destruct (injected_lookup ns derived m) as (Ht & Hf & Hd & _).
  unfold injected at 1. rewrite (insert_id _ _ _ Ht), (insert_id _ _ _ Hf).
  destruct derived as [s|]; [|done]. by rewrite (insert_id _ _ _ (Hd s eq_refl)).
Qed.

Section cluster.
Context {W : Type} `{!Cluster W, !ClusterLaws W}.

(** What a mutation computes from the tenant it reads. *)
Definition derived_annotation (isvc : InferenceService) (tenant : Tenant) : Z :=
  Calculate (Default (tenant_Priority (tenant_Spec tenant)))
    (WorkloadClass (isvc_Spec isvc)) (Priority (isvc_Spec isvc)).

(** The numbers of the object and of its tenant are [int32]s. *)
Definition priorities_int32 (isvc : InferenceService) (w : W) : Prop :=
  (forall o, Priority (isvc_Spec isvc) = Some o -> int32_ok o) /\
  (forall t, read KTenant (mkNN "" (Namespace_ (isvc_ObjectMeta isvc))) w = Ok t ->
     int32_ok (Default (tenant_Priority (tenant_Spec t)))).

(** The mutated object differs in its annotations only. *)
Lemma set_isvc_Annotations_ns a isvc :
  Namespace_ (isvc_ObjectMeta (set_isvc_Annotations a isvc)) =
  Namespace_ (isvc_ObjectMeta isvc).
Proof. done. Qed.
Lemma set_isvc_Annotations_get a isvc :
  ensure_map (Annotations (isvc_ObjectMeta (set_isvc_Annotations a isvc))) = a.
Proof. done. Qed.
Lemma set_isvc_Annotations_derived a isvc t :
  derived_annotation (set_isvc_Annotations a isvc) t = derived_annotation isvc t.
Proof. done. Qed.
Lemma set_isvc_Annotations_set a b isvc :
  set_isvc_Annotations a (set_isvc_Annotations b isvc) = set_isvc_Annotations a isvc.
Proof. done. Qed.
Hint Rewrite set_isvc_Annotations_ns set_isvc_Annotations_get
  set_isvc_Annotations_derived set_isvc_Annotations_set : cnip_rw.

Lemma MutateInferenceService_run isvc w :
  priorities_int32 isvc w ->
  let ns := Namespace_ (isvc_ObjectMeta isvc) in
  let m := ensure_map (Annotations (isvc_ObjectMeta isvc)) in
  outcome (MutateInferenceService isvc) w = Some
    match read KTenant (mkNN "" ns) w with
    | Ok t =>
        let d := derived_annotation isvc t in
        (set_isvc_Annotations (injected ns (Some (printed d)) m) isvc, None)
    | Err err =>
        (set_isvc_Annotations (injected ns None m) isvc, IgnoreNotFound err)
    end.
Proof.
  intros [Ho Ht] ns m. unfold MutateInferenceService, IgnoreNotFound. cluster_simpl.
  fold ns m. destruct (read _ _ w) as [t|err] eqn:Hr.
  - rewrite itoa_prints by (apply Calculate_int32; [by apply Ht|done]). done.
  - by destruct (IsNotFound err).
Qed.

(** Mutating the mutated object gives the same object. *)
Lemma MutateInferenceService_again (isvc isvc' : InferenceService)
    (err : option error) (w : W) (Hint32 : priorities_int32 isvc w)
    (Hrun : outcome (MutateInferenceService isvc) w = Some (isvc', err)) :
  outcome (MutateInferenceService isvc') w = Some (isvc', err).
Proof.
  rewrite MutateInferenceService_run in Hrun by done.
  assert (Hint32' : priorities_int32 isvc' w).
  { destruct (read KTenant _ w); simplify_eq/=; exact Hint32. }
  rewrite MutateInferenceService_run by done. cbv zeta.
  destruct (read KTenant (mkNN "" (Namespace_ (isvc_ObjectMeta isvc))) w) as [t|e] eqn:Hr;
    cbv zeta in Hrun; simplify_eq; autorewrite with cnip_rw; rewrite Hr;
    autorewrite with cnip_rw; by rewrite injected_idem.
Qed.


End cluster.
