(* ===== verification/Webhook.v ===== *)
(** * Admission webhooks: [operator/internal/webhook]

    The validating and the mutating handler that controller-runtime calls with
    a decoded object; registration with the manager is not modelled. *)
From S2P Require Import Prelude.
From S2P Require Import ApiTypes.
From S2P Require Import ApiClient.
From S2P Require Import Admission.
From S2P Require Import Mutation.

(** The type assertion of [obj] to a pointer to an InferenceService. *)
Definition as_InferenceService (o : Object) : option InferenceService :=
  match o with
  | Typed k o =>
      match k return obj k -> option InferenceService with
      | KInferenceService => fun isvc => Some isvc
      | _ => fun _ => None
      end o
  | Untyped _ => None
  end.

(** What the verb %T prints. *)
Definition go_type (o : Object) : string :=
  match o with
  | Typed k _ =>
      match k with
      | KTenant => "*v1alpha1.Tenant" | KModel => "*v1alpha1.Model"
      | KInferenceService => "*v1alpha1.InferenceService"
      | KPlatformPolicy => "*v1alpha1.PlatformPolicy"
      | KNamespace => "*v1.Namespace" | KResourceQuota => "*v1.ResourceQuota"
      | KServiceAccount => "*v1.ServiceAccount" | KRole => "*v1.Role"
      | KRoleBinding => "*v1.RoleBinding" | KNetworkPolicy => "*v1.NetworkPolicy"
      | KJob => "*v1.Job"
      end
  | Untyped t => t
  end.

(** ** The handlers *)

(** The warnings, always none, and the error that denies the request. *)
Definition ValidateCreate (o : Object) : Prog (list string * option error) :=
  match as_InferenceService o with
  | None => Ret ([], Some (errorf ("expected an InferenceService, got " +:+ go_type o)))
  | Some isvc =>
      let! decision := ValidateInferenceService isvc in
      if negb (Allowed decision) then Ret ([], Some (decision_as_error decision))
      else Ret ([], None)
  end.

Definition ValidateUpdate (oldObj newObj : Object) : Prog (list string * option error) :=
  match as_InferenceService newObj with
  | None => Ret ([], Some (errorf ("expected an InferenceService, got " +:+ go_type newObj)))
  | Some isvc =>
      let! decision := ValidateInferenceService isvc in
      if negb (Allowed decision) then Ret ([], Some (decision_as_error decision))
      else Ret ([], None)
  end.

Definition ValidateDelete (o : Object) : Prog (list string * option error) :=
  Ret ([], None).

(** The object after the call, and the error. *)
Definition Default_ (o : Object) : Prog (Object * option error) :=
  match as_InferenceService o with
  | None => Ret (o, Some (errorf ("expected an InferenceService, got " +:+ go_type o)))
  | Some isvc =>
      let! '(isvc, err) := MutateInferenceService isvc in
      Ret (Typed KInferenceService isvc, err)
  end.

(** ** Properties *)

Lemma wp_read_only_sound {A} (p : Prog A) t o :
  read_only p -> exec p t o -> Forall (fun e => is_write (ev_req e) = false) t.
Proof.
  intros Hp He. destruct (wp_sound _ _ _ _ _ He [] Hp) as [Hg _].
  by apply guarded_Forall with (R := fun r => is_write r = false) in Hg.
Qed.

Lemma ValidateCreate_read_only o : read_only (ValidateCreate o).
Proof.
  unfold read_only, ValidateCreate. destruct (as_InferenceService o) as [isvc|]; [|done].
  apply wp_bind. eapply wp_mono; [|apply ValidateInferenceService_read_only].
  intros past [d|] _; [|done]. by destruct (Allowed d).
Qed.

Lemma Default_read_only o : read_only (Default_ o).
Proof.
  unfold read_only, Default_. destruct (as_InferenceService o) as [isvc|]; [|done].
  apply wp_bind. eapply wp_mono; [|apply MutateInferenceService_read_only].
  by intros past [[isvc' err]|] _.
Qed.

(** The webhooks are registered with sideEffects=None, and in every
    execution, whatever the API server answers, the three validation handlers
    and the defaulter issue read requests only. *)
Theorem webhooks_have_no_side_effects (o old : Object) (t : list Event) :
  (forall r, exec (ValidateCreate o) t r \/ exec (ValidateUpdate old o) t r \/
             exec (ValidateDelete o) t r ->
     Forall (fun e => is_write (ev_req e) = false) t) /\
  (forall r, exec (Default_ o) t r ->
     Forall (fun e => is_write (ev_req e) = false) t).
Proof.
  split.
  - intros r [H|[H|H]]; (eapply wp_read_only_sound; [|exact H]);
      [apply ValidateCreate_read_only|apply ValidateCreate_read_only|done].
  - intros r H. eapply wp_read_only_sound; [|exact H]. apply Default_read_only.
Qed.

Section cluster.
Context {W : Type} `{!Cluster W, !ClusterLaws W}.

(** On an InferenceService the create and the update handler agree,
    answer without error exactly when the validation allows it, and deny with
    the decision's own message; the old object is not looked at.  Any other
    object is an error, and every delete is allowed. *)
Theorem validation_handlers_spec (isvc : InferenceService) (old o : Object) (w : W) :
  (exists d, outcome (ValidateInferenceService isvc) w = Some d /\
     outcome (ValidateCreate (Typed KInferenceService isvc)) w =
       outcome (ValidateUpdate old (Typed KInferenceService isvc)) w /\
     outcome (ValidateCreate (Typed KInferenceService isvc)) w =
       Some ([], if Allowed d then None
                 else Some (mkError StatusReasonUnknown (decision_Error d)))) /\
  (as_InferenceService o = None ->
     exists e, outcome (ValidateCreate o) w = Some ([], Some e) /\
               outcome (ValidateUpdate old o) w = Some ([], Some e)) /\
  outcome (ValidateDelete o) w = Some ([], None).
Proof.
  split_and!; [| |done].
  - destruct (ValidateInferenceService_decides isvc w) as (d & Ho).
    exists d. split; [done|]. split; [done|]. unfold ValidateCreate. simpl.
    cluster_simpl. rewrite Ho. by destruct (Allowed d).
  - intros Ho. unfold ValidateCreate, ValidateUpdate. rewrite Ho. by eexists.
Qed.

(** C31: the mutating webhook runs before the validating one, and it does not
    change the verdict: whatever the defaulter makes of the submitted object,
    the create handler answers on it as on the object that was submitted. *)
Theorem mutation_preserves_verdict (o o' : Object) (err : option error) (w : W)
    (Hint32 : forall isvc, as_InferenceService o = Some isvc -> priorities_int32 isvc w)
    (Hrun : outcome (Default_ o) w = Some (o', err)) :
  outcome (ValidateCreate o') w = outcome (ValidateCreate o) w.
Proof.
  unfold Default_ in Hrun. destruct (as_InferenceService o) as [isvc|] eqn:Ho;
    [|cbn in Hrun; by simplify_eq].
  rewrite outcome_bind, MutateInferenceService_run in Hrun by auto. cbv zeta in Hrun.
  assert (exists a, o' = Typed KInferenceService (set_isvc_Annotations a isvc)) as [a ->].
  { destruct (read KTenant _ w); cbn in Hrun; simplify_eq; by eexists. }
  unfold ValidateCreate. rewrite Ho. reflexivity.
Qed.
End cluster.
