(* ===== verification/Scheduling.v ===== *)
(** * Scheduling: [operator/internal/scheduling]

    [sizing.go] and [workload.go]: the Job, labelled for Kueue, that backs an
    InferenceService.  A function that calls [resource.MustParse] returns an
    [option], where [None] is its panic. *)
From S2P Require Import Prelude.
From S2P Require Import Decimal.
From S2P Require Import ApiTypes.
From S2P Require Import K8sLib.

(** ** Sizing: [sizing.go] *)

Section sizing.
Context `{L : K8sLib}.

(** [(cpu, memory)], of two calls of MustParse. *)
Definition parse_both (cpu memory : string) : option (Quantity * Quantity) :=
  c ← MustParse cpu; m ← MustParse memory; mret (c, m).

Definition CPURequest (workloadClass : string) : option (Quantity * Quantity) :=
  if decide (workloadClass = "interactive") then parse_both "500m" "1Gi"
  else if decide (workloadClass = "batch") then parse_both "250m" "512Mi"
  else if decide (workloadClass = "background") then parse_both "100m" "256Mi"
  else parse_both "250m" "512Mi".
End sizing.

(** ** Workload: [workload.go] *)

Definition KueueQueueLabel : string := "kueue.x-k8s.io/queue-name".
Definition KueuePriorityClassLabel : string := "kueue.x-k8s.io/priority-class".
Definition InferenceServiceLabel : string := "platform.platform.io/inferenceservice".

Definition PriorityClassForWorkloadClass (workloadClass : string) : string :=
  if decide (workloadClass = "interactive") then "platform-interactive"
  else if decide (workloadClass = "batch") then "platform-batch"
  else if decide (workloadClass = "background") then "platform-background"
  else "platform-batch".

Definition ReplicaCount (isvc : InferenceService) : Z :=
  match Replicas (isvc_Spec isvc) with
  | None => 1
  | Some r => if decide (r < 1) then 1 else r
  end.

Definition WantsGPU (isvc : InferenceService) : bool :=
  match GPU (isvc_Spec isvc) with Some b => b | None => false end.

Definition GPUResourceName (isvc : InferenceService) : string :=
  if decide (GPUType (isvc_Spec isvc) = "mig-3g.40gb") then "nvidia.com/mig-3g.40gb"
  else "nvidia.com/gpu".

(** Pointers to fresh variables. *)
Definition boolPtr (b : bool) : option bool := Some b.
Definition int64Ptr (i : Z) : option Z := Some i.
Definition int32Ptr (i : Z) : option Z := Some i.
Definition stringPtr (s : string) : option string := Some s.

Definition restrictedSecurityContext : SecurityContext :=
  mkSecurityContext (Some false) (Some true) (int64Ptr 1000)
    (Some (mkCapabilities [] ["ALL"])) (Some SeccompProfileTypeRuntimeDefault).

Definition gpuSecurityContext : SecurityContext :=
  mkSecurityContext (Some false) None None (Some (mkCapabilities [] ["ALL"])) None.

(** The model is a pointer, which may be nil. *)
Definition ModelURI (model : option Model) : string :=
  match model with
  | None => ""
  | Some m => URI (Source (model_Spec m))
  end.

Section workload.
Context `{L : K8sLib}.

Definition BuildJob (isvc : InferenceService) (model : option Model)
    (localQueueName : string) : option Job :=
  let priorityClass := PriorityClassForWorkloadClass (WorkloadClass (isvc_Spec isvc)) in
  let replicas := ReplicaCount isvc in
  let wantsGPU := WantsGPU isvc in
  let name := Name (isvc_ObjectMeta isvc) in
  container ←
    (if wantsGPU then
       one ← MustParse "1";
       mret (mkContainer "vllm" "vllm/vllm-openai:v0.29.0" []
               ["--model"; ModelURI model; "--host"; "0.0.0.0"; "--port"; "8000"]
               (Some gpuSecurityContext)
               (mkResourceRequirements ∅ {[ GPUResourceName isvc := one ]}))
     else
       '(cpu, memory) ← CPURequest (WorkloadClass (isvc_Spec isvc));
       mret (mkContainer "placeholder" "busybox:1.36" ["sleep"; "30"] []
               (Some restrictedSecurityContext)
               (mkResourceRequirements
                  {[ "cpu" := cpu; "memory" := memory ]}
                  {[ "cpu" := cpu; "memory" := memory ]})));
  let podSpec :=
    mkPodSpec RestartPolicyNever [container]
      (if negb wantsGPU then
         Some (mkPodSecurityContext (Some SeccompProfileTypeRuntimeDefault))
       else None)
      (if negb wantsGPU then None else stringPtr "nvidia") in
  mret (mkJob
    (mkObjectMeta name (Namespace_ (isvc_ObjectMeta isvc)) "" 0 0
       (Some {[ KueueQueueLabel := localQueueName;
                KueuePriorityClassLabel := priorityClass;
                InferenceServiceLabel := name ]})
       None
       [mkOwnerReference GroupVersion "InferenceService" name
          (UID (isvc_ObjectMeta isvc)) (boolPtr true) None])
    (mkJobSpec (Some true) (Some 0) (int32Ptr replicas) (int32Ptr replicas)
       (mkPodTemplateSpec (Some {[ InferenceServiceLabel := name ]}) podSpec))).
End workload.

(** ** Specifications *)

(** The cpu and memory of a class, in billionths: the numbers the sizing table
    writes as "500m", "1Gi" and so on. *)
Definition class_size (workloadClass : string) : Quantity * Quantity :=
  let milli n := mkQuantity (n * 1000000) in
  let mebi n := mkQuantity (n * (2 ^ 20 * 1000000000)) in
  if decide (workloadClass = "interactive") then (milli 500, mebi 1024)
  else if decide (workloadClass = "background") then (milli 100, mebi 256)
  else (milli 250, mebi 512).

(** The container-level conditions of the "restricted" Pod Security Standard
    that [workload_test.go] checks, on any pod. *)
Definition container_restricted (pod : PodSpec) (c : Container) : Prop :=
  exists sc, container_SecurityContext c = Some sc /\
    AllowPrivilegeEscalation sc = Some false /\
    RunAsNonRoot sc = Some true /\
    RunAsUser sc <> Some 0 /\
    (exists caps, Capabilities_ sc = Some caps /\ "ALL" ∈ cap_Drop caps /\ cap_Add caps = []) /\
    (SeccompProfile sc = Some SeccompProfileTypeRuntimeDefault \/
     SeccompProfile sc = None /\ exists psc, pod_SecurityContext pod = Some psc /\
       pod_SeccompProfile psc = Some SeccompProfileTypeRuntimeDefault).

Definition pod_restricted (pod : PodSpec) : Prop :=
  Forall (container_restricted pod) (Containers pod).

(** ** Properties *)

Lemma ReplicaCount_positive isvc : 1 <= ReplicaCount isvc.
Proof. unfold ReplicaCount. destruct (Replicas _); [case_decide|]; lia. Qed.

Section properties.
Context `{L : K8sLib, !K8sLibLaws}.

Lemma MustParse_one : MustParse "1" = Some (mkQuantity 1000000000).
Proof. by apply (MustParse_integer _ 1 "" 1000000000). Qed.

(** The sizing table parses: no class panics. *)
Lemma CPURequest_total class : CPURequest class = Some (class_size class).
Proof.
  assert (forall n, (n <= 1000)%N ->
    MustParse (pretty n +:+ "m") = Some (mkQuantity (Z.of_N n * 1000000))) as Hm.
  { intros n Hn. apply (MustParse_integer _ _ "m" 1000000); [done..|].
    unfold max_quantity. lia. }
  assert (forall n, (n <= 1024)%N ->
    MustParse (pretty n +:+ "Mi") = Some (mkQuantity (Z.of_N n * (2 ^ 20 * 1000000000)))) as Hmi.
  { intros n Hn. apply (MustParse_integer _ _ "Mi" (2 ^ 20 * 1000000000)); [done..|].
    unfold max_quantity. lia. }
  assert (MustParse "1Gi" = Some (mkQuantity (1024 * (2 ^ 20 * 1000000000)))) as Hgi.
  { by apply (MustParse_integer _ 1 "Gi" (2 ^ 30 * 1000000000)). }
  unfold CPURequest, class_size, parse_both.
  change "500m" with (pretty 500%N +:+ "m"). change "250m" with (pretty 250%N +:+ "m").
  change "100m" with (pretty 100%N +:+ "m"). change "512Mi" with (pretty 512%N +:+ "Mi").
  change "256Mi" with (pretty 256%N +:+ "Mi").
  repeat case_decide; subst; try done; by rewrite ?Hm, ?Hmi, ?Hgi by lia.
Qed.

(** The container of the job, once the quantities are parsed. *)
Definition job_container (isvc : InferenceService) (model : option Model) : Container :=
  if WantsGPU isvc then
    mkContainer "vllm" "vllm/vllm-openai:v0.29.0" []
      ["--model"; ModelURI model; "--host"; "0.0.0.0"; "--port"; "8000"]
      (Some gpuSecurityContext)
      (mkResourceRequirements ∅ {[ GPUResourceName isvc := mkQuantity 1000000000 ]})
  else
    let '(cpu, memory) := class_size (WorkloadClass (isvc_Spec isvc)) in
    mkContainer "placeholder" "busybox:1.36" ["sleep"; "30"] []
      (Some restrictedSecurityContext)
      (mkResourceRequirements {[ "cpu" := cpu; "memory" := memory ]}
                              {[ "cpu" := cpu; "memory" := memory ]}).

Lemma BuildJob_some isvc model q :
  exists job, BuildJob isvc model q = Some job /\
    Containers (template_Spec (Template (job_Spec job))) = [job_container isvc model] /\
    pod_SecurityContext (template_Spec (Template (job_Spec job))) =
      (if WantsGPU isvc then None
       else Some (mkPodSecurityContext (Some SeccompProfileTypeRuntimeDefault))) /\
    RuntimeClassName (template_Spec (Template (job_Spec job))) =
      (if WantsGPU isvc then Some "nvidia" else None).
Proof.
  unfold BuildJob, job_container. destruct (WantsGPU isvc).
  - rewrite MustParse_one. simpl. by eexists.
  - rewrite CPURequest_total. destruct (class_size _) as [cpu mem]. simpl. by eexists.
Qed.

(** The metadata and the Job fields do not depend on the container. *)
Lemma BuildJob_frame isvc model q job :
  BuildJob isvc model q = Some job ->
  key_of (job_ObjectMeta job) = key_of (isvc_ObjectMeta isvc) /\
  Labels (job_ObjectMeta job) =
    Some {[ KueueQueueLabel := q;
            KueuePriorityClassLabel :=
              PriorityClassForWorkloadClass (WorkloadClass (isvc_Spec isvc));
            InferenceServiceLabel := Name (isvc_ObjectMeta isvc) ]} /\
  OwnerReferences (job_ObjectMeta job) =
    [mkOwnerReference GroupVersion "InferenceService" (Name (isvc_ObjectMeta isvc))
       (UID (isvc_ObjectMeta isvc)) (Some true) None] /\
  Suspend (job_Spec job) = Some true /\ BackoffLimit (job_Spec job) = Some 0 /\
  Completions (job_Spec job) = Some (ReplicaCount isvc) /\
  Parallelism (job_Spec job) = Some (ReplicaCount isvc) /\
  RestartPolicy (template_Spec (Template (job_Spec job))) = RestartPolicyNever.
Proof.
  destruct (BuildJob_some isvc model q) as (job' & Hj & _). unfold BuildJob in *.
  intros Hb. rewrite Hb in Hj. clear Hj.
  destruct (if WantsGPU isvc then _ else _) as [c|]; simpl in Hb; [|done].
  injection Hb as <-. by repeat split.
Qed.

(** C24: BuildJob never panics, and the Job it renders is one Kueue can gate
    and admit as a gang: it is created suspended, labelled with its queue and
    with the priority class of its workload class, it runs and needs the same
    number of pods (at least one, and exactly the requested number when that
    is valid), it is never retried, and the InferenceService of the same
    name and namespace is its single, controlling owner. *)
Theorem BuildJob_admissible (isvc : InferenceService) (model : option Model) (queue : string) :
  exists job, BuildJob isvc model queue = Some job /\
    key KJob job = key KInferenceService isvc /\
    GoMap_lookup (Labels (job_ObjectMeta job)) KueueQueueLabel = Some queue /\
    GoMap_lookup (Labels (job_ObjectMeta job)) KueuePriorityClassLabel =
      Some (PriorityClassForWorkloadClass (WorkloadClass (isvc_Spec isvc))) /\
    Suspend (job_Spec job) = Some true /\ BackoffLimit (job_Spec job) = Some 0 /\
    (exists n, Completions (job_Spec job) = Some n /\ Parallelism (job_Spec job) = Some n /\
       1 <= n /\ (forall r, Replicas (isvc_Spec isvc) = Some r -> 1 <= r -> n = r)) /\
    (exists ref, OwnerReferences (job_ObjectMeta job) = [ref] /\
       owner_Controller ref = Some true /\ refers_to isvc ref) /\
    (exists c, Containers (template_Spec (Template (job_Spec job))) = [c]).
Proof.
  destruct (BuildJob_some isvc model queue) as (job & Hj & Hc & _). exists job.
  destruct (BuildJob_frame _ _ _ _ Hj) as (Hk & Hl & Ho & Hs & Hb & Hco & Hpa & _).
  split; [done|]. split; [exact Hk|].
  split; [by rewrite Hl; vm_compute|]. split; [by rewrite Hl; vm_compute|].
  split; [done|]. split; [done|]. split.
  - exists (ReplicaCount isvc). split_and!; [done..|apply ReplicaCount_positive|].
    intros r Hr Hpos. unfold ReplicaCount. rewrite Hr. by rewrite decide_False by lia.
  - rewrite Ho. split; [|by eexists]. eexists. split; [done|]. by repeat split.
Qed.

(** C25: the pod of a CPU service satisfies the "restricted" Pod Security
    Standard, requests exactly the size of its workload class with equal
    limits, and asks for no other resource. *)
Theorem BuildJob_cpu_restricted (isvc : InferenceService) (model : option Model)
    (queue : string) (job : Job)
    (Hjob : BuildJob isvc model queue = Some job) (Hcpu : WantsGPU isvc = false) :
  let pod := template_Spec (Template (job_Spec job)) in
  pod_restricted pod /\ RuntimeClassName pod = None /\
  Forall (fun c =>
    Requests (container_Resources c) = Limits (container_Resources c) /\
    Limits (container_Resources c) !! "cpu" =
      Some (class_size (WorkloadClass (isvc_Spec isvc))).1 /\
    Limits (container_Resources c) !! "memory" =
      Some (class_size (WorkloadClass (isvc_Spec isvc))).2 /\
    dom (Limits (container_Resources c)) = {[ "cpu"; "memory" ]}) (Containers pod).
Proof.
  destruct (BuildJob_some isvc model queue) as (job' & Hj & Hc & Hp & Hr).
  rewrite Hjob in Hj. injection Hj as <-. rewrite Hcpu in Hp, Hr. cbv zeta.
  unfold pod_restricted. rewrite Hc, !Forall_singleton. unfold job_container. rewrite Hcpu.
  destruct (class_size _) as [cpu mem]. simpl. split_and!; try done.
  exists restrictedSecurityContext. simpl. split_and!; try done; [|by left].
  eexists. split_and!; [done|set_solver|done].
Qed.

(** C26: the pod of a GPU service asks for exactly one device and for nothing
    else: one MIG slice when the GPU type says so, one full GPU for any other
    type; it runs vLLM on the model's URI under the NVIDIA runtime class.  It
    does not satisfy the "restricted" Pod Security Standard that every tenant
    namespace enforces. *)
Theorem BuildJob_gpu_resource (isvc : InferenceService) (model : option Model)
    (queue : string) (job : Job)
    (Hjob : BuildJob isvc model queue = Some job) (Hgpu : WantsGPU isvc = true) :
  let pod := template_Spec (Template (job_Spec job)) in
  RuntimeClassName pod = Some "nvidia" /\
  Forall (fun c =>
    Limits (container_Resources c) =
      {[ (if decide (GPUType (isvc_Spec isvc) = "mig-3g.40gb")
          then "nvidia.com/mig-3g.40gb" else "nvidia.com/gpu") := mkQuantity 1000000000 ]} /\
    Requests (container_Resources c) = ∅ /\
    Args c !! 1%nat = Some (ModelURI model)) (Containers pod) /\
  ~ pod_restricted pod.
Proof.
  destruct (BuildJob_some isvc model queue) as (job' & Hj & Hc & Hp & Hr).
  rewrite Hjob in Hj. injection Hj as <-. rewrite Hgpu in Hr. cbv zeta. unfold pod_restricted.
  rewrite Hc, !Forall_singleton. unfold job_container. rewrite Hgpu.
  split; [done|]. split; [done|].
  intros (sc & Hsc & _ & Hn & _). simpl in Hsc. by injection Hsc as <-.
Qed.
End properties.
