(* ===== verification/Conditions.v ===== *)
(** * Status conditions

    [statusUnchanged] of [operator/internal/controller/controller_helpers.go],
    and the algebra of condition lists the three controllers share.  A list is
    seen through [sigs], the fields change detection compares, as an
    association list in which setting a condition is [upsert]. *)
From S2P Require Import Prelude.
From S2P Require Import ApiTypes.
From S2P Require Import K8sLib.

(** ** Change detection *)

(** The loop over the indices of [old]; both slices have its length. *)
Fixpoint conditions_match (old new : list Condition) : bool :=
  match old, new with
  | o :: old', n :: new' =>
      if decide (Type_ o <> Type_ n \/ Status_ o <> Status_ n \/ Reason o <> Reason n)
      then false else conditions_match old' new'
  | _, _ => true
  end.

Definition statusUnchanged (old new : list Condition) : bool :=
  if decide (length old <> length new) then false else conditions_match old new.

(** [err == nil], and what a condition says of the outcome of a step. *)
Definition is_nil (err : option error) : bool :=
  match err with None => true | Some _ => false end.

Definition verdict (err : option error) (okReason failReason : string)
    : ConditionStatus * string :=
  match err with None => (ConditionTrue, okReason) | Some _ => (ConditionFalse, failReason) end.

(** ** The view of change detection *)

Abbreviation sig := (string * (ConditionStatus * string))%type.
Definition sig_of (c : Condition) : sig := (Type_ c, (Status_ c, Reason c)).
Definition sigs (cs : list Condition) : list sig := map sig_of cs.

(** The first entry of a type. *)
Fixpoint assoc (ty : string) (l : list sig) : option (ConditionStatus * string) :=
  match l with
  | [] => None
  | (ty', v) :: l' => if decide (ty' = ty) then Some v else assoc ty l'
  end.

(** Replaces the first entry of the type, or appends one. *)
Fixpoint upsert (ty : string) (v : ConditionStatus * string) (l : list sig) : list sig :=
  match l with
  | [] => [(ty, v)]
  | (ty', v') :: l' => if decide (ty' = ty) then (ty', v) :: l' else (ty', v') :: upsert ty v l'
  end.

Lemma sig_of_eq c c' :
  sig_of c = sig_of c' <->
  ~ (Type_ c <> Type_ c' \/ Status_ c <> Status_ c' \/ Reason c <> Reason c').
Proof.
  unfold sig_of. split.
  - intros [= ? ? ?] [?|[?|?]]; done.
  - intros H. assert (Type_ c = Type_ c') as -> by (apply dec_stable; tauto).
    assert (Status_ c = Status_ c') as -> by (apply dec_stable; tauto).
    by assert (Reason c = Reason c') as -> by (apply dec_stable; tauto).
Qed.

Lemma conditions_match_sigs old new :
  length old = length new -> conditions_match old new = bool_decide (sigs old = sigs new).
Proof.
  revert new. induction old as [|o old IH]; intros [|n new] Hl; simplify_eq/=; [done|].
  case_decide as Hd.
  - symmetry. apply bool_decide_eq_false. intros Heq.
    assert (sig_of o = sig_of n) as Ho by congruence. by apply sig_of_eq in Ho.
  - rewrite IH by done. apply bool_decide_ext. apply sig_of_eq in Hd. rewrite Hd.
    split; [by intros ->|intros Heq; congruence].
Qed.

Lemma statusUnchanged_sigs old new :
  statusUnchanged old new = bool_decide (sigs old = sigs new).
Proof.
  unfold statusUnchanged. case_decide as Hl.
  - symmetry. apply bool_decide_eq_false. intros Hs. apply (f_equal length) in Hs.
    unfold sigs in Hs. by rewrite !length_map in Hs.
  - apply conditions_match_sigs. lia.
Qed.

(** Two condition lists count as unchanged exactly when they agree, in
    order, on the type, the status and the reason of every condition; a
    difference in a message or a time is not a change. *)
Theorem statusUnchanged_iff (old new : list Condition) :
  statusUnchanged old new = true <->
  map (fun c => (Type_ c, (Status_ c, Reason c))) old =
  map (fun c => (Type_ c, (Status_ c, Reason c))) new.
Proof. rewrite statusUnchanged_sigs. apply bool_decide_eq_true. Qed.

(** ** Facts about [assoc] and [upsert] *)

Lemma assoc_upsert_eq ty v l : assoc ty (upsert ty v l) = Some v.
Proof. induction l as [|[ty' v'] l IH]; simpl; repeat (case_decide; simpl); done. Qed.

Lemma assoc_upsert_ne ty ty' v l : ty <> ty' -> assoc ty (upsert ty' v l) = assoc ty l.
Proof.
  intros Hne. induction l as [|[ty1 v1] l IH]; simpl; [by rewrite decide_False|].
  repeat (case_decide; simpl); congruence.
Qed.

Lemma upsert_same ty v l : assoc ty l = Some v -> upsert ty v l = l.
Proof.
  induction l as [|[ty1 v1] l IH]; simpl; [done|].
  case_decide; intros; [by simplify_eq|]. by rewrite IH.
Qed.

(** Several conditions set one after the other, and a list that has them all. *)
Definition upsert_all (vs l : list sig) : list sig :=
  fold_left (fun l v => upsert v.1 v.2 l) vs l.
Definition reports_all (vs l : list sig) : Prop :=
  Forall (fun v => assoc v.1 l = Some v.2) vs.

#[export] Instance reports_all_dec vs l : Decision (reports_all vs l).
Proof. unfold reports_all. apply _. Defined.

Lemma assoc_upsert_all_ne ty vs l :
  ty ∉ map fst vs -> assoc ty (upsert_all vs l) = assoc ty l.
Proof.
  unfold upsert_all. revert l. induction vs as [|v vs IH]; intros l Hni; simpl; [done|].
  apply not_elem_of_cons in Hni as [Hne Hni]. rewrite IH by done. by apply assoc_upsert_ne.
Qed.

Lemma upsert_all_reports vs l : NoDup (map fst vs) -> reports_all vs (upsert_all vs l).
Proof.
  revert l. induction vs as [|v vs IH]; intros l Hnd; simpl; [constructor|].
  apply list.NoDup_cons in Hnd as [Hni Hnd]. constructor.
  - by rewrite (assoc_upsert_all_ne v.1 vs), assoc_upsert_eq.
  - by apply IH.
Qed.

Lemma upsert_all_noop vs l : NoDup (map fst vs) -> upsert_all vs l = l <-> reports_all vs l.
Proof.
  intros Hnd. split; [intros <-; by apply upsert_all_reports|].
  unfold upsert_all. induction 1 as [|v vs Hv _ IH]; simpl; [done|].
  rewrite upsert_same by done. apply IH. by apply list.NoDup_cons in Hnd as [].
Qed.

#[export] Hint Rewrite assoc_upsert_eq : cnip_rw.

(** ** Setting a condition *)

Lemma no_type_or_split ty (cs : list Condition) :
  no_type ty cs \/ exists pre c post, cs = pre ++ c :: post /\ no_type ty pre /\ Type_ c = ty.
Proof.
  induction cs as [|c cs IH]; [left; constructor|].
  destruct (decide (Type_ c = ty)) as [Hc|Hc].
  - right. exists [], c, cs. split; [done|]. split; [constructor|done].
  - destruct IH as [IH|(pre & c' & post & -> & Hp & Hc')].
    + left. by constructor.
    + right. exists (c :: pre), c', post. split; [done|]. split; [by constructor|done].
Qed.

Lemma sigs_app cs cs' : sigs (cs ++ cs') = sigs cs ++ sigs cs'.
Proof. apply map_app. Qed.

Lemma upsert_absent ty v cs : no_type ty cs -> upsert ty v (sigs cs) = sigs cs ++ [(ty, v)].
Proof. induction 1 as [|c cs Hc _ IH]; simpl; [done|]. rewrite decide_False by done. by rewrite IH. Qed.

Lemma upsert_present ty v pre c post :
  no_type ty pre -> Type_ c = ty ->
  upsert ty v (sigs (pre ++ c :: post)) = sigs pre ++ (ty, v) :: sigs post.
Proof.
  intros Hp Hc. induction Hp as [|c1 pre Hc1 _ IH]; simpl.
  - by rewrite decide_True, Hc.
  - rewrite decide_False by done. by rewrite IH.
Qed.

Section conditions.
Context `{L : K8sLib, !K8sLibLaws}.

(** Setting a condition is an [upsert] of its status and reason. *)
Lemma sigs_SetStatusCondition now cs c :
  sigs (SetStatusCondition now cs c) = upsert (Type_ c) (Status_ c, Reason c) (sigs cs).
Proof.
  destruct (no_type_or_split (Type_ c) cs) as [Hn|(pre & c0 & post & -> & Hp & Hc)].
  - destruct (SetStatusCondition_absent now cs c Hn) as (c' & -> & Ht & Hs & Hr & _).
    rewrite sigs_app, upsert_absent by done. simpl. unfold sig_of. by rewrite Ht, Hs, Hr.
  - destruct (SetStatusCondition_present now pre c0 post c Hp Hc)
      as (c' & -> & Ht & Hs & Hr & _).
    rewrite upsert_present by done. rewrite sigs_app. simpl. unfold sig_of.
    by rewrite Ht, Hs, Hr.
Qed.

(** [IsStatusConditionTrue] reads the first condition of the type. *)
Lemma IsStatusConditionTrue_assoc cs ty :
  IsStatusConditionTrue cs ty = true <->
  exists reason, assoc ty (sigs cs) = Some (ConditionTrue, reason).
Proof.
  rewrite IsStatusConditionTrue_spec. split.
  - intros (pre & c & post & -> & Hp & Hc & Hs). exists (Reason c).
    induction Hp as [|c1 pre Hc1 _ IH]; simpl.
    + by rewrite decide_True, Hs.
    + by rewrite decide_False.
  - intros [reason Ha].
    destruct (no_type_or_split ty cs) as [Hn|(pre & c & post & -> & Hp & Hc)].
    + exfalso. induction Hn as [|c1 cs Hc1 _ IH]; simpl in Ha; [done|].
      rewrite decide_False in Ha by done. auto.
    + exists pre, c, post. split; [done|]. split; [done|]. split; [done|].
      induction Hp as [|c1 pre Hc1 _ IH]; simpl in Ha.
      * rewrite decide_True in Ha by done. by simplify_eq.
      * rewrite decide_False in Ha by done. auto.
Qed.
End conditions.
