(* ===== verification/Kueue.v ===== *)
(** * The queues of the platform

    [gitops/kueue-resources/cluster-queue.yaml]: the priority classes, flavors
    and quotas that are declared to Kueue, against the Jobs [internal/scheduling]
    renders for it and the priorities [internal/priority] derives. *)
From S2P Require Import Prelude.
From S2P Require Import ApiTypes.
From S2P Require Import K8sLib.
From S2P Require Import Priority.
From S2P Require Import Scheduling.

(** ** The declarations *)

(** Numbers, and gibibytes, in billionths. *)
Definition whole (n : Z) : Quantity := mkQuantity (n * 1000000000).
Definition gibi (n : Z) : Quantity := mkQuantity (n * (2 ^ 30 * 1000000000)).

Record FlavorQuota := mkFlavorQuota { nominalQuota : Quantity; borrowingLimit : option Quantity }.
Record Flavor := mkFlavor { flavor_Name : string; flavor_Resources : gmap string FlavorQuota }.
Record ResourceGroup := mkResourceGroup { coveredResources : list string; group_Flavors : list Flavor }.
Record ClusterQueue := mkClusterQueue {
  cq_Name : string;
  cohortName : string;
  resourceGroups : list ResourceGroup
}.

Definition workload_priority_classes : gmap string Z :=
  {[ "platform-interactive" := 1000; "platform-batch" := 333; "platform-background" := 100 ]}.

Definition resource_flavors : list string := ["cpu-default"; "mig-3g-40gb"].

Definition tenant_group : ResourceGroup :=
  mkResourceGroup ["cpu"; "memory"]
    [mkFlavor "cpu-default"
       {[ "cpu" := mkFlavorQuota (whole 2) (Some (whole 2));
          "memory" := mkFlavorQuota (gibi 4) (Some (gibi 4)) ]}].

Definition finance_cluster_queue : ClusterQueue :=
  mkClusterQueue "finance-cluster-queue" "cnip-cohort" [tenant_group].
Definition research_cluster_queue : ClusterQueue :=
  mkClusterQueue "research-cluster-queue" "cnip-cohort" [tenant_group].
Definition gpu_cluster_queue : ClusterQueue :=
  mkClusterQueue "gpu-cluster-queue" ""
    [mkResourceGroup ["cpu"; "memory"; "nvidia.com/gpu"]
       [mkFlavor "gpu-default"
          {[ "cpu" := mkFlavorQuota (whole 24) None; "memory" := mkFlavorQuota (gibi 196) None;
             "nvidia.com/gpu" := mkFlavorQuota (whole 1) None ]}];
     mkResourceGroup ["nvidia.com/mig-3g.40gb"]
       [mkFlavor "mig-3g-40gb" {[ "nvidia.com/mig-3g.40gb" := mkFlavorQuota (whole 2) None ]}]].

(** ** What Kueue makes of them, by its documentation *)

(** A workload counts with the requests of its pods, of which there are as many
    as run in parallel; what a container only limits it requests. *)
Definition container_requests (c : Container) : ResourceList :=
  Requests (container_Resources c) ∪ Limits (container_Resources c).
Definition add_requests (a b : ResourceList) : ResourceList :=
  union_with (fun x y => Some (mkQuantity (nano x + nano y))) a b.
Definition job_requests (job : Job) : ResourceList :=
  (fun q => mkQuantity (nano q * default 1 (Parallelism (job_Spec job)))) <$>
    foldr (fun c => add_requests (container_requests c)) ∅
      (Containers (template_Spec (Template (job_Spec job)))).

(** The most a workload can be assigned of a resource: the nominal quota and
    what may be borrowed, of the one flavor that has the resource. *)
Definition limit (cq : ClusterQueue) (resource : string) : option Z :=
  let quotas := omap (fun f => flavor_Resources f !! resource)
                  (concat (map group_Flavors (resourceGroups cq))) in
  (fun fq => nano (nominalQuota fq) + from_option nano 0 (borrowingLimit fq)) <$> head quotas.

(** All of a gang fits an empty queue; one that does not is never admitted. *)
Definition admissible (cq : ClusterQueue) (total : ResourceList) : Prop :=
  map_Forall (fun r q => exists l, limit cq r = Some l /\ nano q <= l) total.

(** ** Properties *)

(** The largest gang that fits. *)
Definition largest_gang (isvc : InferenceService) : Z :=
  if WantsGPU isvc then
    if decide (GPUType (isvc_Spec isvc) = "mig-3g.40gb") then 2 else 1
  else if decide (WorkloadClass (isvc_Spec isvc) = "interactive") then 8
  else if decide (WorkloadClass (isvc_Spec isvc) = "background") then 32 else 16.

Section properties.
Context `{L : K8sLib, !K8sLibLaws}.

Lemma job_requests_BuildJob isvc model q job :
  BuildJob isvc model q = Some job ->
  job_requests job =
    if WantsGPU isvc then {[ GPUResourceName isvc := whole (ReplicaCount isvc) ]}
    else {[ "cpu" := mkQuantity (nano (class_size (WorkloadClass (isvc_Spec isvc))).1 * ReplicaCount isvc);
            "memory" := mkQuantity (nano (class_size (WorkloadClass (isvc_Spec isvc))).2 * ReplicaCount isvc) ]}.
Proof.
  intros Hj. destruct (BuildJob_some isvc model q) as (job' & Hj' & Hc & _).
  replace job' with job in Hc by congruence.
  destruct (BuildJob_frame _ _ _ _ Hj) as (_ & _ & _ & _ & _ & _ & Hp & _).
  unfold job_requests. rewrite Hc, Hp. unfold job_container, add_requests. cbn [foldr default].
  rewrite (right_id_L ∅ (union_with _)). unfold container_requests.
  destruct (WantsGPU isvc); cbn [container_Resources Requests Limits].
  - rewrite (left_id_L ∅ (∪)), map_fmap_singleton. f_equal. unfold whole. f_equal. cbn [nano default]. simpl. lia.
  - destruct (class_size _) as [cpu mem]. cbn [container_Resources Requests Limits].
    rewrite (idemp_L (∪)), fmap_insert, map_fmap_singleton. done.
Qed.

Lemma limit_tenant cq :
  cq = finance_cluster_queue \/ cq = research_cluster_queue ->
  limit cq "cpu" = Some (nano (whole 4)) /\ limit cq "memory" = Some (nano (gibi 8)).
Proof. by intros [-> | ->]. Qed.

Lemma limit_gpu :
  limit gpu_cluster_queue "nvidia.com/mig-3g.40gb" = Some (nano (whole 2)) /\
  limit gpu_cluster_queue "nvidia.com/gpu" = Some (nano (whole 1)).
Proof. done. Qed.

(** C27: in the queue of either tenant exactly the CPU services of at most 8
    interactive, 16 batch or 32 background replicas fit the quota with all that
    may be borrowed; in the GPU queue exactly those of one full GPU or two MIG
    slices.  The gang of a larger one is never admitted. *)
Theorem gang_fits_iff (isvc : InferenceService) (model : option Model) (queue : string)
    (job : Job) (cq : ClusterQueue)
    (Hjob : BuildJob isvc model queue = Some job)
    (Hcq : if WantsGPU isvc then cq = gpu_cluster_queue
           else cq = finance_cluster_queue \/ cq = research_cluster_queue) :
  admissible cq (job_requests job) <-> ReplicaCount isvc <= largest_gang isvc.
Proof.
  rewrite (job_requests_BuildJob _ _ _ _ Hjob). unfold admissible, largest_gang.
  assert (forall l q, (exists l', Some l = Some l' /\ q <= l') <-> q <= l) as Hex
    by (intros l q; split; [by intros (l' & [= <-] & ?)|by exists l]).
  destruct (WantsGPU isvc).
  - subst cq. rewrite map_Forall_singleton. destruct limit_gpu as [Hmig Hfull].
    unfold GPUResourceName. case_decide; rewrite ?Hmig, ?Hfull, Hex; unfold whole; cbn [nano]; lia.
  - destruct (limit_tenant cq Hcq) as [Hc Hm].
    rewrite map_Forall_insert, map_Forall_singleton by done. rewrite Hc, Hm, !Hex.
    unfold class_size, whole, gibi.
    repeat case_decide; subst; try done; cbn [fst snd nano]; lia.
Qed.

(** The classes the CRD admits. *)
Definition workload_classes : list string := ["interactive"; "batch"; "background"].

(** C28: every priority class a Job is labelled with is declared; for the
    classes the CRD admits its value is the priority derived from the highest
    tenant priority, and the order of the values is the order of the derived
    priorities of any one tenant.  An override in the spec is unknown to Kueue:
    it can reverse the order of the derived priorities, but not that of the
    values. *)
Theorem priority_classes_declared :
  (forall c, exists v, workload_priority_classes !! PriorityClassForWorkloadClass c = Some v /\
     (c ∈ workload_classes -> v = Calculate 1000 c None)) /\
  (forall p c1 c2 v1 v2, 0 <= p <= max_int32 -> c1 ∈ workload_classes -> c2 ∈ workload_classes ->
     workload_priority_classes !! PriorityClassForWorkloadClass c1 = Some v1 ->
     workload_priority_classes !! PriorityClassForWorkloadClass c2 = Some v2 ->
     v1 <= v2 -> Calculate p c1 None <= Calculate p c2 None) /\
  (exists p c1 c2 o v1 v2, 0 <= p <= 1000 /\
     workload_priority_classes !! PriorityClassForWorkloadClass c1 = Some v1 /\
     workload_priority_classes !! PriorityClassForWorkloadClass c2 = Some v2 /\
     v1 < v2 /\ Calculate p c2 None < Calculate p c1 (Some o)).
Proof.
  split; [|split].
  - intros c. unfold PriorityClassForWorkloadClass, workload_classes.
    repeat case_decide; subst; eexists; (split; [by vm_compute|]); intros Hc; try done.
    by rewrite !elem_of_cons, elem_of_nil in Hc; destruct Hc as [?|[?|[?|?]]].
  - intros p c1 c2 v1 v2 Hp H1 H2 Hv1 Hv2 Hle. unfold workload_classes in *.
    rewrite !elem_of_cons, elem_of_nil in H1, H2.
    destruct (quot_scale p 3 10) as [[? ?] ?]; [lia..|].
    assert (int32_ok p) by (unfold int32_ok, min_int32; lia).
    rewrite !Calculate_exact by done.
    destruct H1 as [->|[->|[->|[]]]], H2 as [->|[->|[->|[]]]];
      vm_compute in Hv1, Hv2; simplify_eq; simpl; lia.
  - exists 100, "background", "interactive", 101, 100, 1000. split_and!; try done.
Qed.

(** The flavor of full GPUs is not among those declared. *)
Lemma gpu_flavor_undeclared :
  Exists (fun f => flavor_Name f ∉ resource_flavors)
    (concat (map group_Flavors (resourceGroups gpu_cluster_queue))) /\
  Forall (fun f => flavor_Name f ∈ resource_flavors)
    (concat (map group_Flavors (resourceGroups finance_cluster_queue))).
Proof. split; by apply (bool_decide_unpack _). Qed.
End properties.
