(* ===== verification/ModelController.v ===== *)
(** * Model controller: [operator/internal/controller/model_controller.go]

    Verifies a Model's artifact and reports the verdict in its status.  The
    object a handler holds in memory is threaded through the functions that
    assign to its fields. *)
From S2P Require Import Prelude.
From S2P Require Import ApiTypes.
From S2P Require Import K8sLib.
From S2P Require Import ApiClient.
From S2P Require Import Conditions.

Definition set_model_Status (s : ModelStatus) (m : Model) : Model :=
  mkModel (model_ObjectMeta m) (model_Spec m) s.

(** The model after the call, and "" or the reason of the failure. *)
Definition verifyArtifact (m : Model) : Model * string :=
  let src := Source (model_Spec m) in
  if decide (URI src = "") then (m, "model source URI is empty")
  else if RequireSignedImage (model_Spec m) && bool_decide (Digest src = "") then
    (m, "requireSignedImage is true but no digest provided")
  else
    (set_model_Status
       (mkModelStatus (model_Conditions (model_Status m)) (model_Phase (model_Status m))
          (Digest src)) m, "").

Section controller.
Context `{L : K8sLib}.

(** The model after the call, whether it was written, and the error. *)
Definition updateStatus (now : Time) (m : Model) (verifyReason : string)
    : Prog (Model * (bool * option error)) :=
  let '(status, reason, msg) :=
    if decide (verifyReason <> "") then (ConditionFalse, "VerificationFailed", verifyReason)
    else (ConditionTrue, "ArtifactVerified", "") in
  let newConditions :=
    SetStatusCondition now (model_Conditions (model_Status m))
      (mkCondition "Ready" status 0 0 reason msg) in
  let newPhase := if decide (verifyReason = "") then "Ready" else "Pending" in
  if statusUnchanged (model_Conditions (model_Status m)) newConditions
     && bool_decide (model_Phase (model_Status m) = newPhase)
  then Ret (m, (false, None))
  else
    let m := set_model_Status
               (mkModelStatus newConditions newPhase (ResolvedDigest (model_Status m))) m in
    let! r := call (StatusUpdate KModel m) in
    match r with
    | Ok m' => Ret (m', (true, None))
    | Err err => Ret (m, (true, Some err))
    end.

Definition Reconcile (now : Time) (req : NamespacedName) : Prog (Result * option error) :=
  let! r := call (Get KModel req) in
  match r with
  | Err err => Ret (Result0, IgnoreNotFound err)
  | Ok model =>
      let '(model, verifyReason) := verifyArtifact model in
      let! '(model, (_, err)) := updateStatus now model verifyReason in
      match err with
      | Some err => Ret (Result0, Some err)
      | None => Ret (Result0, None)
      end
  end.
End controller.

(** ** Specification *)

(** The artifact of the model verifies: it has a source, and a digest if a
    signed image is required. *)
Definition verified (m : Model) : bool :=
  negb (bool_decide (URI (Source (model_Spec m)) = "")) &&
  negb (RequireSignedImage (model_Spec m)
        && bool_decide (Digest (Source (model_Spec m)) = "")).

(** The status agrees with the verdict: the phase and the Ready condition. *)
Definition reports (verdict : bool) (st : ModelStatus) : Prop :=
  model_Phase st = (if verdict then "Ready" else "Pending") /\
  assoc "Ready" (sigs (model_Conditions st)) =
    Some (if verdict then (ConditionTrue, "ArtifactVerified")
          else (ConditionFalse, "VerificationFailed")).

#[export] Instance reports_dec verdict st : Decision (reports verdict st).
Proof. unfold reports. apply _. Defined.

(** ** Properties *)

Lemma verifyArtifact_verdict m :
  ((verifyArtifact m).2 = "" <-> verified m = true) /\
  model_Spec (verifyArtifact m).1 = model_Spec m /\
  model_ObjectMeta (verifyArtifact m).1 = model_ObjectMeta m /\
  model_Conditions (model_Status (verifyArtifact m).1) = model_Conditions (model_Status m) /\
  model_Phase (model_Status (verifyArtifact m).1) = model_Phase (model_Status m) /\
  ResolvedDigest (model_Status (verifyArtifact m).1) =
    if verified m then Digest (Source (model_Spec m)) else ResolvedDigest (model_Status m).
Proof.
  unfold verifyArtifact, verified.
  destruct (decide (URI (Source (model_Spec m)) = "")) as [Hu|Hu].
  - rewrite (bool_decide_eq_true_2 (URI _ = "")) by done. simpl. by split; [split|].
  - rewrite (bool_decide_eq_false_2 (URI _ = "")) by done. simpl.
    destruct (RequireSignedImage (model_Spec m) && bool_decide _); simpl; by split; [split|].
Qed.

Section properties.
Context `{L : K8sLib, !K8sLibLaws} {W : Type} `{!Cluster W, !ClusterLaws W}.

(** The status the code would write, from the verdict. *)
Definition next_status (now : Time) (verdict : string) (st : ModelStatus) : ModelStatus :=
  mkModelStatus
    (SetStatusCondition now (model_Conditions st)
       (if decide (verdict = "")
        then mkCondition "Ready" ConditionTrue 0 0 "ArtifactVerified" ""
        else mkCondition "Ready" ConditionFalse 0 0 "VerificationFailed" verdict))
    (if decide (verdict = "") then "Ready" else "Pending") (ResolvedDigest st).

(** The two cases of a verdict. *)
Ltac verdict_cases v :=
  let Hv := fresh "Hv" in
  destruct (decide (v = "")) as [Hv|Hv];
  [rewrite ?(bool_decide_eq_true_2 (v = "") Hv)
  |rewrite ?(bool_decide_eq_false_2 (v = "") Hv)]; simpl.

Lemma next_status_sigs now verdict st :
  sigs (model_Conditions (next_status now verdict st)) =
    upsert "Ready" (if decide (verdict = "") then (ConditionTrue, "ArtifactVerified")
                    else (ConditionFalse, "VerificationFailed"))
      (sigs (model_Conditions st)).
Proof. simpl. rewrite sigs_SetStatusCondition. by case_decide. Qed.

Lemma next_status_reports now verdict st :
  reports (bool_decide (verdict = "")) (next_status now verdict st).
Proof.
  unfold reports. rewrite next_status_sigs, assoc_upsert_eq. simpl. by verdict_cases verdict.
Qed.

(** No write exactly when the status reports the verdict already. *)
Lemma status_up_to_date now verdict st :
  statusUnchanged (model_Conditions st) (model_Conditions (next_status now verdict st))
    && bool_decide (model_Phase st = model_Phase (next_status now verdict st))
  = bool_decide (reports (bool_decide (verdict = "")) st).
Proof.
  rewrite statusUnchanged_sigs, next_status_sigs. simpl. apply eq_true_iff_eq.
  rewrite andb_true_iff, !bool_decide_eq_true. unfold reports. split.
  - intros [Hs Hp]. rewrite Hs, assoc_upsert_eq. by verdict_cases verdict.
  - intros [Hp Ha]. split; [symmetry; apply upsert_same; rewrite Ha|rewrite Hp];
      by verdict_cases verdict.
Qed.

Lemma model_updateStatus_unfold now m verdict :
  updateStatus now m verdict =
    (if bool_decide (reports (bool_decide (verdict = "")) (model_Status m))
     then Ret (m, (false, None))
     else
       let! r := call (StatusUpdate KModel
                         (set_model_Status (next_status now verdict (model_Status m)) m)) in
       match r with
       | Ok m' => Ret (m', (true, None))
       | Err err =>
           Ret (set_model_Status (next_status now verdict (model_Status m)) m, (true, Some err))
       end).
Proof.
  rewrite <- (status_up_to_date now). unfold updateStatus, next_status.
  destruct (decide (verdict = "")) as [Hv|Hv]; simpl;
    [rewrite (decide_False (P := verdict <> "")) by tauto
    |rewrite (decide_True (P := verdict <> "")) by done]; done.
Qed.

Lemma verify_reports m :
  reports (bool_decide ((verifyArtifact m).2 = "")) (model_Status (verifyArtifact m).1) <->
  reports (verified m) (model_Status m).
Proof.
  destruct (verifyArtifact_verdict m) as (Hv & _ & _ & Hc & Hp & _).
  unfold reports. rewrite Hc, Hp.
  replace (bool_decide ((verifyArtifact m).2 = "")) with (verified m); [done|].
  symmetry. apply eq_true_iff_eq. by rewrite bool_decide_eq_true.
Qed.

(** The object a reconcile writes when the status is out of date. *)
Definition to_write (now : Time) (m : Model) : Model :=
  let '(m', verdict) := verifyArtifact m in
  set_model_Status (next_status now verdict (model_Status m')) m'.

Lemma to_write_facts now m :
  key KModel (to_write now m) = key KModel m /\
  model_Spec (to_write now m) = model_Spec m /\
  reports (verified m) (model_Status (to_write now m)) /\
  ResolvedDigest (model_Status (to_write now m)) =
    if verified m then Digest (Source (model_Spec m)) else ResolvedDigest (model_Status m).
Proof.
  destruct (verifyArtifact_verdict m) as (Hv & Hs & Hm & Hc & Hp & Hd).
  unfold to_write. destruct (verifyArtifact m) as [m' v] eqn:Hva. simpl in *.
  split; [unfold key; simpl; by rewrite Hm|]. split; [done|]. split; [|done].
  replace (verified m) with (bool_decide (v = "")); [apply next_status_reports|].
  apply eq_true_iff_eq. by rewrite bool_decide_eq_true.
Qed.

(** The three courses of a reconcile. *)
Lemma Reconcile_run now req w :
  match read KModel req w with
  | Err e => outcome (Reconcile now req) w = Some (Result0, IgnoreNotFound e) /\
             quiet (Reconcile now req) w
  | Ok m =>
      if decide (reports (verified m) (model_Status m)) then
        outcome (Reconcile now req) w = Some (Result0, None) /\ quiet (Reconcile now req) w
      else
        let r := handle (StatusUpdate KModel (to_write now m)) w in
        outcome (Reconcile now req) w =
          Some (Result0, match r.1 with Ok _ => None | Err e => Some e end) /\
        final (Reconcile now req) w = r.2
  end.
Proof.
  unfold quiet, Reconcile. cluster_simpl. destruct (read KModel req w) as [m|e] eqn:Hr.
  2:{ cluster_simpl. unfold read in Hr. rewrite Hr. simpl. cluster_simpl.
      split; [done|]. split; [|done]. by repeat constructor. }
  unfold read in Hr. rewrite Hr. pose proof (verify_reports m) as Hrep. unfold to_write.
  destruct (verifyArtifact m) as [m' v] eqn:Hva. simpl in *.
  rewrite model_updateStatus_unfold.
  rewrite (bool_decide_ext _ _ Hrep).
  destruct (decide (reports (verified m) (model_Status m))) as [Hd|Hd].
  - rewrite (bool_decide_eq_true_2 (reports _ _)) by done. cluster_simpl.
    split; [done|]. split; [|done]. by repeat constructor.
  - rewrite (bool_decide_eq_false_2 (reports _ _)) by done.
    next.
    clear Hr. response x w1. by destruct x.
Qed.

(** A run that returns no error ends with an up-to-date status, or there is
    no such model. *)
Lemma model_Reconcile_stored now req w res :
  outcome (Reconcile now req) w = Some (res, None) ->
  res = Result0 /\
  match stored KModel w req with
  | None => quiet (Reconcile now req) w
  | Some m =>
      exists m', stored KModel (final (Reconcile now req) w) req = Some m' /\
        reports (verified m) (model_Status m') /\ model_Spec m' = model_Spec m /\
        (quiet (Reconcile now req) w \/
         ResolvedDigest (model_Status m') =
           if verified m then Digest (Source (model_Spec m)) else ResolvedDigest (model_Status m))
  end.
Proof.
  pose proof (Reconcile_run now req w) as Hrun. intros Hout.
  destruct (read KModel req w) as [m|e] eqn:Hr; unfold read in Hr.
  - apply get_ok in Hr. rewrite Hr. case_decide as Hd.
    + destruct Hrun as [Ho Hq]. split; [congruence|]. exists m.
      destruct Hq as [Hev Hfin]. rewrite Hfin. split_and!; try done. by left.
    + destruct (to_write_facts now m) as (Hk & Hs & Hrep & Hdig). cbv zeta in Hrun.
      rewrite (stored_key _ _ _ _ Hr) in Hk. destruct Hrun as [Ho ->].
      destruct (handle _ w) as [[m'|e] w1] eqn:Hh; [|naive_solver].
      pose proof (status_ok KModel (to_write now m) w m') as Hst. rewrite Hh in Hst.
      destruct (Hst eq_refl) as (o0 & Ho0 & (_ & Hspec & Hstat) & Hw1).
      rewrite Hk in *. split; [simpl in Ho; congruence|]. exists m'.
      replace o0 with m in * by congruence. rewrite Hstat. split_and!; auto.
  - destruct Hrun as [Ho Hq]. rewrite Hout in Ho. simplify_eq. split; [done|].
    rewrite (get_missing _ _ _ _ Hr); [done|]. by apply IgnoreNotFound_None.
Qed.

(** After a reconcile that returned no error, another one writes nothing. *)
Lemma model_Reconcile_settles now now' req w res :
  outcome (Reconcile now req) w = Some (res, None) ->
  quiet (Reconcile now' req) (final (Reconcile now req) w).
Proof.
  intros Hout. apply model_Reconcile_stored in Hout as [_ Hout].
  pose proof (Reconcile_run now' req (final (Reconcile now req) w)) as Hrun.
  destruct (read KModel req _) as [m2|e] eqn:Hr; [|by destruct Hrun].
  apply get_ok in Hr. destruct (stored KModel w req) as [m|] eqn:Hm.
  - destruct Hout as (m' & Hm' & Hrep & Hs & _). replace m2 with m' in * by congruence.
    rewrite decide_True in Hrun by (unfold verified in *; by rewrite Hs). by destruct Hrun.
  - destruct Hout as [_ Hf]. congruence.
Qed.

(** C15: a reconcile of an existing Model that returns no error leaves in the
    store a Model with the same spec whose phase and Ready condition report
    the verdict on the artifact (source present, digest present if a signed
    image is required), and which, if anything was written, records the
    digest of a verified artifact; reconciling it again at any later time
    writes nothing. *)
Theorem Model_Reconcile_reports now req w res m :
  stored KModel w req = Some m ->
  outcome (Reconcile now req) w = Some (res, None) ->
  res = Result0 /\
  exists m', stored KModel (final (Reconcile now req) w) req = Some m' /\
    reports (verified m) (model_Status m') /\ model_Spec m' = model_Spec m /\
    (quiet (Reconcile now req) w \/
     ResolvedDigest (model_Status m') =
       if verified m then Digest (Source (model_Spec m)) else ResolvedDigest (model_Status m)) /\
    forall now', quiet (Reconcile now' req) (final (Reconcile now req) w).
Proof.
  intros Hm Hout. pose proof (fun now' => model_Reconcile_settles now now' _ _ _ Hout) as Hq.
  apply model_Reconcile_stored in Hout. rewrite Hm in Hout.
  destruct Hout as (Hres & m' & H1 & H2 & H3 & H4). split; [done|]. exists m'. auto.
Qed.


(** When a verified Model already reports Ready, a reconcile writes
    nothing whatever digest its status carries: a change of the digest in the
    spec is never recorded in [status.resolvedDigest]. *)
Theorem Model_Reconcile_keeps_stale_digest now req w m :
  stored KModel w req = Some m ->
  verified m = true -> reports true (model_Status m) ->
  quiet (Reconcile now req) w /\
  stored KModel (final (Reconcile now req) w) req = Some m.
Proof.
  intros Hm Hv Hrep. pose proof (Reconcile_run now req w) as Hrun.
  assert (quiet (Reconcile now req) w) as [Hq Hf]; [|split; [done|by rewrite Hf]].
  destruct (read KModel req w) as [m'|e] eqn:Hr; [|by destruct Hrun].
  apply get_ok in Hr. replace m' with m in * by congruence.
  rewrite decide_True in Hrun by (by rewrite Hv). by destruct Hrun.
Qed.
End properties.
