(* ===== verification/TenantController.v ===== *)
(** * Tenant controller: [operator/internal/controller/tenant_controller.go]

    and the steps of [controller_helpers.go]: the namespace, the quota, the
    service account, the role and its binding, and the network policy a Tenant
    is given.  The callback of each [CreateOrUpdate] is a [mutate] function
    here. *)
From S2P Require Import Prelude.
From S2P Require Import ApiTypes.
From S2P Require Import K8sLib.
From S2P Require Import ApiClient.
From S2P Require Import Conditions.

Definition tenantLabelKey : string := "platform.platform.io/tenant".

(** [if m.Labels == nil { ... }; m.Labels[k] = v]. *)
Definition set_label (k v : string) (m : ObjectMeta) : ObjectMeta :=
  set_Labels (<[k := v]> (ensure_map (Labels m))) m.

Definition tenant_name (tenant : Tenant) : string := Name (tenant_ObjectMeta tenant).

(** ** The steps: [controller_helpers.go] *)

Definition mutateNamespace (tenant : Tenant) (ns : Namespace) : Namespace :=
  let m := set_label tenantLabelKey (tenant_name tenant) (ns_ObjectMeta ns) in
  let m := set_label "pod-security.kubernetes.io/enforce" "restricted" m in
  let m := set_label "pod-security.kubernetes.io/audit" "restricted" m in
  let m := set_label "pod-security.kubernetes.io/warn" "restricted" m in
  mkNamespace m.

Definition reconcileNamespace (tenant : Tenant) : Prog (option error) :=
  call (CreateOrUpdate KNamespace (mkNamespace (named "" (tenant_name tenant)))
          (mutateNamespace tenant)).

Definition mutateServiceAccount (tenant : Tenant) (sa : ServiceAccount) : ServiceAccount :=
  mkServiceAccount (set_label tenantLabelKey (tenant_name tenant) (sa_ObjectMeta sa)).

Definition reconcileServiceAccount (tenant : Tenant) : Prog (option error) :=
  call (CreateOrUpdate KServiceAccount
          (mkServiceAccount (named (tenant_name tenant) "tenant-workload"))
          (mutateServiceAccount tenant)).

Definition tenant_rules : list PolicyRule :=
  [ mkPolicyRule ["platform.platform.io"] ["inferenceservices"]
      ["get"; "list"; "watch"; "create"; "update"; "patch"; "delete"];
    mkPolicyRule ["platform.platform.io"] ["models"] ["get"; "list"; "watch"];
    mkPolicyRule [""] ["pods"; "services"; "configmaps"] ["get"; "list"; "watch"] ].

Definition mutateRole (tenant : Tenant) (role : Role) : Role :=
  mkRole (set_label tenantLabelKey (tenant_name tenant) (role_ObjectMeta role)) tenant_rules.

Definition mutateRoleBinding (tenant : Tenant) (binding : RoleBinding) : RoleBinding :=
  mkRoleBinding (set_label tenantLabelKey (tenant_name tenant) (binding_ObjectMeta binding))
    (mkRoleRef "rbac.authorization.k8s.io" "Role" "tenant-workload-role")
    [mkSubject "ServiceAccount" "tenant-workload" (tenant_name tenant)].

Definition reconcileRBAC (tenant : Tenant) : Prog (option error) :=
  let! err := call (CreateOrUpdate KRole
                      (mkRole (named (tenant_name tenant) "tenant-workload-role") [])
                      (mutateRole tenant)) in
  match err with
  | Some err => Ret (Some err)
  | None =>
      call (CreateOrUpdate KRoleBinding
              (mkRoleBinding (named (tenant_name tenant) "tenant-workload-binding")
                 (mkRoleRef "" "" "") [])
              (mutateRoleBinding tenant))
  end.

Definition protoPtr (p : Protocol) : option Protocol := Some p.
Definition ptrIntOrString (i : Z) : option Z := Some i.

Definition isolation_spec (tenant : Tenant) : NetworkPolicySpec :=
  let same_tenant :=
    mkNetworkPolicyPeer
      (Some (mkLabelSelector {[ tenantLabelKey := tenant_name tenant ]})) None in
  mkNetworkPolicySpec (mkLabelSelector ∅) [PolicyTypeIngress; PolicyTypeEgress]
    [ mkIngressRule [same_tenant] [] ]
    [ mkEgressRule
        [mkNetworkPolicyPeer (Some (mkLabelSelector ∅))
           (Some (mkLabelSelector {[ "k8s-app" := "kube-dns" ]}))]
        [ mkNetworkPolicyPort (protoPtr ProtocolUDP) (ptrIntOrString 53);
          mkNetworkPolicyPort (protoPtr ProtocolTCP) (ptrIntOrString 53) ];
      mkEgressRule [same_tenant] [] ].

Definition mutateNetworkPolicy (tenant : Tenant) (np : NetworkPolicy) : NetworkPolicy :=
  mkNetworkPolicy (set_label tenantLabelKey (tenant_name tenant) (np_ObjectMeta np))
    (isolation_spec tenant).

Definition reconcileNetworkPolicy (tenant : Tenant) : Prog (option error) :=
  call (CreateOrUpdate KNetworkPolicy
          (mkNetworkPolicy (named (tenant_name tenant) "tenant-isolation")
             (mkNetworkPolicySpec (mkLabelSelector ∅) [] [] []))
          (mutateNetworkPolicy tenant)).

Section controller.
Context `{L : K8sLib}.

Definition buildQuotaResourceList (q : TenantResourceQuota) : result ResourceList :=
  match ParseQuantity (quota_CPU q) with Err err => Err (wrapf "cpu: " err) | Ok cpu =>
  match ParseQuantity (quota_Memory q) with Err err => Err (wrapf "memory: " err) | Ok mem =>
  match ParseQuantity (quota_GPU q) with Err err => Err (wrapf "gpu: " err) | Ok gpu =>
  let hard : ResourceList := {[ "cpu" := cpu; "memory" := mem; "nvidia.com/gpu" := gpu ]} in
  match (if decide (quota_Pods q <> "") then
           match ParseQuantity (quota_Pods q) with
           | Err err => Err (wrapf "pods: " err)
           | Ok pods => Ok (<["pods" := pods]> hard)
           end
         else Ok hard) with
  | Err err => Err err
  | Ok hard =>
      if decide (quota_Jobs q <> "") then
        match ParseQuantity (quota_Jobs q) with
        | Err err => Err (wrapf "jobs: " err)
        | Ok jobs => Ok (<["count/jobs.batch" := jobs]> hard)
        end
      else Ok hard
  end end end end.

Definition mutateResourceQuota (tenant : Tenant) (hard : ResourceList)
    (rq : ResourceQuota) : ResourceQuota :=
  mkResourceQuota (set_label tenantLabelKey (tenant_name tenant) (rq_ObjectMeta rq)) hard.

Definition reconcileResourceQuota (tenant : Tenant) : Prog (option error) :=
  match buildQuotaResourceList (tenant_ResourceQuota (tenant_Spec tenant)) with
  | Err err => Ret (Some (wrapf "invalid resource quota: " err))
  | Ok hard =>
      call (CreateOrUpdate KResourceQuota
              (mkResourceQuota (named (tenant_name tenant) "tenant-quota") ∅)
              (mutateResourceQuota tenant hard))
  end.

(** ** The status: [updateStatus] *)

Definition setCond (now : Time) (newConditions : list Condition) (condType : string)
    (err : option error) (okReason failReason : string) : list Condition :=
  let '(status, reason, msg) :=
    match err with
    | None => (ConditionTrue, okReason, "")
    | Some err => (ConditionFalse, failReason, Error_ err)
    end in
  SetStatusCondition now newConditions (mkCondition condType status 0 0 reason msg).

Definition newConditions (now : Time) (cs : list Condition)
    (nsErr quotaErr saErr rbacErr npErr : option error) : list Condition :=
  let cs := setCond now cs "NamespaceReady" nsErr "NamespaceReconciled" "NamespaceError" in
  let cs := setCond now cs "QuotaApplied" quotaErr "QuotaReconciled" "QuotaError" in
  let cs := setCond now cs "ServiceAccountReady" saErr
              "ServiceAccountReconciled" "ServiceAccountError" in
  let cs := setCond now cs "RBACReady" rbacErr "RBACReconciled" "RBACError" in
  let cs := setCond now cs "NetworkPolicyReady" npErr
              "NetworkPolicyReconciled" "NetworkPolicyError" in
  let ready :=
    is_nil nsErr && is_nil quotaErr && is_nil saErr && is_nil rbacErr && is_nil npErr in
  let cs := setCond now cs "Accepted" None "TenantObserved" "" in
  let readyErr := if ready then None else Some (errorf "not all resources reconciled") in
  setCond now cs "Ready" readyErr "AllResourcesReconciled" "ResourcesNotReady".

(** The caller looks at nothing of the Tenant after the call but its name. *)
Definition updateStatus (now : Time) (t : Tenant)
    (nsErr quotaErr saErr rbacErr npErr : option error) : Prog (option error) :=
  let newConds :=
    newConditions now (tenant_Conditions (tenant_Status t)) nsErr quotaErr saErr rbacErr npErr in
  let ready :=
    is_nil nsErr && is_nil quotaErr && is_nil saErr && is_nil rbacErr && is_nil npErr in
  let newPhase := if ready then "Ready" else "Pending" in
  if statusUnchanged (tenant_Conditions (tenant_Status t)) newConds
     && bool_decide (tenant_Phase (tenant_Status t) = newPhase)
  then Ret None
  else
    let! r := call (StatusUpdate KTenant
                      (mkTenant (tenant_ObjectMeta t) (tenant_Spec t)
                         (mkTenantStatus newConds newPhase))) in
    match r with
    | Ok _ => Ret None
    | Err err => Ret (Some err)
    end.

Definition Reconcile (now : Time) (req : NamespacedName) : Prog (Result * option error) :=
  let! r := call (Get KTenant req) in
  match r with
  | Err err => Ret (Result0, IgnoreNotFound err)
  | Ok tenant =>
      let! nsErr := reconcileNamespace tenant in
      match nsErr with
      | Some err =>
          let! _ := updateStatus now tenant nsErr None None None None in
          Ret (Result0, nsErr)
      | None =>
          let! quotaErr := reconcileResourceQuota tenant in
          match quotaErr with
          | Some err =>
              let! _ := updateStatus now tenant None quotaErr None None None in
              Ret (Result0, quotaErr)
          | None =>
              let! saErr := reconcileServiceAccount tenant in
              let! rbacErr := reconcileRBAC tenant in
              let! npErr := reconcileNetworkPolicy tenant in
              let! err := updateStatus now tenant None None saErr rbacErr npErr in
              match err with
              | Some err => Ret (Result0, Some err)
              | None =>
                  match saErr, rbacErr, npErr with
                  | Some err, _, _ => Ret (Result0, Some err)
                  | None, Some err, _ => Ret (Result0, Some err)
                  | None, None, Some err => Ret (Result0, Some err)
                  | None, None, None => Ret (Result0, None)
                  end
              end
          end
      end
  end.
End controller.

(** ** Specification *)

(** The conditions that report the outcomes of the five steps. *)
Definition verdicts (nsErr quotaErr saErr rbacErr npErr : option error) : list sig :=
  let ready :=
    is_nil nsErr && is_nil quotaErr && is_nil saErr && is_nil rbacErr && is_nil npErr in
  [ ("NamespaceReady", verdict nsErr "NamespaceReconciled" "NamespaceError");
    ("QuotaApplied", verdict quotaErr "QuotaReconciled" "QuotaError");
    ("ServiceAccountReady", verdict saErr "ServiceAccountReconciled" "ServiceAccountError");
    ("RBACReady", verdict rbacErr "RBACReconciled" "RBACError");
    ("NetworkPolicyReady", verdict npErr "NetworkPolicyReconciled" "NetworkPolicyError");
    ("Accepted", (ConditionTrue, "TenantObserved"));
    ("Ready", if ready then (ConditionTrue, "AllResourcesReconciled")
              else (ConditionFalse, "ResourcesNotReady")) ].

Definition phase_of (nsErr quotaErr saErr rbacErr npErr : option error) : string :=
  if is_nil nsErr && is_nil quotaErr && is_nil saErr && is_nil rbacErr && is_nil npErr
  then "Ready" else "Pending".

(** The status of a Tenant all of whose resources are reconciled. *)
Definition tenant_ready (st : TenantStatus) : Prop :=
  tenant_Phase st = "Ready" /\
  reports_all (verdicts None None None None None) (sigs (tenant_Conditions st)).

(** The label every object of a tenant carries. *)
Definition labelled (k v : string) (m : ObjectMeta) : Prop := GoMap_lookup (Labels m) k = Some v.

(** The objects of a Tenant are stored, with the content it is due. *)
Record provisioned `{L : K8sLib} {W} `{!Cluster W} (t : Tenant) (w : W) : Prop := {
  has_namespace : exists ns,
    stored KNamespace w (mkNN "" (tenant_name t)) = Some ns /\
    labelled tenantLabelKey (tenant_name t) (ns_ObjectMeta ns) /\
    labelled "pod-security.kubernetes.io/enforce" "restricted" (ns_ObjectMeta ns) /\
    labelled "pod-security.kubernetes.io/audit" "restricted" (ns_ObjectMeta ns) /\
    labelled "pod-security.kubernetes.io/warn" "restricted" (ns_ObjectMeta ns);
  has_quota : exists rq,
    stored KResourceQuota w (mkNN (tenant_name t) "tenant-quota") = Some rq /\
    labelled tenantLabelKey (tenant_name t) (rq_ObjectMeta rq) /\
    buildQuotaResourceList (tenant_ResourceQuota (tenant_Spec t)) = Ok (Hard rq);
  has_service_account : exists sa,
    stored KServiceAccount w (mkNN (tenant_name t) "tenant-workload") = Some sa /\
    labelled tenantLabelKey (tenant_name t) (sa_ObjectMeta sa);
  has_role : exists role,
    stored KRole w (mkNN (tenant_name t) "tenant-workload-role") = Some role /\
    labelled tenantLabelKey (tenant_name t) (role_ObjectMeta role) /\
    Rules role = tenant_rules;
  has_binding : exists binding,
    stored KRoleBinding w (mkNN (tenant_name t) "tenant-workload-binding") = Some binding /\
    labelled tenantLabelKey (tenant_name t) (binding_ObjectMeta binding) /\
    RoleRef_ binding = mkRoleRef "rbac.authorization.k8s.io" "Role" "tenant-workload-role" /\
    Subjects binding = [mkSubject "ServiceAccount" "tenant-workload" (tenant_name t)];
  has_network_policy : exists np,
    stored KNetworkPolicy w (mkNN (tenant_name t) "tenant-isolation") = Some np /\
    labelled tenantLabelKey (tenant_name t) (np_ObjectMeta np) /\
    np_Spec np = isolation_spec t
}.

(** ** Labels *)

Lemma set_label_eq k v m : labelled k v (set_label k v m).
Proof. unfold labelled, GoMap_lookup. simpl. apply lookup_insert_eq. Qed.

Lemma set_label_ne k v k' v' m :
  k <> k' -> labelled k v m -> labelled k v (set_label k' v' m).
Proof. intros Hne. unfold labelled, GoMap_lookup. simpl. by rewrite lookup_insert_ne. Qed.

Lemma set_label_noop k v m : labelled k v m -> set_label k v m = m.
Proof.
  unfold labelled, GoMap_lookup, set_label, set_Labels. destruct m as [? ? ? ? ? [l|] ? ?];
    simpl; [|by rewrite lookup_empty]. intros Hl. by rewrite insert_id.
Qed.

Lemma accepted_labelled k v m m' : meta_accepted m m' -> labelled k v m -> labelled k v m'.
Proof. intros (_ & Hl & _) Hk. by apply (lookup_weaken _ _ _ _ Hk Hl). Qed.

#[export] Hint Resolve set_label_eq set_label_ne : cnip.
#[export] Hint Extern 1 (_ <> _ :> string) => discriminate : cnip.

(** ** An object with its label and content is left as it is *)

Section settled.
Context `{L : K8sLib} (t : Tenant).

Lemma mutateNamespace_settled ns :
  labelled tenantLabelKey (tenant_name t) (ns_ObjectMeta ns) ->
  labelled "pod-security.kubernetes.io/enforce" "restricted" (ns_ObjectMeta ns) ->
  labelled "pod-security.kubernetes.io/audit" "restricted" (ns_ObjectMeta ns) ->
  labelled "pod-security.kubernetes.io/warn" "restricted" (ns_ObjectMeta ns) ->
  mutateNamespace t ns = ns.
Proof.
  intros H1 H2 H3 H4. unfold mutateNamespace.
  rewrite (set_label_noop _ _ _ H1), (set_label_noop _ _ _ H2), (set_label_noop _ _ _ H3),
    (set_label_noop _ _ _ H4). by destruct ns.
Qed.

Lemma mutateResourceQuota_settled hard rq :
  labelled tenantLabelKey (tenant_name t) (rq_ObjectMeta rq) -> Hard rq = hard ->
  mutateResourceQuota t hard rq = rq.
Proof. intros Hl <-. unfold mutateResourceQuota. rewrite set_label_noop by done. by destruct rq. Qed.

Lemma mutateServiceAccount_settled sa :
  labelled tenantLabelKey (tenant_name t) (sa_ObjectMeta sa) -> mutateServiceAccount t sa = sa.
Proof. intros Hl. unfold mutateServiceAccount. rewrite set_label_noop by done. by destruct sa. Qed.

Lemma mutateRole_settled role :
  labelled tenantLabelKey (tenant_name t) (role_ObjectMeta role) -> Rules role = tenant_rules ->
  mutateRole t role = role.
Proof. intros Hl Hr. unfold mutateRole. rewrite set_label_noop, <- Hr by done. by destruct role. Qed.

Lemma mutateRoleBinding_settled b :
  labelled tenantLabelKey (tenant_name t) (binding_ObjectMeta b) ->
  RoleRef_ b = mkRoleRef "rbac.authorization.k8s.io" "Role" "tenant-workload-role" ->
  Subjects b = [mkSubject "ServiceAccount" "tenant-workload" (tenant_name t)] ->
  mutateRoleBinding t b = b.
Proof.
  intros Hl Hr Hs. unfold mutateRoleBinding. rewrite set_label_noop, <- Hr, <- Hs by done.
  by destruct b.
Qed.

Lemma mutateNetworkPolicy_settled np :
  labelled tenantLabelKey (tenant_name t) (np_ObjectMeta np) -> np_Spec np = isolation_spec t ->
  mutateNetworkPolicy t np = np.
Proof.
  intros Hl Hs. unfold mutateNetworkPolicy. rewrite set_label_noop, <- Hs by done.
  by destruct np.
Qed.
End settled.

(** ** The status *)

Section status.
Context `{L : K8sLib, !K8sLibLaws}.

Lemma tenant_sigs_newConditions now cs nsErr quotaErr saErr rbacErr npErr :
  sigs (newConditions now cs nsErr quotaErr saErr rbacErr npErr) =
    upsert_all (verdicts nsErr quotaErr saErr rbacErr npErr) (sigs cs).
Proof.
  assert (forall cs ty err ok fail,
    sigs (setCond now cs ty err ok fail) = upsert ty (verdict err ok fail) (sigs cs)) as Hset.
  { intros. unfold setCond. destruct err; by rewrite sigs_SetStatusCondition. }
  unfold newConditions. rewrite !Hset. unfold upsert_all, verdicts. simpl.
  by destruct (_ && is_nil npErr).
Qed.

Lemma tenant_verdicts_NoDup nsErr quotaErr saErr rbacErr npErr :
  NoDup (map fst (verdicts nsErr quotaErr saErr rbacErr npErr)).
Proof. simpl. by apply (bool_decide_unpack _). Qed.

(** The status reports the outcomes of the five steps. *)
Definition tenant_reports (nsErr quotaErr saErr rbacErr npErr : option error)
    (st : TenantStatus) : Prop :=
  tenant_Phase st = phase_of nsErr quotaErr saErr rbacErr npErr /\
  reports_all (verdicts nsErr quotaErr saErr rbacErr npErr) (sigs (tenant_Conditions st)).

#[export] Instance tenant_reports_dec nsErr quotaErr saErr rbacErr npErr st :
  Decision (tenant_reports nsErr quotaErr saErr rbacErr npErr st).
Proof. unfold tenant_reports. apply _. Defined.

(** The Tenant [updateStatus] writes. *)
Definition with_outcomes now (t : Tenant) nsErr quotaErr saErr rbacErr npErr : Tenant :=
  mkTenant (tenant_ObjectMeta t) (tenant_Spec t)
    (mkTenantStatus
       (newConditions now (tenant_Conditions (tenant_Status t)) nsErr quotaErr saErr rbacErr npErr)
       (phase_of nsErr quotaErr saErr rbacErr npErr)).

Lemma tenant_with_outcomes_reports now t nsErr quotaErr saErr rbacErr npErr :
  tenant_reports nsErr quotaErr saErr rbacErr npErr
    (tenant_Status (with_outcomes now t nsErr quotaErr saErr rbacErr npErr)).
Proof.
  split; [done|]. simpl. rewrite tenant_sigs_newConditions. apply upsert_all_reports, tenant_verdicts_NoDup.
Qed.

Lemma tenant_updateStatus_unfold now t nsErr quotaErr saErr rbacErr npErr :
  updateStatus now t nsErr quotaErr saErr rbacErr npErr =
    (if bool_decide (tenant_reports nsErr quotaErr saErr rbacErr npErr (tenant_Status t))
     then Ret None
     else
       let! r := call (StatusUpdate KTenant
                         (with_outcomes now t nsErr quotaErr saErr rbacErr npErr)) in
       match r with Ok _ => Ret None | Err err => Ret (Some err) end).
Proof.
  unfold updateStatus. rewrite statusUnchanged_sigs, tenant_sigs_newConditions.
  replace (bool_decide (tenant_reports _ _ _ _ _ _)) with
    (bool_decide (sigs (tenant_Conditions (tenant_Status t)) =
       upsert_all (verdicts nsErr quotaErr saErr rbacErr npErr)
         (sigs (tenant_Conditions (tenant_Status t)))) &&
     bool_decide (tenant_Phase (tenant_Status t) =
       phase_of nsErr quotaErr saErr rbacErr npErr)); [done|].
  apply eq_true_iff_eq. rewrite andb_true_iff, !bool_decide_eq_true. unfold tenant_reports.
  rewrite <- (upsert_all_noop _ _ (tenant_verdicts_NoDup nsErr quotaErr saErr rbacErr npErr)).
  split; intros [? ?]; by split.
Qed.
End status.

(** ** Properties of runs *)

(** The requests of the steps. *)
Abbreviation namespace_req t :=
  (CreateOrUpdate KNamespace (mkNamespace (named "" (tenant_name t))) (mutateNamespace t)).
Abbreviation quota_req t hard :=
  (CreateOrUpdate KResourceQuota (mkResourceQuota (named (tenant_name t) "tenant-quota") ∅)
     (mutateResourceQuota t hard)).
Abbreviation service_account_req t :=
  (CreateOrUpdate KServiceAccount (mkServiceAccount (named (tenant_name t) "tenant-workload"))
     (mutateServiceAccount t)).
Abbreviation role_req t :=
  (CreateOrUpdate KRole (mkRole (named (tenant_name t) "tenant-workload-role") [])
     (mutateRole t)).
Abbreviation binding_req t :=
  (CreateOrUpdate KRoleBinding
     (mkRoleBinding (named (tenant_name t) "tenant-workload-binding") (mkRoleRef "" "" "") [])
     (mutateRoleBinding t)).
Abbreviation network_policy_req t :=
  (CreateOrUpdate KNetworkPolicy
     (mkNetworkPolicy (named (tenant_name t) "tenant-isolation")
        (mkNetworkPolicySpec (mkLabelSelector ∅) [] [] [])) (mutateNetworkPolicy t)).

Section runs.
Context `{L : K8sLib, !K8sLibLaws} {W : Type} `{!Cluster W, !ClusterLaws W}.

Lemma updateStatus_run now t nsErr quotaErr saErr rbacErr npErr w :
  let r := StatusUpdate KTenant (with_outcomes now t nsErr quotaErr saErr rbacErr npErr) in
  let p := updateStatus now t nsErr quotaErr saErr rbacErr npErr in
  if decide (tenant_reports nsErr quotaErr saErr rbacErr npErr (tenant_Status t))
  then outcome p w = Some None /\ final p w = w
  else outcome p w = Some (match (handle r w).1 with Ok _ => None | Err e => Some e end) /\
       final p w = (handle r w).2.
Proof.
  cbv zeta. rewrite tenant_updateStatus_unfold. case_decide as Hd.
  - by rewrite bool_decide_eq_true_2.
  - rewrite bool_decide_eq_false_2 by done. next. response x w1. by destruct x.
Qed.

Lemma updateStatus_returns now t nsErr quotaErr saErr rbacErr npErr w :
  exists e, outcome (updateStatus now t nsErr quotaErr saErr rbacErr npErr) w = Some e.
Proof.
  pose proof (updateStatus_run now t nsErr quotaErr saErr rbacErr npErr w) as Hu.
  cbv zeta in Hu. case_decide; destruct Hu; eauto.
Qed.

(** What each step stores when it succeeds. *)
Lemma reconcileNamespace_stores t w w' :
  handle (namespace_req t) w = (None, w') ->
  exists ns,
    stored KNamespace w' (mkNN "" (tenant_name t)) = Some ns /\
    labelled tenantLabelKey (tenant_name t) (ns_ObjectMeta ns) /\
    labelled "pod-security.kubernetes.io/enforce" "restricted" (ns_ObjectMeta ns) /\
    labelled "pod-security.kubernetes.io/audit" "restricted" (ns_ObjectMeta ns) /\
    labelled "pod-security.kubernetes.io/warn" "restricted" (ns_ObjectMeta ns).
Proof.
  intros E. destruct (upsert_stored _ _ _ _ _ E) as (ns & Hns & Hacc).
  exists ns. split; [done|]. split_and!; apply (accepted_labelled _ _ _ _ Hacc);
    unfold mutateNamespace; cbn [ns_ObjectMeta]; auto 6 with cnip.
Qed.

(** A stored object of one of the other kinds has the label and the content
    its [mutate] function gave it. *)
Ltac stored_content E :=
  let o := fresh "o" in let Ho := fresh "Ho" in let Hm := fresh "Hm" in let Hs := fresh "Hs" in
  destruct (upsert_stored _ _ _ _ _ E) as (o & Ho & Hm & Hs); exists o;
  split; [exact Ho|]; split; [apply (accepted_labelled _ _ _ _ Hm), set_label_eq|exact Hs].

Lemma reconcileResourceQuota_stores t hard w w' :
  handle (quota_req t hard) w = (None, w') ->
  exists rq, stored KResourceQuota w' (mkNN (tenant_name t) "tenant-quota") = Some rq /\
    labelled tenantLabelKey (tenant_name t) (rq_ObjectMeta rq) /\ Hard rq = hard.
Proof. intros E. stored_content E. Qed.

Lemma reconcileServiceAccount_stores t w w' :
  handle (service_account_req t) w = (None, w') ->
  exists sa, stored KServiceAccount w' (mkNN (tenant_name t) "tenant-workload") = Some sa /\
    labelled tenantLabelKey (tenant_name t) (sa_ObjectMeta sa).
Proof.
  intros E. destruct (upsert_stored _ _ _ _ _ E) as (sa & Hsa & Hm). exists sa.
  split; [done|]. apply (accepted_labelled _ _ _ _ Hm), set_label_eq.
Qed.

Lemma mutateRole_stores t w w' :
  handle (role_req t) w = (None, w') ->
  exists role, stored KRole w' (mkNN (tenant_name t) "tenant-workload-role") = Some role /\
    labelled tenantLabelKey (tenant_name t) (role_ObjectMeta role) /\ Rules role = tenant_rules.
Proof. intros E. stored_content E. Qed.

Lemma mutateRoleBinding_stores t w w' :
  handle (binding_req t) w = (None, w') ->
  exists binding,
    stored KRoleBinding w' (mkNN (tenant_name t) "tenant-workload-binding") = Some binding /\
    labelled tenantLabelKey (tenant_name t) (binding_ObjectMeta binding) /\
    RoleRef_ binding = mkRoleRef "rbac.authorization.k8s.io" "Role" "tenant-workload-role" /\
    Subjects binding = [mkSubject "ServiceAccount" "tenant-workload" (tenant_name t)].
Proof. intros E. stored_content E. Qed.

Lemma reconcileNetworkPolicy_stores t w w' :
  handle (network_policy_req t) w = (None, w') ->
  exists np, stored KNetworkPolicy w' (mkNN (tenant_name t) "tenant-isolation") = Some np /\
    labelled tenantLabelKey (tenant_name t) (np_ObjectMeta np) /\
    np_Spec np = isolation_spec t.
Proof. intros E. stored_content E. Qed.

(** The course of a run without error. *)
Lemma Reconcile_success now req w res t :
  read KTenant req w = Ok t -> outcome (Reconcile now req) w = Some (res, None) ->
  exists hard w1 w2 w3 w4 w5 w6,
    buildQuotaResourceList (tenant_ResourceQuota (tenant_Spec t)) = Ok hard /\
    handle (namespace_req t) w = (None, w1) /\ handle (quota_req t hard) w1 = (None, w2) /\
    handle (service_account_req t) w2 = (None, w3) /\
    handle (role_req t) w3 = (None, w4) /\ handle (binding_req t) w4 = (None, w5) /\
    handle (network_policy_req t) w5 = (None, w6) /\
    outcome (updateStatus now t None None None None None) w6 = Some None /\
    final (Reconcile now req) w = final (updateStatus now t None None None None None) w6 /\
    res = Result0.
Proof.
  intros Hr. unfold Reconcile, reconcileNamespace, reconcileResourceQuota,
    reconcileServiceAccount, reconcileRBAC, reconcileNetworkPolicy.
  rewrite outcome_bind, final_bind, outcome_Get, final_Get, Hr.
  next. response x1 w1. destruct x1 as [e|].
  { next. by destruct (updateStatus_returns now t (Some e) None None None None w1) as [? ->]. }
  destruct (buildQuotaResourceList _) as [hard|e] eqn:Hq; cbn [fst snd].
  2:{ next. cluster_simpl.
      by destruct (updateStatus_returns now t None (Some (wrapf "invalid resource quota: " e))
                     None None None w1) as [? ->]. }
  next. response x2 w2. destruct x2 as [e|].
  { next. by destruct (updateStatus_returns now t None (Some e) None None None w2) as [? ->]. }
  next. response x3 w3. next. response x4 w4. destruct x4 as [e|].
  { next. rewrite outcome_ret, final_ret. next. response x6 w6. next.
    destruct (updateStatus_returns now t None None x3 (Some e) x6 w6) as [[?|] ->]; [done|].
    by destruct x3. }
  next. response x5 w5. next. response x6 w6. next.
  destruct (updateStatus_returns now t None None x3 x5 x6 w6) as [u Hu]. rewrite Hu.
  destruct u as [?|]; [done|]. destruct x3; [done|]. destruct x5; [done|]. destruct x6; [done|].
  intros [= <-]. exists hard, w1, w2, w3, w4, w5, w6. done.
Qed.

Lemma updateStatus_frame now t nsErr quotaErr saErr rbacErr npErr w k nn :
  k <> KTenant ->
  stored k (final (updateStatus now t nsErr quotaErr saErr rbacErr npErr) w) nn = stored k w nn.
Proof.
  intros Hk. pose proof (updateStatus_run now t nsErr quotaErr saErr rbacErr npErr w) as Hu.
  cbv zeta in Hu. case_decide; destruct Hu as [_ ->]; [done|].
  destruct (handle _ w) as [x w'] eqn:E. by apply (stored_frame _ _ _ _ k nn E).
Qed.

(** A status update without error leaves a status that reports the outcomes. *)
Lemma tenant_updateStatus_stores now t nsErr quotaErr saErr rbacErr npErr w :
  stored KTenant w (key KTenant t) = Some t ->
  outcome (updateStatus now t nsErr quotaErr saErr rbacErr npErr) w = Some None ->
  exists t', stored KTenant (final (updateStatus now t nsErr quotaErr saErr rbacErr npErr) w)
               (key KTenant t) = Some t' /\
    tenant_reports nsErr quotaErr saErr rbacErr npErr (tenant_Status t') /\
    tenant_Spec t' = tenant_Spec t.
Proof.
  intros Ht Hout. pose proof (updateStatus_run now t nsErr quotaErr saErr rbacErr npErr w) as Hu.
  cbv zeta in Hu. case_decide as Hd; destruct Hu as [Ho ->]; [by exists t|].
  destruct (handle _ w) as [[t'|e] w'] eqn:E; [|simpl in Ho; congruence].
  destruct (status_stored _ _ _ _ _ E) as (t0 & Ht0 & (_ & Hs & Hst) & Ht').
  exists t'. split; [done|]. rewrite Hst. split; [apply tenant_with_outcomes_reports|].
  change (key KTenant (with_outcomes _ _ _ _ _ _ _)) with (key KTenant t) in Ht0. congruence.
Qed.

(** What the run of a reconcile that returns no error leaves in the store. *)
Lemma tenant_Reconcile_stored now req w res :
  outcome (Reconcile now req) w = Some (res, None) ->
  res = Result0 /\
  match stored KTenant w req with
  | None => final (Reconcile now req) w = w
  | Some t =>
      provisioned t (final (Reconcile now req) w) /\
      exists t', stored KTenant (final (Reconcile now req) w) req = Some t' /\
        tenant_ready (tenant_Status t') /\ tenant_Spec t' = tenant_Spec t
  end.
Proof.
  intros Hout. destruct (read KTenant req w) as [t|e] eqn:Hr.
  - destruct (Reconcile_success _ _ _ _ _ Hr Hout)
      as (hard & w1 & w2 & w3 & w4 & w5 & w6 & Hq & E1 & E2 & E3 & E4 & E5 & E6 & Hu & Hf & ->).
    apply get_ok in Hr. rewrite Hr, Hf. pose proof (stored_key _ _ _ _ Hr) as Hk.
    split; [done|]. split.
    + split; rewrite updateStatus_frame by done; frames.
      * by apply (reconcileNamespace_stores _ _ _ E1).
      * destruct (reconcileResourceQuota_stores _ _ _ _ E2) as (rq & ? & ? & ?).
        exists rq. split_and!; congruence.
      * by apply (reconcileServiceAccount_stores _ _ _ E3).
      * by apply (mutateRole_stores _ _ _ E4).
      * by apply (mutateRoleBinding_stores _ _ _ E5).
      * by apply (reconcileNetworkPolicy_stores _ _ _ E6).
    + rewrite <- Hk. apply tenant_updateStatus_stores; [|done]. frames. congruence.
  - unfold Reconcile in *. rewrite outcome_bind, outcome_Get, Hr, outcome_ret in Hout.
    rewrite final_bind, outcome_Get, final_Get, Hr, final_ret.
    simplify_eq. split; [done|]. unfold read in Hr.
    rewrite (get_missing KTenant _ _ _ Hr); [done|]. by apply IgnoreNotFound_None.
Qed.

(** C6: a reconcile of an existing Tenant that returns no error leaves the
    Tenant's namespace (with its tenant label and the three pod-security
    labels), quota (exactly the parsed quota of the spec), service account,
    role, role binding and network policy in the store, with the content of
    the code's templates, and a Ready status whose seven conditions are true. *)
Theorem Tenant_Reconcile_provisions now req w res t :
  stored KTenant w req = Some t ->
  outcome (Reconcile now req) w = Some (res, None) ->
  res = Result0 /\ provisioned t (final (Reconcile now req) w) /\
  exists t', stored KTenant (final (Reconcile now req) w) req = Some t' /\
    tenant_ready (tenant_Status t') /\ tenant_Spec t' = tenant_Spec t.
Proof. intros Ht Hout. apply tenant_Reconcile_stored in Hout. by rewrite Ht in Hout. Qed.

(** The steps change nothing of a Tenant that is provisioned. *)
Lemma upsert_settled k o f o0 w w' x :
  handle (CreateOrUpdate k o f) w = (x, w') -> stored k w (key k o) = Some o0 ->
  f o0 = o0 -> w' = w.
Proof. intros E Ho Hf. pose proof (upsert_noop k o f w o0 Ho Hf) as Hn. by rewrite E in Hn. Qed.

Lemma tenant_Reconcile_settled now req w res t :
  stored KTenant w req = Some t -> provisioned t w -> tenant_ready (tenant_Status t) ->
  outcome (Reconcile now req) w = Some (res, None) ->
  final (Reconcile now req) w = w.
Proof.
  intros Ht Hp Hready Hout. destruct (read KTenant req w) as [t'|e] eqn:Hr.
  2:{ unfold Reconcile. by rewrite final_bind, outcome_Get, final_Get, Hr, final_ret. }
  destruct (Reconcile_success _ _ _ _ _ Hr Hout)
    as (hard & w1 & w2 & w3 & w4 & w5 & w6 & Hq & E1 & E2 & E3 & E4 & E5 & E6 & Hu & Hf & ->).
  apply get_ok in Hr. replace t' with t in * by congruence. clear Hr. rewrite Hf.
  destruct Hp as [(ns & Hns & N1 & N2 & N3 & N4) (rq & Hrq & Q1 & Q2) (sa & Hsa & S1)
                  (role & Hro & R1 & R2) (b & Hb & B1 & B2 & B3) (np & Hnp & P1 & P2)].
  assert (w1 = w) as ->
    by (apply (upsert_settled _ _ _ _ _ _ _ E1 Hns); by apply mutateNamespace_settled).
  assert (w2 = w) as ->
    by (apply (upsert_settled _ _ _ _ _ _ _ E2 Hrq), mutateResourceQuota_settled; congruence).
  assert (w3 = w) as ->
    by (apply (upsert_settled _ _ _ _ _ _ _ E3 Hsa); by apply mutateServiceAccount_settled).
  assert (w4 = w) as ->
    by (apply (upsert_settled _ _ _ _ _ _ _ E4 Hro); by apply mutateRole_settled).
  assert (w5 = w) as ->
    by (apply (upsert_settled _ _ _ _ _ _ _ E5 Hb); by apply mutateRoleBinding_settled).
  assert (w6 = w) as ->
    by (apply (upsert_settled _ _ _ _ _ _ _ E6 Hnp); by apply mutateNetworkPolicy_settled).
  pose proof (updateStatus_run now t None None None None None w) as Hrun. cbv zeta in Hrun.
  rewrite decide_True in Hrun by apply Hready. by destruct Hrun.
Qed.

(** C17: two reconciles of the same Tenant in a row, neither of which returns
    an error: the second leaves the state of the cluster as it found it. *)
Theorem Tenant_Reconcile_idempotent now now' req w res res' :
  outcome (Reconcile now req) w = Some (res, None) ->
  outcome (Reconcile now' req) (final (Reconcile now req) w) = Some (res', None) ->
  final (Reconcile now' req) (final (Reconcile now req) w) = final (Reconcile now req) w.
Proof.
  intros H1 H2. apply tenant_Reconcile_stored in H1 as [_ H1].
  destruct (stored KTenant w req) as [t|] eqn:Ht.
  - destruct H1 as (Hp & t' & Ht' & Hready & Hs).
    apply (tenant_Reconcile_settled now' req _ res' t'); try done.
    assert (tenant_name t' = tenant_name t) as Hn.
    { unfold tenant_name. apply stored_key in Ht, Ht'. unfold key, key_of in *.
      simpl in *. congruence. }
    destruct Hp. split; unfold isolation_spec in *; rewrite Hn; [done| |done..]. by rewrite Hs.
  - rewrite H1 in *. apply tenant_Reconcile_stored in H2 as [_ H2]. by rewrite Ht in H2.
Qed.
End runs.

(** ** Properties of traces *)

(** The error a [CreateOrUpdate] of this kind came back with, in a trace. *)
Definition upsert_result (k : Kind) (e : Event) : option (option error) :=
  match e with
  | Ev r x =>
      match r return Resp r -> option (option error) with
      | CreateOrUpdate k' _ _ => fun x => if decide (k' = k) then Some x else None
      | _ => fun _ => None
      end x
  end.

Fixpoint step_result (k : Kind) (t : list Event) : option (option error) :=
  match t with
  | [] => None
  | e :: t' => match upsert_result k e with Some x => Some x | None => step_result k t' end
  end.

(** Where the objects of a Tenant are. *)
Definition tenant_object (t : Tenant) (k : Kind) : option NamespacedName :=
  match k with
  | KNamespace => Some (mkNN "" (tenant_name t))
  | KResourceQuota => Some (mkNN (tenant_name t) "tenant-quota")
  | KServiceAccount => Some (mkNN (tenant_name t) "tenant-workload")
  | KRole => Some (mkNN (tenant_name t) "tenant-workload-role")
  | KRoleBinding => Some (mkNN (tenant_name t) "tenant-workload-binding")
  | KNetworkPolicy => Some (mkNN (tenant_name t) "tenant-isolation")
  | _ => None
  end.

(** The step whose success a write of this kind requires. *)
Definition prerequisite (k : Kind) : option Kind :=
  match k with
  | KResourceQuota => Some KNamespace
  | KServiceAccount | KRole | KNetworkPolicy => Some KResourceQuota
  | KRoleBinding => Some KRole
  | _ => None
  end.

(** What the controller may ask the server, after these events. *)
Definition tenant_may (req : NamespacedName) (past : list Event) (r : Req) : Prop :=
  if is_write r then
    exists t, head past = Some (Ev (Get KTenant req) (Ok t)) /\
      match r with
      | CreateOrUpdate k o _ =>
          tenant_object t k = Some (key k o) /\
          forall k', prerequisite k = Some k' -> step_result k' past = Some None
      | StatusUpdate KTenant t' =>
          tenant_ObjectMeta t' = tenant_ObjectMeta t /\ tenant_Spec t' = tenant_Spec t /\
          exists nsErr quotaErr saErr rbacErr npErr,
            tenant_reports nsErr quotaErr saErr rbacErr npErr (tenant_Status t')
      | _ => False
      end
  else r = Get KTenant req.

(** The steps after the quota are all attempted. *)
Definition attempts_the_rest (t : list Event) : Prop :=
  step_result KResourceQuota t = Some None ->
  step_result KServiceAccount t <> None /\ step_result KRole t <> None /\
  step_result KNetworkPolicy t <> None /\
  (step_result KRole t = Some None -> step_result KRoleBinding t <> None).

Section updates.
Context `{L : K8sLib, !K8sLibLaws}.

Lemma tenant_updateStatus_wp P (Q : list Event -> option (option error) -> Prop)
    now t nsErr quotaErr saErr rbacErr npErr past :
  let r := StatusUpdate KTenant (with_outcomes now t nsErr quotaErr saErr rbacErr npErr) in
  P past r -> Q past (Some None) -> (forall x e, Q (past ++ [Ev r x]) (Some e)) ->
  wp P Q past (updateStatus now t nsErr quotaErr saErr rbacErr npErr).
Proof.
  cbv zeta. intros HP HQ HQ'. rewrite tenant_updateStatus_unfold.
  destruct (bool_decide _); [done|]. apply wp_bind, wp_call; [done|].
  intros [?|?]; simpl; auto.
Qed.

End updates.

(** Steps through a reconcile, its status update in one step. *)
Ltac tenant_steps :=
  unfold Reconcile, reconcileNamespace, reconcileResourceQuota,
    reconcileServiceAccount, reconcileRBAC, reconcileNetworkPolicy;
  repeat ((apply tenant_updateStatus_wp; cbn [app]) || wp_step).

Section traces.
Context `{L : K8sLib, !K8sLibLaws}.

Lemma tenant_Reconcile_wp now req :
  wp (tenant_may req) (fun t _ => attempts_the_rest t) [] (Reconcile now req).
Proof.
  tenant_steps;
    match goal with
    | |- tenant_may _ [] _ => done
    | |- tenant_may _ _ (CreateOrUpdate _ _ _) =>
        eexists; split; [done|]; split; [done|]; by intros k' [= <-]
    | |- tenant_may _ _ _ =>
        eexists; split; [done|]; split; [done|]; split; [done|];
        do 5 eexists; apply tenant_with_outcomes_reports
    | |- attempts_the_rest _ => by intros Hq
    end.
Qed.

Lemma tenant_Reconcile_guarded now req t o :
  exec (Reconcile now req) t o ->
  guarded (tenant_may req) [] t /\ attempts_the_rest t.
Proof. intros He. apply (wp_sound _ _ _ _ _ He [] (tenant_Reconcile_wp now req)). Qed.

(** C13: whatever the server answers, the controller reads its Tenant first
    and then writes only the six objects of that Tenant and the Tenant's own
    status, whose phase and seven conditions agree; the quota only once the namespace is reconciled, the service
    account, the role and the network policy only once the quota is, the
    binding only once the role is; and once the quota is reconciled all the
    remaining steps are attempted, whichever of them fail. *)
Theorem Tenant_Reconcile_order now req t o :
  exec (Reconcile now req) t o ->
  guarded (tenant_may req) [] t /\ attempts_the_rest t.
Proof. apply tenant_Reconcile_guarded. Qed.

(** The result of the two requests of [reconcileRBAC]. *)
Definition rbac_result (t : list Event) : option (option error) :=
  match step_result KRole t with
  | Some None => step_result KRoleBinding t
  | x => x
  end.

(** A status written after these events reports what happened. *)
Definition truthful (past : list Event) (r : Req) : Prop :=
  match r with
  | StatusUpdate KTenant t =>
      step_result KNamespace past = Some None ->
      step_result KResourceQuota past = Some None ->
      exists saErr rbacErr npErr,
        step_result KServiceAccount past = Some saErr /\ rbac_result past = Some rbacErr /\
        step_result KNetworkPolicy past = Some npErr /\
        tenant_reports None None saErr rbacErr npErr (tenant_Status t)
  | _ => True
  end.

(** C16: once the namespace and the quota are reconciled, the status that is
    written reports the outcome of each of the other steps as its own
    condition, whichever of them failed, and is Ready exactly if none did. *)
Theorem Tenant_status_truthful now req t o :
  exec (Reconcile now req) t o -> guarded truthful [] t.
Proof.
  intros He. apply (wp_sound truthful (fun _ _ => True) _ _ _ He []).
  tenant_steps; simpl; try done; intros; simplify_eq;
    (do 3 eexists; do 3 (split; [reflexivity|]); apply tenant_with_outcomes_reports).
Qed.

(** A status written after the namespace or the quota failed claims that the
    steps which were not attempted succeeded. *)
Definition overclaims (past : list Event) (r : Req) : Prop :=
  match r with
  | StatusUpdate KTenant t =>
      let cs := sigs (tenant_Conditions (tenant_Status t)) in
      forall e, step_result KNamespace past = Some (Some e) \/
                step_result KResourceQuota past = Some (Some e) ->
      step_result KServiceAccount past = None /\ step_result KRole past = None /\
      step_result KNetworkPolicy past = None /\
      assoc "ServiceAccountReady" cs = Some (ConditionTrue, "ServiceAccountReconciled") /\
      assoc "RBACReady" cs = Some (ConditionTrue, "RBACReconciled") /\
      assoc "NetworkPolicyReady" cs = Some (ConditionTrue, "NetworkPolicyReconciled") /\
      (step_result KNamespace past = Some (Some e) ->
       step_result KResourceQuota past = None /\
       assoc "QuotaApplied" cs = Some (ConditionTrue, "QuotaReconciled"))
  | _ => True
  end.

Lemma newConditions_assoc now cs nsErr quotaErr saErr rbacErr npErr ty v :
  (ty, v) ∈ verdicts nsErr quotaErr saErr rbacErr npErr ->
  assoc ty (sigs (newConditions now cs nsErr quotaErr saErr rbacErr npErr)) = Some v.
Proof.
  intros Hv. rewrite tenant_sigs_newConditions.
  pose proof (upsert_all_reports _ (sigs cs)
                (tenant_verdicts_NoDup nsErr quotaErr saErr rbacErr npErr)) as Hr.
  by apply (proj1 (List.Forall_forall _ _) Hr (ty, v)), list_elem_of_In.
Qed.

(** C37: when reconciling the namespace or the quota fails, the status that is
    written reports the resources after it as reconciled although none of
    them was attempted. *)
Theorem Tenant_failure_overclaims now req t o :
  exec (Reconcile now req) t o -> guarded overclaims [] t.
Proof.
  intros He. apply (wp_sound overclaims (fun _ _ => True) _ _ _ He []).
  tenant_steps; try done; intros e' [?|?]; simplify_eq/=;
    split_and!; try done; try (intros ?; simplify_eq/=; split; [done|]);
    apply newConditions_assoc; simpl; set_solver.
Qed.
End traces.
