(* ===== verification/TenantQuota.v ===== *)
(** * The quota of a tenant

    [buildQuotaResourceList] of [controller_helpers.go] against the quota it is
    given, and against the patterns the CRD admits. *)
From S2P Require Import Prelude.
From S2P Require Import Decimal.
From S2P Require Import ApiTypes.
From S2P Require Import K8sLib.
From S2P Require Import ApiClient.
From S2P Require Import Conditions.
From S2P Require Import TenantController.

(** The entries the quota asks for: the resource and the text of its amount. *)
Definition quota_entries (q : TenantResourceQuota) : list (string * string) :=
  [("cpu", quota_CPU q); ("memory", quota_Memory q); ("nvidia.com/gpu", quota_GPU q)] ++
  (if decide (quota_Pods q = "") then [] else [("pods", quota_Pods q)]) ++
  (if decide (quota_Jobs q = "") then [] else [("count/jobs.batch", quota_Jobs q)]).

(** The texts the patterns of [tenant_types.go] admit. *)
Definition quota_admitted (q : TenantResourceQuota) : Prop :=
  (exists i f, quota_CPU q = i +:+ f /\ digits i /\
               (f = "" \/ exists f', f = "." +:+ f' /\ digits f')) /\
  (exists i suffix, quota_Memory q = i +:+ suffix /\ digits i /\
               (suffix = "Mi" \/ suffix = "Gi" \/ suffix = "Ti")) /\
  digits (quota_GPU q) /\
  (quota_Pods q = "" \/ digits (quota_Pods q)) /\
  (quota_Jobs q = "" \/ digits (quota_Jobs q)).

Section quota.
Context `{L : K8sLib, !K8sLibLaws}.

Lemma quota_content q hard :
  buildQuotaResourceList q = Ok hard ->
  (forall name text, (name, text) ∈ quota_entries q ->
     exists v, ParseQuantity text = Ok v /\ hard !! name = Some v) /\
  (forall name, is_Some (hard !! name) -> name ∈ map fst (quota_entries q)).
Proof.
  unfold buildQuotaResourceList, quota_entries. intros Hq. split.
  - intros name text Hin. repeat case_match; simplify_eq/=;
    repeat (apply elem_of_cons in Hin as [[= -> ->]|Hin]);
      try (by apply elem_of_nil in Hin); eauto.
  - intros name Hn. repeat case_match; simplify_eq/=; rewrite ?elem_of_cons;
      rewrite ?lookup_insert_is_Some', ?lookup_singleton_is_Some in Hn;
      repeat (destruct Hn as [<-|Hn]; [tauto|]); subst; tauto.
Qed.

Lemma quota_parses q :
  (forall name text, (name, text) ∈ quota_entries q -> exists v, ParseQuantity text = Ok v) ->
  exists hard, buildQuotaResourceList q = Ok hard.
Proof.
  intros Hp. unfold buildQuotaResourceList.
  assert (forall name text, (name, text) ∈ quota_entries q -> forall e,
            ParseQuantity text <> Err e) as Hne.
  { intros name text Hin e He. destruct (Hp _ _ Hin). congruence. }
  unfold quota_entries in Hne. clear Hp.
  repeat case_match; eauto; exfalso; try contradiction; (eapply Hne; [|eassumption]); simpl;
    repeat first [apply list_elem_of_here | apply list_elem_of_further].
Qed.

(** Success is determined by the entries alone. *)
Lemma quota_built_iff q hard :
  buildQuotaResourceList q = Ok hard <->
  (forall name text, (name, text) ∈ quota_entries q ->
     exists v, ParseQuantity text = Ok v /\ hard !! name = Some v) /\
  (forall name, is_Some (hard !! name) -> name ∈ map fst (quota_entries q)).
Proof.
  split; [apply quota_content|]. intros [Hv Hd].
  destruct (quota_parses q) as [hard' Hq].
  { intros name text Hin. destruct (Hv _ _ Hin) as (v & ? & _). by exists v. }
  rewrite Hq. f_equal. apply quota_content in Hq as [Hv' Hd'].
  apply map_eq. intros name. destruct (decide (name ∈ map fst (quota_entries q))) as [Hn|Hn].
  - apply list_elem_of_fmap in Hn as ([name' text] & -> & Hin). simpl.
    destruct (Hv _ _ Hin) as (v & Hp & ->). destruct (Hv' _ _ Hin) as (v' & Hp' & ->).
    congruence.
  - destruct (hard !! name) eqn:H1; [exfalso; apply Hn, Hd; by rewrite H1|].
    destruct (hard' !! name) eqn:H2; [exfalso; apply Hn, Hd'; by rewrite H2|done].
Qed.

(** So is a quota whose texts match the patterns of the Tenant type. *)
Lemma quota_admitted_built q :
  quota_admitted q -> exists hard, buildQuotaResourceList q = Ok hard.
Proof.
  intros (Hc & Hm & Hg & Hp & Hj). apply quota_parses. intros name text Hin.
  assert (forall s, digits s -> exists v, ParseQuantity s = Ok v) as Hd.
  { intros s Hs. destruct (ParseQuantity_number s "" "" 1000000000) as [v Hv]; eauto.
    simpl in Hv. exists v. by rewrite string_app_nil_r in Hv. }
  unfold quota_entries in Hin. rewrite !elem_of_app, !elem_of_cons in Hin.
  destruct Hin as [[Hin|[Hin|[Hin|Hin]]]|[Hin|Hin]]; simplify_eq.
  - destruct Hc as (i & f & -> & Hi & Hf).
    destruct (ParseQuantity_number i f "" 1000000000) as [v Hv]; eauto.
    exists v. by rewrite string_app_nil_r in Hv.
  - destruct Hm as (i & suffix & -> & Hi & [-> | [-> | ->]]);
      by eapply (ParseQuantity_number i "" _ _ Hi (or_introl eq_refl)).
  - by apply Hd.
  - by apply elem_of_nil in Hin.
  - case_decide; [by apply elem_of_nil in Hin|].
    apply list_elem_of_singleton in Hin as [= -> ->]. apply Hd. tauto.
  - case_decide; [by apply elem_of_nil in Hin|].
    apply list_elem_of_singleton in Hin as [= -> ->]. apply Hd. tauto.
Qed.

(** C29: building the quota succeeds exactly when every amount that is given
    parses, and then holds, under the resource names of the code, the parsed
    amounts and nothing else; a quota whose texts match the patterns of the
    Tenant type is always built. *)
Theorem buildQuotaResourceList_spec q :
  (forall hard, buildQuotaResourceList q = Ok hard <->
     (forall name text, (name, text) ∈ quota_entries q ->
        exists v, ParseQuantity text = Ok v /\ hard !! name = Some v) /\
     (forall name, is_Some (hard !! name) -> name ∈ map fst (quota_entries q))) /\
  (quota_admitted q -> exists hard, buildQuotaResourceList q = Ok hard).
Proof. split; [apply quota_built_iff|apply quota_admitted_built]. Qed.
End quota.
