(* ===== verification/TenantIsolation.v ===== *)
(** * Isolation of tenants

    What the NetworkPolicy of [controller_helpers.go] means.  The evaluation
    relation below is the documented semantics of [networking.k8s.io/v1], on the
    fields the operator sets; it specifies and is not code of the repository.  The
    theorems are about any state of the cluster in which the tenants are
    [provisioned], which is what a successful reconcile leaves. *)
From S2P Require Import Prelude.
From S2P Require Import ApiTypes.
From S2P Require Import K8sLib.
From S2P Require Import ApiClient.
From S2P Require Import TenantController.

(** ** NetworkPolicy *)

Record Pod := mkPod { pod_namespace : string; pod_labels : StringMap }.

Definition selects (s : LabelSelector) (labels : StringMap) : Prop := MatchLabels s ⊆ labels.

(** A port of a rule; the protocol is TCP if it is left out. *)
Definition port_matches (p : NetworkPolicyPort) (proto : Protocol) (port : Z) : Prop :=
  default ProtocolTCP (port_Protocol p) = proto /\
  match port_Port p with None => True | Some n => n = port end.

(** No port in the list stands for all. *)
Definition ports_match (ps : list NetworkPolicyPort) (proto : Protocol) (port : Z) : Prop :=
  ps = [] \/ exists p, p ∈ ps /\ port_matches p proto port.

Section semantics.
Context {W : Type} `{!Cluster W}.

Definition namespace_labels (w : W) (n : string) : StringMap :=
  match stored KNamespace w (mkNN "" n) with
  | Some ns => ensure_map (Labels (ns_ObjectMeta ns))
  | None => ∅
  end.

(** The peer of a rule of a policy in namespace [n]. *)
Definition peer_matches (w : W) (n : string) (peer : NetworkPolicyPeer) (pod : Pod) : Prop :=
  match peer_NamespaceSelector peer, peer_PodSelector peer with
  | Some nsel, Some psel =>
      selects nsel (namespace_labels w (pod_namespace pod)) /\ selects psel (pod_labels pod)
  | Some nsel, None => selects nsel (namespace_labels w (pod_namespace pod))
  | None, Some psel => pod_namespace pod = n /\ selects psel (pod_labels pod)
  | None, None => False
  end.

Definition peers_match (w : W) (n : string) (ps : list NetworkPolicyPeer) (pod : Pod) : Prop :=
  ps = [] \/ exists p, p ∈ ps /\ peer_matches w n p pod.

(** A policy of the pod's namespace that selects the pod, for this direction. *)
Definition applies (w : W) (ty : PolicyType) (pod : Pod) (np : NetworkPolicy) : Prop :=
  (exists name, stored KNetworkPolicy w (mkNN (pod_namespace pod) name) = Some np) /\
  ty ∈ PolicyTypes (np_Spec np) /\ selects (PodSelector (np_Spec np)) (pod_labels pod).

(** A pod is isolated in a direction once a policy applies to it; then the
    union of the rules of these policies is allowed. *)
Definition ingress_allowed (w : W) (src dst : Pod) (proto : Protocol) (port : Z) : Prop :=
  (forall np, ~ applies w PolicyTypeIngress dst np) \/
  exists np rule, applies w PolicyTypeIngress dst np /\ rule ∈ Ingress (np_Spec np) /\
    peers_match w (pod_namespace dst) (From rule) src /\
    ports_match (ingress_Ports rule) proto port.

Definition egress_allowed (w : W) (src dst : Pod) (proto : Protocol) (port : Z) : Prop :=
  (forall np, ~ applies w PolicyTypeEgress src np) \/
  exists np rule, applies w PolicyTypeEgress src np /\ rule ∈ Egress (np_Spec np) /\
    peers_match w (pod_namespace src) (To rule) dst /\
    ports_match (egress_Ports rule) proto port.

Definition connects (w : W) (src dst : Pod) (proto : Protocol) (port : Z) : Prop :=
  egress_allowed w src dst proto port /\ ingress_allowed w src dst proto port.
End semantics.

Lemma selects_singleton k v labels :
  selects (mkLabelSelector {[ k := v ]}) labels <-> labels !! k = Some v.
Proof. unfold selects. simpl. by rewrite map_singleton_subseteq_l. Qed.

Lemma selects_empty labels : selects (mkLabelSelector ∅) labels.
Proof. apply map_empty_subseteq. Qed.

Section isolation.
Context `{L : K8sLib} {W : Type} `{!Cluster W}.

(** The tenant's policy is the only one of its namespace; its role does not let
    it create others.  Policies add up, so another could let more in or out. *)
Definition sole_policy (t : Tenant) (w : W) : Prop :=
  forall name np, stored KNetworkPolicy w (mkNN (tenant_name t) name) = Some np ->
  name = "tenant-isolation".

Lemma tenant_label t w :
  provisioned t w -> namespace_labels w (tenant_name t) !! tenantLabelKey = Some (tenant_name t).
Proof.
  intros Hp. destruct (has_namespace _ _ Hp) as (ns & Hns & Hl & _).
  unfold namespace_labels. by rewrite Hns.
Qed.

(** One policy applies to the pods of a tenant, in both directions. *)
Lemma policy_applies t w pod ty np :
  provisioned t w -> sole_policy t w -> pod_namespace pod = tenant_name t ->
  applies w ty pod np <->
  stored KNetworkPolicy w (mkNN (tenant_name t) "tenant-isolation") = Some np.
Proof.
  intros Hp Hs Hn. unfold applies. rewrite Hn.
  destruct (has_network_policy _ _ Hp) as (np' & Hnp & _ & Hspec). split.
  - intros [[name Hst] _]. by rewrite <- (Hs _ _ Hst).
  - intros Hst. split; [by eexists|]. replace np with np' by congruence. rewrite Hspec.
    split; [destruct ty; set_solver|apply selects_empty].
Qed.

(** Traffic into a pod of a tenant: from the pods of the namespaces that
    carry the tenant's label. *)
Lemma ingress_iff t w src dst proto port :
  provisioned t w -> sole_policy t w -> pod_namespace dst = tenant_name t ->
  ingress_allowed w src dst proto port <->
  namespace_labels w (pod_namespace src) !! tenantLabelKey = Some (tenant_name t).
Proof.
  intros Hp Hs Hn. pose proof (fun np => policy_applies t w dst PolicyTypeIngress np Hp Hs Hn) as Ha.
  destruct (has_network_policy _ _ Hp) as (np & Hnp & _ & Hspec).
  unfold ingress_allowed. rewrite <- (selects_singleton tenantLabelKey). split.
  - intros [Hno|(np' & rule & Hap & Hr & Hpeer & _)]; [by destruct (Hno np); apply Ha|].
    apply Ha in Hap. replace np' with np in * by congruence. rewrite Hspec in Hr. simpl in Hr.
    apply list_elem_of_singleton in Hr as ->.
    destruct Hpeer as [|(peer & Hin & Hm)]; [done|]. simpl in Hin.
    by apply list_elem_of_singleton in Hin as ->.
  - intros Hl. right. exists np. rewrite Hspec. eexists. split; [by apply Ha|]. simpl.
    split; [by apply list_elem_of_singleton|]. split; [|by left].
    right. eexists. split; [by apply list_elem_of_singleton|done].
Qed.

(** Traffic out of a pod of a tenant: to the tenant's own namespaces, and to
    port 53 of the pods labelled as the cluster's DNS. *)
Lemma egress_iff t w src dst proto port :
  provisioned t w -> sole_policy t w -> pod_namespace src = tenant_name t ->
  egress_allowed w src dst proto port <->
  namespace_labels w (pod_namespace dst) !! tenantLabelKey = Some (tenant_name t) \/
  (pod_labels dst !! "k8s-app" = Some "kube-dns" /\ port = 53 /\
   (proto = ProtocolUDP \/ proto = ProtocolTCP)).
Proof.
  intros Hp Hs Hn. pose proof (fun np => policy_applies t w src PolicyTypeEgress np Hp Hs Hn) as Ha.
  destruct (has_network_policy _ _ Hp) as (np & Hnp & _ & Hspec).
  unfold egress_allowed.
  rewrite <- (selects_singleton tenantLabelKey), <- (selects_singleton "k8s-app"). split.
  - intros [Hno|(np' & rule & Hap & Hr & Hpeer & Hport)]; [by destruct (Hno np); apply Ha|].
    apply Ha in Hap. replace np' with np in * by congruence. rewrite Hspec in Hr. simpl in Hr.
    apply elem_of_cons in Hr as [->|Hr]; [right|apply list_elem_of_singleton in Hr as ->; left];
      (destruct Hpeer as [|(peer & Hin & Hm)]; [done|]); simpl in Hin;
      apply list_elem_of_singleton in Hin as ->; [|done].
    destruct Hm as [_ Hm]. split; [done|]. destruct Hport as [|(p & Hin & Hpr & Hpo)]; [done|].
    simpl in Hin. apply elem_of_cons in Hin as [->|Hin];
      [|apply list_elem_of_singleton in Hin as ->]; simpl in Hpr, Hpo; auto.
  - intros Hl. right. exists np. rewrite Hspec. destruct Hl as [Hl|(Hl & -> & Hproto)].
    + eexists. split; [by apply Ha|]. simpl. split; [apply elem_of_cons; right;
        by apply list_elem_of_singleton|]. split; [|by left].
      right. eexists. split; [by apply list_elem_of_singleton|done].
    + eexists. split; [by apply Ha|]. simpl. split; [apply list_elem_of_here|]. split.
      * right. eexists. split; [by apply list_elem_of_singleton|].
        split; [apply selects_empty|done].
      * right. destruct Hproto as [->| ->]; eexists.
        -- split; [apply list_elem_of_here|by split].
        -- split; [apply list_elem_of_further, list_elem_of_here|by split].
Qed.

(** C8: no pod of one provisioned tenant can connect to a pod of another that
    has no network policy but its own, on any protocol and port. *)
Theorem tenants_isolated a b w src dst proto port :
  provisioned a w -> provisioned b w -> tenant_name a <> tenant_name b -> sole_policy b w ->
  pod_namespace src = tenant_name a -> pod_namespace dst = tenant_name b ->
  ~ connects w src dst proto port.
Proof.
  intros Ha Hb Hne Hs Hsrc Hdst [_ Hin].
  apply (ingress_iff b) in Hin; [|done..]. rewrite Hsrc, (tenant_label _ _ Ha) in Hin.
  congruence.
Qed.

(** C22: inside a provisioned tenant that has no network policy but its own every
    connection is allowed; towards the namespaces without the tenant's label its
    pods may send exactly to port 53, over UDP or TCP, of the pods labelled as
    DNS, and connect where these admit them. *)
Theorem tenant_egress t w src dst proto port :
  provisioned t w -> sole_policy t w -> pod_namespace src = tenant_name t ->
  (pod_namespace dst = tenant_name t -> connects w src dst proto port) /\
  (namespace_labels w (pod_namespace dst) !! tenantLabelKey <> Some (tenant_name t) ->
   (egress_allowed w src dst proto port <->
      pod_labels dst !! "k8s-app" = Some "kube-dns" /\ port = 53 /\
      (proto = ProtocolUDP \/ proto = ProtocolTCP)) /\
   (connects w src dst proto port <->
      pod_labels dst !! "k8s-app" = Some "kube-dns" /\ port = 53 /\
      (proto = ProtocolUDP \/ proto = ProtocolTCP) /\ ingress_allowed w src dst proto port)).
Proof.
  intros Hp Hs Hsrc. split.
  - intros Hdst. split.
    + apply (egress_iff t); [done..|]. left. rewrite Hdst. by apply tenant_label.
    + apply (ingress_iff t); [done..|]. rewrite Hsrc. by apply tenant_label.
  - intros Hno. unfold connects. rewrite (egress_iff t) by done. tauto.
Qed.
End isolation.
