(* ===== verification/InferenceServiceController.v ===== *)
(** * InferenceService controller

    [operator/internal/controller/inference_service_controller.go]: resolves
    the model, the tenant, the resource profile and the capacity of an
    InferenceService, reports them in its status, and creates the Job behind it
    once they are all there. *)
From S2P Require Import Prelude.
From S2P Require Import ApiTypes.
From S2P Require Import K8sLib.
From S2P Require Import ApiClient.
From S2P Require Import Conditions.
From S2P Require Import Priority.
From S2P Require Import ResourceProfile.
From S2P Require Import Scheduling.

(** The three states of [modelState]. *)
Inductive ModelState := ModelNotFound | ModelReady | ModelNotReady.

Definition set_isvc_Status (s : InferenceServiceStatus) (isvc : InferenceService)
    : InferenceService :=
  mkInferenceService (isvc_ObjectMeta isvc) (isvc_Spec isvc) s.

Section controller.
Context `{L : K8sLib}.

(** ** [updateStatus] *)

Definition setCond (now : Time) (newConditions : list Condition) (condType : string)
    (err : option error) (okReason failReason : string) : list Condition :=
  let '(status, reason, msg) :=
    match err with
    | None => (ConditionTrue, okReason, "")
    | Some err => (ConditionFalse, failReason, Error_ err)
    end in
  SetStatusCondition now newConditions (mkCondition condType status 0 0 reason msg).

Definition newConditions (now : Time) (cs : list Condition)
    (modelErr tenantErr profileErr capacityErr : option error) : list Condition :=
  let cs := setCond now cs "ModelReady" modelErr "ModelVerified" "ModelNotReady" in
  let cs := setCond now cs "TenantResolved" tenantErr "TenantFound" "TenantNotFound" in
  let cs := setCond now cs "ResourceProfileResolved" profileErr
              "ProfileFound" "ProfileNotFound" in
  let cs := setCond now cs "CapacityAvailable" capacityErr
              "WithinEnvelope" "CapacityUnavailable" in
  let ready := is_nil modelErr && is_nil tenantErr && is_nil profileErr && is_nil capacityErr in
  let readyErr := if ready then None else Some (errorf "not all dependencies satisfied") in
  let cs := setCond now cs "Accepted" None "InferenceServiceObserved" "" in
  setCond now cs "Ready" readyErr "AllDependenciesResolved" "DependenciesNotReady".

(** The object after the call, whether it was written, and the error. *)
Definition updateStatus (now : Time) (isvc : InferenceService) (derivedPriority : Z)
    (modelErr tenantErr profileErr capacityErr : option error)
    : Prog (InferenceService * (bool * option error)) :=
  let st := isvc_Status isvc in
  let generation := Generation (isvc_ObjectMeta isvc) in
  let newConds :=
    newConditions now (isvc_Conditions st) modelErr tenantErr profileErr capacityErr in
  let ready := is_nil modelErr && is_nil tenantErr && is_nil profileErr && is_nil capacityErr in
  let newPhase := if ready then "Ready" else "Pending" in
  let unchanged :=
    statusUnchanged (isvc_Conditions st) newConds
    && bool_decide (isvc_Phase st = newPhase)
    && bool_decide (DerivedPriority st = derivedPriority)
    && bool_decide (ObservedGeneration st = generation) in
  if unchanged then Ret (isvc, (false, None))
  else
    let isvc :=
      set_isvc_Status
        (mkInferenceServiceStatus newConds newPhase (Endpoint st) generation derivedPriority)
        isvc in
    let! r := call (StatusUpdate KInferenceService isvc) in
    match r with
    | Ok isvc' => Ret (isvc', (true, None))
    | Err err => Ret (isvc, (true, Some err))
    end.

(** ** [updateWorkloadCondition] *)

Definition updateWorkloadCondition (now : Time) (isvc : InferenceService)
    (jobErr : option error) : Prog (InferenceService * option error) :=
  let '(status, reason, msg) :=
    match jobErr with
    | None => (ConditionTrue, "JobReconciled", "")
    | Some err => (ConditionFalse, "JobError", Error_ err)
    end in
  let st := isvc_Status isvc in
  let newConds :=
    SetStatusCondition now (isvc_Conditions st)
      (mkCondition "WorkloadReady" status 0 0 reason msg) in
  if statusUnchanged (isvc_Conditions st) newConds then Ret (isvc, None)
  else
    let isvc :=
      set_isvc_Status
        (mkInferenceServiceStatus newConds (isvc_Phase st) (Endpoint st)
           (ObservedGeneration st) (DerivedPriority st)) isvc in
    let! r := call (StatusUpdate KInferenceService isvc) in
    match r with
    | Ok isvc' => Ret (isvc', None)
    | Err err => Ret (isvc, Some err)
    end.

(** ** [reconcileKueueJob] *)

Definition localQueueName (isvc : InferenceService) : string :=
  if match GPU (isvc_Spec isvc) with Some b => b | None => false end
  then Namespace_ (isvc_ObjectMeta isvc) +:+ "-gpu-queue"
  else Namespace_ (isvc_ObjectMeta isvc) +:+ "-queue".

Definition reconcileKueueJob (isvc : InferenceService) (model : option Model)
    : Prog (option error) :=
  match BuildJob isvc model (localQueueName isvc) with
  | None => Panic
  | Some desired =>
      match SetControllerReference isvc desired with
      | Err err => Ret (Some (wrapf "setting owner reference on job: " err))
      | Ok desired =>
          let! r := call (Get KJob (key KJob desired)) in
          match r with
          | Ok _ => Ret None
          | Err err =>
              if IsNotFound err then call (Create KJob desired)
              else Ret (Some (wrapf "getting existing job: " err))
          end
      end
  end.

(** ** [Reconcile] *)

(** The first switch: the state and the model read, or the error returned. *)
Definition resolveModel (isvc : InferenceService) (r : result Model)
    : result (ModelState * option Model) :=
  match r with
  | Err err =>
      if IsNotFound err then Ok (ModelNotFound, None)
      else Err (wrapf ("getting model " +:+ quote (isvc_Model (isvc_Spec isvc)) +:+ ": ") err)
  | Ok model =>
      if IsStatusConditionTrue (model_Conditions (model_Status model)) "Ready"
      then Ok (ModelReady, Some model) else Ok (ModelNotReady, Some model)
  end.

(** The second switch: whether the tenant is found, and the priority. *)
Definition resolveTenant (isvc : InferenceService) (r : result Tenant) : result (bool * Z) :=
  match r with
  | Err err =>
      if IsNotFound err then Ok (false, 0)
      else Err (wrapf ("getting tenant " +:+ quote (Namespace_ (isvc_ObjectMeta isvc))
                         +:+ ": ") err)
  | Ok tenant =>
      Ok (true, Calculate (Default (tenant_Priority (tenant_Spec tenant)))
                  (WorkloadClass (isvc_Spec isvc)) (Priority (isvc_Spec isvc)))
  end.

Definition profileError (isvc : InferenceService) : option error :=
  match Resolve (ResourceProfile (isvc_Spec isvc)) with Ok _ => None | Err err => Some err end.

Definition capacityError (isvc : InferenceService) (modelState : ModelState)
    (profileErr : option error) : option error :=
  match modelState, profileErr with
  | ModelReady, None =>
      match Check (isvc_Model (isvc_Spec isvc)) (ResourceProfile (isvc_Spec isvc)) with
      | Err cErr => Some cErr
      | Ok envelope =>
          if negb (Available envelope) then
            Some (errorf ("no capacity available for model "
                            +:+ quote (isvc_Model (isvc_Spec isvc)) +:+ " on profile "
                            +:+ quote (ResourceProfile (isvc_Spec isvc))))
          else None
      end
  | _, _ => None
  end.

Definition modelError (isvc : InferenceService) (modelState : ModelState) : option error :=
  match modelState with
  | ModelReady => None
  | ModelNotFound =>
      Some (errorf ("model " +:+ quote (isvc_Model (isvc_Spec isvc)) +:+ " not found"))
  | ModelNotReady =>
      Some (errorf ("model " +:+ quote (isvc_Model (isvc_Spec isvc)) +:+ " is not ready"))
  end.

Definition tenantError (isvc : InferenceService) (found : bool) : option error :=
  if found then None
  else Some (errorf ("tenant " +:+ quote (Namespace_ (isvc_ObjectMeta isvc)) +:+ " not found")).

Definition Reconcile (now : Time) (req : NamespacedName) : Prog (Result * option error) :=
  let! r := call (Get KInferenceService req) in
  match r with
  | Err err => Ret (Result0, IgnoreNotFound err)
  | Ok isvc =>
      let ns := Namespace_ (isvc_ObjectMeta isvc) in
      let! rm := call (Get KModel (mkNN ns (isvc_Model (isvc_Spec isvc)))) in
      match resolveModel isvc rm with
      | Err err => Ret (Result0, Some err)
      | Ok (modelState, model) =>
          let! rt := call (Get KTenant (mkNN "" ns)) in
          match resolveTenant isvc rt with
          | Err err => Ret (Result0, Some err)
          | Ok (found, derivedPriority) =>
              let profileErr := profileError isvc in
              let capacityErr := capacityError isvc modelState profileErr in
              let modelErr := modelError isvc modelState in
              let tenantErr := tenantError isvc found in
              let! '(isvc, (changed, err)) :=
                updateStatus now isvc derivedPriority modelErr tenantErr profileErr capacityErr in
              match err with
              | Some err => Ret (Result0, Some err)
              | None =>
                  if negb (is_nil modelErr && is_nil tenantErr && is_nil profileErr
                           && is_nil capacityErr)
                  then Ret (mkResult (10 * Second), None)
                  else
                    let! jobErr := reconcileKueueJob isvc model in
                    let! '(isvc, err) := updateWorkloadCondition now isvc jobErr in
                    match err with
                    | Some err => Ret (Result0, Some err)
                    | None => Ret (Result0, jobErr)
                    end
              end
          end
      end
  end.

(** ** [mapModelToInferenceServices] *)

Definition as_Model (o : Object) : option Model :=
  match o with
  | Typed k o => match k return obj k -> option Model with
                 | KModel => fun model => Some model
                 | _ => fun _ => None
                 end o
  | Untyped _ => None
  end.

(** The requests to enqueue; a nil slice is the empty one. *)
Definition mapModelToInferenceServices (o : Object) : Prog (list NamespacedName) :=
  match as_Model o with
  | None => Ret []
  | Some model =>
      let! r := call (List_ KInferenceService (Namespace_ (model_ObjectMeta model))) in
      match r with
      | Err _ => Ret []
      | Ok items =>
          Ret (fold_left
                 (fun requests isvc =>
                    if decide (isvc_Model (isvc_Spec isvc) = Name (model_ObjectMeta model))
                    then requests ++ [mkNN (Namespace_ (isvc_ObjectMeta isvc))
                                           (Name (isvc_ObjectMeta isvc))]
                    else requests) items [])
      end
  end.
End controller.

(** ** Specification *)

(** The conditions that report the state of the dependencies. *)
Definition verdicts (modelErr tenantErr profileErr capacityErr : option error) : list sig :=
  let ready := is_nil modelErr && is_nil tenantErr && is_nil profileErr && is_nil capacityErr in
  [ ("ModelReady", verdict modelErr "ModelVerified" "ModelNotReady");
    ("TenantResolved", verdict tenantErr "TenantFound" "TenantNotFound");
    ("ResourceProfileResolved", verdict profileErr "ProfileFound" "ProfileNotFound");
    ("CapacityAvailable", verdict capacityErr "WithinEnvelope" "CapacityUnavailable");
    ("Accepted", (ConditionTrue, "InferenceServiceObserved"));
    ("Ready", if ready then (ConditionTrue, "AllDependenciesResolved")
              else (ConditionFalse, "DependenciesNotReady")) ].

(** A status with these conditions, this phase, priority and generation. *)
Definition isvc_reports (conds : list sig) (ready : bool) (derived generation : Z)
    (st : InferenceServiceStatus) : Prop :=
  isvc_Phase st = (if ready then "Ready" else "Pending") /\
  DerivedPriority st = derived /\ ObservedGeneration st = generation /\
  reports_all conds (sigs (isvc_Conditions st)).

#[export] Instance isvc_reports_dec conds ready derived generation st :
  Decision (isvc_reports conds ready derived generation st).
Proof. unfold isvc_reports. apply _. Defined.

(** What the conditions are to say, given which dependencies are satisfied; the
    capacity is always granted. *)
Definition desired_conditions (model tenant profile : bool) : list sig :=
  [ ("ModelReady", if model then (ConditionTrue, "ModelVerified")
                   else (ConditionFalse, "ModelNotReady"));
    ("TenantResolved", if tenant then (ConditionTrue, "TenantFound")
                       else (ConditionFalse, "TenantNotFound"));
    ("ResourceProfileResolved", if profile then (ConditionTrue, "ProfileFound")
                                else (ConditionFalse, "ProfileNotFound"));
    ("CapacityAvailable", (ConditionTrue, "WithinEnvelope"));
    ("Accepted", (ConditionTrue, "InferenceServiceObserved"));
    ("Ready", if model && tenant && profile then (ConditionTrue, "AllDependenciesResolved")
              else (ConditionFalse, "DependenciesNotReady")) ].

(** The state of the dependencies in the store. *)
Section dependencies.
Context `{L : K8sLib} {W : Type} `{!Cluster W}.

Definition model_of (w : W) (isvc : InferenceService) : option Model :=
  stored KModel w (mkNN (Namespace_ (isvc_ObjectMeta isvc)) (isvc_Model (isvc_Spec isvc))).
Definition tenant_of (w : W) (isvc : InferenceService) : option Tenant :=
  stored KTenant w (mkNN "" (Namespace_ (isvc_ObjectMeta isvc))).

Definition model_ready (w : W) (isvc : InferenceService) : bool :=
  match model_of w isvc with
  | Some m => IsStatusConditionTrue (model_Conditions (model_Status m)) "Ready"
  | None => false
  end.
Definition tenant_found (w : W) (isvc : InferenceService) : bool :=
  match tenant_of w isvc with Some _ => true | None => false end.
Definition profile_known (isvc : InferenceService) : bool :=
  match Resolve (ResourceProfile (isvc_Spec isvc)) with Ok _ => true | Err _ => false end.
Definition deps_ready (w : W) (isvc : InferenceService) : bool :=
  model_ready w isvc && tenant_found w isvc && profile_known isvc.

Definition derived_priority (w : W) (isvc : InferenceService) : Z :=
  match tenant_of w isvc with
  | Some t => Calculate (Default (tenant_Priority (tenant_Spec t)))
                (WorkloadClass (isvc_Spec isvc)) (Priority (isvc_Spec isvc))
  | None => 0
  end.

(** The status an InferenceService is due in this state of the cluster. *)
Definition status_due (w : W) (isvc : InferenceService) (st : InferenceServiceStatus) : Prop :=
  isvc_reports
    (desired_conditions (model_ready w isvc) (tenant_found w isvc) (profile_known isvc))
    (deps_ready w isvc) (derived_priority w isvc) (Generation (isvc_ObjectMeta isvc)) st.
End dependencies.

(** ** The two status updates *)

Section status.
Context `{L : K8sLib, !K8sLibLaws}.

Lemma isvc_verdicts_NoDup modelErr tenantErr profileErr capacityErr :
  NoDup (map fst (verdicts modelErr tenantErr profileErr capacityErr)).
Proof. simpl. by apply (bool_decide_unpack _). Qed.

Lemma isvc_sigs_newConditions now cs modelErr tenantErr profileErr capacityErr :
  sigs (newConditions now cs modelErr tenantErr profileErr capacityErr) =
    upsert_all (verdicts modelErr tenantErr profileErr capacityErr) (sigs cs).
Proof.
  assert (forall cs ty err ok fail,
    sigs (setCond now cs ty err ok fail) = upsert ty (verdict err ok fail) (sigs cs)) as Hset.
  { intros. unfold setCond. destruct err; by rewrite sigs_SetStatusCondition. }
  unfold newConditions. rewrite !Hset. unfold upsert_all, verdicts. simpl.
  by destruct (_ && is_nil capacityErr).
Qed.

(** The object [updateStatus] writes. *)
Definition with_outcomes now isvc derived modelErr tenantErr profileErr capacityErr
    : InferenceService :=
  let st := isvc_Status isvc in
  set_isvc_Status
    (mkInferenceServiceStatus
       (newConditions now (isvc_Conditions st) modelErr tenantErr profileErr capacityErr)
       (if is_nil modelErr && is_nil tenantErr && is_nil profileErr && is_nil capacityErr
        then "Ready" else "Pending")
       (Endpoint st) (Generation (isvc_ObjectMeta isvc)) derived) isvc.

Definition reports_outcomes isvc derived modelErr tenantErr profileErr capacityErr
    (st : InferenceServiceStatus) : Prop :=
  isvc_reports (verdicts modelErr tenantErr profileErr capacityErr)
    (is_nil modelErr && is_nil tenantErr && is_nil profileErr && is_nil capacityErr)
    derived (Generation (isvc_ObjectMeta isvc)) st.

#[export] Instance reports_outcomes_dec isvc derived e1 e2 e3 e4 st :
  Decision (reports_outcomes isvc derived e1 e2 e3 e4 st).
Proof. unfold reports_outcomes. apply _. Defined.

Lemma isvc_with_outcomes_reports now isvc derived e1 e2 e3 e4 :
  reports_outcomes isvc derived e1 e2 e3 e4
    (isvc_Status (with_outcomes now isvc derived e1 e2 e3 e4)).
Proof.
  split; [done|]. split; [done|]. split; [done|]. simpl. rewrite isvc_sigs_newConditions.
  apply upsert_all_reports, isvc_verdicts_NoDup.
Qed.

Lemma isvc_updateStatus_unfold now isvc derived e1 e2 e3 e4 :
  updateStatus now isvc derived e1 e2 e3 e4 =
    (if bool_decide (reports_outcomes isvc derived e1 e2 e3 e4 (isvc_Status isvc))
     then Ret (isvc, (false, None))
     else
       let! r := call (StatusUpdate KInferenceService
                         (with_outcomes now isvc derived e1 e2 e3 e4)) in
       match r with
       | Ok isvc' => Ret (isvc', (true, None))
       | Err err => Ret (with_outcomes now isvc derived e1 e2 e3 e4, (true, Some err))
       end).
Proof.
  unfold updateStatus. rewrite statusUnchanged_sigs, isvc_sigs_newConditions.
  match goal with |- (if ?b then _ else _) = (if ?b' then _ else _) =>
    replace b with b'; [done|] end.
  apply eq_true_iff_eq. rewrite !andb_true_iff, !bool_decide_eq_true.
  unfold reports_outcomes, isvc_reports.
  rewrite <- (upsert_all_noop _ _ (isvc_verdicts_NoDup e1 e2 e3 e4)). split.
  - intros (-> & -> & -> & Hu). by split_and!.
  - intros [[[Hs ->] ->] ->]. by split_and!.
Qed.

(** The object [updateWorkloadCondition] writes. *)
Definition with_workload now isvc (jobErr : option error) : InferenceService :=
  let st := isvc_Status isvc in
  let '(status, reason, msg) :=
    match jobErr with
    | None => (ConditionTrue, "JobReconciled", "")
    | Some err => (ConditionFalse, "JobError", Error_ err)
    end in
  set_isvc_Status
    (mkInferenceServiceStatus
       (SetStatusCondition now (isvc_Conditions st)
          (mkCondition "WorkloadReady" status 0 0 reason msg))
       (isvc_Phase st) (Endpoint st) (ObservedGeneration st) (DerivedPriority st)) isvc.

Definition workload_reported (jobErr : option error) (st : InferenceServiceStatus) : Prop :=
  assoc "WorkloadReady" (sigs (isvc_Conditions st)) =
    Some (verdict jobErr "JobReconciled" "JobError").

#[export] Instance workload_reported_dec jobErr st : Decision (workload_reported jobErr st).
Proof. unfold workload_reported. apply _. Defined.

Lemma with_workload_sigs now isvc jobErr :
  sigs (isvc_Conditions (isvc_Status (with_workload now isvc jobErr))) =
    upsert "WorkloadReady" (verdict jobErr "JobReconciled" "JobError")
      (sigs (isvc_Conditions (isvc_Status isvc))).
Proof. unfold with_workload. destruct jobErr; simpl; by rewrite sigs_SetStatusCondition. Qed.

(** Only that condition changes. *)
Lemma with_workload_reports now isvc jobErr conds ready derived generation :
  "WorkloadReady" ∉ map fst conds ->
  isvc_reports conds ready derived generation (isvc_Status isvc) ->
  isvc_reports conds ready derived generation
    (isvc_Status (with_workload now isvc jobErr)) /\
  workload_reported jobErr (isvc_Status (with_workload now isvc jobErr)).
Proof.
  intros Hni (Hp & Hd & Hg & Hr). unfold workload_reported. rewrite with_workload_sigs.
  split; [|apply assoc_upsert_eq]. unfold isvc_reports. rewrite with_workload_sigs.
  split; [by destruct jobErr|]. split; [by destruct jobErr|]. split; [by destruct jobErr|].
  unfold reports_all in *. rewrite Forall_forall in *. intros v Hv.
  rewrite assoc_upsert_ne; [by apply Hr|]. intros Heq. apply Hni. rewrite <- Heq.
  apply list_elem_of_In. by apply in_map.
Qed.

Lemma updateWorkloadCondition_unfold now isvc jobErr :
  updateWorkloadCondition now isvc jobErr =
    (if bool_decide (workload_reported jobErr (isvc_Status isvc)) then Ret (isvc, None)
     else
       let! r := call (StatusUpdate KInferenceService (with_workload now isvc jobErr)) in
       match r with
       | Ok isvc' => Ret (isvc', None)
       | Err err => Ret (with_workload now isvc jobErr, Some err)
       end).
Proof.
  unfold updateWorkloadCondition, with_workload.
  assert (forall st rs msg,
    statusUnchanged (isvc_Conditions (isvc_Status isvc))
      (SetStatusCondition now (isvc_Conditions (isvc_Status isvc))
         (mkCondition "WorkloadReady" st 0 0 rs msg)) =
    bool_decide (assoc "WorkloadReady" (sigs (isvc_Conditions (isvc_Status isvc))) =
                   Some (st, rs))) as Hu.
  { intros. rewrite statusUnchanged_sigs, sigs_SetStatusCondition. apply bool_decide_ext.
    simpl. split; [intros ->; apply assoc_upsert_eq|intros Ha; by rewrite upsert_same]. }
  unfold workload_reported, verdict. destruct jobErr; by rewrite Hu.
Qed.
End status.

(** ** Properties of runs *)

Section runs.
Context `{L : K8sLib, !K8sLibLaws} {W : Type} `{!Cluster W, !ClusterLaws W}.

Abbreviation ISVC := KInferenceService.

(** What a successful status update of a stored object leaves: the object
    that was sent, but for its resource version. *)
Definition updated (isvc isvc' : InferenceService) (w w' : W) : Prop :=
  stored ISVC w' (key ISVC isvc) = Some isvc' /\
  isvc_Spec isvc' = isvc_Spec isvc /\
  same_meta (isvc_ObjectMeta isvc) (isvc_ObjectMeta isvc') /\
  (forall k nn, k <> ISVC -> stored k w' nn = stored k w nn).

Lemma same_meta_key isvc isvc' :
  same_meta (isvc_ObjectMeta isvc) (isvc_ObjectMeta isvc') -> key ISVC isvc' = key ISVC isvc.
Proof. unfold same_meta, key, key_of. simpl. intros [=]. congruence. Qed.

Lemma same_meta_generation m m' : same_meta m m' -> Generation m' = Generation m.
Proof. unfold same_meta. intros [=]. congruence. Qed.

Lemma status_update_stored isvc o o' w w' :
  stored ISVC w (key ISVC isvc) = Some isvc ->
  isvc_ObjectMeta o = isvc_ObjectMeta isvc ->
  handle (StatusUpdate ISVC o) w = (Ok o', w') ->
  updated isvc o' w w' /\ isvc_Status o' = isvc_Status o.
Proof.
  intros Hw Hm E. destruct (status_stored _ _ _ _ _ E) as (o0 & Ho0 & Hwr & Ho').
  assert (key ISVC o = key ISVC isvc) as Hk by (unfold key; simpl; by rewrite Hm).
  rewrite Hk in *. replace o0 with isvc in * by congruence. destruct Hwr as (H1 & H2 & H3).
  split; [|done]. split_and!; try done. intros k nn Hne. by apply (stored_frame _ _ _ _ k nn E).
Qed.

Lemma isvc_updateStatus_stores now isvc derived e1 e2 e3 e4 w isvc' c :
  stored ISVC w (key ISVC isvc) = Some isvc ->
  outcome (updateStatus now isvc derived e1 e2 e3 e4) w = Some (isvc', (c, None)) ->
  updated isvc isvc' w (final (updateStatus now isvc derived e1 e2 e3 e4) w) /\
  reports_outcomes isvc derived e1 e2 e3 e4 (isvc_Status isvc').
Proof.
  intros Hw. rewrite isvc_updateStatus_unfold. case_bool_decide as Hd.
  - rewrite outcome_ret, final_ret. intros [= <- <-]. split; [|done]. by split_and!.
  - next. response x w'. destruct x as [o|e]; [|done]. rewrite outcome_ret, final_ret.
    intros [= <- <-]. destruct (status_update_stored isvc (with_outcomes now isvc derived e1 e2 e3 e4) _ _ _ Hw eq_refl E) as [Hup Hst].
    split; [done|]. rewrite Hst. apply isvc_with_outcomes_reports.
Qed.

Lemma updateWorkloadCondition_stores now isvc jobErr w isvc' conds ready derived generation :
  stored ISVC w (key ISVC isvc) = Some isvc ->
  "WorkloadReady" ∉ map fst conds ->
  isvc_reports conds ready derived generation (isvc_Status isvc) ->
  outcome (updateWorkloadCondition now isvc jobErr) w = Some (isvc', None) ->
  updated isvc isvc' w (final (updateWorkloadCondition now isvc jobErr) w) /\
  isvc_reports conds ready derived generation (isvc_Status isvc') /\
  workload_reported jobErr (isvc_Status isvc').
Proof.
  intros Hw Hni Hrep. rewrite updateWorkloadCondition_unfold. case_bool_decide as Hd.
  - rewrite outcome_ret, final_ret. intros [= <-]. split; [|done]. by split_and!.
  - next. response x w'. destruct x as [o|e]; [|done]. rewrite outcome_ret, final_ret.
    intros [= <-].
    assert (isvc_ObjectMeta (with_workload now isvc jobErr) = isvc_ObjectMeta isvc) as Hm
      by (unfold with_workload; by destruct jobErr).
    destruct (status_update_stored _ _ _ _ _ Hw Hm E) as [Hup Hst].
    split; [done|]. rewrite Hst. by apply with_workload_reports.
Qed.

(** ** The Job *)

(** The Job created for an InferenceService. *)
Definition job_for (isvc : InferenceService) (model : option Model) (job : Job) : Prop :=
  exists job0, BuildJob isvc model (localQueueName isvc) = Some job0 /\
               SetControllerReference isvc job0 = Ok job.

Lemma job_for_exists isvc model : exists job, job_for isvc model job.
Proof.
  destruct (BuildJob_some isvc model (localQueueName isvc)) as (job0 & Hj & _).
  destruct (BuildJob_frame _ _ _ _ Hj) as (Hk & _ & Ho & _).
  destruct (SetControllerReference_ok isvc job0) as [job Hjob].
  - unfold key_of in Hk. congruence.
  - rewrite Ho. intros ref Href _. apply list_elem_of_singleton in Href as ->. by repeat split.
  - exists job, job0. done.
Qed.

Lemma job_for_key isvc model job : job_for isvc model job -> key KJob job = key ISVC isvc.
Proof.
  intros (job0 & Hj & Hc). destruct (BuildJob_frame _ _ _ _ Hj) as (Hk & _).
  destruct (SetControllerReference_frame _ _ _ Hc) as [_ Hm].
  unfold key. simpl. by rewrite Hm.
Qed.

Lemma reconcileKueueJob_unfold isvc model job :
  job_for isvc model job ->
  reconcileKueueJob isvc model =
    let! r := call (Get KJob (key ISVC isvc)) in
    match r with
    | Ok _ => Ret None
    | Err err =>
        if IsNotFound err then call (Create KJob job)
        else Ret (Some (wrapf "getting existing job: " err))
    end.
Proof.
  intros Hj. rewrite <- (job_for_key _ _ _ Hj). destruct Hj as (job0 & Hb & Hc).
  unfold reconcileKueueJob. by rewrite Hb, Hc.
Qed.

(** Without an error there is a Job: the one that was there, or this one. *)
Lemma reconcileKueueJob_stores isvc model job w :
  job_for isvc model job -> outcome (reconcileKueueJob isvc model) w = Some None ->
  (forall k nn, k <> KJob -> stored k (final (reconcileKueueJob isvc model) w) nn = stored k w nn) /\
  match stored KJob w (key ISVC isvc) with
  | Some _ => final (reconcileKueueJob isvc model) w = w
  | None => exists job',
      stored KJob (final (reconcileKueueJob isvc model) w) (key ISVC isvc) = Some job' /\
      accepted KJob job job'
  end.
Proof.
  intros Hj. rewrite (reconcileKueueJob_unfold _ _ _ Hj).
  rewrite outcome_bind, outcome_Get, final_bind, outcome_Get, final_Get. cbn beta iota.
  destruct (read KJob _ w) as [j|e] eqn:Hr; unfold read in Hr.
  - intros _. apply get_ok in Hr. by rewrite Hr, final_ret.
  - destruct (IsNotFound e) eqn:He; [|done]. next. response x w'. intros [= ->].
    rewrite (get_missing _ _ _ _ Hr He). split.
    + intros k nn Hk. by apply (stored_frame _ _ _ _ k nn E).
    + pose proof (create_ok KJob job w) as Hc. rewrite E, (job_for_key _ _ _ Hj) in Hc.
      by apply Hc.
Qed.

(** ** Reconcile *)

(** What was read of the dependencies agrees with the store. *)
Lemma resolved_deps w isvc ms model found derived :
  let ns := Namespace_ (isvc_ObjectMeta isvc) in
  resolveModel isvc (read KModel (mkNN ns (isvc_Model (isvc_Spec isvc))) w) = Ok (ms, model) ->
  resolveTenant isvc (read KTenant (mkNN "" ns) w) = Ok (found, derived) ->
  let me := modelError isvc ms in
  let te := tenantError isvc found in
  let pe := profileError isvc in
  let ce := capacityError isvc ms pe in
  is_nil me && is_nil te && is_nil pe && is_nil ce = deps_ready w isvc /\
  verdicts me te pe ce =
    desired_conditions (model_ready w isvc) (tenant_found w isvc) (profile_known isvc) /\
  derived = derived_priority w isvc /\ model = model_of w isvc.
Proof.
  cbv zeta. unfold resolveModel, resolveTenant, read. intros Hm Ht.
  assert (model = model_of w isvc /\
          is_nil (modelError isvc ms) = model_ready w isvc) as [-> Hmr].
  { unfold model_ready, model_of. destruct (handle _ w).1 as [m|e] eqn:Hr in Hm.
    - apply get_ok in Hr. rewrite Hr. by destruct (IsStatusConditionTrue _ _); simplify_eq.
    - destruct (IsNotFound e) eqn:He; simplify_eq.
      by rewrite (get_missing KModel _ _ _ Hr He). }
  assert (derived = derived_priority w isvc /\ found = tenant_found w isvc) as [-> ->].
  { unfold derived_priority, tenant_found, tenant_of.
    destruct (handle _ w).1 as [t|e] eqn:Hr in Ht.
    - apply get_ok in Hr. rewrite Hr. by simplify_eq.
    - destruct (IsNotFound e) eqn:He; simplify_eq.
      by rewrite (get_missing KTenant _ _ _ Hr He). }
  unfold deps_ready, profile_known, profileError, verdicts, desired_conditions. rewrite <- Hmr.
  clear. destruct ms, (tenant_found w isvc), (Resolve _); by simpl.
Qed.

Abbreviation run_status now isvc derived ms found :=
  (updateStatus now isvc derived (modelError isvc ms) (tenantError isvc found)
     (profileError isvc) (capacityError isvc ms (profileError isvc))).

(** The course of a run without error. *)
Lemma Reconcile_course now req w res isvc :
  let ns := Namespace_ (isvc_ObjectMeta isvc) in
  read ISVC req w = Ok isvc -> outcome (Reconcile now req) w = Some (res, None) ->
  exists ms model found derived isvc1 c,
    resolveModel isvc (read KModel (mkNN ns (isvc_Model (isvc_Spec isvc))) w) = Ok (ms, model) /\
    resolveTenant isvc (read KTenant (mkNN "" ns) w) = Ok (found, derived) /\
    let u := run_status now isvc derived ms found in
    outcome u w = Some (isvc1, (c, None)) /\
    if deps_ready w isvc then
      let j := reconcileKueueJob isvc1 model in
      let v := updateWorkloadCondition now isvc1 None in
      exists isvc2, outcome j (final u w) = Some None /\
        outcome v (final j (final u w)) = Some (isvc2, None) /\
        final (Reconcile now req) w = final v (final j (final u w)) /\ res = Result0
    else final (Reconcile now req) w = final u w /\ res = mkResult (10 * Second).
Proof.
  cbv zeta. intros Hr. unfold Reconcile.
  rewrite outcome_bind, final_bind, outcome_Get, final_Get, Hr. cbn beta iota.
  rewrite outcome_bind, final_bind, outcome_Get, final_Get. cbn beta iota.
  destruct (resolveModel isvc _) as [[ms model]|e] eqn:Hm; [|done].
  rewrite outcome_bind, final_bind, outcome_Get, final_Get. cbn beta iota.
  destruct (resolveTenant isvc _) as [[found derived]|e] eqn:Ht; [|done].
  destruct (resolved_deps _ _ _ _ _ _ Hm Ht) as (Hrdy & _). rewrite Hrdy.
  cbv zeta. rewrite outcome_bind, final_bind.
  destruct (outcome (run_status _ _ _ _ _) w) as [[isvc1 [c e]]|] eqn:Hu; [|done].
  cbn beta iota. destruct e as [e|]; [done|]. intros Hout.
  exists ms, model, found, derived, isvc1, c. split; [done|]. split; [done|]. split; [done|].
  destruct (deps_ready w isvc) eqn:Hd; cbn [negb] in *.
  - rewrite outcome_bind in Hout. rewrite final_bind.
    destruct (outcome (reconcileKueueJob _ _) _) as [je|] eqn:Hj; [|done].
    rewrite outcome_bind in Hout. rewrite final_bind.
    destruct (outcome (updateWorkloadCondition _ _ _) _) as [[isvc2 ve]|] eqn:Hv; [|done].
    cbn beta iota in *. destruct ve as [e|]; [done|]. rewrite outcome_ret in Hout.
    injection Hout as <- ->. by exists isvc2.
  - rewrite outcome_ret in Hout. rewrite final_ret. by injection Hout as <-.
Qed.

(** The Job stored for an InferenceService: with the spec and the labels
    [BuildJob] renders, under the control of the InferenceService. *)
Definition created_for (isvc : InferenceService) (model : option Model) (job' : Job) : Prop :=
  exists job, BuildJob isvc model (localQueueName isvc) = Some job /\
    job_accepted (job_Spec job) (job_Spec job') /\
    ensure_map (Labels (job_ObjectMeta job)) ⊆ ensure_map (Labels (job_ObjectMeta job')) /\
    controlled_by isvc (job_ObjectMeta job').

Lemma BuildJob_same isvc isvc1 model q :
  isvc_Spec isvc1 = isvc_Spec isvc ->
  same_meta (isvc_ObjectMeta isvc) (isvc_ObjectMeta isvc1) ->
  BuildJob isvc1 model q = BuildJob isvc model q.
Proof.
  intros Hs Hm. unfold same_meta in Hm. injection Hm as Hname Hns Huid _ _ _ _.
  unfold BuildJob, ReplicaCount, WantsGPU, GPUResourceName. by rewrite Hs, Hname, Hns, Huid.
Qed.

Lemma job_for_created isvc isvc1 model job job' :
  isvc_Spec isvc1 = isvc_Spec isvc ->
  same_meta (isvc_ObjectMeta isvc) (isvc_ObjectMeta isvc1) ->
  job_for isvc1 model job -> accepted KJob job job' -> created_for isvc model job'.
Proof.
  intros Hs Hm (job0 & Hb & Hc) [(_ & Hl & _ & Ho) Hj].
  pose proof Hm as Hm'. unfold same_meta in Hm'. injection Hm' as Hname Hns Huid _ _ _ _.
  assert (localQueueName isvc1 = localQueueName isvc) as Hq
    by (unfold localQueueName; by rewrite Hs, Hns).
  rewrite Hq, (BuildJob_same _ _ _ _ Hs Hm) in Hb. exists job0. split; [done|].
  destruct (SetControllerReference_frame _ _ _ Hc) as [Hspec Hmeta].
  rewrite Hspec in Hj. rewrite Hmeta in Hl. split; [done|]. split; [done|].
  destruct (SetControllerReference_controls _ _ _ Hc) as (ref & Href & Hctl & Hrt).
  exists ref. rewrite Ho. split; [done|]. split; [done|].
  unfold refers_to in *. by rewrite Hname, Huid.
Qed.

Lemma desired_no_workload a b c : "WorkloadReady" ∉ map fst (desired_conditions a b c).
Proof. by apply (bool_decide_unpack _). Qed.

(** What the run of a reconcile that returns no error leaves in the store. *)
Lemma isvc_Reconcile_stored now req w res isvc :
  stored ISVC w req = Some isvc ->
  outcome (Reconcile now req) w = Some (res, None) ->
  res = (if deps_ready w isvc then Result0 else mkResult (10 * Second)) /\
  exists isvc', stored ISVC (final (Reconcile now req) w) req = Some isvc' /\
    isvc_Spec isvc' = isvc_Spec isvc /\
    same_meta (isvc_ObjectMeta isvc) (isvc_ObjectMeta isvc') /\
    status_due w isvc (isvc_Status isvc') /\
    (forall k nn, k <> ISVC -> k <> KJob \/ deps_ready w isvc = false ->
       stored k (final (Reconcile now req) w) nn = stored k w nn) /\
    (deps_ready w isvc = true ->
       workload_reported None (isvc_Status isvc') /\
       match stored KJob w req with
       | Some job => stored KJob (final (Reconcile now req) w) req = Some job
       | None => exists job, stored KJob (final (Reconcile now req) w) req = Some job /\
                             created_for isvc (model_of w isvc) job
       end).
Proof.
  intros Hw Hout. destruct (read ISVC req w) as [isvc0|e] eqn:Hr; unfold read in Hr.
  2:{ unfold Reconcile in Hout. rewrite outcome_bind, outcome_Get in Hout.
      unfold read in Hout. rewrite Hr, outcome_ret in Hout. simplify_eq.
      rewrite (get_missing ISVC _ _ _ Hr) in Hw; [done|]. by apply IgnoreNotFound_None. }
  pose proof (get_ok _ _ _ _ Hr) as Hr'. replace isvc0 with isvc in * by congruence. clear Hr'.
  pose proof (stored_key _ _ _ _ Hw) as Hk. rewrite <- Hk in Hw.
  destruct (Reconcile_course _ _ _ _ _ Hr Hout)
    as (ms & model & found & derived & isvc1 & c & Hm & Ht & Hu & Hrest).
  destruct (resolved_deps _ _ _ _ _ _ Hm Ht) as (Hrdy & Hv & -> & ->).
  destruct (isvc_updateStatus_stores _ _ _ _ _ _ _ _ _ _ Hw Hu) as [Hup Hrep].
  unfold reports_outcomes in Hrep. rewrite Hrdy, Hv in Hrep.
  destruct (deps_ready w isvc) eqn:Hd.
  - destruct Hrest as (isvc2 & Hj & Hwl & -> & ->). split; [done|].
    set (w1 := final (run_status _ _ _ _ _) w) in *. destruct Hup as (U1 & U2 & U3 & U4).
    destruct (job_for_exists isvc1 (model_of w isvc)) as [job Hjob].
    destruct (reconcileKueueJob_stores _ _ _ _ Hjob Hj) as [Jf Jj].
    rewrite (same_meta_key _ _ U3), Hk in Jj. rewrite (U4 KJob) in Jj by done.
    set (w2 := final (reconcileKueueJob _ _) w1) in *.
    assert (stored ISVC w2 (key ISVC isvc1) = Some isvc1) as Hw2
      by (rewrite Jf, (same_meta_key _ _ U3) by done; done).
    destruct (updateWorkloadCondition_stores _ _ _ _ _ _ _ _ _ Hw2 (desired_no_workload _ _ _)
                Hrep Hwl) as ((V1 & V2 & V3 & V4) & Hrep2 & Hwr).
    exists isvc2. rewrite (same_meta_key _ _ U3), Hk in V1. split; [done|].
    split; [congruence|]. split; [unfold same_meta in *; congruence|].
    split; [unfold status_due; by rewrite Hd|]. split.
    + intros k nn Hne [Hne'|]; [|done]. by rewrite V4, Jf, U4.
    + intros _. split; [done|]. rewrite V4 by done.
      destruct (stored KJob w req) as [j|] eqn:Hs; [by rewrite Jj, U4|].
      destruct Jj as (job' & Hj' & Hacc). exists job'. split; [done|].
      by apply (job_for_created _ isvc1 _ job).
  - destruct Hrest as [-> ->]. split; [done|]. destruct Hup as (U1 & U2 & U3 & U4).
    exists isvc1. rewrite Hk in U1. split; [done|]. split; [done|]. split; [done|].
    split; [unfold status_due; by rewrite Hd|]. split; [|done]. intros k nn Hne _. by apply U4.
Qed.

(** A reconcile writes nothing when the status is the one that is due. *)
Lemma isvc_Reconcile_settled now req w res isvc :
  stored ISVC w req = Some isvc -> status_due w isvc (isvc_Status isvc) ->
  (deps_ready w isvc = true ->
     workload_reported None (isvc_Status isvc) /\ is_Some (stored KJob w req)) ->
  outcome (Reconcile now req) w = Some (res, None) ->
  quiet (Reconcile now req) w.
Proof.
  intros Hw Hdue Hjob Hout. destruct (read ISVC req w) as [isvc0|e] eqn:Hr.
  2:{ apply quiet_Get. rewrite Hr. apply quiet_ret. }
  pose proof (get_ok _ _ _ _ Hr) as Hr'. replace isvc0 with isvc in * by congruence. clear Hr'.
  destruct (Reconcile_course _ _ _ _ _ Hr Hout)
    as (ms & model & found & derived & isvc1 & c & Hm & Ht & Hu & Hrest).
  destruct (resolved_deps _ _ _ _ _ _ Hm Ht) as (Hrdy & Hv & -> & ->).
  apply quiet_Get. rewrite Hr. apply quiet_Get. rewrite Hm. apply quiet_Get. rewrite Ht.
  cbv zeta in *. rewrite isvc_updateStatus_unfold, bool_decide_eq_true_2 in *
    by (unfold reports_outcomes; rewrite Hrdy, Hv; apply Hdue).
  rewrite outcome_ret, final_ret in *. injection Hu as <- <-.
  eapply quiet_bind; [apply quiet_ret|done|]. cbn beta iota. rewrite Hrdy.
  destruct (deps_ready w isvc); [|apply quiet_ret]. destruct (Hjob eq_refl) as [Hwl [job Hj]].
  destruct Hrest as (isvc2 & Hoj & _). cbn [negb].
  destruct (job_for_exists isvc (model_of w isvc)) as [job' Hjob'].
  rewrite (reconcileKueueJob_unfold _ _ _ Hjob') in *. rewrite <- (stored_key _ _ _ _ Hw) in Hj.
  rewrite outcome_bind, outcome_Get in Hoj.
  apply (quiet_bind _ _ _ None); [|by rewrite outcome_bind, outcome_Get|].
  - apply quiet_Get. destruct (read KJob _ w) as [j|e] eqn:Hrj; [apply quiet_ret|].
    destruct (IsNotFound e) eqn:He; [|apply quiet_ret].
    by rewrite (get_missing _ _ _ _ Hrj He) in Hj.
  - rewrite updateWorkloadCondition_unfold, bool_decide_eq_true_2 by done.
    by eapply quiet_bind; [apply quiet_ret|done|apply quiet_ret].
Qed.

(** C7: a reconcile of an existing InferenceService that returns no error
    leaves its status in agreement with its dependencies, all of them read
    from the store: one condition each for the model, the tenant, the profile
    and the capacity, a Ready condition and a phase that are positive exactly
    when all are satisfied, the derived priority, and the generation
    observed; the spec is kept, it asks to be called again in ten seconds
    exactly when a dependency is missing, and otherwise also reports the Job. *)
Theorem InferenceService_Reconcile_status now req w res isvc :
  stored ISVC w req = Some isvc ->
  outcome (Reconcile now req) w = Some (res, None) ->
  res = (if deps_ready w isvc then Result0 else mkResult (10 * Second)) /\
  exists isvc', stored ISVC (final (Reconcile now req) w) req = Some isvc' /\
    isvc_Spec isvc' = isvc_Spec isvc /\ status_due w isvc (isvc_Status isvc') /\
    (deps_ready w isvc = true -> workload_reported None (isvc_Status isvc')).
Proof.
  intros Hw Hout. destruct (isvc_Reconcile_stored _ _ _ _ _ Hw Hout)
    as (Hres & isvc' & H1 & H2 & _ & H3 & _ & H4).
  split; [done|]. exists isvc'. split; [done|]. split; [done|]. split; [done|]. apply H4.
Qed.


(** After a reconcile that returned no error another one writes nothing. *)
Lemma isvc_Reconcile_settles now now' req w res res' isvc :
  stored ISVC w req = Some isvc ->
  outcome (Reconcile now req) w = Some (res, None) ->
  outcome (Reconcile now' req) (final (Reconcile now req) w) = Some (res', None) ->
  quiet (Reconcile now' req) (final (Reconcile now req) w).
Proof.
  intros Hw Hout Hout'. destruct (isvc_Reconcile_stored _ _ _ _ _ Hw Hout)
    as (_ & isvc' & Hw' & Hs & Hm & Hdue & Hframe & Hjob).
  pose proof (same_meta_generation _ _ Hm) as Hg.
  pose proof Hm as Hm'. unfold same_meta in Hm'. injection Hm' as Hname Hns _ _ _ _ _.
  set (w' := final (Reconcile now req) w) in *.
  assert (model_of w' isvc' = model_of w isvc) as Hmo
    by (unfold model_of; rewrite Hs, Hns; apply (Hframe KModel); [done|by left]).
  assert (tenant_of w' isvc' = tenant_of w isvc) as Hto
    by (unfold tenant_of; rewrite Hns; apply (Hframe KTenant); [done|by left]).
  assert (deps_ready w' isvc' = deps_ready w isvc) as Hd
    by (unfold deps_ready, model_ready, tenant_found, profile_known; by rewrite Hmo, Hto, Hs).
  apply (isvc_Reconcile_settled now' req w' res' isvc'); try done.
  - unfold status_due in *. rewrite Hd, Hg.
    unfold model_ready, tenant_found, profile_known, derived_priority in *.
    by rewrite Hmo, Hto, Hs.
  - rewrite Hd. intros Ht. destruct (Hjob Ht) as [Hwl Hj]. split; [done|].
    destruct (stored KJob w req); [by rewrite Hj|]. destruct Hj as (j & -> & _). done.
Qed.

(** C18: two reconciles of the same InferenceService in a row, neither of
    which returns an error: the second writes nothing. *)
Theorem InferenceService_Reconcile_idempotent now now' req w res res' isvc :
  stored ISVC w req = Some isvc ->
  outcome (Reconcile now req) w = Some (res, None) ->
  outcome (Reconcile now' req) (final (Reconcile now req) w) = Some (res', None) ->
  quiet (Reconcile now' req) (final (Reconcile now req) w).
Proof. apply isvc_Reconcile_settles. Qed.
End runs.

(** ** Properties of traces *)

Section updates.
Context `{L : K8sLib, !K8sLibLaws}.

Abbreviation ISVC := KInferenceService.

Lemma isvc_updateStatus_wp P (Q : list Event -> option (InferenceService * (bool * option error)) -> Prop)
    now isvc derived e1 e2 e3 e4 past :
  let o := with_outcomes now isvc derived e1 e2 e3 e4 in
  P past (StatusUpdate ISVC o) ->
  (reports_outcomes isvc derived e1 e2 e3 e4 (isvc_Status isvc) ->
   Q past (Some (isvc, (false, None)))) ->
  (forall isvc', Q (past ++ [Ev (StatusUpdate ISVC o) (Ok isvc')]) (Some (isvc', (true, None)))) ->
  (forall e, Q (past ++ [Ev (StatusUpdate ISVC o) (Err e)]) (Some (o, (true, Some e)))) ->
  wp P Q past (updateStatus now isvc derived e1 e2 e3 e4).
Proof.
  cbv zeta. intros HP HQ H1 H2. rewrite isvc_updateStatus_unfold.
  case_bool_decide; [by apply HQ|]. apply wp_bind, wp_call; [done|].
  intros [?|?]; simpl; auto.
Qed.

Lemma updateWorkloadCondition_wp P (Q : list Event -> option (InferenceService * option error) -> Prop)
    now isvc jobErr past :
  let o := with_workload now isvc jobErr in
  P past (StatusUpdate ISVC o) -> Q past (Some (isvc, None)) ->
  (forall isvc', Q (past ++ [Ev (StatusUpdate ISVC o) (Ok isvc')]) (Some (isvc', None))) ->
  (forall e, Q (past ++ [Ev (StatusUpdate ISVC o) (Err e)]) (Some (o, Some e))) ->
  wp P Q past (updateWorkloadCondition now isvc jobErr).
Proof.
  cbv zeta. intros HP HQ H1 H2. rewrite updateWorkloadCondition_unfold.
  destruct (bool_decide _); [done|]. apply wp_bind, wp_call; [done|].
  intros [?|?]; simpl; auto.
Qed.

Lemma reconcileKueueJob_wp P (Q : list Event -> option (option error) -> Prop) isvc model past :
  let g := Get KJob (key ISVC isvc) in
  P past g -> (forall j, Q (past ++ [Ev g (Ok j)]) (Some None)) ->
  (forall job e x, job_for isvc model job -> IsNotFound e = true ->
     P (past ++ [Ev g (Err e)]) (Create KJob job) /\
     Q ((past ++ [Ev g (Err e)]) ++ [Ev (Create KJob job) x]) (Some x)) ->
  (forall e, IsNotFound e = false ->
     Q (past ++ [Ev g (Err e)]) (Some (Some (wrapf "getting existing job: " e)))) ->
  wp P Q past (reconcileKueueJob isvc model).
Proof.
  cbv zeta. intros HP H1 H2 H3. destruct (job_for_exists isvc model) as [job Hj].
  rewrite (reconcileKueueJob_unfold _ _ _ Hj). apply wp_bind, wp_call; [done|].
  intros [j|e]; simpl; [apply H1|]. destruct (IsNotFound e) eqn:He; [|simpl; auto].
  apply wp_call; [by apply (H2 job e None)|]. intros x. by apply (H2 job e x).
Qed.

End updates.

(** Steps through a reconcile, its updates and the creation of the Job in one
    step each. *)
Ltac isvc_steps := unfold Reconcile;
  repeat ((first [apply isvc_updateStatus_wp | apply updateWorkloadCondition_wp
                 | apply reconcileKueueJob_wp]; cbn [app]) || wp_step).

Section traces.
Context `{L : K8sLib, !K8sLibLaws}.

Abbreviation ISVC := KInferenceService.

(** The InferenceService the controller holds: as read, or as returned by a
    status update. *)
Definition received (req : NamespacedName) (past : list Event) (isvc : InferenceService) : Prop :=
  Ev (Get ISVC req) (Ok isvc) ∈ past \/
  exists o, Ev (StatusUpdate ISVC o) (Ok isvc) ∈ past.

(** The server's answers to status updates carry the status that was sent. *)
Definition honest (past : list Event) : Prop :=
  forall o o', Ev (StatusUpdate ISVC o) (Ok o') ∈ past -> isvc_Status o' = isvc_Status o.

(** The status is one the controller composes: the phase, the Ready condition
    and the conditions of the dependencies agree. *)
Definition isvc_coherent (st : InferenceServiceStatus) : Prop :=
  exists modelErr tenantErr profileErr capacityErr derived generation,
    isvc_reports (verdicts modelErr tenantErr profileErr capacityErr)
      (is_nil modelErr && is_nil tenantErr && is_nil profileErr && is_nil capacityErr)
      derived generation st.

(** What the controller may ask the server, after these events. *)
Definition isvc_may (req : NamespacedName) (past : list Event) (r : Req) : Prop :=
  match r with
  | Get ISVC nn => nn = req
  | Get KModel _ | Get KTenant _ | Get KJob _ => True
  | StatusUpdate ISVC o =>
      exists isvc, received req past isvc /\ isvc_ObjectMeta o = isvc_ObjectMeta isvc /\
        isvc_Spec o = isvc_Spec isvc /\
        Endpoint (isvc_Status o) = Endpoint (isvc_Status isvc) /\
        (honest past -> isvc_coherent (isvc_Status o))
  | Create KJob job =>
      exists isvc model tenant isvc1 e,
        Ev (Get ISVC req) (Ok isvc) ∈ past /\
        Ev (Get KModel (mkNN (Namespace_ (isvc_ObjectMeta isvc)) (isvc_Model (isvc_Spec isvc))))
           (Ok model) ∈ past /\
        IsStatusConditionTrue (model_Conditions (model_Status model)) "Ready" = true /\
        Ev (Get KTenant (mkNN "" (Namespace_ (isvc_ObjectMeta isvc)))) (Ok tenant) ∈ past /\
        profile_known isvc = true /\
        received req past isvc1 /\ job_for isvc1 (Some model) job /\
        Ev (Get KJob (key KJob job)) (Err e) ∈ past /\ IsNotFound e = true
  | _ => False
  end.

Ltac in_trace := repeat first [apply list_elem_of_here | apply list_elem_of_further].

Lemma resolveModel_ready isvc r model ms :
  resolveModel isvc r = Ok (ms, model) -> modelError isvc ms = None ->
  exists m, r = Ok m /\ model = Some m /\
    IsStatusConditionTrue (model_Conditions (model_Status m)) "Ready" = true.
Proof.
  unfold resolveModel, modelError. intros Hr He. repeat case_match; simplify_eq; eauto.
Qed.

Lemma resolveTenant_found isvc r found derived :
  resolveTenant isvc r = Ok (found, derived) -> tenantError isvc found = None ->
  exists t, r = Ok t.
Proof. unfold resolveTenant, tenantError. intros Hr He. repeat case_match; simplify_eq; eauto. Qed.

Lemma deps_resolved isvc rm rt ms model found derived :
  resolveModel isvc rm = Ok (ms, model) -> resolveTenant isvc rt = Ok (found, derived) ->
  negb (is_nil (modelError isvc ms) && is_nil (tenantError isvc found) &&
        is_nil (profileError isvc) && is_nil (capacityError isvc ms (profileError isvc))) = false ->
  exists m t, rm = Ok m /\ rt = Ok t /\ model = Some m /\
    IsStatusConditionTrue (model_Conditions (model_Status m)) "Ready" = true /\
    profile_known isvc = true.
Proof.
  intros Hm Ht Hn. apply negb_false_iff in Hn. rewrite !andb_true_iff in Hn.
  destruct Hn as [[[H1 H2] H3] _].
  destruct (resolveModel_ready _ _ _ _ Hm) as (m & -> & -> & Hr);
    [by destruct (modelError isvc ms)|].
  destruct (resolveTenant_found _ _ _ _ Ht) as (t & ->);
    [by destruct (tenantError isvc found)|].
  exists m, t. split_and!; try done. unfold profileError, profile_known in *.
  by destruct (Resolve _).
Qed.

Ltac in_received := first [left; by in_trace | right; eexists; by in_trace].
(** The status sent is composed in this run: in the last update, in the one
    before, or found as it would be composed. *)
Lemma with_outcomes_coherent now isvc derived e1 e2 e3 e4 :
  isvc_coherent (isvc_Status (with_outcomes now isvc derived e1 e2 e3 e4)).
Proof. do 6 eexists. apply isvc_with_outcomes_reports. Qed.

Lemma with_workload_coherent now isvc jobErr :
  isvc_coherent (isvc_Status isvc) ->
  isvc_coherent (isvc_Status (with_workload now isvc jobErr)).
Proof.
  intros (e1 & e2 & e3 & e4 & d & g & Hr). exists e1, e2, e3, e4, d, g.
  by apply with_workload_reports; [apply (bool_decide_unpack _)|].
Qed.

Ltac close_coherent :=
  intros Hhonest;
  first [ apply with_outcomes_coherent
        | apply with_workload_coherent;
          first [ do 6 eexists; eassumption
                | erewrite Hhonest by in_trace; apply with_outcomes_coherent ] ].
Ltac close_status :=
  split; [in_received|]; split; [|split; [|split]];
  [unfold with_workload; repeat case_match; by simplify_eq..|close_coherent].
Ltac close_create :=
  split; [by in_trace|]; split; [by in_trace|]; split; [eassumption|];
  split; [by in_trace|]; split; [eassumption|]; split; [|split; [eassumption|]];
  [in_received|]; split; [erewrite job_for_key by eassumption; by in_trace|done].

Lemma isvc_Reconcile_wp now req : wp (isvc_may req) (fun _ _ => True) [] (Reconcile now req).
Proof.
  isvc_steps;
    match goal with
    | |- isvc_may _ _ (StatusUpdate _ (_ _ ?i _)) => exists i; close_status
    | |- isvc_may _ _ (StatusUpdate _ (_ _ ?i _ _ _ _ _)) => exists i; close_status
    | H1 : resolveModel _ _ = _, H2 : resolveTenant _ _ = _, H3 : negb _ = false
      |- isvc_may _ _ (Create _ _) =>
        destruct (deps_resolved _ _ _ _ _ _ _ H1 H2 H3)
          as (model & tenant & -> & -> & -> & Hready & Hprofile);
        do 5 eexists; close_create
    | |- _ => done
    end.
Qed.

Lemma isvc_Reconcile_guarded now req t o :
  exec (Reconcile now req) t o -> guarded (isvc_may req) [] t.
Proof. intros He. apply (wp_sound _ _ _ _ _ He [] (isvc_Reconcile_wp now req)). Qed.

(** C14: whatever the server answers, the controller writes nothing but the
    status of its own InferenceService, metadata, spec and endpoint
    unchanged, and a Job, which it creates only after it has read a ready
    Model, found the Tenant, resolved the profile, and been told that there
    is no Job of that name. *)
Theorem InferenceService_Reconcile_order now req t o :
  exec (Reconcile now req) t o -> guarded (isvc_may req) [] t.
Proof. apply isvc_Reconcile_guarded. Qed.

(** The error the creation of the Job came back with, in a trace. *)
Definition create_result (e : Event) : option (option error) :=
  match e with
  | Ev r x => match r return Resp r -> option (option error) with
              | Create k _ => fun x => if decide (k = KJob) then Some x else None
              | _ => fun _ => None
              end x
  end.

Fixpoint job_result (t : list Event) : option (option error) :=
  match t with
  | [] => None
  | e :: t' => match create_result e with Some x => Some x | None => job_result t' end
  end.

(** After the Job is asked for, only the status is written, and it reports
    how that went. *)
Definition reports_job (past : list Event) (r : Req) : Prop :=
  forall x, job_result past = Some x ->
  exists isvc, r = StatusUpdate ISVC isvc /\ workload_reported x (isvc_Status isvc).

(** C19: once the Job has been asked for, the one thing the controller still
    writes is a status whose WorkloadReady condition says how the creation
    went; and when it failed the reconcile returns an error, so that it is
    tried again. *)
Theorem InferenceService_job_error now req t o :
  exec (Reconcile now req) t o ->
  guarded reports_job [] t /\
  (forall e, job_result t = Some (Some e) -> exists e', o = Some (Result0, Some e')).
Proof.
  intros He. apply (wp_sound reports_job (fun t o =>
    forall e, job_result t = Some (Some e) -> exists e', o = Some (Result0, Some e'))
    _ _ _ He []).
  isvc_steps; try (intros x' Hx; simplify_eq/=; eexists; split; [reflexivity|];
    unfold workload_reported; rewrite with_workload_sigs; apply assoc_upsert_eq);
    try (by intros ?; simplify_eq/=);
    simplify_eq/=; by eexists.
Qed.
End traces.

(** ** The mapping of Model events *)

Section mapping.
Context {W : Type} `{!Cluster W, !ClusterLaws W}.

Abbreviation ISVC := KInferenceService.

Lemma fold_requests (name : string) (items : list InferenceService) acc nn :
  nn ∈ fold_left (fun requests isvc =>
         if decide (isvc_Model (isvc_Spec isvc) = name)
         then requests ++ [mkNN (Namespace_ (isvc_ObjectMeta isvc)) (Name (isvc_ObjectMeta isvc))]
         else requests) items acc <->
  nn ∈ acc \/ exists isvc, isvc ∈ items /\ isvc_Model (isvc_Spec isvc) = name /\
                          key ISVC isvc = nn.
Proof.
  revert acc. induction items as [|isvc items IH]; intros acc; simpl.
  - split; [by left|intros [?|(isvc & Hin & _)]; [done|by apply elem_of_nil in Hin]].
  - rewrite IH. case_decide as Hm.
    + rewrite elem_of_app, list_elem_of_singleton. split.
      * intros [[?|Hnn]|(i & ? & ?)]; [by left| |].
        -- right. exists isvc. split; [apply list_elem_of_here|done].
        -- right. exists i. split; [by apply list_elem_of_further|done].
      * intros [?|(i & [->|Hi]%elem_of_cons & Hn & Hk)]; [by left; left| |].
        -- left. by right.
        -- right. by exists i.
    + split; (intros [?|(i & Hi & ?)]; [by left|]); right; exists i.
      * split; [by apply list_elem_of_further|done].
      * apply elem_of_cons in Hi as [->|Hi]; [by destruct Hm; unpack|done].
Qed.

(** What the mapping asks for, and that it writes nothing. *)
Lemma mapModel_requests (o : Object) (w : W) :
  quiet (mapModelToInferenceServices o) w /\
  exists reqs, outcome (mapModelToInferenceServices o) w = Some reqs /\
  match as_Model o with
  | None => reqs = []
  | Some model =>
      match (handle (List_ ISVC (Namespace_ (model_ObjectMeta model))) w).1 with
      | Err _ => reqs = []
      | Ok _ => forall nn, nn ∈ reqs <->
          exists isvc, stored ISVC w nn = Some isvc /\
            Namespace_ (isvc_ObjectMeta isvc) = Namespace_ (model_ObjectMeta model) /\
            isvc_Model (isvc_Spec isvc) = Name (model_ObjectMeta model)
      end
  end.
Proof.
  unfold mapModelToInferenceServices. destruct (as_Model o) as [model|].
  2:{ split; [apply quiet_ret|]. by exists []. }
  split; [apply quiet_List; intros [?|?]; apply quiet_ret|].
  rewrite outcome_next. pose proof (list_ok ISVC (Namespace_ (model_ObjectMeta model)) w) as Hl.
  destruct (handle _ w) as [[items|e] w']; cbn [fst snd] in *; [|by exists []].
  eexists. split; [done|]. intros nn. rewrite fold_requests. specialize (Hl items eq_refl).
  split.
  - intros [Hn|(isvc & Hin & Hm & Hk)]; [by apply elem_of_nil in Hn|].
    apply Hl in Hin as [Hns Hst]. rewrite Hk in *. exists isvc. split; [done|].
    split; [|done]. rewrite <- Hns, <- Hk. done.
  - intros (isvc & Hst & Hns & Hm). right. exists isvc.
    pose proof (stored_key _ _ _ _ Hst) as Hk. split; [|done].
    apply Hl. rewrite Hk. split; [|done]. rewrite <- Hk. done.
Qed.

(** C20: a change of a Model enqueues exactly the InferenceServices of its
    namespace that refer to it, provided they can be listed, and none if not;
    any other object enqueues none, and nothing is ever written. *)
Theorem mapModelToInferenceServices_spec (o : Object) (w : W) :
  quiet (mapModelToInferenceServices o) w /\
  exists reqs, outcome (mapModelToInferenceServices o) w = Some reqs /\
  match as_Model o with
  | None => reqs = []
  | Some model =>
      match (handle (List_ ISVC (Namespace_ (model_ObjectMeta model))) w).1 with
      | Err _ => reqs = []
      | Ok _ => forall nn, nn ∈ reqs <->
          exists isvc, stored ISVC w nn = Some isvc /\
            Namespace_ (isvc_ObjectMeta isvc) = Namespace_ (model_ObjectMeta model) /\
            isvc_Model (isvc_Spec isvc) = Name (model_ObjectMeta model)
      end
  end.
Proof. apply mapModel_requests. Qed.
End mapping.
