(* ===== verification/Progress.v ===== *)
(** * Progress

    Against a server that is up and refuses nothing ([Available]), a reconcile
    of each controller returns no error. *)
From S2P Require Import Prelude.
From S2P Require Import ApiTypes.
From S2P Require Import K8sLib.
From S2P Require Import ApiClient.
From S2P Require Import Conditions.
From S2P Require Import Priority.
From S2P Require Import Scheduling.
From S2P Require Import ModelController.
From S2P Require Import TenantController.
From S2P Require Import InferenceServiceController.

Section progress.
Context `{L : K8sLib, !K8sLibLaws} {W : Type}
  `{!Cluster W, !ClusterLaws W, !Available W}.

Abbreviation ISVC := KInferenceService.

Lemma read_avail k nn w o : stored k w nn = Some o -> read k nn w = Ok o.
Proof. apply get_avail. Qed.

(** A callback that keeps the key is accepted. *)
Lemma upsert_accepted k o f w x w' :
  handle (CreateOrUpdate k o f) w = (x, w') -> (forall o', key k (f o') = key k o') -> x = None.
Proof.
  intros E Hf. pose proof (upsert_avail k o f w) as Hu. rewrite E in Hu. apply Hu.
  rewrite Hf. destruct (stored k w (key k o)) as [o'|] eqn:Hs; [|done].
  by apply (stored_key _ _ _ _ Hs).
Qed.

(** A run of the program from [w] ends without error, with this result. *)
Definition succeeds (p : Prog (Result * option error)) (res : Result) (w : W) : Prop :=
  outcome p w = Some (res, None).

(** ** Model *)

Lemma model_progress now req w m :
  stored KModel w req = Some m ->
  outcome (ModelController.Reconcile now req) w = Some (Result0, None).
Proof.
  intros Hw. pose proof (ModelController.Reconcile_run now req w) as Hrun.
  rewrite (read_avail _ _ _ _ Hw) in Hrun. case_decide as Hd; [by destruct Hrun|].
  cbv zeta in Hrun. destruct Hrun as [-> _].
  pose proof (stored_key _ _ _ _ Hw) as Hk. destruct (to_write_facts now m) as (Hk' & _).
  destruct (status_avail KModel (to_write now m) w m) as [o' ->]; [congruence| |done].
  unfold to_write. destruct (verifyArtifact_verdict m) as (_ & _ & Hm & _).
  destruct (verifyArtifact m). exact Hm.
Qed.

Lemma model_frame now req w k nn :
  k <> KModel -> stored k (final (ModelController.Reconcile now req) w) nn = stored k w nn.
Proof.
  intros Hk. pose proof (ModelController.Reconcile_run now req w) as Hrun.
  destruct (read KModel req w) as [m|e].
  - case_decide; cbv zeta in Hrun; [by destruct Hrun as (_ & _ & ->)|]. destruct Hrun as [_ ->].
    destruct (handle _ w) as [x w'] eqn:E. by apply (stored_frame _ _ _ _ k nn E).
  - by destruct Hrun as (_ & _ & ->).
Qed.

(** ** Tenant *)

Lemma tenant_updateStatus_progress now t e1 e2 e3 e4 e5 w :
  stored KTenant w (key KTenant t) = Some t ->
  outcome (TenantController.updateStatus now t e1 e2 e3 e4 e5) w = Some None.
Proof.
  intros Hw. pose proof (TenantController.updateStatus_run now t e1 e2 e3 e4 e5 w) as Hu.
  cbv zeta in Hu. case_decide; destruct Hu as [-> _]; [done|].
  by destruct (status_avail KTenant (TenantController.with_outcomes now t e1 e2 e3 e4 e5) w t)
    as [o' ->].
Qed.

Lemma tenant_progress now req w t hard :
  stored KTenant w req = Some t ->
  buildQuotaResourceList (tenant_ResourceQuota (tenant_Spec t)) = Ok hard ->
  outcome (TenantController.Reconcile now req) w = Some (Result0, None).
Proof.
  intros Hw Hq. unfold TenantController.Reconcile, reconcileNamespace, reconcileResourceQuota,
    reconcileServiceAccount, reconcileRBAC, reconcileNetworkPolicy.
  rewrite outcome_bind, outcome_Get, final_Get, (read_avail _ _ _ _ Hw).
  rewrite <- (stored_key _ _ _ _ Hw) in Hw.
  next. response x1 w1. rewrite (upsert_accepted _ _ _ _ _ _ E) by done. rewrite Hq.
  next. response x2 w2. rewrite (upsert_accepted _ _ _ _ _ _ E0) by done.
  next. response x3 w3. rewrite (upsert_accepted _ _ _ _ _ _ E1) by done.
  next. response x4 w4. rewrite (upsert_accepted _ _ _ _ _ _ E2) by done.
  next. response x5 w5. rewrite (upsert_accepted _ _ _ _ _ _ E3) by done.
  next. response x6 w6. rewrite (upsert_accepted _ _ _ _ _ _ E4) by done.
  next. rewrite tenant_updateStatus_progress; [done|]. by frames.
Qed.

(** The controller leaves the objects that are not a tenant's alone. *)
Definition tenant_kind (k : Kind) : bool :=
  match k with
  | KTenant | KNamespace | KResourceQuota | KServiceAccount | KRole | KRoleBinding
  | KNetworkPolicy => true
  | _ => false
  end.

Lemma tenant_frame now req w k nn :
  tenant_kind k = false ->
  stored k (final (TenantController.Reconcile now req) w) nn = stored k w nn.
Proof.
  intros Hk. apply run_frame.
  destruct (TenantController.tenant_Reconcile_guarded now req _ _
              (run_exec (TenantController.Reconcile now req) w)) as [Hg _].
  apply (guarded_impl (tenant_may req)
    (fun r => is_write r = true -> (k, nn) <> (req_kind r, req_key r)) []); [|done].
  intros past r Hmay Hwr [= -> _]. unfold tenant_may in Hmay. rewrite Hwr in Hmay.
  destruct Hmay as (t & _ & Hr). destruct r as [| | |[]|[]]; try done; by destruct Hr.
Qed.

(** ** InferenceService *)

Lemma isvc_updateStatus_progress now isvc derived e1 e2 e3 e4 w :
  stored ISVC w (key ISVC isvc) = Some isvc ->
  exists isvc1 c, outcome (updateStatus now isvc derived e1 e2 e3 e4) w =
                    Some (isvc1, (c, None)).
Proof.
  intros Hw. rewrite isvc_updateStatus_unfold. destruct (bool_decide _); [by do 2 eexists|].
  destruct (status_avail ISVC (with_outcomes now isvc derived e1 e2 e3 e4) w isvc)
    as [o' Ho]; [done..|].
  rewrite outcome_next, Ho. by do 2 eexists.
Qed.

Lemma isvc_workload_progress now isvc jobErr w :
  stored ISVC w (key ISVC isvc) = Some isvc ->
  exists isvc1, outcome (updateWorkloadCondition now isvc jobErr) w = Some (isvc1, None).
Proof.
  intros Hw. rewrite updateWorkloadCondition_unfold.
  destruct (bool_decide _); [by eexists|].
  assert (isvc_ObjectMeta (with_workload now isvc jobErr) = isvc_ObjectMeta isvc) as Hm
    by (unfold with_workload; by destruct jobErr).
  destruct (status_avail ISVC (with_workload now isvc jobErr) w isvc) as [o' Ho];
    [unfold key in *; simpl in *; by rewrite Hm|done|].
  rewrite outcome_next, Ho. by eexists.
Qed.

Lemma job_progress isvc model w : outcome (reconcileKueueJob isvc model) w = Some None.
Proof.
  destruct (job_for_exists isvc model) as [job Hj].
  rewrite (reconcileKueueJob_unfold _ _ _ Hj), outcome_bind, outcome_Get, final_Get.
  destruct (stored KJob w (key ISVC isvc)) as [j|] eqn:Hs.
  - by rewrite (read_avail _ _ _ _ Hs).
  - destruct (get_avail_missing _ _ _ Hs) as (e & He & Hnf). unfold read. rewrite He, Hnf.
    next. f_equal. apply create_avail. by rewrite (job_for_key _ _ _ Hj).
Qed.

Lemma isvc_progress now req w isvc :
  stored ISVC w req = Some isvc ->
  exists res, outcome (Reconcile now req) w = Some (res, None).
Proof.
  intros Hw. unfold Reconcile.
  rewrite outcome_bind, outcome_Get, final_Get, (read_avail _ _ _ _ Hw). cbn beta iota.
  rewrite <- (stored_key _ _ _ _ Hw) in Hw.
  rewrite outcome_bind, outcome_Get, final_Get. cbn beta iota.
  assert (forall k nn, exists r, read k nn w = r /\
            match r with Ok _ => True | Err e => IsNotFound e = true end) as Hread.
  { intros k nn. eexists. split; [done|]. destruct (stored k w nn) eqn:Hs.
    - by rewrite (read_avail _ _ _ _ Hs).
    - unfold read. by destruct (get_avail_missing _ _ _ Hs) as (e & -> & ?). }
  destruct (Hread KModel (mkNN (Namespace_ (isvc_ObjectMeta isvc)) (isvc_Model (isvc_Spec isvc))))
    as (rm & -> & Hrm).
  assert (exists ms model, resolveModel isvc rm = Ok (ms, model)) as (ms & model & ->).
  { unfold resolveModel. destruct rm as [m|e]; [case_match|rewrite Hrm]; by do 2 eexists. }
  rewrite outcome_bind, outcome_Get, final_Get. cbn beta iota.
  destruct (Hread KTenant (mkNN "" (Namespace_ (isvc_ObjectMeta isvc)))) as (rt & -> & Hrt).
  assert (exists found d, resolveTenant isvc rt = Ok (found, d)) as (found & d & ->).
  { unfold resolveTenant. destruct rt as [t|e]; [|rewrite Hrt]; by do 2 eexists. }
  cbv zeta. rewrite outcome_bind.
  destruct (isvc_updateStatus_progress now isvc d (modelError isvc ms) (tenantError isvc found)
    (profileError isvc) (capacityError isvc ms (profileError isvc)) w Hw) as (isvc1 & c & Hu).
  destruct (isvc_updateStatus_stores _ _ _ _ _ _ _ _ _ _ Hw Hu) as [(U1 & U2 & U3 & U4) _].
  rewrite Hu. cbn beta iota. set (w1 := final (updateStatus _ _ _ _ _ _ _) w) in *.
  destruct (negb _); [by eexists|].
  rewrite outcome_bind, job_progress, outcome_bind.
  destruct (job_for_exists isvc1 model) as [job Hj].
  destruct (reconcileKueueJob_stores _ _ _ _ Hj (job_progress _ _ w1)) as [Jf _].
  destruct (isvc_workload_progress now isvc1 None (final (reconcileKueueJob isvc1 model) w1))
    as [isvc2 ->]; [|by eexists].
  rewrite Jf by done. by rewrite (same_meta_key _ _ U3).
Qed.

(** Against a server that is up, a reconcile of an existing object
    returns no error: of a Model always, of a Tenant if its quota can be
    built, of an InferenceService always, asking to be called again in ten
    seconds exactly when a dependency is missing. *)
Theorem controllers_progress now req w :
  (forall m, stored KModel w req = Some m ->
     succeeds (ModelController.Reconcile now req) Result0 w) /\
  (forall t hard, stored KTenant w req = Some t ->
     buildQuotaResourceList (tenant_ResourceQuota (tenant_Spec t)) = Ok hard ->
     succeeds (TenantController.Reconcile now req) Result0 w) /\
  (forall isvc, stored ISVC w req = Some isvc ->
     succeeds (Reconcile now req)
       (if deps_ready w isvc then Result0 else mkResult (10 * Second)) w).
Proof.
  split; [apply model_progress|]. split; [intros t hard; apply tenant_progress|].
  intros isvc Hw. destruct (isvc_progress now req w isvc Hw) as [res Hres].
  unfold succeeds. by destruct (isvc_Reconcile_stored _ _ _ _ _ Hw Hres) as [-> _].
Qed.

(** A verified Model and a Tenant are dependencies satisfied. *)
Lemma bring_up_deps w isvc t m :
  tenant_of w isvc = Some t -> model_of w isvc = Some m ->
  reports true (model_Status m) -> profile_known isvc = true ->
  deps_ready w isvc = true /\
  derived_priority w isvc =
    Calculate (Default (tenant_Priority (tenant_Spec t)))
      (WorkloadClass (isvc_Spec isvc)) (Priority (isvc_Spec isvc)) /\
  model_of w isvc = Some m.
Proof.
  intros Ht Hm [_ Hr] Hp. unfold deps_ready, model_ready, tenant_found, derived_priority.
  rewrite Ht, Hm, Hp. split_and!; try done.
  assert (IsStatusConditionTrue (model_Conditions (model_Status m)) "Ready" = true) as ->; [|done].
  apply IsStatusConditionTrue_assoc. by eexists.
Qed.
End progress.
