(* ===== verification/MemCluster.v ===== *)
(** * An API server in memory

    A concrete [Cluster] that satisfies [ClusterLaws]: objects by kind and key,
    resource versions, optimistic concurrency on status updates, and a fault
    for every request the state says fails.  It shows that the laws can hold,
    and the concrete instances of the theorems run on it. *)
From S2P Require Import Prelude.
From S2P Require Import ApiTypes.
From S2P Require Import EqDec.
From S2P Require Import ApiClient.

(** ** Parts of an object *)

Definition set_meta (k : Kind) (m : ObjectMeta) : obj k -> obj k :=
  match k with
  | KTenant => fun o => mkTenant m (tenant_Spec o) (tenant_Status o)
  | KModel => fun o => mkModel m (model_Spec o) (model_Status o)
  | KInferenceService => fun o => mkInferenceService m (isvc_Spec o) (isvc_Status o)
  | KPlatformPolicy => fun o => mkPlatformPolicy m (policy_Spec o)
  | KNamespace => fun _ => mkNamespace m
  | KResourceQuota => fun o => mkResourceQuota m (Hard o)
  | KServiceAccount => fun _ => mkServiceAccount m
  | KRole => fun o => mkRole m (Rules o)
  | KRoleBinding => fun o => mkRoleBinding m (RoleRef_ o) (Subjects o)
  | KNetworkPolicy => fun o => mkNetworkPolicy m (np_Spec o)
  | KJob => fun o => mkJob m (job_Spec o)
  end.

(** The status of the first object on the rest of the second. *)
Definition merge_status (k : Kind) : obj k -> obj k -> obj k :=
  match k with
  | KTenant => fun o o0 => mkTenant (tenant_ObjectMeta o0) (tenant_Spec o0) (tenant_Status o)
  | KModel => fun o o0 => mkModel (model_ObjectMeta o0) (model_Spec o0) (model_Status o)
  | KInferenceService => fun o o0 =>
      mkInferenceService (isvc_ObjectMeta o0) (isvc_Spec o0) (isvc_Status o)
  | _ => fun _ o0 => o0
  end.

(** The next resource version. *)
Definition bump (m : ObjectMeta) : ObjectMeta :=
  mkObjectMeta (Name m) (Namespace_ m) (UID m) (ResourceVersion m + 1)
    (Generation m) (Labels m) (Annotations m) (OwnerReferences m).
Definition bumped (k : Kind) (o : obj k) : obj k := set_meta k (bump (obj_meta k o)) o.

(** ** The server *)

Record MemState := mkMemState {
  objects : forall k : Kind, gmap NamespacedName (obj k)
}.

(** An entry under a key that is not its own does not count. *)
Definition mem_stored (k : Kind) (w : MemState) (nn : NamespacedName) : option (obj k) :=
  match objects w k !! nn with
  | Some o => if decide (key k o = nn) then Some o else None
  | None => None
  end.

Definition put (k : Kind) (o : obj k) (w : MemState) : MemState :=
  mkMemState
    (fun k' => match decide (k = k') with
               | left e => eq_rect k (fun k => gmap NamespacedName (obj k))
                             (<[key k o := o]> (objects w k)) k' e
               | right _ => objects w k'
               end).

Definition status_error (r : StatusReason) (msg : string) : error := mkError r msg.

Definition not_found : error := status_error StatusReasonNotFound "not found".
Definition conflict : error :=
  status_error StatusReasonConflict "the object has been modified".
Definition already_exists : error := status_error StatusReasonAlreadyExists "already exists".

Section server.
(** The requests that fail, and how. *)
Variable faults : Req -> option error.

(** A fault does not claim that an object is missing. *)
Definition fault (r : Req) : option error :=
  match faults r with
  | Some e => if IsNotFound e then None else Some e
  | None => None
  end.

Definition mem_handle (r : Req) (w : MemState) : Resp r * MemState :=
  match r return Resp r * MemState with
  | Get k nn =>
      (match fault (Get k nn) with
       | Some e => Err e
       | None => match mem_stored k w nn with Some o => Ok o | None => Err not_found end
       end, w)
  | List_ k ns =>
      (match fault (List_ k ns) with
       | Some e => Err e
       | None =>
           Ok (List.filter (fun o => bool_decide (nn_Namespace (key k o) = ns /\
                                                  mem_stored k w (key k o) = Some o))
                 (map snd (map_to_list (objects w k))))
       end, w)
  | Create k o =>
      match fault (Create k o), mem_stored k w (key k o) with
      | Some e, _ => (Some e, w)
      | None, Some _ => (Some already_exists, w)
      | None, None => (None, put k (bumped k o) w)
      end
  | StatusUpdate k o =>
      match fault (StatusUpdate k o), mem_stored k w (key k o) with
      | Some e, _ => (Err e, w)
      | None, None => (Err not_found, w)
      | None, Some o0 =>
          if decide (ResourceVersion (obj_meta k o) = ResourceVersion (obj_meta k o0)) then
            let o' := bumped k (merge_status k o o0) in (Ok o', put k o' w)
          else (Err conflict, w)
      end
  | CreateOrUpdate k o f =>
      match fault (CreateOrUpdate k o f) with
      | Some e => (Some e, w)
      | None =>
          let o1 := f (default o (mem_stored k w (key k o))) in
          if decide (mem_stored k w (key k o) = Some o1) then (None, w)
          else if decide (key k o1 = key k o) then (None, put k (bumped k o1) w)
          else (Some (errorf "MutateFn cannot mutate object name and/or object namespace"), w)
      end
  end.

Definition mem_cluster : Cluster MemState := {|
  handle := mem_handle;
  stored := mem_stored
|}.
End server.

(** ** The laws *)

Lemma obj_meta_set k m o : obj_meta k (set_meta k m o) = m.
Proof. by destruct k. Qed.

Lemma key_bumped k o : key k (bumped k o) = key k o.
Proof. unfold key, bumped. by rewrite obj_meta_set. Qed.

Lemma key_merge_status k o o0 : key k (merge_status k o o0) = key k o0.
Proof. by destruct k. Qed.

Lemma mem_stored_key k w nn o : mem_stored k w nn = Some o -> key k o = nn.
Proof. unfold mem_stored. intros. by repeat case_match; simplify_eq. Qed.

Lemma mem_stored_put k o w nn : key k o = nn -> mem_stored k (put k o w) nn = Some o.
Proof.
  intros <-. unfold mem_stored, put. simpl. destruct (decide (k = k)) as [e|]; [|done].
  rewrite (proof_irrel e eq_refl). simpl. rewrite lookup_insert_eq. by rewrite decide_True.
Qed.

Lemma mem_stored_put_ne k o w k' nn :
  (k', nn) <> (k, key k o) -> mem_stored k' (put k o w) nn = mem_stored k' w nn.
Proof.
  intros Hne. unfold mem_stored, put. simpl. destruct (decide (k = k')) as [<-|]; [|done].
  simpl. rewrite lookup_insert_ne; [done|]. congruence.
Qed.

Lemma meta_accepted_bump m : meta_accepted m (bump m).
Proof. by repeat split. Qed.

Lemma job_accepted_refl s : job_accepted s s.
Proof. by repeat split. Qed.

Lemma accepted_bumped k o : accepted k o (bumped k o).
Proof. destruct k; repeat split; done. Qed.

Lemma status_written_bumped k o o0 : status_written k o o0 (bumped k (merge_status k o o0)).
Proof. destruct k; by repeat split. Qed.

Lemma fault_not_missing faults r e : fault faults r = Some e -> IsNotFound e = false.
Proof. unfold fault. intros. by repeat case_match; simplify_eq. Qed.

(** Splits the cases of a request. *)
Ltac server_cases := simpl; intros; repeat case_match; simplify_eq/=; try done.

#[export] Instance mem_laws faults : @ClusterLaws MemState (mem_cluster faults).
Proof.
  split.
  - apply mem_stored_key.
  - done.
  - intros k nn w o. server_cases.
  - intros k nn w e. simpl. destruct (fault _ _) eqn:Hf.
    + intros [= <-] Hn. by rewrite (fault_not_missing _ _ _ Hf) in Hn.
    + server_cases.
  - done.
  - intros k ns w l. simpl. destruct (fault _ _); [done|]. intros [= <-] o.
    rewrite list_elem_of_In, filter_In, bool_decide_eq_true. split; [by intros [_ ?]|].
    intros [Hns Hst]. split; [|done]. apply in_map_iff. exists (key k o, o). split; [done|].
    apply list_elem_of_In, elem_of_map_to_list. unfold mem_stored in Hst.
    repeat case_match; by simplify_eq.
  - intros r w k nn Hw Hne. destruct r; try done; simpl in *; repeat case_match; try done;
      apply mem_stored_put_ne; rewrite key_bumped; [done|rewrite key_merge_status|congruence].
    erewrite mem_stored_key by eassumption. done.
  - intros k o w. simpl. repeat case_match; intros; simplify_eq/=. split; [done|].
    exists (bumped k o). split; [apply mem_stored_put, key_bumped|apply accepted_bumped].
  - intros k o w. simpl. repeat case_match; [by left..|]. right. split; [done|].
    exists (bumped k o). split; [apply mem_stored_put, key_bumped|apply accepted_bumped].
  - intros k o w o'. simpl. repeat case_match; intros; simplify_eq/=.
    eexists. split; [done|]. split; [apply status_written_bumped|].
    apply mem_stored_put. rewrite key_bumped, key_merge_status. by eapply mem_stored_key.
  - intros k o w. simpl. repeat case_match; [by left| |by left|by left]. right. do 2 eexists.
    split; [done|]. split; [apply status_written_bumped|]. simpl.
    apply mem_stored_put. rewrite key_bumped, key_merge_status. by eapply mem_stored_key.
  - intros k o f w. simpl. repeat case_match; intros; simplify_eq/=.
    + exists (f (default o (mem_stored k w (key k o)))). split; [done|].
      destruct k; by repeat split.
    + eexists. split; [|apply accepted_bumped]. apply mem_stored_put. by rewrite key_bumped.
  - intros k o f w. simpl. repeat case_match; [by left|by left| |by left]. right.
    eexists. split; [|apply accepted_bumped]. apply mem_stored_put. by rewrite key_bumped.
  - intros k o f w o0 Hs Hf. simpl in *. case_match; [done|].
    rewrite decide_True; [done|]. rewrite Hs. simpl. by rewrite Hf.
Qed.

(** The server without faults. *)
Definition healthy : Req -> option error := fun _ => None.

#[export] Instance mem_available : @Available MemState (mem_cluster healthy).
Proof.
  split; simpl.
  - intros k nn w o ->. done.
  - intros k nn w ->. by eexists.
  - intros k o w o0 -> Hm. rewrite decide_True by (by rewrite Hm). by eexists.
  - intros k o w ->. done.
  - intros k o f w Hk. case_decide; [done|]. by rewrite decide_True.
Qed.
