(* ===== verification/Rbac.v ===== *)
(** * Permissions

    The ClusterRole the operator runs under ([operator/config/rbac/role.yaml]),
    the markers it is generated from, and the requests and roles of the code:
    every request is permitted, and no role the operator creates grants what it
    does not hold itself, which the API server's escalation check demands. *)
From S2P Require Import Prelude.
From S2P Require Import ApiTypes.
From S2P Require Import K8sLib.
From S2P Require Import ApiClient.
From S2P Require Import Admission.
From S2P Require Import Mutation.
From S2P Require Import Webhook.
From S2P Require Import ModelController.
From S2P Require Import TenantController.
From S2P Require Import InferenceServiceController.

(** ** The role and the markers *)

Definition read_verbs : list string := ["get"; "list"; "watch"].
Definition apply_verbs : list string := ["get"; "list"; "watch"; "create"; "update"; "patch"].
Definition all_verbs : list string :=
  ["get"; "list"; "watch"; "create"; "update"; "patch"; "delete"].
Definition status_verbs : list string := ["get"; "update"; "patch"].

(** [manager-role]. *)
Definition manager_role : list PolicyRule :=
  [ mkPolicyRule [""] ["configmaps"; "pods"; "services"] ["get"; "list"; "watch"];
    mkPolicyRule [""] ["namespaces"; "resourcequotas"; "serviceaccounts"]
      ["create"; "get"; "list"; "patch"; "update"; "watch"];
    mkPolicyRule ["batch"] ["jobs"]
      ["create"; "delete"; "get"; "list"; "patch"; "update"; "watch"];
    mkPolicyRule ["networking.k8s.io"] ["networkpolicies"]
      ["create"; "get"; "list"; "patch"; "update"; "watch"];
    mkPolicyRule ["platform.platform.io"] ["inferenceservices"; "models"; "tenants"]
      ["create"; "delete"; "get"; "list"; "patch"; "update"; "watch"];
    mkPolicyRule ["platform.platform.io"]
      ["inferenceservices/status"; "models/status"; "tenants/status"]
      ["get"; "patch"; "update"];
    mkPolicyRule ["platform.platform.io"] ["platformpolicies"] ["get"; "list"; "watch"];
    mkPolicyRule ["rbac.authorization.k8s.io"] ["rolebindings"; "roles"]
      ["create"; "get"; "list"; "patch"; "update"; "watch"] ].

(** The [kubebuilder:rbac] markers, by file. *)
Definition marker (group resource : string) (verbs : list string) : PolicyRule :=
  mkPolicyRule [group] [resource] verbs.

Definition tenant_markers : list PolicyRule :=
  [ marker "platform.platform.io" "tenants" all_verbs;
    marker "platform.platform.io" "tenants/status" status_verbs;
    marker "" "namespaces" apply_verbs;
    marker "" "resourcequotas" apply_verbs;
    marker "" "serviceaccounts" apply_verbs;
    marker "rbac.authorization.k8s.io" "roles" apply_verbs;
    marker "rbac.authorization.k8s.io" "rolebindings" apply_verbs;
    marker "networking.k8s.io" "networkpolicies" apply_verbs;
    marker "" "pods" read_verbs;
    marker "" "services" read_verbs;
    marker "" "configmaps" read_verbs ].

Definition isvc_markers : list PolicyRule :=
  [ marker "platform.platform.io" "inferenceservices" all_verbs;
    marker "platform.platform.io" "inferenceservices/status" status_verbs;
    marker "platform.platform.io" "models" read_verbs;
    marker "platform.platform.io" "tenants" read_verbs;
    marker "batch" "jobs" all_verbs;
    marker "" "services" all_verbs ].

Definition model_markers : list PolicyRule :=
  [ marker "platform.platform.io" "models" all_verbs;
    marker "platform.platform.io" "models/status" status_verbs ].

Definition webhook_markers : list PolicyRule :=
  [ marker "platform.platform.io" "platformpolicies" read_verbs ].

Definition markers : list PolicyRule :=
  tenant_markers ++ isvc_markers ++ model_markers ++ webhook_markers.

(** ** What rules grant *)

(** A verb on a resource of an API group. *)
Abbreviation Action := (string * string * string)%type.

Definition actions (r : PolicyRule) : list Action :=
  v ← Verbs r; g ← APIGroups r; s ← Resources r; mret (v, g, s).

Definition granted (rules : list PolicyRule) (a : Action) : Prop := a ∈ rules ≫= actions.

#[export] Instance granted_dec rules a : Decision (granted rules a).
Proof. unfold granted. apply _. Defined.

(** One set of rules grants all that another does: decided by enumeration. *)
Definition covers (rules rules' : list PolicyRule) : bool :=
  bool_decide (Forall (granted rules) (rules' ≫= actions)).

Lemma covers_granted rules rules' a : covers rules rules' = true -> granted rules' a -> granted rules a.
Proof.
  unfold covers. rewrite bool_decide_eq_true. intros Hc Ha. rewrite Forall_forall in Hc.
  apply Hc. by apply list_elem_of_In.
Qed.

(** ** What requests need *)

Definition group_of (k : Kind) : string :=
  match k with
  | KTenant | KModel | KInferenceService | KPlatformPolicy => "platform.platform.io"
  | KNamespace | KResourceQuota | KServiceAccount => ""
  | KRole | KRoleBinding => "rbac.authorization.k8s.io"
  | KNetworkPolicy => "networking.k8s.io"
  | KJob => "batch"
  end.

Definition resource_of (k : Kind) : string :=
  match k with
  | KTenant => "tenants" | KModel => "models" | KInferenceService => "inferenceservices"
  | KPlatformPolicy => "platformpolicies" | KNamespace => "namespaces"
  | KResourceQuota => "resourcequotas" | KServiceAccount => "serviceaccounts"
  | KRole => "roles" | KRoleBinding => "rolebindings"
  | KNetworkPolicy => "networkpolicies" | KJob => "jobs"
  end.

(** The verbs of a request; reads go through the manager's cache, which lists
    and watches, and [CreateOrUpdate] reads before it writes. *)
Definition needs (r : Req) : list Action :=
  match r with
  | Get k _ => [("get", group_of k, resource_of k); ("list", group_of k, resource_of k);
                ("watch", group_of k, resource_of k)]
  | List_ k _ => [("list", group_of k, resource_of k); ("watch", group_of k, resource_of k)]
  | Create k _ => [("create", group_of k, resource_of k)]
  | StatusUpdate k _ => [("update", group_of k, resource_of k +:+ "/status")]
  | CreateOrUpdate k _ _ =>
      [("get", group_of k, resource_of k); ("list", group_of k, resource_of k);
       ("watch", group_of k, resource_of k); ("create", group_of k, resource_of k);
       ("update", group_of k, resource_of k)]
  end.

Definition authorized (r : Req) : Prop := Forall (granted manager_role) (needs r).

Ltac authorize := by apply (bool_decide_unpack _); vm_compute.

Section requests.
Context `{L : K8sLib, !K8sLibLaws}.

Lemma tenant_may_authorized req past r : tenant_may req past r -> authorized r.
Proof.
  unfold tenant_may. destruct (is_write r) eqn:Hw; [|intros ->; authorize].
  intros (t & _ & Hr). destruct r as [| | |[]|k o f]; try done; [authorize|].
  destruct Hr as [Hk _]. destruct k; try done; authorize.
Qed.

Lemma isvc_may_authorized req past r : isvc_may req past r -> authorized r.
Proof. intros Hr. destruct r as [[]| |[]|[]|]; try done; authorize. Qed.

(** The requests of a program are authorized, whatever the responses. *)
Definition authorized_program {A} (p : Prog A) : Prop :=
  forall t o, exec p t o -> Forall (fun e => authorized (ev_req e)) t.

Lemma authorized_wp {A} (p : Prog A) :
  wp (fun _ r => authorized r) (fun _ _ => True) [] p -> authorized_program p.
Proof.
  intros Hwp t o He. destruct (wp_sound _ _ _ _ _ He [] Hwp) as [Hg _].
  by apply guarded_Forall in Hg.
Qed.

Ltac authorize_steps := apply authorized_wp; wp_steps; try done; authorize.

(** C23: every request any part of the operator sends, the three controllers,
    the mapping of Model events and the webhooks, is permitted by the
    ClusterRole it runs under, whatever the server answers; and the webhooks,
    which are registered with sideEffects=None, send read requests only. *)
Theorem operator_authorized :
  (forall now req, authorized_program (TenantController.Reconcile now req)) /\
  (forall now req, authorized_program (ModelController.Reconcile now req)) /\
  (forall now req, authorized_program (InferenceServiceController.Reconcile now req)) /\
  (forall o, authorized_program (mapModelToInferenceServices o)) /\
  (forall o, authorized_program (ValidateCreate o)) /\
  (forall o o', authorized_program (ValidateUpdate o o')) /\
  (forall o, authorized_program (Default_ o)) /\
  (forall o old t r,
     exec (ValidateCreate o) t r \/ exec (ValidateUpdate old o) t r \/
     exec (ValidateDelete o) t r \/ (exists res, exec (Default_ o) t res) ->
     Forall (fun e => is_write (ev_req e) = false) t).
Proof.
  split_and!; intros.
  - intros t o He. apply TenantController.tenant_Reconcile_guarded in He as [Hg _].
    revert Hg. apply guarded_impl, tenant_may_authorized.
  - unfold ModelController.Reconcile, ModelController.updateStatus. authorize_steps.
  - intros t o He. apply InferenceServiceController.isvc_Reconcile_guarded in He.
    revert He. apply guarded_impl, isvc_may_authorized.
  - unfold mapModelToInferenceServices. authorize_steps.
  - unfold ValidateCreate, ValidateInferenceService, validateTenantExists,
      validateSignedModelPolicy, getEffectivePlatformPolicy. authorize_steps.
  - unfold ValidateUpdate, ValidateInferenceService, validateTenantExists,
      validateSignedModelPolicy, getEffectivePlatformPolicy. authorize_steps.
  - unfold Default_, MutateInferenceService. authorize_steps.
  - destruct (webhooks_have_no_side_effects o old t) as [Hv Hm].
    match goal with H : _ \/ _ |- _ => destruct H as [?|[?|[?|[? ?]]]] end; eauto.
Qed.
End requests.

(** The role given to tenants grants nothing the operator does not hold,
    so the API server accepts it; the markers and the ClusterRole agree on
    everything but the changes to services the markers ask for and the role
    does not grant. *)
Theorem roles_agree (a : Action) :
  (granted tenant_rules a -> granted manager_role a) /\
  (granted markers a <->
     granted manager_role a \/
     a ∈ [("create", "", "services"); ("update", "", "services");
          ("patch", "", "services"); ("delete", "", "services")]).
Proof.
  split; [by apply covers_granted; vm_compute|].
  assert (granted [marker "" "services" ["create"; "update"; "patch"; "delete"]] a <->
          a ∈ [("create", "", "services"); ("update", "", "services");
               ("patch", "", "services"); ("delete", "", "services")]) as <- by done.
  split.
  - intros Hm.
    apply (covers_granted (manager_role ++ [marker "" "services" ["create"; "update"; "patch"; "delete"]]))
      in Hm; [|by vm_compute].
    unfold granted in *. rewrite bind_app in Hm. by apply elem_of_app in Hm.
  - intros [H|H]; revert H; apply covers_granted; by vm_compute.
Qed.
