(* ===== verification/TenantAccess.v ===== *)
(** * Access to the namespaces of tenants

    What the Role and the RoleBinding of [controller_helpers.go] grant, next to
    the cluster-wide bindings there are, and those the repository deploys with
    the operator ([operator/config/rbac]).  The evaluation relation below is the
    documented semantics of [rbac.authorization.k8s.io/v1] for requests on
    resources, by rules without resource names; it specifies and is not code of
    the repository. *)
From S2P Require Import Prelude.
From S2P Require Import ApiTypes.
From S2P Require Import K8sLib.
From S2P Require Import ApiClient.
From S2P Require Import TenantController.
From S2P Require Import Rbac.

(** ** Who asks *)

Record UserInfo := mkUserInfo { Username : string; Groups : list string }.

(** The user a service account is. *)
Definition MakeUsername (namespace name : string) : string :=
  "system:serviceaccount:" +:+ namespace +:+ ":" +:+ name.

(** A service account without a namespace is one of that of the binding, if it
    has one. *)
Definition subject_is (u : UserInfo) (binding_namespace : string) (s : Subject) : Prop :=
  subject_Kind s = "User" /\ Username u = subject_Name s \/
  subject_Kind s = "Group" /\ subject_Name s ∈ Groups u \/
  subject_Kind s = "ServiceAccount" /\
    let n := if decide (subject_Namespace s = "") then binding_namespace else subject_Namespace s in
    n <> "" /\ Username u = MakeUsername n (subject_Name s).

(** ** What is granted *)

Definition covered (x : string) (l : list string) : Prop := x ∈ l \/ "*" ∈ l.

Definition rule_allows (verb group resource : string) (r : PolicyRule) : Prop :=
  covered verb (Verbs r) /\ covered group (APIGroups r) /\ covered resource (Resources r).

Record ClusterRoleBinding := mkClusterRoleBinding {
  crb_RoleRef : RoleRef;
  crb_Subjects : list Subject
}.

(** The roles of the whole cluster, by name, and their bindings. *)
Record ClusterRbac := mkClusterRbac {
  ClusterRoles : string -> option (list PolicyRule);
  ClusterRoleBindings : list ClusterRoleBinding
}.

Section semantics.
Context {W : Type} `{!Cluster W} (c : ClusterRbac).

(** The rules a binding of a namespace refers to. *)
Definition role_rules (w : W) (n : string) (ref : RoleRef) : option (list PolicyRule) :=
  if decide (roleref_Kind ref = "Role")
  then Rules <$> stored KRole w (mkNN n (roleref_Name ref))
  else if decide (roleref_Kind ref = "ClusterRole") then ClusterRoles c (roleref_Name ref)
  else None.

Definition may_in_namespace (w : W) (u : UserInfo) (n verb group resource : string) : Prop :=
  exists bname binding rules,
    stored KRoleBinding w (mkNN n bname) = Some binding /\
    Exists (subject_is u n) (Subjects binding) /\
    role_rules w n (RoleRef_ binding) = Some rules /\
    Exists (rule_allows verb group resource) rules.

Definition may_in_cluster (u : UserInfo) (verb group resource : string) : Prop :=
  exists binding rules,
    binding ∈ ClusterRoleBindings c /\
    Exists (subject_is u "") (crb_Subjects binding) /\
    roleref_Kind (crb_RoleRef binding) = "ClusterRole" /\
    ClusterRoles c (roleref_Name (crb_RoleRef binding)) = Some rules /\
    Exists (rule_allows verb group resource) rules.

(** A request in a namespace is granted by a binding of the namespace or of the
    cluster. *)
Definition may (w : W) (u : UserInfo) (n verb group resource : string) : Prop :=
  may_in_namespace w u n verb group resource \/ may_in_cluster u verb group resource.
End semantics.

(** ** What the repository binds *)

(** [namespace] and [namePrefix] of [config/default/kustomization.yaml]; they go
    into the names of the objects and into the references to them. *)
Definition deploy_namespace : string := "operator-system".
Definition namePrefix : string := "operator-".

Definition controller_manager : Subject :=
  mkSubject "ServiceAccount" (namePrefix +:+ "controller-manager") deploy_namespace.

Definition metrics_auth_role : list PolicyRule :=
  [ mkPolicyRule ["authentication.k8s.io"] ["tokenreviews"] ["create"];
    mkPolicyRule ["authorization.k8s.io"] ["subjectaccessreviews"] ["create"] ].

Definition manager_rolebinding : ClusterRoleBinding :=
  mkClusterRoleBinding
    (mkRoleRef "rbac.authorization.k8s.io" "ClusterRole" (namePrefix +:+ "manager-role"))
    [controller_manager].

Definition metrics_auth_rolebinding : ClusterRoleBinding :=
  mkClusterRoleBinding
    (mkRoleRef "rbac.authorization.k8s.io" "ClusterRole" (namePrefix +:+ "metrics-auth-role"))
    [controller_manager].

(** A cluster with these cluster-wide bindings and no others. *)
Definition operator_rbac : ClusterRbac :=
  mkClusterRbac
    (fun name =>
       if decide (name = namePrefix +:+ "manager-role") then Some manager_role
       else if decide (name = namePrefix +:+ "metrics-auth-role") then Some metrics_auth_role
       else None)
    [manager_rolebinding; metrics_auth_rolebinding].

(** ** Who may act in the namespace of a tenant *)

(** What the role of a tenant says. *)
Definition tenant_action (verb group resource : string) : Prop :=
  group = "platform.platform.io" /\ resource = "inferenceservices" /\
    verb ∈ ["get"; "list"; "watch"; "create"; "update"; "patch"; "delete"] \/
  verb ∈ ["get"; "list"; "watch"] /\
    (group = "platform.platform.io" /\ resource = "models" \/
     group = "" /\ resource ∈ ["pods"; "services"; "configmaps"]).

Lemma covered_plain x l : bool_decide ("*" ∈ l) = false -> covered x l <-> x ∈ l.
Proof. intros Hl%bool_decide_eq_false. unfold covered. tauto. Qed.

Lemma tenant_rules_allow verb group resource :
  Exists (rule_allows verb group resource) tenant_rules <-> tenant_action verb group resource.
Proof.
  unfold tenant_rules, rule_allows, tenant_action. rewrite !Exists_cons, Exists_nil.
  cbn [Verbs APIGroups Resources]. rewrite !covered_plain by reflexivity.
  rewrite !(list_elem_of_singleton group), !(list_elem_of_singleton resource). tauto.
Qed.

(** A service account of a namespace, as a subject of a binding. *)
Lemma subject_is_account u n name namespace :
  namespace <> "" ->
  subject_is u n (mkSubject "ServiceAccount" name namespace) <->
  Username u = MakeUsername namespace name.
Proof.
  intros Hn. unfold subject_is. cbn [subject_Kind subject_Name subject_Namespace].
  rewrite decide_False by done. naive_solver.
Qed.

Lemma operator_rbac_grants u verb group resource :
  may_in_cluster operator_rbac u verb group resource <->
  Username u = MakeUsername "operator-system" "operator-controller-manager" /\
  Exists (rule_allows verb group resource) (manager_role ++ metrics_auth_role).
Proof.
  rewrite Exists_app. unfold may_in_cluster. split.
  - intros (b & rules & Hb & Hsub & _ & Hr & Hex).
    cbn [operator_rbac ClusterRoleBindings] in Hb. rewrite !elem_of_cons, elem_of_nil in Hb.
    destruct Hb as [-> |[-> |[]]]; apply Exists_cons in Hsub as [Hsub|Hsub%Exists_nil]; try done;
      apply subject_is_account in Hsub; try done; vm_compute in Hr; injection Hr as <-;
      (split; [exact Hsub|]); [by left|by right].
  - intros [Hu [Hex|Hex]]; [exists manager_rolebinding, manager_role
      |exists metrics_auth_rolebinding, metrics_auth_role];
      (split; [cbn [operator_rbac ClusterRoleBindings]; rewrite !elem_of_cons; auto|]);
      (split; [by constructor; apply subject_is_account|]);
      (split; [done|]); (split; [by vm_compute|done]).
Qed.

Section access.
Context `{L : K8sLib} {W : Type} `{!Cluster W}.

(** The tenant's binding is the only one of its namespace; its role does not let
    it create others. *)
Definition sole_binding (t : Tenant) (w : W) : Prop :=
  forall name b, stored KRoleBinding w (mkNN (tenant_name t) name) = Some b ->
  name = "tenant-workload-binding".

Lemma tenant_binding_grants c t w u verb group resource :
  provisioned t w -> sole_binding t w -> tenant_name t <> "" ->
  may_in_namespace c w u (tenant_name t) verb group resource <->
  Username u = MakeUsername (tenant_name t) "tenant-workload" /\ tenant_action verb group resource.
Proof.
  intros Hp Hs Hn. destruct (has_role _ _ Hp) as (role & Hrole & _ & Hrules).
  destruct (has_binding _ _ Hp) as (b & Hb & _ & Href & Hsub).
  assert (role_rules c w (tenant_name t) (RoleRef_ b) = Some tenant_rules) as Hrr
    by (unfold role_rules; rewrite Href; simpl; by rewrite Hrole, <- Hrules).
  rewrite <- tenant_rules_allow, <- (subject_is_account u (tenant_name t)) by done. split.
  - intros (bname & b' & rules & Hb' & Hsub' & Hr & Hex).
    rewrite (Hs _ _ Hb') in Hb'. replace b' with b in * by congruence.
    rewrite Hrr in Hr. injection Hr as <-. split; [|done].
    rewrite Hsub in Hsub'. by apply Exists_cons in Hsub' as [?|?%Exists_nil].
  - intros [Hu Hex]. exists "tenant-workload-binding", b, tenant_rules.
    split; [done|]. split; [rewrite Hsub; by constructor|done].
Qed.

End access.
