(* ===== verification/System.v ===== *)
(** * The whole operator, interleaved

    Any number of reconciles of the three controllers run at once against one
    API server, one request at a time and in any order, next to users and other
    controllers; a reconcile may stop at any point, as when the operator is
    restarted.  The invariants hold in every state this can reach. *)
From S2P Require Import Prelude.
From S2P Require Import ApiTypes.
From S2P Require Import K8sLib.
From S2P Require Import ApiClient.
From S2P Require Import Conditions.
From S2P Require Import Scheduling.
From S2P Require Import ModelController.
From S2P Require Import TenantController.
From S2P Require Import InferenceServiceController.

(** ** The transition system *)

Inductive Task :=
  | ReconcileTenant (now : Time) (req : NamespacedName)
  | ReconcileModel (now : Time) (req : NamespacedName)
  | ReconcileInferenceService (now : Time) (req : NamespacedName).

Definition program `{L : K8sLib} (t : Task) : Prog (Result * option error) :=
  match t with
  | ReconcileTenant now req => TenantController.Reconcile now req
  | ReconcileModel now req => ModelController.Reconcile now req
  | ReconcileInferenceService now req => InferenceServiceController.Reconcile now req
  end.

(** A reconcile under way: what it has asked and been answered, and the rest of
    its program. *)
Record Thread := mkThread {
  task : Task;
  past : list Event;
  rest : Prog (Result * option error)
}.

Record Sys (W : Type) := mkSys { cluster : W; threads : list Thread }.
Arguments mkSys {W} cluster threads.
Arguments cluster {W} s.
Arguments threads {W} s.

Section system.
Context `{L : K8sLib, !K8sLibLaws} {W : Type} `{!Cluster W, !ClusterLaws W}.

(** What everyone else does to the cluster. *)
Variable external : W -> W -> Prop.

Inductive step : Sys W -> Sys W -> Prop :=
  | step_start s t :
      step s (mkSys (cluster s) (threads s ++ [mkThread t [] (program t)]))
  | step_request w w' pre t ev r cont x post :
      handle r w = (x, w') ->
      step (mkSys w (pre ++ mkThread t ev (Call r cont) :: post))
           (mkSys w' (pre ++ mkThread t (ev ++ [Ev r x]) (cont x) :: post))
  | step_stop w pre th post :
      step (mkSys w (pre ++ th :: post)) (mkSys w (pre ++ post))
  | step_external w w' ths : external w w' -> step (mkSys w ths) (mkSys w' ths).

Inductive reachable (w0 : W) : Sys W -> Prop :=
  | reachable_init : reachable w0 (mkSys w0 [])
  | reachable_step s s' : reachable w0 s -> step s s' -> reachable w0 s'.

(** ** What holds of the stored objects *)

(** A Job of an InferenceService of the same name: in the control of it, with
    the queue of its namespace and a priority class of the platform. *)
Definition job_sound (nn : NamespacedName) (job : Job) : Prop :=
  exists isvc, key KInferenceService isvc = nn /\ controlled_by isvc (job_ObjectMeta job) /\
    GoMap_lookup (Labels (job_ObjectMeta job)) KueueQueueLabel = Some (localQueueName isvc) /\
    GoMap_lookup (Labels (job_ObjectMeta job)) KueuePriorityClassLabel =
      Some (PriorityClassForWorkloadClass (WorkloadClass (isvc_Spec isvc))).

(** A status no controller has written yet, or one a controller composed. *)
Definition tenant_coherent (st : TenantStatus) : Prop :=
  exists nsErr quotaErr saErr rbacErr npErr,
    tenant_reports nsErr quotaErr saErr rbacErr npErr st.
Definition model_coherent (st : ModelStatus) : Prop := exists verdict, reports verdict st.

Record consistent (w : W) : Prop := {
  jobs_sound nn job : stored KJob w nn = Some job -> job_sound nn job;
  tenants_coherent nn t : stored KTenant w nn = Some t ->
    tenant_Status t = mkTenantStatus [] "" \/ tenant_coherent (tenant_Status t);
  models_coherent nn m : stored KModel w nn = Some m ->
    model_Status m = mkModelStatus [] "" "" \/ model_coherent (model_Status m);
  isvcs_coherent nn isvc : stored KInferenceService w nn = Some isvc ->
    isvc_Status isvc = mkInferenceServiceStatus [] "" "" 0 0 \/
    isvc_coherent (isvc_Status isvc)
}.

(** The others neither write the status of the platform's resources nor
    create Jobs in the place of the operator's; they may create and delete
    everything else, change any spec, and change a Job but for its owner and
    its queueing labels (Kueue unsuspends it, its controller runs it). *)
Record well_behaved (w w' : W) : Prop := {
  follows_job nn job' : stored KJob w' nn = Some job' ->
    exists job, stored KJob w nn = Some job /\
      OwnerReferences (job_ObjectMeta job') = OwnerReferences (job_ObjectMeta job) /\
      GoMap_lookup (Labels (job_ObjectMeta job')) KueueQueueLabel =
        GoMap_lookup (Labels (job_ObjectMeta job)) KueueQueueLabel /\
      GoMap_lookup (Labels (job_ObjectMeta job')) KueuePriorityClassLabel =
        GoMap_lookup (Labels (job_ObjectMeta job)) KueuePriorityClassLabel;
  follows_tenant nn t' : stored KTenant w' nn = Some t' ->
    tenant_Status t' = mkTenantStatus [] "" \/
    exists t, stored KTenant w nn = Some t /\ tenant_Status t' = tenant_Status t;
  follows_model nn m' : stored KModel w' nn = Some m' ->
    model_Status m' = mkModelStatus [] "" "" \/
    exists m, stored KModel w nn = Some m /\ model_Status m' = model_Status m;
  follows_isvc nn isvc' : stored KInferenceService w' nn = Some isvc' ->
    isvc_Status isvc' = mkInferenceServiceStatus [] "" "" 0 0 \/
    exists isvc, stored KInferenceService w nn = Some isvc /\
                 isvc_Status isvc' = isvc_Status isvc
}.

Lemma well_behaved_consistent w w' : well_behaved w w' -> consistent w -> consistent w'.
Proof.
  intros [Hj Ht Hm Hi] [Cj Ct Cm Ci]. split.
  - intros nn job' Hs. destruct (Hj _ _ Hs) as (job & Hs' & Ho & Hq & Hp).
    destruct (Cj _ _ Hs') as (isvc & Hk & Hc & Hl). exists isvc. rewrite Hq, Hp.
    split; [done|]. split; [|done]. unfold controlled_by in *. by rewrite Ho.
  - intros nn t' Hs. destruct (Ht _ _ Hs) as [?|(t & Hs' & ->)]; [by left|eauto].
  - intros nn m' Hs. destruct (Hm _ _ Hs) as [?|(m & Hs' & ->)]; [by left|eauto].
  - intros nn i' Hs. destruct (Hi _ _ Hs) as [?|(i & Hs' & ->)]; [by left|eauto].
Qed.

(** ** What the controllers may do *)

Definition model_may (r : Req) : Prop :=
  match r with
  | Get KModel _ => True
  | StatusUpdate KModel m => model_coherent (model_Status m)
  | _ => False
  end.

Definition may (t : Task) (past : list Event) (r : Req) : Prop :=
  match t with
  | ReconcileTenant _ req => tenant_may req past r
  | ReconcileModel _ _ => model_may r
  | ReconcileInferenceService _ req => isvc_may req past r
  end.

Lemma model_wp now req :
  wp (fun _ r => model_may r) (fun _ _ => True) [] (ModelController.Reconcile now req).
Proof.
  unfold ModelController.Reconcile. wp_steps; try done.
  rewrite ModelController.model_updateStatus_unfold. wp_steps; try done.
  simpl. eexists. apply next_status_reports.
Qed.

Lemma program_wp t : wp (may t) (fun _ _ => True) [] (program t).
Proof.
  destruct t as [now req|now req|now req].
  - by apply (wp_mono (tenant_may req) (fun t _ => attempts_the_rest t)),
      TenantController.tenant_Reconcile_wp.
  - apply model_wp.
  - apply InferenceServiceController.isvc_Reconcile_wp.
Qed.

(** The reconciles under way keep to what they may do. *)
Definition thread_ok (th : Thread) : Prop :=
  wp (may (task th)) (fun _ _ => True) (past th) (rest th) /\ honest (past th).

Lemma thread_start t : thread_ok (mkThread t [] (program t)).
Proof. split; [apply program_wp|]. intros o o' Hin. by apply elem_of_nil in Hin. Qed.

(** The object and the response of a status update of an InferenceService. *)
Definition status_event (e : Event) : option (InferenceService * result InferenceService) :=
  match e with
  | Ev r x =>
      match r return Resp r -> option (InferenceService * result InferenceService) with
      | StatusUpdate k o =>
          match k return obj k -> result (obj k) ->
            option (InferenceService * result InferenceService) with
          | KInferenceService => fun o x => Some (o, x)
          | _ => fun _ _ => None
          end o
      | _ => fun _ => None
      end x
  end.

(** A server that keeps the laws is honest. *)
Lemma honest_step past r w x w' :
  handle r w = (x, w') -> honest past -> honest (past ++ [Ev r x]).
Proof.
  intros E Hh o o' [Hin|Hin%list_elem_of_singleton]%elem_of_app; [by apply Hh|].
  apply (f_equal status_event) in Hin. destruct r as [| | |[] o1|]; try done.
  injection Hin as -> <-.
  destruct (status_stored _ _ _ _ _ E) as (o0 & _ & (_ & _ & Hst) & _). done.
Qed.

Lemma thread_step t past r cont w x w' :
  handle r w = (x, w') -> thread_ok (mkThread t past (Call r cont)) ->
  may t past r /\ thread_ok (mkThread t (past ++ [Ev r x]) (cont x)).
Proof.
  intros E [[Hmay Hwp] Hh]. split; [done|]. split; [apply Hwp|]. by apply (honest_step _ _ _ _ _ E).
Qed.

(** ** The requests preserve the invariant *)

(** A write to any other kind. *)
Lemma consistent_frame w w' :
  (forall k nn, k = KJob \/ k = KTenant \/ k = KModel \/ k = KInferenceService ->
     stored k w' nn = stored k w nn) ->
  consistent w -> consistent w'.
Proof.
  intros Hf [Cj Ct Cm Ci]. split; intros nn o; rewrite Hf by auto;
    [apply Cj|apply Ct|apply Cm|apply Ci].
Qed.

(** Dispatches the kinds a write to [k] does not concern. *)
Ltac other_kinds E :=
  intros ? ? Hs; rewrite (stored_frame _ _ _ _ _ _ E) in Hs by done; eauto.

Lemma tenant_status_consistent t w x w' :
  handle (StatusUpdate KTenant t) w = (x, w') -> tenant_coherent (tenant_Status t) ->
  consistent w -> consistent w'.
Proof.
  intros E Hc [Cj Ct Cm Ci]. split; [other_kinds E| |other_kinds E|other_kinds E].
  intros nn t1 Hs.
  destruct (status_update_cases _ _ _ _ _ _ _ E Hs) as [Hs'|(t0 & _ & _ & _ & ->)]; eauto.
Qed.

Lemma model_status_consistent m w x w' :
  handle (StatusUpdate KModel m) w = (x, w') -> model_coherent (model_Status m) ->
  consistent w -> consistent w'.
Proof.
  intros E Hc [Cj Ct Cm Ci]. split; [other_kinds E|other_kinds E| |other_kinds E].
  intros nn m1 Hs.
  destruct (status_update_cases _ _ _ _ _ _ _ E Hs) as [Hs'|(m0 & _ & _ & _ & ->)]; eauto.
Qed.

Lemma isvc_status_consistent i w x w' :
  handle (StatusUpdate KInferenceService i) w = (x, w') -> isvc_coherent (isvc_Status i) ->
  consistent w -> consistent w'.
Proof.
  intros E Hc [Cj Ct Cm Ci]. split; [other_kinds E|other_kinds E|other_kinds E|].
  intros nn i1 Hs.
  destruct (status_update_cases _ _ _ _ _ _ _ E Hs) as [Hs'|(i0 & _ & _ & _ & ->)]; eauto.
Qed.

(** A Job the controller creates is sound, as stored. *)
Lemma created_job_sound isvc model job job' :
  job_for isvc model job -> accepted KJob job job' -> job_sound (key KJob job) job'.
Proof.
  intros Hj Hacc. pose proof (job_for_key _ _ _ Hj) as Hk.
  destruct (job_for_created isvc isvc model job job' eq_refl eq_refl Hj Hacc)
    as (job0 & Hb & _ & Hl & Hc).
  destruct (BuildJob_frame _ _ _ _ Hb) as (_ & Hl0 & _).
  exists isvc. split; [done|]. split; [done|]. rewrite Hl0 in Hl.
  split; (eapply lookup_weaken; [|exact Hl]); by vm_compute.
Qed.

Lemma job_create_consistent isvc model job w x w' :
  handle (Create KJob job) w = (x, w') -> job_for isvc model job ->
  consistent w -> consistent w'.
Proof.
  intros E Hj [Cj Ct Cm Ci]. split; [|other_kinds E|other_kinds E|other_kinds E].
  intros nn j1 Hs.
  destruct (create_cases _ _ _ _ _ _ _ E Hs) as [Hs'|[-> Hacc]]; [eauto|].
  by apply (created_job_sound isvc model).
Qed.

Lemma request_consistent t past r w x w' :
  handle r w = (x, w') -> may t past r -> honest past -> consistent w -> consistent w'.
Proof.
  intros E Hmay Hh Hw. destruct (is_write r) eqn:Hwr.
  2:{ replace w' with w; [done|]. destruct r; try done;
        [pose proof (get_pure k nn w) as Hp|pose proof (list_pure k ns w) as Hp];
        by rewrite E in Hp. }
  destruct t as [now req|now req|now req]; simpl in Hmay.
  - unfold tenant_may in Hmay. rewrite Hwr in Hmay. destruct Hmay as (t & _ & Hr).
    destruct r as [| | |[]|k o f]; try done.
    + destruct Hr as (_ & _ & Hc). by apply (tenant_status_consistent _ _ _ _ E).
    + apply (consistent_frame w); [|done]. destruct Hr as [Hk _].
      intros k' nn Hk'. apply (stored_frame _ _ _ _ k' nn E); [done|].
      by destruct k; destruct Hk' as [->|[->|[->| ->]]].
  - destruct r as [[]| | |[]|]; try done. by apply (model_status_consistent _ _ _ _ E).
  - destruct r as [[]| |[]|[]|]; try done.
    + destruct Hmay as (i & m & t & i1 & e & _ & _ & _ & _ & _ & _ & Hj & _).
      by apply (job_create_consistent _ _ _ _ _ _ E Hj).
    + destruct Hmay as (i & _ & _ & _ & _ & Hc). by apply (isvc_status_consistent _ _ _ _ E), Hw; apply Hc.
Qed.

(** ** The invariant *)

Hypothesis others_well_behaved : forall w w', external w w' -> well_behaved w w'.

Definition sys_ok (s : Sys W) : Prop :=
  consistent (cluster s) /\ Forall thread_ok (threads s).

Lemma step_ok s s' : step s s' -> sys_ok s -> sys_ok s'.
Proof.
  intros Hstep [Hw Hths]. destruct Hstep as [s t|w w' pre t ev r cont x post E|w pre th post|w w' ths Hx];
    simpl in *.
  - split; [done|]. apply Forall_app. split; [done|]. constructor; [apply thread_start|done].
  - apply Forall_app in Hths as [Hpre Hpost]. apply Forall_cons_iff in Hpost as [Hth Hpost].
    destruct (thread_step _ _ _ _ _ _ _ E Hth) as [Hmay Hth']. destruct Hth as [_ Hh].
    split; [by apply (request_consistent _ _ _ _ _ _ E Hmay Hh)|].
    apply Forall_app. split; [done|]. by constructor.
  - split; [done|]. apply Forall_app in Hths as [Hpre Hpost].
    apply Forall_cons_iff in Hpost as [_ Hpost]. by apply Forall_app.
  - split; [|done]. apply (well_behaved_consistent w); auto.
Qed.

Lemma reachable_ok w0 s : consistent w0 -> reachable w0 s -> sys_ok s.
Proof.
  intros H0 Hr. induction Hr as [|s s' _ IH Hstep]; [by split|]. by apply (step_ok s).
Qed.

(** C3: however the reconciles interleave, fail, stop half-way or are answered
    late, and whatever the others do within their part, the platform's
    objects stay consistent: the status of every Tenant, Model and
    InferenceService is one its controller composed (phase, Ready condition
    and the other conditions agree), and every Job belongs to an
    InferenceService of the same name and waits in the queue of its
    namespace under a priority class of the platform. *)
Theorem operator_consistent w0 s :
  consistent w0 -> reachable w0 s -> consistent (cluster s).
Proof. intros H0 Hr. by apply (reachable_ok w0 s H0 Hr). Qed.
End system.
