(* ===== verification/Convergence.v ===== *)
(** * Convergence

    Reconciles of any objects run one after the other, in any order and any
    number, against a server that is up.  Each keeps to the objects it owns, so
    what one of them has established the others keep; a tenant, a model and a
    service of it come up as soon as each has been reconciled, the service not
    before its model. *)
From S2P Require Import Prelude.
From S2P Require Import ApiTypes.
From S2P Require Import K8sLib.
From S2P Require Import ApiClient.
From S2P Require Import Conditions.
From S2P Require Import Priority.
From S2P Require Import Scheduling.
From S2P Require Import ModelController.
From S2P Require Import TenantController.
From S2P Require Import InferenceServiceController.
From S2P Require Import Progress.
From S2P Require Import System.

Abbreviation ISVC := KInferenceService.

(** ** What a reconcile owns *)

(** The objects a reconcile may write. *)
Definition owns (t : Task) (k : Kind) (nn : NamespacedName) : Prop :=
  match t with
  | ReconcileTenant _ req =>
      k = KTenant /\ nn = req \/
      exists t, key KTenant t = req /\ tenant_object t k = Some nn
  | ReconcileModel _ req => k = KModel /\ nn = req
  | ReconcileInferenceService _ req => (k = ISVC \/ k = KJob) /\ nn = req
  end.

(** Tenants are cluster-scoped: their keys have no namespace. *)
Definition scoped (t : Task) : Prop :=
  match t with ReconcileTenant _ req => nn_Namespace req = "" | _ => True end.

(** The reconcile that writes the platform's objects of a kind. *)
Definition task_of (k : Kind) (nn : NamespacedName) (now : Time) : Task :=
  match k with
  | KTenant => ReconcileTenant now nn
  | KModel => ReconcileModel now nn
  | _ => ReconcileInferenceService now nn
  end.

(** The kinds with a controller. *)
Definition primary (k : Kind) : Prop := k = KTenant \/ k = KModel \/ k = ISVC.

(** The server answers with the object that was asked for. *)
Definition keyed (e : Event) : Prop :=
  match e with
  | Ev r x =>
      match r return Resp r -> Prop with
      | Get k nn => fun x => match x with Ok o => key k o = nn | Err _ => True end
      | StatusUpdate k o => fun x => match x with Ok o' => key k o' = key k o | Err _ => True end
      | _ => fun _ => True
      end x
  end.

(** Then a reconcile writes what it owns only. *)
Definition owned_request (t : Task) (past : list Event) (r : Req) : Prop :=
  Forall keyed past -> is_write r = true -> owns t (req_kind r) (req_key r).

Section ownership.
Context `{L : K8sLib, !K8sLibLaws}.

Lemma tenant_owned_wp now req :
  wp (owned_request (ReconcileTenant now req)) (fun _ _ => True) []
    (TenantController.Reconcile now req).
Proof.
  tenant_steps; try done; intros Hpast _; apply Forall_cons_iff in Hpast as [Ht _];
    first [by left | right; eexists; split; [exact Ht|done]].
Qed.

Lemma model_owned_wp now req :
  wp (owned_request (ReconcileModel now req)) (fun _ _ => True) []
    (ModelController.Reconcile now req).
Proof.
  unfold ModelController.Reconcile. apply wp_bind, wp_call; [by intros ?|]. intros [m|e]; [|done].
  pose proof (verifyArtifact_verdict m) as (_ & _ & Hm & _). destruct (verifyArtifact m) as [m' v].
  rewrite ModelController.model_updateStatus_unfold. wp_steps; try done.
  intros Hpast _. apply Forall_cons_iff in Hpast as [Hk _]. split; [done|].
  simpl in *. unfold key in *. simpl in *. by rewrite Hm.
Qed.

Lemma with_outcomes_key now isvc derived e1 e2 e3 e4 :
  key ISVC (with_outcomes now isvc derived e1 e2 e3 e4) = key ISVC isvc.
Proof. done. Qed.
Lemma with_workload_key now isvc jobErr :
  key ISVC (with_workload now isvc jobErr) = key ISVC isvc.
Proof. by destruct jobErr. Qed.

Lemma isvc_owned_wp now req :
  wp (owned_request (ReconcileInferenceService now req)) (fun _ _ => True) []
    (InferenceServiceController.Reconcile now req).
Proof.
  isvc_steps; try done; intros Hpast _; rewrite !Forall_cons_iff in Hpast; unpack;
    repeat match goal with H : job_for _ _ _ |- _ => apply job_for_key in H end;
    simpl in *; rewrite ?with_outcomes_key, ?with_workload_key in *;
    (split; [by auto|]); congruence.
Qed.

Lemma program_owned_wp t : wp (owned_request t) (fun _ _ => True) [] (program t).
Proof. destruct t; [apply tenant_owned_wp|apply model_owned_wp|apply isvc_owned_wp]. Qed.
End ownership.

(** ** One after the other *)

(** A reconcile, run to its end; a sequence of them. *)
Definition run_task `{L : K8sLib} {W} `{!Cluster W} (t : Task) (w : W) : W := final (program t) w.
Fixpoint run_all `{L : K8sLib} {W} `{!Cluster W} (ts : list Task) (w : W) : W :=
  match ts with
  | [] => w
  | t :: ts => run_all ts (run_task t w)
  end.

Section frame.
Context `{L : K8sLib, !K8sLibLaws} {W : Type} `{!Cluster W, !ClusterLaws W}.

Lemma run_all_app ts1 ts2 (w : W) : run_all (ts1 ++ ts2) w = run_all ts2 (run_all ts1 w).
Proof. revert w. induction ts1 as [|t ts1 IH]; intros w; [done|]. apply IH. Qed.

Lemma handle_keyed r (w : W) x w' : handle r w = (x, w') -> keyed (Ev r x).
Proof.
  intros E. destruct r as [k nn| | |k o|]; try done; destruct x as [o'|]; try done; simpl.
  - apply (stored_key k w). pose proof (get_ok k nn w o') as Hg. rewrite E in Hg. by apply Hg.
  - destruct (status_stored _ _ _ _ _ E) as (_ & _ & _ & Hs). by apply stored_key in Hs.
Qed.

Lemma run_owned {A} t (p : Prog A) Q past (w : W) :
  wp (owned_request t) Q past p -> Forall keyed past ->
  Forall (fun e => is_write (ev_req e) = true -> owns t (req_kind (ev_req e)) (req_key (ev_req e)))
    (events p w).
Proof.
  unfold events. revert past w. induction p as [a| |r cont IH]; intros past w Hwp Hk; simpl;
    [constructor..|].
  destruct Hwp as [Hr Hwp]. destruct (handle r w) as [x w1] eqn:E.
  specialize (IH x (past ++ [Ev r x]) w1 (Hwp x)).
  destruct (run (cont x) w1) as [[tr o] w2]. constructor; [by apply Hr|].
  apply IH, Forall_app. split; [done|]. constructor; [|done]. by apply (handle_keyed _ w x w1).
Qed.

(** What a reconcile does not own stays as it is. *)
Lemma task_frame t (w : W) k nn : ~ owns t k nn -> stored k (run_task t w) nn = stored k w nn.
Proof.
  intros Hn. apply run_frame. pose proof (run_owned t _ _ [] w (program_owned_wp t)) as Ho.
  eapply List.Forall_impl; [|by apply Ho]. simpl. intros e He Hw Heq. injection Heq as -> ->.
  by apply Hn, He.
Qed.
End frame.

(** ** A tenant, a model and a service *)

Section platform.
Context `{L : K8sLib, !K8sLibLaws} {W : Type}
  `{!Cluster W, !ClusterLaws W, !ApiClient.Available W}.

Variables (t : Tenant) (m : Model) (isvc : InferenceService).

(** The three objects, with whatever status. *)
Record declared (w : W) : Prop := {
  declared_tenant : exists t', stored KTenant w (key KTenant t) = Some t' /\
    tenant_Spec t' = tenant_Spec t;
  declared_model : exists m', stored KModel w (key KModel m) = Some m' /\
    model_Spec m' = model_Spec m;
  declared_isvc : exists i', stored ISVC w (key ISVC isvc) = Some i' /\
    isvc_Spec i' = isvc_Spec isvc /\ same_meta (isvc_ObjectMeta isvc) (isvc_ObjectMeta i')
}.

(** The Model is reported as verified. *)
Definition model_up (w : W) : Prop :=
  exists m', stored KModel w (key KModel m) = Some m' /\ reports true (model_Status m').

(** The service is Ready with its priority, and reports its Job. *)
Definition service_up (w : W) : Prop :=
  exists i', stored ISVC w (key ISVC isvc) = Some i' /\ isvc_Phase (isvc_Status i') = "Ready" /\
    DerivedPriority (isvc_Status i') =
      Calculate (Default (tenant_Priority (tenant_Spec t)))
        (WorkloadClass (isvc_Spec isvc)) (Priority (isvc_Spec isvc)) /\
    workload_reported None (isvc_Status i') /\
    is_Some (stored KJob w (key ISVC isvc)).

(** The Job of the service is the one that was there, or one made for it. *)
Definition job_ours (w0 w : W) : Prop :=
  stored KJob w (key ISVC isvc) = stored KJob w0 (key ISVC isvc) \/
  exists job m', stored KJob w (key ISVC isvc) = Some job /\
    model_Spec m' = model_Spec m /\ created_for isvc (Some m') job.

Variable hard : ResourceList.
Hypothesis quota_built : buildQuotaResourceList (tenant_ResourceQuota (tenant_Spec t)) = Ok hard.
Hypothesis model_verifies : verified m = true.
Hypothesis known_profile : profile_known isvc = true.
Hypothesis in_tenant : Namespace_ (isvc_ObjectMeta isvc) = tenant_name t.
Hypothesis of_model :
  mkNN (Namespace_ (isvc_ObjectMeta isvc)) (isvc_Model (isvc_Spec isvc)) = key KModel m.
Hypothesis cluster_scoped : Namespace_ (tenant_ObjectMeta t) = "".

(** *** Tenants *)

Lemma provisioned_same t' (w : W) :
  key KTenant t' = key KTenant t -> tenant_Spec t' = tenant_Spec t ->
  provisioned t' w -> provisioned t w.
Proof.
  intros Hk Hs. assert (tenant_name t' = tenant_name t) as Hn
    by (unfold tenant_name; unfold key, key_of in Hk; simpl in Hk; congruence).
  intros []. split; unfold isolation_spec in *; rewrite <- ?Hn, <- ?Hs; done.
Qed.

Lemma tenant_task_up now (w : W) :
  declared w -> provisioned t (run_task (ReconcileTenant now (key KTenant t)) w).
Proof.
  intros [(t' & Ht & Hs) _ _].
  assert (buildQuotaResourceList (tenant_ResourceQuota (tenant_Spec t')) = Ok hard) as Hq
    by (by rewrite Hs).
  destruct (TenantController.tenant_Reconcile_stored now _ _ _ (tenant_progress _ _ _ _ _ Ht Hq))
    as [_ Hst]. rewrite Ht in Hst. destruct Hst as [Hp _].
  apply (provisioned_same t'); [by apply stored_key in Ht|done|done].
Qed.

(** Another tenant's objects are elsewhere. *)
Lemma tenant_objects_apart u k nn :
  scoped u -> (forall now, u <> ReconcileTenant now (key KTenant t)) ->
  tenant_object t k = Some nn -> ~ owns u k nn.
Proof.
  intros Hsc Hu Ho. destruct u as [now req|now req|now req]; simpl in *.
  - intros [[-> _]|(t' & Hk & Ho')]; [done|]. apply (Hu now). f_equal.
    assert (tenant_name t' = tenant_name t) as Hn by (destruct k; simplify_eq/=; congruence).
    subst req. unfold key, key_of in *. simpl in *. rewrite cluster_scoped. f_equal; done.
  - intros [-> _]. done.
  - intros [[-> | ->] _]; done.
Qed.

Lemma task_of_dec u k nn :
  (exists now, u = task_of k nn now) \/ (forall now, u <> task_of k nn now).
Proof.
  destruct u as [now req|now req|now req]; destruct (decide (req = nn)) as [->|Hne];
    destruct k; first [by left; eexists | by right; intros ? [=]].
Qed.

Lemma provisioned_kept u (w : W) :
  scoped u -> declared w -> provisioned t w -> provisioned t (run_task u w).
Proof.
  intros Hsc Hd Hp. destruct (task_of_dec u KTenant (key KTenant t)) as [[now ->]|Hu];
    [by apply tenant_task_up|].
  destruct Hp; split; rewrite task_frame; try done;
    by apply (tenant_objects_apart _ _ _ Hsc Hu).
Qed.

(** *** Models *)

Lemma model_task now (w : W) m' :
  stored KModel w (key KModel m) = Some m' -> model_Spec m' = model_Spec m ->
  exists m2, stored KModel (run_task (ReconcileModel now (key KModel m)) w) (key KModel m) = Some m2 /\
    reports true (model_Status m2) /\ model_Spec m2 = model_Spec m.
Proof.
  intros Hm Hs. destruct (ModelController.model_Reconcile_stored now _ _ _ (model_progress _ _ _ _ Hm))
    as [_ Hst]. rewrite Hm in Hst. destruct Hst as (m2 & H2 & Hr & Hs2 & _).
  exists m2. split; [done|]. split; [|congruence].
  assert (verified m' = true) as Hv by (unfold verified in *; by rewrite Hs). by rewrite Hv in Hr.
Qed.

Lemma model_task_up now (w : W) :
  declared w -> model_up (run_task (ReconcileModel now (key KModel m)) w).
Proof.
  intros [_ (m' & Hm & Hs) _]. destruct (model_task now w m' Hm Hs) as (m2 & ? & ? & _). by exists m2.
Qed.

(** Only its own reconcile writes a Tenant, a Model or an InferenceService. *)
Lemma not_owned u k nn :
  k = KTenant \/ k = KModel \/ k = ISVC \/ k = KJob ->
  (forall now, u <> task_of k nn now) -> ~ owns u k nn.
Proof.
  intros Hk Hu Ho. destruct u as [now req|now req|now req]; simpl in Ho.
  - destruct Ho as [[-> ->]|(t' & _ & Ho)]; [by apply (Hu now)|].
    by destruct Hk as [-> |[-> |[-> | ->]]].
  - destruct Ho as [-> ->]. by apply (Hu now).
  - destruct Ho as [[-> | ->] ->]; by apply (Hu now).
Qed.

Lemma model_up_kept u (w : W) : declared w -> model_up w -> model_up (run_task u w).
Proof.
  intros Hd Hm. destruct (task_of_dec u KModel (key KModel m)) as [[now ->]|Hu];
    [by apply model_task_up|].
  destruct Hm as (m' & Hm & Hr). exists m'. rewrite task_frame; [done|]. by apply not_owned; auto.
Qed.

(** *** Services *)

Lemma created_for_same i model job :
  isvc_Spec i = isvc_Spec isvc -> same_meta (isvc_ObjectMeta isvc) (isvc_ObjectMeta i) ->
  created_for i model job -> created_for isvc model job.
Proof.
  intros Hs Hm (job0 & Hb & Hj & Hl & (ref & Href & Hctl & Hrt)).
  pose proof Hm as Hm'. unfold same_meta in Hm'. injection Hm' as Hname Hns Huid _ _ _ _.
  assert (localQueueName i = localQueueName isvc) as Hq
    by (unfold localQueueName; by rewrite Hs, Hns).
  rewrite Hq, (BuildJob_same _ _ _ _ Hs Hm) in Hb. exists job0. do 3 (split; [done|]).
  exists ref. split; [done|]. split; [done|]. unfold refers_to in *. by rewrite Hname, Huid.
Qed.

(** Its dependencies are the two other objects. *)
Lemma isvc_depends (w : W) i t' m' :
  isvc_Spec i = isvc_Spec isvc -> same_meta (isvc_ObjectMeta isvc) (isvc_ObjectMeta i) ->
  stored KTenant w (key KTenant t) = Some t' -> stored KModel w (key KModel m) = Some m' ->
  tenant_of w i = Some t' /\ model_of w i = Some m'.
Proof.
  intros Hs Hm Ht Hmo. unfold same_meta in Hm. injection Hm as _ Hns _ _ _ _ _.
  unfold tenant_of, model_of. rewrite <- Hns, Hs, of_model, in_tenant.
  unfold key, key_of in Ht. simpl in Ht. by rewrite cluster_scoped in Ht.
Qed.

(** What a reconcile of the service leaves, given the three objects. *)
Lemma isvc_task now (w : W) :
  declared w ->
  let w' := run_task (ReconcileInferenceService now (key ISVC isvc)) w in
  (exists i', stored ISVC w' (key ISVC isvc) = Some i' /\ isvc_Spec i' = isvc_Spec isvc /\
     same_meta (isvc_ObjectMeta isvc) (isvc_ObjectMeta i')) /\
  (model_up w -> service_up w') /\ job_ours w w'.
Proof.
  intros [(t' & Ht & Hts) (m' & Hm & Hms) (i & Hi & Hs & Hmeta)] w'.
  destruct (isvc_progress now _ _ _ Hi) as [res Hres].
  destruct (isvc_Reconcile_stored _ _ _ _ _ Hi Hres)
    as (_ & i' & Hi' & Hs' & Hmeta' & Hdue & Hframe & Hjob).
  change (final _ w) with w' in *.
  destruct (isvc_depends w i t' m' Hs Hmeta Ht Hm) as [Hto Hmo]. split; [|split].
  - exists i'. split; [done|]. split; [congruence|]. unfold same_meta in *. congruence.
  - intros (m2 & Hm2 & Hrep). replace m2 with m' in * by congruence.
    assert (profile_known i = true) as Hp by (unfold profile_known in *; by rewrite Hs).
    destruct (bring_up_deps w i t' m' Hto Hmo Hrep Hp) as (Hdeps & Hd & _).
    destruct (Hjob Hdeps) as [Hwl Hj]. unfold status_due in Hdue.
    rewrite Hdeps, Hd, Hts, Hs in Hdue. destruct Hdue as (Hph & Hder & _ & _).
    exists i'. split_and!; try done.
    destruct (stored KJob w _); [by eexists|]. destruct Hj as (job & Hj & _). by eexists.
  - destruct (deps_ready w i) eqn:Hdeps; [|left; apply Hframe; auto].
    destruct (Hjob eq_refl) as [_ Hj]. unfold job_ours.
    destruct (stored KJob w (key ISVC isvc)) as [job|]; [by left|right].
    destruct Hj as (job & Hj & Hc). exists job, m'. split; [done|]. split; [done|].
    rewrite Hmo in Hc. by apply (created_for_same i).
Qed.

Lemma service_up_kept u (w : W) :
  declared w -> model_up w -> service_up w -> service_up (run_task u w).
Proof.
  intros Hd Hm Hs. destruct (task_of_dec u ISVC (key ISVC isvc)) as [[now ->]|Hu];
    [by apply isvc_task|].
  destruct Hs as (i' & Hi & Hs). exists i'. rewrite !task_frame; [done|apply not_owned; auto..].
Qed.

Lemma job_ours_kept u (w0 w : W) : declared w -> job_ours w0 w -> job_ours w0 (run_task u w).
Proof.
  intros Hd Hj. destruct (task_of_dec u ISVC (key ISVC isvc)) as [[now ->]|Hu].
  - destruct (isvc_task now w Hd) as (_ & _ & [Hsame|Hnew]); [|by right].
    unfold job_ours in *. cbn [task_of]. by rewrite Hsame.
  - unfold job_ours. rewrite task_frame; [done|apply not_owned; auto].
Qed.

Lemma declared_kept u (w : W) : declared w -> declared (run_task u w).
Proof.
  intros Hd. pose proof Hd as [Ht Hm Hi]. split.
  - destruct (task_of_dec u KTenant (key KTenant t)) as [[now ->]|Hu];
      [|rewrite task_frame; [done|apply not_owned; auto]].
    destruct Ht as (t' & Ht & Hs).
    assert (buildQuotaResourceList (tenant_ResourceQuota (tenant_Spec t')) = Ok hard) as Hq
      by (by rewrite Hs).
    destruct (TenantController.tenant_Reconcile_stored now _ _ _
                (tenant_progress _ _ _ _ _ Ht Hq)) as [_ Hst].
    rewrite Ht in Hst. destruct Hst as (_ & t2 & Ht2 & _ & Hs2). exists t2.
    split; [done|congruence].
  - destruct (task_of_dec u KModel (key KModel m)) as [[now ->]|Hu];
      [|rewrite task_frame; [done|apply not_owned; auto]].
    destruct Hm as (m' & Hm & Hs). destruct (model_task now w m' Hm Hs) as (m2 & ? & _ & ?).
    by exists m2.
  - destruct (task_of_dec u ISVC (key ISVC isvc)) as [[now ->]|Hu];
      [|rewrite task_frame; [done|apply not_owned; auto]].
    by apply isvc_task.
Qed.

(** *** Sequences *)

(** What every reconcile keeps, a sequence keeps. *)
Lemma run_all_invariant (P : W -> Prop) ts (w : W) :
  (forall u w, u ∈ ts -> declared w -> P w -> P (run_task u w)) ->
  declared w -> P w -> P (run_all ts w).
Proof.
  revert w. induction ts as [|u ts IH]; intros w HP Hd Hw; [done|]. simpl. apply IH.
  - intros u' w' Hu'. apply HP. by apply list_elem_of_further.
  - by apply declared_kept.
  - apply HP; [apply list_elem_of_here|done|done].
Qed.

Lemma run_all_declared ts (w : W) : declared w -> declared (run_all ts w).
Proof. intros Hd. apply run_all_invariant; [|done|done]. intros u w' _ _. apply declared_kept. Qed.

Lemma tenant_converges ts now (w : W) :
  Forall scoped ts -> declared w -> ReconcileTenant now (key KTenant t) ∈ ts ->
  provisioned t (run_all ts w).
Proof.
  intros Hsc Hd (ts1 & ts2 & ->)%list_elem_of_split. rewrite run_all_app. simpl.
  apply Forall_app in Hsc as [_ [_ Hsc]%Forall_cons_iff].
  apply run_all_invariant.
  - intros u w' Hu. apply provisioned_kept. by eapply Forall_forall in Hsc; [|apply list_elem_of_In].
  - by apply declared_kept, run_all_declared.
  - by apply tenant_task_up, run_all_declared.
Qed.

Lemma service_converges ts1 now1 ts2 now2 ts3 (w : W) :
  declared w ->
  service_up (run_all (ts1 ++ ReconcileModel now1 (key KModel m) :: ts2 ++
                       ReconcileInferenceService now2 (key ISVC isvc) :: ts3) w).
Proof.
  intros Hd. rewrite run_all_app. simpl. rewrite run_all_app. simpl.
  set (w1 := run_all ts2 _).
  assert (declared w1) as Hd1 by (by apply run_all_declared, declared_kept, run_all_declared).
  assert (model_up w1) as Hm1.
  { apply run_all_invariant; [intros u w' _; apply model_up_kept| |].
    - by apply declared_kept, run_all_declared.
    - by apply model_task_up, run_all_declared. }
  apply (run_all_invariant (fun w => model_up w /\ service_up w)).
  - intros u w' _ Hd' [? ?]. split; [by apply model_up_kept|by apply service_up_kept].
  - by apply declared_kept.
  - split; [by apply model_up_kept|]. by apply (isvc_task now2 w1).
Qed.
End platform.

Section convergence.
Context `{L : K8sLib, !K8sLibLaws} {W : Type}
  `{!Cluster W, !ClusterLaws W, !ApiClient.Available W}.

(** The three objects, from the keys they are stored under. *)
Lemma three_declared ns mname name (w : W) t m isvc :
  stored KTenant w (mkNN "" ns) = Some t -> stored KModel w (mkNN ns mname) = Some m ->
  stored ISVC w (mkNN ns name) = Some isvc -> isvc_Model (isvc_Spec isvc) = mname ->
  declared t m isvc w /\ Namespace_ (isvc_ObjectMeta isvc) = tenant_name t /\
  mkNN (Namespace_ (isvc_ObjectMeta isvc)) (isvc_Model (isvc_Spec isvc)) = key KModel m /\
  Namespace_ (tenant_ObjectMeta t) = "" /\
  key KTenant t = mkNN "" ns /\ key KModel m = mkNN ns mname /\ key ISVC isvc = mkNN ns name.
Proof.
  intros Ht Hm Hi Hmn. pose proof (stored_key _ _ _ _ Ht) as Kt.
  pose proof (stored_key _ _ _ _ Hm) as Km. pose proof (stored_key _ _ _ _ Hi) as Ki.
  split.
  { split; [exists t|exists m|exists isvc]; by rewrite ?Kt, ?Km, ?Ki. }
  pose proof Kt as Kt'. pose proof Ki as Ki'. unfold key, key_of in Kt', Ki'.
  injection Kt' as Hsco Hn. injection Ki' as Hns _. unfold tenant_name. simpl in *.
  split_and!; congruence.
Qed.

(** From a Tenant whose quota parses, a Model whose artifact verifies and
    an InferenceService that refers to it under a known profile, any sequence
    of reconciles, of these and of other objects, in any order and with
    repetitions, brings the cluster to the state the platform is for: once the
    Tenant was reconciled its objects are provisioned, and once the service was
    reconciled after its Model, it is Ready with the priority derived from the
    tenant's and has a Job of its own; whatever is reconciled afterwards, they
    stay so.  A Job that was not there before was made for this service and
    this Model. *)
Theorem platform_brings_up ns mname name (w : W) t m isvc hard ts :
  stored KTenant w (mkNN "" ns) = Some t ->
  buildQuotaResourceList (tenant_ResourceQuota (tenant_Spec t)) = Ok hard ->
  stored KModel w (mkNN ns mname) = Some m -> verified m = true ->
  stored ISVC w (mkNN ns name) = Some isvc -> isvc_Model (isvc_Spec isvc) = mname ->
  profile_known isvc = true ->
  Forall scoped ts ->
  let w' := run_all ts w in
  (forall now, ReconcileTenant now (mkNN "" ns) ∈ ts -> provisioned t w') /\
  (forall ts1 now1 ts2 now2 ts3,
     ts = ts1 ++ ReconcileModel now1 (mkNN ns mname) :: ts2 ++
          ReconcileInferenceService now2 (mkNN ns name) :: ts3 ->
     service_up t isvc w') /\
  job_ours m isvc w w'.
Proof.
  intros Ht Hq Hm Hv Hi Hmn Hp Hsc w'.
  destruct (three_declared _ _ _ _ _ _ _ Ht Hm Hi Hmn) as (Hd & Hin & Hof & Hsco & Kt & Km & Ki).
  split; [|split].
  - intros now Hin'. rewrite <- Kt in Hin'. by eapply tenant_converges.
  - intros ts1 now1 ts2 now2 ts3 ->. unfold w'. rewrite <- Km, <- Ki. by eapply service_converges.
  - apply (run_all_invariant t m isvc hard); try done; [|by left].
    intros u w1 _ Hd1. by eapply job_ours_kept.
Qed.
End convergence.
