(* ===== verification/Interference.v ===== *)
(** * Programs under interference

    A program of requests against a server that others change in between: a
    rely-guarantee logic.  [under p Q w] says that, started in [w], the program
    never panics, that each of its requests keeps to the guarantee, and that it
    ends with [Q], whatever the others do within the rely before, between and
    after its requests. *)
From S2P Require Import Prelude.
From S2P Require Import ApiTypes.
From S2P Require Import ApiClient.

Section interference.
Context {W : Type} `{!Cluster W, !ClusterLaws W}.

(** What the others may do, and what the program itself may do. *)
Variables rely guarantee : W -> W -> Prop.

Fixpoint under {A} (p : Prog A) (Q : A -> W -> Prop) (w : W) : Prop :=
  match p with
  | Ret a => forall w', rely w w' -> Q a w'
  | Panic => False
  | Call r cont => forall w', rely w w' ->
      guarantee w' (handle r w').2 /\ under (cont (handle r w').1) Q (handle r w').2
  end.

Context `{!PreOrder rely, !Reflexive guarantee}.

Lemma under_stable {A} (p : Prog A) Q w w' : rely w w' -> under p Q w -> under p Q w'.
Proof.
  intros Hr. destruct p as [a| |r cont]; simpl; [|done|]; intros H w2 Hw2; apply H; by etransitivity.
Qed.

Lemma under_mono {A} (p : Prog A) (Q Q' : A -> W -> Prop) w :
  (forall a w, Q a w -> Q' a w) -> under p Q w -> under p Q' w.
Proof.
  intros HQ. revert w. induction p as [a| |r cont IH]; intros w; simpl; [|done|]; intros H w' Hw'.
  - by apply HQ, H.
  - destruct (H w' Hw') as [Hg Hu]. split; [done|]. by apply IH.
Qed.

Lemma under_ret {A} (a : A) (Q : A -> W -> Prop) w :
  (forall w', rely w w' -> Q a w') -> under (Ret a) Q w.
Proof. done. Qed.

Lemma under_bind {A B} (p : Prog A) (f : A -> Prog B) (Q : B -> W -> Prop) w :
  under p (fun a w' => under (f a) Q w') w -> under (bind p f) Q w.
Proof.
  revert w. induction p as [a| |r cont IH]; intros w; simpl; [|done|].
  - intros H. by apply H.
  - intros H w' Hw'. destruct (H w' Hw') as [Hg Hu]. split; [done|]. by apply IH.
Qed.

(** One request: the others act before it and after it. *)
Lemma under_call (r : Req) (Q : Resp r -> W -> Prop) w :
  (forall w' x w1, rely w w' -> handle r w' = (x, w1) ->
     guarantee w' w1 /\ forall w2, rely w1 w2 -> Q x w2) ->
  under (call r) Q w.
Proof.
  intros H. unfold call. simpl. intros w' Hw'. destruct (handle r w') as [x w1] eqn:E.
  by apply (H w').
Qed.

Lemma under_Get k nn (Q : result (obj k) -> W -> Prop) w :
  (forall w', rely w w' -> forall w2, rely w' w2 -> Q (read k nn w') w2) ->
  under (call (Get k nn)) Q w.
Proof.
  intros H. apply under_call. intros w' x w1 Hw' E.
  pose proof (get_pure k nn w') as Hp. specialize (H w' Hw'). unfold read in H.
  rewrite E in Hp, H. simpl in Hp, H. subst w1. done.
Qed.
End interference.

(** A program that promises more also promises less. *)
Lemma under_weaken {W} `{!Cluster W} (rely g g' : W -> W -> Prop) {A} (p : Prog A) Q w :
  (forall w w', g w w' -> g' w w') -> under rely g p Q w -> under rely g' p Q w.
Proof.
  intros Hg. revert w. induction p as [a| |r cont IH]; intros w; simpl; [done..|].
  intros Hu w' Hw'. destruct (Hu w' Hw') as [HG Hc]. split; [by apply Hg|]. by apply IH.
Qed.

(** The first part of a program, and the rest. *)
Ltac under_bind := apply under_bind; [apply _|].
