(* ===== verification/Overlap.v ===== *)
(** * Overlapping reconciles

    Reconciles that run at the same time, one request at a time in any order,
    against a server that is up, next to others that leave the platform's
    objects alone.  As controller-runtime promises, no two reconciles of one
    object run at once.  Each still ends without error, in at most eight
    requests, and the platform comes up as when they run one after the other. *)
From S2P Require Import Prelude.
From S2P Require Import ApiTypes.
From S2P Require Import K8sLib.
From S2P Require Import ApiClient.
From S2P Require Import Conditions.
From S2P Require Import Priority.
From S2P Require Import ResourceProfile.
From S2P Require Import Scheduling.
From S2P Require Import ModelController.
From S2P Require Import TenantController.
From S2P Require Import InferenceServiceController.
From S2P Require Import Progress.
From S2P Require Import System.
From S2P Require Import Convergence.
From S2P Require Import Interference.

(** ** What a reconcile is about *)

(** The object a reconcile is a reconcile of. *)
Definition subject (u : Task) : Kind * NamespacedName :=
  match u with
  | ReconcileTenant _ req => (KTenant, req)
  | ReconcileModel _ req => (KModel, req)
  | ReconcileInferenceService _ req => (ISVC, req)
  end.

Lemma subject_task_of k nn now :
  k = KTenant \/ k = KModel \/ k = ISVC -> subject (task_of k nn now) = (k, nn).
Proof. by intros [-> |[-> | ->]]. Qed.

(** Reconciles of different objects own different objects. *)
Lemma owns_disjoint u v k nn :
  scoped u -> scoped v -> subject u <> subject v -> owns u k nn -> ~ owns v k nn.
Proof.
  intros Su Sv Hne Hu Hv.
  destruct u as [now req|now req|now req], v as [now' req'|now' req'|now' req']; simpl in *;
    repeat match goal with
    | H : _ /\ _ |- _ => destruct H
    | H : exists _, _ |- _ => destruct H
    | H : _ \/ _ |- _ => destruct H
    end; subst; try done.
  apply Hne. f_equal. unfold key, key_of in *. simpl in *. rewrite Su, Sv. f_equal.
  destruct k; simplify_eq/=; unfold tenant_name in *; congruence.
Qed.

Section environment.
Context `{L : K8sLib, !K8sLibLaws} {W : Type} `{!Cluster W, !ClusterLaws W}.

(** The object is as it was; of a Job only that there is one, for others run
    it and report on it. *)
Definition same (k : Kind) (nn : NamespacedName) (w w' : W) : Prop :=
  if decide (k = KJob) then is_Some (stored k w nn) <-> is_Some (stored k w' nn)
  else stored k w' nn = stored k w nn.

Lemma same_eq k nn w w' : stored k w' nn = stored k w nn -> same k nn w w'.
Proof. intros E. unfold same. rewrite E. by case_decide. Qed.

Lemma same_refl k nn w : same k nn w w.
Proof. by apply same_eq. Qed.

Lemma same_trans k nn w1 w2 w3 : same k nn w1 w2 -> same k nn w2 w3 -> same k nn w1 w3.
Proof. unfold same. case_decide; [tauto|congruence]. Qed.

Lemma same_stored k nn w w' : k <> KJob -> same k nn w w' -> stored k w' nn = stored k w nn.
Proof. intros Hk. unfold same. by rewrite decide_False. Qed.

Lemma same_job nn w w' : same KJob nn w w' -> is_Some (stored KJob w nn) <-> is_Some (stored KJob w' nn).
Proof. done. Qed.

(** What a provisioned tenant has of a kind. *)
Definition due (t : Tenant) (k : Kind) (w : W) : Prop :=
  match k with
  | KNamespace => exists ns,
      stored KNamespace w (mkNN "" (tenant_name t)) = Some ns /\
      labelled tenantLabelKey (tenant_name t) (ns_ObjectMeta ns) /\
      labelled "pod-security.kubernetes.io/enforce" "restricted" (ns_ObjectMeta ns) /\
      labelled "pod-security.kubernetes.io/audit" "restricted" (ns_ObjectMeta ns) /\
      labelled "pod-security.kubernetes.io/warn" "restricted" (ns_ObjectMeta ns)
  | KResourceQuota => exists rq,
      stored KResourceQuota w (mkNN (tenant_name t) "tenant-quota") = Some rq /\
      labelled tenantLabelKey (tenant_name t) (rq_ObjectMeta rq) /\
      buildQuotaResourceList (tenant_ResourceQuota (tenant_Spec t)) = Ok (Hard rq)
  | KServiceAccount => exists sa,
      stored KServiceAccount w (mkNN (tenant_name t) "tenant-workload") = Some sa /\
      labelled tenantLabelKey (tenant_name t) (sa_ObjectMeta sa)
  | KRole => exists role,
      stored KRole w (mkNN (tenant_name t) "tenant-workload-role") = Some role /\
      labelled tenantLabelKey (tenant_name t) (role_ObjectMeta role) /\ Rules role = tenant_rules
  | KRoleBinding => exists binding,
      stored KRoleBinding w (mkNN (tenant_name t) "tenant-workload-binding") = Some binding /\
      labelled tenantLabelKey (tenant_name t) (binding_ObjectMeta binding) /\
      RoleRef_ binding = mkRoleRef "rbac.authorization.k8s.io" "Role" "tenant-workload-role" /\
      Subjects binding = [mkSubject "ServiceAccount" "tenant-workload" (tenant_name t)]
  | KNetworkPolicy => exists np,
      stored KNetworkPolicy w (mkNN (tenant_name t) "tenant-isolation") = Some np /\
      labelled tenantLabelKey (tenant_name t) (np_ObjectMeta np) /\ np_Spec np = isolation_spec t
  | _ => True
  end.

Lemma provisioned_due t w : provisioned t w <-> forall k, due t k w.
Proof.
  split.
  - intros [] []; done.
  - intros Hd. split; [apply (Hd KNamespace)|apply (Hd KResourceQuota)|apply (Hd KServiceAccount)
      |apply (Hd KRole)|apply (Hd KRoleBinding)|apply (Hd KNetworkPolicy)].
Qed.

(** It depends on the object of the kind only. *)
Lemma due_same t k w w' :
  (forall nn, tenant_object t k = Some nn -> stored k w' nn = stored k w nn) ->
  due t k w -> due t k w'.
Proof. destruct k; simpl; try done; intros Hf; by rewrite (Hf _ eq_refl). Qed.
End environment.

(** ** The three controllers, interfered with *)

Section controllers.
Context `{L : K8sLib, !K8sLibLaws} {W : Type}
  `{!Cluster W, !ClusterLaws W, !ApiClient.Available W}.

(** A tenant, a model of it, and a service on the model. *)
Variables (t : Tenant) (m : Model) (isvc : InferenceService) (hard : ResourceList).
Hypothesis quota_built : buildQuotaResourceList (tenant_ResourceQuota (tenant_Spec t)) = Ok hard.
Hypothesis model_verifies : verified m = true.
Hypothesis known_profile : profile_known isvc = true.
Hypothesis in_tenant : Namespace_ (isvc_ObjectMeta isvc) = tenant_name t.
Hypothesis of_model :
  mkNN (Namespace_ (isvc_ObjectMeta isvc)) (isvc_Model (isvc_Spec isvc)) = key KModel m.
Hypothesis cluster_scoped : Namespace_ (tenant_ObjectMeta t) = "".

Abbreviation declared := (declared t m isvc).
Abbreviation model_up := (model_up m).
Abbreviation service_up := (service_up t isvc).

(** The Model says that it is ready, which is all a reconcile of the service
    asks of it. *)
Definition model_ok (w : W) : Prop :=
  exists m', stored KModel w (key KModel m) = Some m' /\
    IsStatusConditionTrue (model_Conditions (model_Status m')) "Ready" = true.

Lemma reports_ok m' w :
  stored KModel w (key KModel m) = Some m' -> reports true (model_Status m') -> model_ok w.
Proof.
  intros Hm [_ Hr]. exists m'. split; [done|]. apply IsStatusConditionTrue_assoc. by eexists.
Qed.

Lemma model_up_ok w : model_up w -> model_ok w.
Proof. intros (m' & Hm & Hr). by apply (reports_ok m'). Qed.

(** What every step keeps: the three objects, and what has been reached.  A
    reconcile of the service that found its model not ready may take back
    that it is up ([up] is false). *)
Record keeps (up : bool) (w w' : W) : Prop := {
  keeps_declared : declared w -> declared w';
  keeps_model : model_up w -> model_up w';
  keeps_ok : model_ok w -> model_ok w';
  keeps_tenant : provisioned t w -> provisioned t w';
  keeps_service : up = true -> declared w -> model_ok w -> service_up w -> service_up w'
}.

#[export] Instance keeps_preorder up : PreOrder (keeps up).
Proof.
  split; [by split|]. intros w1 w2 w3 [? ? ? ? ?] [? ? ? ? ?]. split; auto.
Qed.

(** The others leave what a reconcile owns alone, and keep the rest. *)
Record others (u : Task) (w w' : W) : Prop := {
  others_same k nn : owns u k nn -> same k nn w w';
  others_keep_declared : declared w -> declared w';
  others_keep_model : model_up w -> model_up w';
  others_keep_ok : model_ok w -> model_ok w'
}.

#[export] Instance others_preorder u : PreOrder (others u).
Proof.
  split; [split; auto using same_refl|].
  intros w1 w2 w3 [S1 ? ? ?] [S2 ? ? ?]. split; [|auto..]. intros k nn Ho.
  eapply same_trans; [by apply S1|by apply S2].
Qed.

(** The objects that matter to the three. *)
Definition footprint (k : Kind) (nn : NamespacedName) : Prop :=
  owns (ReconcileTenant 0 (key KTenant t)) k nn \/ owns (ReconcileModel 0 (key KModel m)) k nn \/
  owns (ReconcileInferenceService 0 (key ISVC isvc)) k nn.

Lemma keeps_intro up w w' :
  stored KTenant w' (key KTenant t) = stored KTenant w (key KTenant t) ->
  stored KModel w' (key KModel m) = stored KModel w (key KModel m) ->
  stored ISVC w' (key ISVC isvc) = stored ISVC w (key ISVC isvc) ->
  (is_Some (stored KJob w (key ISVC isvc)) -> is_Some (stored KJob w' (key ISVC isvc))) ->
  (forall k, due t k w -> due t k w') -> keeps up w w'.
Proof.
  intros Et Em Ei Ej Hd. split.
  - intros [? ? ?]. by split; rewrite ?Et, ?Em, ?Ei.
  - unfold model_up. by rewrite Em.
  - unfold model_ok. by rewrite Em.
  - rewrite !provisioned_due. auto.
  - intros _ _ _ (i' & Hi & Hph & Hder & Hwl & Hj). exists i'. rewrite Ei. split_and!; auto.
Qed.

Lemma footprint_keeps up w w' : (forall k nn, footprint k nn -> same k nn w w') -> keeps up w w'.
Proof.
  intros Hs. apply keeps_intro; try (apply same_stored; [done|]; apply Hs).
  - left. by left.
  - right. by left.
  - right. right. split; [by left|done].
  - intros Hj. apply (same_job _ w w'); [|done]. apply Hs. right. right. split; [by right|done].
  - intros k. apply due_same. intros nn Ho. apply same_stored; [by intros ->|]. apply Hs.
    left. right. by exists t.
Qed.

(** *** Tenant *)

(** The Tenant that was read is still stored, and has these kinds provisioned. *)
Definition reached (t' : Tenant) (ks : list Kind) (w : W) : Prop :=
  declared w /\ stored KTenant w (key KTenant t) = Some t' /\ forall k, k ∈ ks -> due t k w.

Lemma reached_stable now t' ks w w' :
  others (ReconcileTenant now (key KTenant t)) w w' -> reached t' ks w -> reached t' ks w'.
Proof.
  intros [Hs Hd _ _] (Hw & Ht & Hk). split; [auto|]. split.
  - rewrite <- Ht. apply same_stored; [done|]. apply Hs. by left.
  - intros k Hin. apply (due_same t k w); [|auto]. intros nn Ho.
    apply same_stored; [by intros ->|]. apply Hs. right. by exists t.
Qed.

Lemma due_of t' k w :
  tenant_name t' = tenant_name t -> tenant_Spec t' = tenant_Spec t -> due t' k w <-> due t k w.
Proof. intros Hn Hs. destruct k; simpl; unfold isolation_spec; by rewrite ?Hn, ?Hs. Qed.

Lemma tenant_upsert now t' k o f ks w :
  tenant_object t k = Some (key k o) -> (forall o', key k (f o') = key k o') ->
  (forall w w', handle (CreateOrUpdate k o f) w = (None, w') -> due t k w') ->
  reached t' ks w ->
  under (others (ReconcileTenant now (key KTenant t))) (keeps true) (call (CreateOrUpdate k o f))
    (fun x w' => x = None /\ reached t' (k :: ks) w') w.
Proof.
  intros Hobj Hf Hdue Hr. apply under_call. intros w' x w1 Hw' E.
  apply (reached_stable _ _ _ _ _ Hw') in Hr. clear Hw'.
  pose proof (upsert_accepted _ _ _ _ _ _ E Hf) as Hx. simpl in x. subst x.
  specialize (Hdue _ _ E).
  assert (k <> KTenant /\ k <> KModel /\ k <> ISVC /\ k <> KJob) as (N1 & N2 & N3 & N4)
    by (destruct k; done).
  assert (forall k', due t k' w' -> due t k' w1) as Hk.
  { intros k' Hk'. destruct (decide (k' = k)) as [->|Hne]; [done|].
    apply (due_same t k' w'); [|done]. intros nn _. by apply (stored_frame _ _ _ _ k' nn E). }
  assert (keeps true w' w1) as HG.
  { apply keeps_intro; try done; try (by apply (stored_frame _ _ _ _ _ _ E); simpl; congruence).
    by rewrite (stored_frame _ _ _ _ KJob _ E) by (simpl; congruence). }
  split; [done|]. intros w2 Hw2. split; [done|]. apply (reached_stable _ _ _ _ _ Hw2).
  destruct Hr as (Hd & Ht & Hks). split; [by apply HG|]. split.
  - rewrite <- Ht. apply (stored_frame _ _ _ _ _ _ E); simpl; congruence.
  - intros k' [->|Hin]%elem_of_cons; [done|auto].
Qed.

Definition tenant_kinds : list Kind :=
  [KNetworkPolicy; KRoleBinding; KRole; KServiceAccount; KResourceQuota; KNamespace].

Lemma reached_provisioned t' w : reached t' tenant_kinds w -> provisioned t w.
Proof.
  intros (_ & _ & Hk). apply provisioned_due. intros k.
  destruct k; try done; apply Hk; unfold tenant_kinds; rewrite !elem_of_cons; auto 10.
Qed.

(** A status update of the Tenant that was read is accepted, and keeps the rest. *)
Lemma tenant_status_keeps o t' w x w1 :
  handle (StatusUpdate KTenant o) w = (x, w1) ->
  tenant_ObjectMeta o = tenant_ObjectMeta t' ->
  stored KTenant w (key KTenant t) = Some t' ->
  (exists o', x = Ok o') /\ keeps true w w1 /\ forall k, due t k w -> due t k w1.
Proof.
  intros E Hm Ht. pose proof (stored_key _ _ _ _ Ht) as Hk.
  assert (key KTenant o = key KTenant t) as Hko by (rewrite <- Hk; unfold key; simpl; by rewrite Hm).
  destruct (status_avail KTenant o w t') as [o' Ho]; [by rewrite Hko|done|].
  rewrite E in Ho. simpl in Ho. subst x.
  destruct (status_stored _ _ _ _ _ E) as (t0 & Ht0 & (_ & Hs & _) & Ho'). rewrite Hko in *.
  assert (forall k nn, k <> KTenant -> stored k w1 nn = stored k w nn) as Hf
    by (intros; by apply (stored_frame _ _ _ _ _ _ E)).
  assert (forall k, due t k w -> due t k w1) as Hd
    by (intros k; apply due_same; intros nn Hob; apply Hf; by intros ->).
  split; [by eexists|]. split; [|done]. split.
  - intros [(t1 & Ht1 & Hs1) ? ?]. split; [|by rewrite Hf..]. exists o'. split; [done|congruence].
  - unfold model_up. by rewrite Hf.
  - unfold model_ok. by rewrite Hf.
  - rewrite !provisioned_due. auto.
  - intros _ _ _ (i' & Hi & Hrest). exists i'. rewrite !Hf; done.
Qed.

Lemma tenant_status now t' w :
  reached t' tenant_kinds w ->
  under (others (ReconcileTenant now (key KTenant t))) (keeps true)
    (TenantController.updateStatus now t' None None None None None)
    (fun e w' => e = None /\ provisioned t w') w.
Proof.
  intros Hr. rewrite tenant_updateStatus_unfold. case_bool_decide.
  - intros w' Hw'. split; [done|]. by eapply reached_provisioned, reached_stable.
  - under_bind. apply under_call. intros w' x w1 Hw' E.
    apply (reached_stable _ _ _ _ _ Hw') in Hr. pose proof Hr as (Hd & Ht & Hk).
    destruct (tenant_status_keeps _ t' _ _ _ E eq_refl Ht) as ((o' & ->) & HG & Hdue).
    split; [done|]. intros w2 Hw2 w3 Hw3. split; [done|].
    pose proof (reached_provisioned _ _ Hr) as Hp. rewrite provisioned_due in *. intros k.
    apply (due_same t k w1); [|auto]. intros nn Ho. apply same_stored; [by intros ->|].
    eapply same_trans; [apply (others_same _ _ _ Hw2)|apply (others_same _ _ _ Hw3)];
      right; by exists t.
Qed.

(** The next request of a reconcile of the Tenant. *)
Lemma tenant_next {A} now t' k o f ks (cont : option error -> Prog A) Q w :
  tenant_object t k = Some (key k o) -> (forall o', key k (f o') = key k o') ->
  (forall w w', handle (CreateOrUpdate k o f) w = (None, w') -> due t k w') ->
  reached t' ks w ->
  (forall w', reached t' (k :: ks) w' ->
     under (others (ReconcileTenant now (key KTenant t))) (keeps true) (cont None) Q w') ->
  under (others (ReconcileTenant now (key KTenant t))) (keeps true)
    (bind (call (CreateOrUpdate k o f)) cont) Q w.
Proof.
  intros Hobj Hf Hdue Hr Hcont. apply (under_bind _ _ (call (CreateOrUpdate k o f))).
  eapply under_mono; [|by eapply tenant_upsert]. simpl. intros x w' [-> Hr']. by apply Hcont.
Qed.

Ltac tenant_object Hn Hr stores :=
  eapply tenant_next;
    [simpl; rewrite Hn; reflexivity|done|intros ? ? E; stores E|exact Hr|];
  clear Hr; intros ? Hr; cbn beta iota.

Lemma tenant_under now w :
  declared w ->
  under (others (ReconcileTenant now (key KTenant t))) (keeps true)
    (TenantController.Reconcile now (key KTenant t))
    (fun r w' => r = (Result0, None) /\ provisioned t w') w.
Proof.
  intros Hd. unfold TenantController.Reconcile, reconcileNamespace, reconcileResourceQuota,
    reconcileServiceAccount, reconcileRBAC, reconcileNetworkPolicy.
  under_bind. apply under_Get; [apply _|]. intros w' Hw' w2 Hw2.
  apply (others_keep_declared _ _ _ Hw') in Hd. pose proof Hd as [(t' & Ht & Hs) _ _].
  rewrite (read_avail _ _ _ _ Ht). pose proof (stored_key _ _ _ _ Ht) as Hk.
  assert (tenant_name t' = tenant_name t) as Hn
    by (unfold tenant_name; unfold key, key_of in Hk; simpl in Hk; congruence).
  assert (reached t' [] w2) as Hr.
  { apply (reached_stable _ _ _ _ _ Hw2). split; [done|]. split; [done|]. set_solver. }
  clear Hw' Hw2 Ht Hd. cbn beta iota.
  assert (forall k w, due t' k w -> due t k w) as Hof by (intros k w0; by apply due_of).
  assert (buildQuotaResourceList (tenant_ResourceQuota (tenant_Spec t')) = Ok hard) as Hq
    by (by rewrite Hs).
  tenant_object Hn Hr ltac:(fun E => apply Hof, (reconcileNamespace_stores _ _ _ E)).
  rewrite Hq. cbn beta iota.
  tenant_object Hn Hr ltac:(fun E =>
    apply Hof; destruct (reconcileResourceQuota_stores _ _ _ _ E) as (rq & ? & ? & ?);
    exists rq; split_and!; congruence).
  tenant_object Hn Hr ltac:(fun E => apply Hof, (reconcileServiceAccount_stores _ _ _ E)).
  under_bind. tenant_object Hn Hr ltac:(fun E => apply Hof, (mutateRole_stores _ _ _ E)).
  eapply under_mono; [|eapply tenant_upsert;
    [simpl; rewrite Hn; reflexivity|done|
     intros ? ? E; apply Hof, (mutateRoleBinding_stores _ _ _ E)|exact Hr]].
  clear Hr. intros ? ? [-> Hr].
  tenant_object Hn Hr ltac:(fun E => apply Hof, (reconcileNetworkPolicy_stores _ _ _ E)).
  under_bind. eapply under_mono; [|by apply tenant_status].
  intros ? w7 [-> Hp] w8 Hw8. split; [done|]. rewrite provisioned_due in *. intros k.
  apply (due_same t k w7); [|auto]. intros nn Ho. apply same_stored; [by intros ->|].
  apply (others_same _ _ _ Hw8). right. by exists t.
Qed.

(** *** Model *)

Lemma model_status_keeps o m' w x w1 :
  handle (StatusUpdate KModel o) w = (x, w1) -> obj_meta KModel o = obj_meta KModel m' ->
  stored KModel w (key KModel m) = Some m' -> reports true (model_Status o) ->
  (exists o', x = Ok o') /\ keeps true w w1 /\ model_up w1.
Proof.
  intros E Hm Hmo Hrep. pose proof (stored_key _ _ _ _ Hmo) as Hk.
  assert (key KModel o = key KModel m) as Hko by (rewrite <- Hk; unfold key; by rewrite Hm).
  destruct (status_avail KModel o w m') as [o' Ho]; [by rewrite Hko|done|].
  rewrite E in Ho. simpl in Ho. subst x.
  destruct (status_stored _ _ _ _ _ E) as (m0 & Hm0 & (_ & Hs & Hst) & Ho'). rewrite Hko in *.
  assert (forall k nn, k <> KModel -> stored k w1 nn = stored k w nn) as Hf
    by (intros; by apply (stored_frame _ _ _ _ _ _ E)).
  assert (model_up w1) as Hup by (exists o'; split; [done|by rewrite Hst]).
  split; [by eexists|]. split; [|done]. split; [|done|intros _; by apply model_up_ok| |].
  - intros [? (m1 & Hm1 & Hs1) ?]. split; [by rewrite Hf| |by rewrite Hf].
    exists o'. split; [done|congruence].
  - rewrite !provisioned_due. intros Hd k. apply (due_same t k w); [|done]. intros nn Hob.
    apply Hf. by intros ->.
  - intros _ _ _ (i' & Hi & Hrest). exists i'. rewrite !Hf; done.
Qed.

Lemma model_under now w :
  declared w ->
  under (others (ReconcileModel now (key KModel m))) (keeps true)
    (ModelController.Reconcile now (key KModel m))
    (fun r w' => r = (Result0, None) /\ model_up w') w.
Proof.
  intros Hd. unfold ModelController.Reconcile. under_bind. apply under_Get; [apply _|].
  intros w' Hw' w2 Hw2. apply (others_keep_declared _ _ _ Hw') in Hd.
  pose proof Hd as [_ (m' & Hm & Hs) _]. rewrite (read_avail _ _ _ _ Hm). cbn beta iota.
  pose proof (verify_reports m') as Hrep. pose proof (to_write_facts now m') as (Kw & Sw & Rw & _).
  assert (obj_meta KModel (to_write now m') = obj_meta KModel m') as Hmeta.
  { unfold to_write. destruct (verifyArtifact_verdict m') as (_ & _ & Hv & _).
    destruct (verifyArtifact m'). exact Hv. }
  unfold to_write in *. destruct (verifyArtifact m') as [m1 v].
  assert (verified m' = true) as Hv by (unfold verified in *; by rewrite Hs).
  rewrite model_updateStatus_unfold, (bool_decide_ext _ _ Hrep). rewrite Hv in *. clear Hrep.
  assert (forall w3, others (ReconcileModel now (key KModel m)) w2 w3 ->
            stored KModel w3 (key KModel m) = Some m') as Hst.
  { intros w3 Hw3. rewrite <- Hm. apply same_stored; [done|].
    eapply same_trans; [apply (others_same _ _ _ Hw2)|apply (others_same _ _ _ Hw3)]; done. }
  clear Hm Hw' Hw2 Hd. case_bool_decide as Hr.
  - under_bind. intros w3 Hw3 w4 Hw4. split; [done|]. exists m'. split; [|done].
    apply Hst. by transitivity w3.
  - under_bind. under_bind. apply under_call. intros w3 x w4 Hw3 E.
    destruct (model_status_keeps _ m' _ _ _ E Hmeta (Hst _ Hw3) Rw) as ((o' & ->) & HG & Hup).
    split; [done|]. intros w5 Hw5 w6 Hw6 w7 Hw7. split; [done|].
    by apply (others_keep_model _ _ _ Hw7), (others_keep_model _ _ _ Hw6), (others_keep_model _ _ _ Hw5).
Qed.

(** *** InferenceService *)

Section service.
(** Whether the reconcile starts with the model up. *)
Variable up : bool.
Variable now : Time.

Abbreviation me := (ReconcileInferenceService now (key ISVC isvc)).

(** The priority that is due, and a status that says what is due. *)
Definition priority_due : Z :=
  Calculate (Default (tenant_Priority (tenant_Spec t)))
    (WorkloadClass (isvc_Spec isvc)) (Priority (isvc_Spec isvc)).
Definition ready_status (st : InferenceServiceStatus) : Prop :=
  isvc_Phase st = "Ready" /\ DerivedPriority st = priority_due.

(** The InferenceService in hand is the one that is stored. *)
Definition held (i : InferenceService) (w : W) : Prop :=
  declared w /\ (up = true -> model_ok w) /\ stored ISVC w (key ISVC isvc) = Some i.

Lemma held_stable i w w' : others me w w' -> held i w -> held i w'.
Proof.
  intros [Hs Hd _ Hm] (Hw & Hu & Hi). split; [auto|]. split; [auto|]. rewrite <- Hi.
  apply same_stored; [done|]. apply Hs. split; [by left|done].
Qed.

Lemma held_is i w :
  held i w -> isvc_Spec i = isvc_Spec isvc /\ same_meta (isvc_ObjectMeta isvc) (isvc_ObjectMeta i) /\
    key ISVC i = key ISVC isvc.
Proof.
  intros ([_ _ (i' & Hi' & Hs & Hm)] & _ & Hi). replace i' with i in * by congruence.
  split; [done|]. split; [done|]. by apply stored_key in Hi.
Qed.

(** Its status update is accepted; it does not take back that the service is up
    if the status it sends does not. *)
Lemma isvc_status_keeps o i w x w1 :
  handle (StatusUpdate ISVC o) w = (x, w1) -> isvc_ObjectMeta o = isvc_ObjectMeta i ->
  held i w ->
  (up = true -> ready_status (isvc_Status i) -> workload_reported None (isvc_Status i) ->
   ready_status (isvc_Status o) /\ workload_reported None (isvc_Status o)) ->
  exists o', x = Ok o' /\ keeps up w w1 /\ held o' w1 /\ isvc_Status o' = isvc_Status o.
Proof.
  intros E Hm Hh Hst. destruct (held_is _ _ Hh) as (Hs & Hme & Hk). destruct Hh as (Hd & Hu & Hi).
  assert (key ISVC o = key ISVC isvc) as Hko by (rewrite <- Hk; unfold key; simpl; by rewrite Hm).
  destruct (status_avail ISVC o w i) as [o' Ho]; [by rewrite Hko|done|].
  rewrite E in Ho. simpl in Ho. subst x. rewrite <- Hk in Hi.
  destruct (status_update_stored _ _ _ _ _ Hi Hm E) as [(Ho' & Hs' & Hm' & Hf) Hso].
  rewrite Hk in *. exists o'.
  assert (declared w1) as Hd1.
  { destruct Hd as [? ? ?]. split; [by rewrite Hf..|]. exists o'. split; [done|].
    split; [congruence|]. unfold same_meta in *. congruence. }
  assert (keeps up w w1) as HG.
  { split; [done| | | |].
    - unfold model_up. by rewrite Hf.
    - unfold model_ok. by rewrite Hf.
    - rewrite !provisioned_due. intros Hp k. apply (due_same t k w); [|done]. intros nn Hob.
      apply Hf. by intros ->.
    - intros Hup _ _ (i' & Hi' & Hph & Hder & Hwl & Hj). replace i' with i in * by congruence.
      destruct (Hst Hup (conj Hph Hder) Hwl) as [[Hph' Hder'] Hwl']. exists o'.
      rewrite Hso, (Hf KJob) by done. done. }
  split; [done|]. split; [done|]. split; [|done]. split; [done|]. split; [|done].
  intros Hup. by apply HG, Hu.
Qed.

(** Its two status updates. *)
Lemma isvc_status i derived e1 e2 e3 e4 w :
  held i w ->
  (up = true -> [e1; e2; e3; e4] = [None; None; None; None] /\ derived = priority_due) ->
  under (others me) (keeps up) (updateStatus now i derived e1 e2 e3 e4)
    (fun r w' => r.2.2 = None /\ held r.1 w' /\ (up = true -> ready_status (isvc_Status r.1))) w.
Proof.
  intros Hh Hup. rewrite isvc_updateStatus_unfold.
  assert (forall st, reports_outcomes i derived e1 e2 e3 e4 st -> up = true -> ready_status st) as Hrdy.
  { intros st (Hp & Hd & _) Hu. destruct (Hup Hu) as [[= -> -> -> ->] ->]. done. }
  case_bool_decide as Hr.
  - intros w' Hw'. split; [done|]. split; [by eapply held_stable|]. by apply Hrdy.
  - under_bind. apply under_call. intros w' x w1 Hw' E. apply (held_stable _ _ _ Hw') in Hh.
    pose proof (isvc_with_outcomes_reports now i derived e1 e2 e3 e4) as Ho.
    destruct (isvc_status_keeps _ i _ _ _ E eq_refl Hh) as (o' & -> & HG & Hh1 & Hst).
    { intros Hu _ Hwl. split; [by apply Hrdy|]. unfold workload_reported in *. simpl.
      rewrite isvc_sigs_newConditions, assoc_upsert_all_ne; [done|].
      by apply (bool_decide_unpack _). }
    split; [done|]. intros w2 Hw2 w3 Hw3. split; [done|].
    split; [by apply (held_stable _ w2), (held_stable _ w1)|]. simpl. rewrite Hst. by apply Hrdy.
Qed.

(** The Job in between. *)
Definition has_job (w : W) : Prop := is_Some (stored KJob w (key ISVC isvc)).

Lemma has_job_stable w w' : others me w w' -> has_job w <-> has_job w'.
Proof. intros [Hs _ _ _]. apply same_job, Hs. split; [by right|done]. Qed.

Lemma service_up_stable w w' : others me w w' -> service_up w -> service_up w'.
Proof.
  intros Hw (i & Hi & Hrest). exists i. split.
  - rewrite <- Hi. apply same_stored; [done|]. apply Hw. split; [by left|done].
  - destruct Hrest as (? & ? & ? & Hj). split_and!; try done. by apply (has_job_stable w).
Qed.

Lemma isvc_workload i w :
  held i w -> has_job w -> (up = true -> ready_status (isvc_Status i)) ->
  under (others me) (keeps up) (updateWorkloadCondition now i None)
    (fun r w' => r.2 = None /\ (up = true -> model_ok w' /\ service_up w')) w.
Proof.
  intros Hh Hj Hrdy. rewrite updateWorkloadCondition_unfold. case_bool_decide as Hr.
  - intros w' Hw'. split; [done|]. intros Hup. destruct Hh as (_ & Hu & Hi).
    split; [by apply Hw', Hu|]. apply (service_up_stable w); [done|].
    destruct (Hrdy Hup). by exists i.
  - under_bind. apply under_call. intros w' x w1 Hw' E. apply (held_stable _ _ _ Hw') in Hh.
    apply (has_job_stable _ _ Hw') in Hj.
    assert (workload_reported None (isvc_Status (with_workload now i None))) as Hwl
      by (unfold workload_reported; rewrite with_workload_sigs; apply assoc_upsert_eq).
    destruct (isvc_status_keeps _ i _ _ _ E eq_refl Hh) as (o' & -> & HG & (_ & Hu & Ho) & Hst);
      [by intros|].
    split; [done|]. intros w2 Hw2 w3 Hw3. split; [done|]. intros Hup.
    split; [by apply Hw3, Hw2, Hu|]. apply (service_up_stable w2); [done|]. apply (service_up_stable w1); [done|].
    destruct (Hrdy Hup). exists o'. rewrite Hst. split_and!; try done.
    by rewrite (stored_frame _ _ _ _ KJob _ E) by done.
Qed.

Lemma job_create_keeps model i job w x w1 :
  handle (Create KJob job) w = (x, w1) -> job_for i model job -> held i w -> ~ has_job w ->
  x = None /\ keeps up w w1 /\ held i w1 /\ has_job w1.
Proof.
  intros E Hj Hh Hn. destruct (held_is _ _ Hh) as (_ & _ & Hk).
  pose proof (job_for_key _ _ _ Hj) as Hkj. rewrite Hk in Hkj.
  assert (stored KJob w (key KJob job) = None) as Hno
    by (rewrite Hkj; by apply eq_None_not_Some).
  pose proof (create_avail KJob job w Hno) as Hx. rewrite E in Hx. simpl in Hx. subst x.
  pose proof (create_ok KJob job w) as Hc. rewrite E in Hc.
  destruct (Hc eq_refl) as [_ (j' & Hj' & _)]. simpl in Hj'. rewrite Hkj in Hj'.
  assert (forall k nn, k <> KJob -> stored k w1 nn = stored k w nn) as Hf
    by (intros; by apply (stored_frame _ _ _ _ _ _ E)).
  assert (keeps up w w1) as HG.
  { apply keeps_intro; try (by apply Hf); [by eexists|]. intros k. apply due_same.
    intros nn Ho. apply Hf. by intros ->. }
  split; [done|]. split; [done|]. split; [|by eexists].
  destruct Hh as (Hd & Hu & Hi). split; [by apply HG|]. split; [|by rewrite Hf].
  intros Hup. by apply HG, Hu.
Qed.

Lemma isvc_job i model w :
  held i w ->
  under (others me) (keeps up) (reconcileKueueJob i model)
    (fun e w' => e = None /\ held i w' /\ has_job w') w.
Proof.
  intros Hh. destruct (held_is _ _ Hh) as (_ & _ & Hk).
  destruct (job_for_exists i model) as [job Hj]. rewrite (reconcileKueueJob_unfold _ _ _ Hj), Hk.
  under_bind. apply under_Get; [apply _|]. intros w' Hw' w2 Hw2.
  assert (held i w2) as Hh2 by (by apply (held_stable _ w'), (held_stable _ w)).
  destruct (stored KJob w' (key ISVC isvc)) as [j|] eqn:Hs.
  - rewrite (read_avail _ _ _ _ Hs). intros w3 Hw3. split; [done|].
    split; [by apply (held_stable _ w2)|].
    apply (has_job_stable w2); [done|]. apply (has_job_stable w'); [done|]. by eexists.
  - destruct (get_avail_missing _ _ _ Hs) as (e & He & Hnf). unfold read. rewrite He, Hnf.
    apply under_call. intros w3 x w4 Hw3 E.
    apply (held_stable _ _ _ Hw3) in Hh2.
    destruct (job_create_keeps _ _ _ _ _ _ E Hj Hh2) as (-> & HG & Hh4 & Hj4).
    { intros Hc%(has_job_stable w2); [|done]. apply (has_job_stable w') in Hc; [|done].
      unfold has_job in Hc. rewrite Hs in Hc. by destruct Hc. }
    split; [done|]. intros w5 Hw5. split; [done|]. split; [by apply (held_stable _ w4)|].
    by apply (has_job_stable w4).
Qed.

(** What it reads of its dependencies. *)
Lemma isvc_reads_model i w :
  held i w ->
  exists m' ms, read KModel (mkNN (Namespace_ (isvc_ObjectMeta i)) (isvc_Model (isvc_Spec i))) w = Ok m' /\
    resolveModel i (Ok m') = Ok (ms, Some m') /\
    (ms = ModelReady /\ model_ok w \/ ms = ModelNotReady /\ up = false).
Proof.
  intros Hh. destruct (held_is _ _ Hh) as (Hs & Hme & _). destruct Hh as ([_ (m' & Hm & _) _] & Hu & _).
  unfold same_meta in Hme. injection Hme as _ Hns _ _ _ _ _. exists m'.
  assert (read KModel (mkNN (Namespace_ (isvc_ObjectMeta i)) (isvc_Model (isvc_Spec i))) w = Ok m') as ->
    by (rewrite <- Hns, Hs, of_model; by apply read_avail).
  unfold resolveModel. destruct (IsStatusConditionTrue (model_Conditions (model_Status m')) _) eqn:Hc;
    eexists; (split; [done|]); (split; [done|]).
  - left. split; [done|]. by exists m'.
  - right. split; [done|]. destruct up; [|done]. destruct (Hu eq_refl) as (m2 & Hm2 & Hc2).
    replace m2 with m' in * by congruence. by rewrite Hc2 in Hc.
Qed.

Lemma isvc_reads_tenant i w :
  held i w ->
  exists t', read KTenant (mkNN "" (Namespace_ (isvc_ObjectMeta i))) w = Ok t' /\
    resolveTenant i (Ok t') = Ok (true, priority_due).
Proof.
  intros Hh. destruct (held_is _ _ Hh) as (Hs & Hme & _). destruct Hh as ([(t' & Ht & Hst) _ _] & _ & _).
  unfold same_meta in Hme. injection Hme as _ Hns _ _ _ _ _. exists t'.
  split.
  - rewrite <- Hns, in_tenant. apply read_avail. unfold key, key_of in Ht. simpl in Ht.
    by rewrite cluster_scoped in Ht.
  - unfold resolveTenant, priority_due. by rewrite Hst, Hs.
Qed.

(** With the model up, nothing is missing. *)
Lemma no_errors i : isvc_Spec i = isvc_Spec isvc ->
  [modelError i ModelReady; tenantError i true; profileError i;
   capacityError i ModelReady (profileError i)] = [None; None; None; None].
Proof.
  intros Hs. pose proof known_profile as Hp. unfold profile_known in Hp. rewrite <- Hs in Hp.
  unfold profileError, capacityError. by destruct (Resolve _).
Qed.

Lemma all_nil (e1 e2 e3 e4 : option error) :
  [e1; e2; e3; e4] = [None; None; None; None] ->
  negb (is_nil e1 && is_nil e2 && is_nil e3 && is_nil e4) = false.
Proof. by intros [= -> -> -> ->]. Qed.

(** The rest of it, once the dependencies are resolved. *)
Lemma isvc_finish i model w :
  held i w -> (up = true -> ready_status (isvc_Status i)) ->
  under (others me) (keeps up)
    (let! jobErr := reconcileKueueJob i model in
     let! '(isvc, err) := updateWorkloadCondition now i jobErr in
     match err with Some err => Ret (Result0, Some err) | None => Ret (Result0, jobErr) end)
    (fun r w' => r = (Result0, None) /\ (up = true -> model_ok w' /\ service_up w')) w.
Proof.
  intros Hh Hrdy. under_bind. eapply under_mono; [|by apply isvc_job].
  intros ? w2 (-> & Hh2 & Hj2). under_bind. eapply under_mono; [|by apply isvc_workload].
  intros [i' err] w3 [Herr Hup]. simpl in Herr. subst err. intros w4 Hw4. split; [done|].
  intros Hu. destruct (Hup Hu). split; [by apply Hw4|by apply (service_up_stable w3)].
Qed.

End service.

Lemma keeps_weaken up w w' : keeps true w w' -> keeps up w w'.
Proof. intros []. split; auto. Qed.

(** At the end of a reconcile of the service it is up, or the reconcile asks to be
    called again; one that starts with the model ready does not. *)
Definition isvc_achieved (up : bool) (r : Result * option error) (w : W) : Prop :=
  (r = (Result0, None) /\ model_ok w /\ service_up w \/
   r = (mkResult (10 * Second), None) /\ up = false).

Lemma isvc_under up now w :
  declared w -> (up = true -> model_ok w) ->
  under (others (ReconcileInferenceService now (key ISVC isvc))) (keeps up)
    (Reconcile now (key ISVC isvc)) (isvc_achieved up) w.
Proof.
  intros Hd Hu. unfold Reconcile. under_bind. apply under_Get; [apply _|]. intros w' Hw' w2 Hw2.
  assert (exists i, held up i w') as [i Hi].
  { pose proof (others_keep_declared _ _ _ Hw' Hd) as [Ht Hm (i & Hi & Hs)]. exists i.
    split; [split; eauto|]. split; [|done]. intros Hup. by apply Hw', Hu. }
  rewrite (read_avail _ _ _ _ (proj2 (proj2 Hi))). apply (held_stable _ _ _ _ _ Hw2) in Hi.
  clear Hw' Hw2 Hd Hu. cbn beta iota zeta.
  under_bind. apply under_Get; [apply _|]. intros w3 Hw3 w4 Hw4.
  apply (held_stable _ _ _ _ _ Hw3) in Hi.
  destruct (isvc_reads_model _ _ _ Hi) as (m' & ms & -> & Hms & Hcase).
  assert (exists up', held up' i w3 /\ (up' = false -> up = false) /\
            (up' = true /\ ms = ModelReady \/ up' = false /\ ms = ModelNotReady))
    as (up' & Hi' & Hle & Hup').
  { destruct Hcase as [[-> Hok]|[-> ->]]; [exists true|exists false].
    - split; [|split; [done|by left]]. by destruct Hi as (? & _ & ?).
    - split; [done|]. split; [done|by right]. }
  clear Hi Hcase. rewrite Hms. clear Hms. cbn beta iota.
  apply (under_weaken _ (keeps up')).
  { intros v v' Hk. destruct up'; [by apply keeps_weaken|by rewrite (Hle eq_refl)]. }
  under_bind. apply under_Get; [apply _|]. intros w5 Hw5 w6 Hw6.
  apply (held_stable _ _ _ _ _ Hw4), (held_stable _ _ _ _ _ Hw5) in Hi'.
  destruct (isvc_reads_tenant _ _ _ Hi') as (t' & -> & ->). cbn beta iota.
  apply (held_stable _ _ _ _ _ Hw6) in Hi'. clear Hw3 Hw4 Hw5 Hw6 w w' w2 w3 w4 w5.
  pose proof (no_errors _ (proj1 (held_is _ _ _ Hi'))) as Hno.
  under_bind. eapply under_mono; [|apply (isvc_status up' _ _ _ _ _ _ _ _ Hi')].
  - intros [i' [changed err]] w (Herr & Hh & Hr). cbn [fst snd] in *. subst err.
    destruct Hup' as [[-> ->]|[-> ->]].
    + rewrite (all_nil _ _ _ _ Hno). eapply under_mono; [|by apply isvc_finish].
      intros r w' [-> Hup]. left. split; [done|]. by apply Hup.
    + cbn [modelError is_nil andb negb]. intros w' _. right. split; [done|]. by apply Hle.
  - intros Ht. destruct Hup' as [[_ ->]|[-> _]]; [done|done].
Qed.
End controllers.
