(* ===== verification/Concurrent.v ===== *)
(** * The operator at work

    The whole operator, as controller-runtime runs it: any number of reconciles
    at once, one request at a time in any order, none of an object that one is
    already under way for; next to others that leave the platform's objects
    alone, against a server that is up.  Each reconcile ends within eight
    requests, without error, and what the platform is for is reached however
    they overlap. *)
From S2P Require Import Prelude.
From S2P Require Import ApiTypes.
From S2P Require Import K8sLib.
From S2P Require Import ApiClient.
From S2P Require Import Scheduling.
From S2P Require Import ModelController.
From S2P Require Import TenantController.
From S2P Require Import InferenceServiceController.
From S2P Require Import System.
From S2P Require Import Convergence.
From S2P Require Import Interference.
From S2P Require Import Overlap.

(** ** The transition system *)

(** The reconcile waits for the answer to a request. *)
Definition live (th : Thread) : bool := match rest th with Call _ _ => true | _ => false end.

#[export] Instance scoped_dec u : Decision (scoped u).
Proof. destruct u; apply _. Defined.

Section overlap.
Context `{L : K8sLib} {W : Type} `{!Cluster W}.

(** What everyone else does to the cluster. *)
Variable external : W -> W -> Prop.

Inductive overlap : Sys W -> Sys W -> Prop :=
  | overlap_start s u :
      scoped u ->
      Forall (fun th => live th = true -> subject (task th) <> subject u) (threads s) ->
      overlap s (mkSys (cluster s) (threads s ++ [mkThread u [] (program u)]))
  | overlap_request s i u ev r cont x w' :
      threads s !! i = Some (mkThread u ev (Call r cont)) -> handle r (cluster s) = (x, w') ->
      overlap s (mkSys w' (<[i := mkThread u (ev ++ [Ev r x]) (cont x)]> (threads s)))
  | overlap_external s w' :
      external (cluster s) w' -> overlap s (mkSys w' (threads s)).

(** The same by a schedule, that says what is started and who asks next. *)
Inductive Move := Begin (u : Task) | Proceed (i : nat).

Definition free (u : Task) (ths : list Thread) : bool :=
  forallb (fun th => negb (live th && bool_decide (subject (task th) = subject u))) ths.

Definition act (a : Move) (s : Sys W) : option (Sys W) :=
  match a with
  | Begin u =>
      if bool_decide (scoped u) && free u (threads s)
      then Some (mkSys (cluster s) (threads s ++ [mkThread u [] (program u)])) else None
  | Proceed i =>
      match threads s !! i with
      | Some (mkThread u ev (Call r cont)) =>
          let '(x, w') := handle r (cluster s) in
          Some (mkSys w' (<[i := mkThread u (ev ++ [Ev r x]) (cont x)]> (threads s)))
      | _ => None
      end
  end.

Fixpoint acts (l : list Move) (s : Sys W) : option (Sys W) :=
  match l with
  | [] => Some s
  | a :: l => match act a s with Some s' => acts l s' | None => None end
  end.

Lemma act_sound a s s' : act a s = Some s' -> overlap s s'.
Proof.
  destruct a as [u|i]; simpl.
  - destruct (bool_decide _ && _) eqn:E; [|done]. intros [= <-].
    apply andb_true_iff in E as [Hs%bool_decide_eq_true Hf]. apply overlap_start; [done|].
    unfold free in Hf. rewrite forallb_forall in Hf. apply Forall_forall. intros th Hth Hl Hsub.
    specialize (Hf th Hth). by rewrite Hl, bool_decide_eq_true_2 in Hf.
  - destruct (threads s !! i) as [[u ev [res| |r cont]]|] eqn:Hi; try done.
    destruct (handle _ _) as [x w'] eqn:E. intros [= <-]. by eapply overlap_request.
Qed.

Lemma acts_sound l s s' : acts l s = Some s' -> rtc overlap s s'.
Proof.
  revert s. induction l as [|a l IH]; intros s; simpl; [by intros [= ->]|].
  destruct (act a s) as [s1|] eqn:E; [|done]. intros Hl. econstructor; [by eapply act_sound|by apply IH].
Qed.

(** A reconcile that has ended stays as it is. *)
Lemma finished_stays s s' i u ev r :
  rtc overlap s s' -> threads s !! i = Some (mkThread u ev (Ret r)) ->
  threads s' !! i = Some (mkThread u ev (Ret r)).
Proof.
  induction 1 as [|s1 s2 s3 Hst _ IH]; [done|]. intros Hi. apply IH.
  destruct Hst as [s0 v _ _|s0 j v ev' q cont x w' Hj E|s0 w' E]; cbn [threads] in *; [| |done].
  - rewrite lookup_app_l; [done|by eapply lookup_lt_Some].
  - rewrite list_lookup_insert_ne; [done|]. intros ->. congruence.
Qed.

(** These are steps of the system of every interleaving. *)
Lemma overlap_is_step s s' : overlap s s' -> step external s s'.
Proof.
  intros [s0 u _ _|s0 i u ev r cont x w' Hi E|s0 w' E].
  - apply step_start.
  - destruct s0 as [w ths]. simpl in *. rewrite (insert_take_drop _ _ _ (lookup_lt_Some _ _ _ Hi)).
    rewrite <- (take_drop_middle _ _ _ Hi) at 1. by apply step_request.
  - destruct s0. by apply step_external.
Qed.

Lemma overlap_reachable w s : rtc overlap (mkSys w []) s -> reachable external w s.
Proof.
  revert s. apply rtc_ind_r; [constructor|]. intros s s' _ Hst IH.
  eapply reachable_step; [done|]. by apply overlap_is_step.
Qed.
End overlap.

(** ** Every reconcile is short *)

(** No reconcile asks more than eight times, or panics, whatever it is answered. *)
Definition short (past : list Event) (_ : Req) : Prop := (length past < 8)%nat.
Definition calm (past : list Event) (o : option (Result * option error)) : Prop := o <> None.

(** None creates what others reconcile, or changes more of it than its status. *)
Definition meek (r : Req) : Prop :=
  match r with Create k _ | CreateOrUpdate k _ _ => ~ primary k | _ => True end.

Section bounds.
Context `{L : K8sLib, !K8sLibLaws}.

Lemma program_meek_wp u : wp (fun _ => meek) (fun _ _ => True) [] (program u).
Proof.
  destruct u as [now req|now req|now req]; simpl.
  - tenant_steps; try done; unfold meek, primary; intuition discriminate.
  - unfold ModelController.Reconcile. wp_steps; try done.
    rewrite model_updateStatus_unfold. by wp_steps.
  - isvc_steps; try done; unfold meek, primary; intuition discriminate.
Qed.

Lemma program_short_wp u : wp short calm [] (program u).
Proof.
  destruct u as [now req|now req|now req]; simpl.
  - tenant_steps; try (by unfold calm); unfold short; simpl; lia.
  - unfold ModelController.Reconcile. wp_steps; try (by unfold calm); [unfold short; simpl; lia|].
    rewrite model_updateStatus_unfold. wp_steps; try (by unfold calm); unfold short; simpl; lia.
  - isvc_steps; try (by unfold calm); unfold short; simpl; lia.
Qed.
End bounds.

(** ** The invariant of the overlapping reconciles *)

Section platform.
Context `{L : K8sLib, !K8sLibLaws} {W : Type}
  `{!Cluster W, !ClusterLaws W, !ApiClient.Available W}.
Variable external : W -> W -> Prop.

(** A tenant, a model of it, and a service on the model. *)
Variables (t : Tenant) (m : Model) (isvc : InferenceService) (hard : ResourceList).
Hypothesis quota_built : buildQuotaResourceList (tenant_ResourceQuota (tenant_Spec t)) = Ok hard.
Hypothesis model_verifies : verified m = true.
Hypothesis known_profile : profile_known isvc = true.
Hypothesis in_tenant : Namespace_ (isvc_ObjectMeta isvc) = tenant_name t.
Hypothesis of_model :
  mkNN (Namespace_ (isvc_ObjectMeta isvc)) (isvc_Model (isvc_Spec isvc)) = key KModel m.
Hypothesis cluster_scoped : Namespace_ (tenant_ObjectMeta t) = "".

(** The others leave the objects of the three alone. *)
Hypothesis undisturbed : forall w w', external w w' ->
  forall k nn, footprint t m isvc k nn -> same k nn w w'.

Abbreviation declared := (declared t m isvc).
Abbreviation model_up := (model_up m).
Abbreviation model_ok := (model_ok m).
Abbreviation service_up := (service_up t isvc).
Abbreviation keeps := (keeps t m isvc).
Abbreviation others := (others t m isvc).

(** *** What a reconcile of the three is for *)

Definition concerned (u : Task) : Prop :=
  subject u = (KTenant, key KTenant t) \/ subject u = (KModel, key KModel m) \/
  subject u = (ISVC, key ISVC isvc).

(** Whether it keeps the service up, and what it establishes; a reconcile of the
    service does when it started with the model ready. *)
Definition is_service (u : Task) : bool :=
  match u with ReconcileInferenceService _ _ => true | _ => false end.
Definition upkeep (up : bool) (u : Task) : bool := negb (is_service u) || up.

Definition achieved (up : bool) (u : Task) (r : Result * option error) (w : W) : Prop :=
  match u with
  | ReconcileTenant _ _ => r = (Result0, None) /\ provisioned t w
  | ReconcileModel _ _ => r = (Result0, None) /\ model_up w
  | ReconcileInferenceService _ _ => isvc_achieved t m isvc up r w
  end.

Abbreviation achieves up u p w := (under (others u) (keeps (upkeep up u)) p (achieved up u) w).

Lemma program_under up u w :
  concerned u -> declared w -> (up = true -> model_ok w) -> achieves up u (program u) w.
Proof.
  intros Hu Hd Hm. destruct u as [now req|now req|now req].
  - assert (req = key KTenant t) as -> by (by destruct Hu as [[= ->]|[[=]|[=]]]).
    by eapply tenant_under.
  - assert (req = key KModel m) as -> by (by destruct Hu as [[=]|[[= ->]|[=]]]).
    by apply model_under.
  - assert (req = key ISVC isvc) as -> by (by destruct Hu as [[=]|[[=]|[= ->]]]).
    by apply isvc_under.
Qed.

(** The others do not depend on it. *)
Lemma achieves_any up up' u p w : is_service u = false -> achieves up u p w -> achieves up' u p w.
Proof. by destruct u. Qed.

(** A step of a reconcile of anything else keeps everything. *)
Lemma footprint_concerned k nn :
  footprint t m isvc k nn -> exists v, scoped v /\ concerned v /\ owns v k nn.
Proof.
  unfold footprint, concerned. intros [Ho|[Ho|Ho]]; (eexists; split; [|split; [|exact Ho]]);
    simpl; auto.
Qed.

Lemma unconcerned_keeps up u w w' :
  scoped u -> ~ concerned u ->
  (forall k nn, ~ owns u k nn -> stored k w' nn = stored k w nn) -> keeps up w w'.
Proof.
  intros Hsc Hc Hf. apply footprint_keeps. intros k nn Hfp.
  destruct (footprint_concerned k nn Hfp) as (v & Hsv & Hcv & Ho). apply same_eq, Hf.
  apply (owns_disjoint v u); try done. intros He. apply Hc. unfold concerned in *.
  by rewrite <- He.
Qed.

Lemma concerned_footprint u k nn : concerned u -> owns u k nn -> footprint t m isvc k nn.
Proof. unfold footprint. intros [Hu|[Hu|Hu]]; destruct u; simplify_eq/=; auto. Qed.

Lemma concerned_dec u : Decision (concerned u).
Proof. unfold concerned. apply _. Defined.

(** *** Threads *)

(** What holds of a reconcile of any object. *)
Record sane (th : Thread) : Prop := {
  sane_scoped : scoped (task th);
  sane_owned : wp (owned_request (task th)) (fun _ _ => True) (past th) (rest th);
  sane_keyed : Forall keyed (past th);
  sane_short : wp short calm (past th) (rest th);
  sane_past : (length (past th) <= 8)%nat;
  sane_meek : wp (fun _ => meek) (fun _ _ => True) (past th) (rest th)
}.

Lemma sane_start u : scoped u -> sane (mkThread u [] (program u)).
Proof.
  intros Hs. split; simpl; [done|apply program_owned_wp|constructor|apply program_short_wp|lia|].
  apply program_meek_wp.
Qed.

Lemma sane_request u ev r cont w x w' :
  sane (mkThread u ev (Call r cont)) -> handle r w = (x, w') ->
  sane (mkThread u (ev ++ [Ev r x]) (cont x)).
Proof.
  intros [Hs [_ Ho] Hk [Hn Hc] _ [_ Hm]] E. simpl in *. split; simpl; [done|done| |done| |done].
  - apply Forall_app. split; [done|]. constructor; [by apply (handle_keyed _ w _ w')|done].
  - rewrite length_app. unfold short in Hn. simpl. lia.
Qed.

(** Its request leaves alone what it does not own. *)
Lemma sane_frame u ev r cont w x w' k nn :
  sane (mkThread u ev (Call r cont)) -> handle r w = (x, w') -> ~ owns u k nn ->
  stored k w' nn = stored k w nn.
Proof.
  intros [_ [Ho _] Hk _ _ _] E Hn. simpl in *. destruct (is_write r) eqn:Hw.
  - pose proof (write_frame r w k nn Hw) as Hf. rewrite E in Hf. apply Hf. intros [= -> ->].
    by apply Hn, Ho.
  - replace w' with w; [done|]. destruct r; try done;
      [pose proof (get_pure k0 nn0 w) as Hp|pose proof (list_pure k0 ns w) as Hp];
      by rewrite E in Hp.
Qed.

(** *** The reconciles under way *)

(** Each is sane, and no two that are under way are of one object. *)
Record tidy (s : Sys W) : Prop := {
  tidy_sane i th : threads s !! i = Some th -> sane th;
  tidy_exclusive i j thi thj : threads s !! i = Some thi -> threads s !! j = Some thj ->
    live thi = true -> live thj = true -> subject (task thi) = subject (task thj) -> i = j
}.

Lemma tidy_init w : tidy (mkSys w []).
Proof. by split. Qed.

Lemma tidy_cluster s w' : tidy s -> tidy (mkSys w' (threads s)).
Proof. intros [Hsa He]. by split. Qed.

Lemma tidy_start s u :
  scoped u -> Forall (fun th => live th = true -> subject (task th) <> subject u) (threads s) ->
  tidy s -> tidy (mkSys (cluster s) (threads s ++ [mkThread u [] (program u)])).
Proof.
  intros Hsc Hfree [Hsa He]. rewrite Forall_lookup in Hfree. split; cbn [threads].
  - intros i th [[_ Hi]|[_ <-]]%lookup_snoc_Some; [by eapply Hsa|by apply sane_start].
  - intros i j thi thj [[_ Hi]|[-> <-]]%lookup_snoc_Some [[_ Hj]|[-> <-]]%lookup_snoc_Some
      Hli Hlj Hsub; [by apply (He i j thi thj)| | |done].
    + by destruct (Hfree _ _ Hi Hli).
    + by destruct (Hfree _ _ Hj Hlj).
Qed.

(** The threads after a request of one of them. *)
Lemma updated_lookup (ths : list Thread) i th0 th j thj :
  ths !! i = Some th0 -> <[i := th]> ths !! j = Some thj ->
  (j = i /\ thj = th) \/ (j <> i /\ ths !! j = Some thj).
Proof.
  intros Hi. destruct (decide (j = i)) as [->|Hne].
  - rewrite list_lookup_insert_eq by (by eapply lookup_lt_Some). intros [= <-]. by left.
  - rewrite list_lookup_insert_ne by done. by right.
Qed.

Lemma tidy_request s i u ev r cont x w' :
  threads s !! i = Some (mkThread u ev (Call r cont)) -> handle r (cluster s) = (x, w') ->
  tidy s -> tidy (mkSys w' (<[i := mkThread u (ev ++ [Ev r x]) (cont x)]> (threads s))).
Proof.
  intros Hi E [Hsa He]. set (th := mkThread u (ev ++ [Ev r x]) (cont x)). split; cbn [threads].
  - intros j thj [[-> ->]|[_ Hj]]%(updated_lookup _ _ _ _ _ _ Hi);
      [eapply sane_request; [by apply (Hsa i)|done]|by eapply Hsa].
  - assert (forall j thj, <[i := th]> (threads s) !! j = Some thj -> live thj = true ->
      exists th0, threads s !! j = Some th0 /\ task th0 = task thj /\ live th0 = true) as Hold.
    { intros j thj [[-> ->]|[_ Hj]]%(updated_lookup _ _ _ _ _ _ Hi); eauto. }
    intros j1 j2 th1 th2 Hj1 Hj2 Hl1 Hl2 Hsub.
    destruct (Hold _ _ Hj1 Hl1) as (o1 & Ho1 & Ht1 & ?), (Hold _ _ Hj2 Hl2) as (o2 & Ho2 & Ht2 & ?).
    apply (He j1 j2 o1 o2); try done. by rewrite Ht1, Ht2.
Qed.

(** *** The system *)

(** From a state with the model ready on, the reconciles started since find it
    so. *)
Definition strong (phase : option nat) (i : nat) : bool :=
  match phase with Some n => bool_decide (n <= i)%nat | None => false end.

(** What is left of a reconcile of one of the three that has ended; [settled]
    says that one of the service has ended that need not be called again. *)
Definition ended (settled strong : bool) (u : Task) (r : Result * option error) (w : W) : Prop :=
  match u with
  | ReconcileTenant _ _ => r = (Result0, None) /\ provisioned t w
  | ReconcileModel _ _ => r = (Result0, None) /\ model_up w
  | ReconcileInferenceService _ _ =>
      r = (Result0, None) /\ settled = true \/
      r = (mkResult (10 * Second), None) /\ strong = false
  end.

Record inv (phase : option nat) (settled : bool) (s : Sys W) : Prop := {
  inv_declared : declared (cluster s);
  inv_ok : is_Some phase -> model_ok (cluster s);
  inv_up : settled = true -> model_ok (cluster s) /\ service_up (cluster s);
  inv_tidy : tidy s;
  inv_live i u ev r cont : threads s !! i = Some (mkThread u ev (Call r cont)) -> concerned u ->
    exists up, (strong phase i || settled = true -> up = true) /\
      achieves up u (Call r cont) (cluster s);
  inv_ended i u ev r : threads s !! i = Some (mkThread u ev (Ret r)) -> concerned u ->
    ended settled (strong phase i) u r (cluster s)
}.

Lemma inv_sane phase settled s i th : inv phase settled s -> threads s !! i = Some th -> sane th.
Proof. intros Hs. apply tidy_sane, Hs. Qed.

Lemma ended_keeps settled st u r w w' :
  ended settled st u r w -> keeps false w w' -> ended settled st u r w'.
Proof. destruct u; simpl; [intros [He Ha] Hk; split; [done|by apply Hk]..|done]. Qed.

Lemma keeps_less up w w' : keeps up w w' -> keeps false w w'.
Proof. intros []. by split. Qed.

Lemma inv_start phase settled s u :
  scoped u -> Forall (fun th => live th = true -> subject (task th) <> subject u) (threads s) ->
  inv phase settled s -> inv phase settled (mkSys (cluster s) (threads s ++ [mkThread u [] (program u)])).
Proof.
  intros Hsc Hfree Hs. pose proof Hs as [Hd Hm Hup Hti Hl Hen].
  assert (forall P, concerned u -> program u = P -> exists up,
    (strong phase (length (threads s)) || settled = true -> up = true) /\
    achieves up u P (cluster s)) as Hnew.
  { intros P Hc <-. eexists. split; [by intros ?|]. apply program_under; [done|done|].
    intros [Hst|Hst]%orb_true_iff; [|by apply Hup]. apply Hm. by destruct phase. }
  split; cbn [cluster threads]; [done|done|done|by apply tidy_start|..].
  - intros i v ev r cont [[_ Hi]|[-> [= -> <- Hp]]]%lookup_snoc_Some; [by apply (Hl i v ev)|].
    intros Hc. by apply Hnew.
  - intros i v ev r [[_ Hi]|[-> [= -> <- Hp]]]%lookup_snoc_Some; [by apply (Hen i v ev)|].
    by destruct v.
Qed.

(** What a request of a thread keeps, and what is left of the thread. *)
Lemma request_keeps phase settled s i u ev r cont x w' :
  inv phase settled s -> threads s !! i = Some (mkThread u ev (Call r cont)) ->
  handle r (cluster s) = (x, w') ->
  exists up, (strong phase i || settled = true -> up = true) /\
    keeps (upkeep up u) (cluster s) w' /\ (concerned u -> achieves up u (cont x) w').
Proof.
  intros Hs Hi E. destruct (concerned_dec u) as [Hc|Hc].
  - destruct (inv_live _ _ _ Hs _ _ _ _ _ Hi Hc) as (up & Hup & Hu).
    destruct (Hu (cluster s)) as [HG Hn]; [reflexivity|]. rewrite E in HG, Hn.
    exists up. split; [done|]. split; [done|]. by intros _.
  - exists true. split; [done|]. split; [|done]. apply (unconcerned_keeps _ u); [|done|].
    + apply (inv_sane _ _ _ _ _ Hs Hi).
    + intros k nn Hn. by eapply sane_frame; [apply (inv_sane _ _ _ _ _ Hs Hi)|..].
Qed.

Lemma ended_mono (settled settled' : bool) st u r w :
  (settled = true -> settled' = true) -> ended settled st u r w -> ended settled' st u r w.
Proof. intros Hi. destruct u; [done..|]. intros [[? ?]|?]; [left; auto|by right]. Qed.

(** Whether a reconcile of the service has ended now. *)
Lemma request_settles phase settled up i u p w :
  (strong phase i || settled = true -> up = true) ->
  (settled = true -> model_ok w /\ service_up w) ->
  (concerned u -> achieves up u p w) ->
  exists settled', (settled = true -> settled' = true) /\
    (settled' = true -> model_ok w /\ service_up w) /\
    (forall r, p = Ret r -> concerned u -> ended settled' (strong phase i) u r w) /\
    (settled' = true -> settled = true \/ concerned u /\ is_service u = true /\ exists r, p = Ret r).
Proof.
  intros Hup Hs Hu. destruct p as [r| |q cont]; [|exists settled; split_and!; auto; done..].
  destruct (concerned_dec u) as [Hc|Hc]; [|exists settled; split_and!; auto; done].
  specialize (Hu Hc w ltac:(reflexivity)).
  destruct u as [now req|now req|now req]; simpl in Hu;
    [exists settled; split_and!; auto; by intros ? [= <-] _..|].
  destruct Hu as [(Hr & Ha)|(Hr & Ha)].
  - exists true. split; [done|]. split; [done|]. split; [intros ? [= <-] _; by left|].
    intros _. right. split; [done|]. split; [done|]. by exists r.
  - exists settled. split; [done|]. split; [done|]. split; [|auto]. intros ? [= <-] _.
    right. split; [done|]. destruct (strong phase i); [|done]. by rewrite Hup in Ha.
Qed.

(** What a request of thread [i] does to the others. *)
Lemma request_others phase settled s i j u ev r cont x w' thj b :
  inv phase settled s -> threads s !! i = Some (mkThread u ev (Call r cont)) ->
  handle r (cluster s) = (x, w') -> keeps b (cluster s) w' ->
  threads s !! j = Some thj -> j <> i -> live thj = true ->
  subject (task thj) <> subject u /\ others (task thj) (cluster s) w'.
Proof.
  intros Hs Hi E HG Hj Hne Hl.
  assert (subject (task thj) <> subject u) as Hsub.
  { intros Hsub. apply Hne. by apply (tidy_exclusive _ (inv_tidy _ _ _ Hs) j i thj _ Hj Hi). }
  split; [done|]. split; [|apply HG..]. intros k nn Ho. apply same_eq.
  eapply sane_frame; [apply (inv_sane _ _ _ _ _ Hs Hi)|exact E|]. intros Hou.
  apply (owns_disjoint u (task thj) k nn); try done;
    [apply (inv_sane _ _ _ _ _ Hs Hi)|apply (inv_sane _ _ _ _ _ Hs Hj)].
Qed.

Lemma concerned_services u v :
  concerned u -> concerned v -> is_service u = true -> is_service v = true -> subject u = subject v.
Proof.
  unfold concerned. destruct u, v; try done. simpl. intros Hu Hv _ _.
  destruct Hu as [?|[?|?]], Hv as [?|[?|?]]; congruence.
Qed.

Lemma inv_request phase settled s i u ev r cont x w' :
  threads s !! i = Some (mkThread u ev (Call r cont)) -> handle r (cluster s) = (x, w') ->
  inv phase settled s ->
  exists settled', (settled = true -> settled' = true) /\
    inv phase settled' (mkSys w' (<[i := mkThread u (ev ++ [Ev r x]) (cont x)]> (threads s))).
Proof.
  intros Hi E Hs. destruct (request_keeps _ _ _ _ _ _ _ _ _ _ Hs Hi E) as (up & Hup & HG & Hu).
  assert (settled = true -> model_ok w' /\ service_up w') as Hupw.
  { intros Hset. destruct (inv_up _ _ _ Hs Hset) as [Hok Hsv].
    split; [by apply HG|]. apply HG; [|apply Hs|done|done].
    unfold upkeep. rewrite Hup; [by rewrite orb_true_r|]. by rewrite Hset, orb_true_r. }
  destruct (request_settles _ _ _ _ _ _ _ Hup Hupw Hu) as (settled' & Hmono & Hup' & Hend & Hnew).
  exists settled'. split; [done|]. pose proof (inv_sane _ _ _ _ _ Hs Hi) as Hsi.
  set (th := mkThread u (ev ++ [Ev r x]) (cont x)) in *.
  pose proof (fun j thj => updated_lookup _ _ _ th j thj Hi) as Hlook.
  pose proof Hs as [Hd Hm Hup0 Hti Hl Hen]. split; cbn [cluster threads].
  - by apply HG.
  - intros Hp. by apply HG, Hm.
  - done.
  - by apply tidy_request.
  - intros j v ev' q k [[-> Hth]|[Hne Hj]]%Hlook Hc.
    + injection Hth as -> -> Hk. exists up. rewrite Hk in *. split; [|by apply Hu].
      intros [Hst|Hst]%orb_true_iff; apply Hup; [by rewrite Hst|].
      destruct (Hnew Hst) as [->|(_ & _ & ? & ?)]; [by rewrite orb_true_r|congruence].
    + destruct (request_others _ _ _ _ _ _ _ _ _ _ _ _ _ Hs Hi E HG Hj Hne eq_refl) as [Hsub Ho].
      destruct (Hl _ _ _ _ _ Hj Hc) as (up' & Hupj & Hu').
      apply (under_stable _ _ _ _ _ _ Ho) in Hu'. destruct (is_service v) eqn:Hv.
      * exists up'. split; [|done]. intros [Hst|Hst]%orb_true_iff; apply Hupj; [by rewrite Hst|].
        destruct (Hnew Hst) as [->|(Hcu & Hsu & _)]; [by rewrite orb_true_r|].
        destruct Hsub. by apply concerned_services.
      * exists true. split; [done|]. by apply (achieves_any up').
  - intros j v ev' q [[-> Hth]|[Hne Hj]]%Hlook Hc.
    + injection Hth as -> -> Hk. by apply Hend.
    + eapply ended_mono, ended_keeps; [done|by eapply Hen|by eapply keeps_less].
Qed.

Lemma inv_external phase settled s w' :
  external (cluster s) w' -> inv phase settled s -> inv phase settled (mkSys w' (threads s)).
Proof.
  intros Hx Hs. assert (keeps true (cluster s) w') as HG
    by (apply footprint_keeps; intros; by apply undisturbed).
  pose proof Hs as [Hd Hm Hup Hti Hl Hen]. split; cbn [cluster threads]; try done.
  - by apply HG.
  - intros Hp. by apply HG, Hm.
  - intros Hset. destruct (Hup Hset). split; [by apply HG|]. by apply HG.
  - by apply tidy_cluster.
  - intros i u ev r cont Hi Hc. destruct (Hl _ _ _ _ _ Hi Hc) as (up & Hu & Ha). exists up.
    split; [done|]. eapply under_stable; [apply _| |exact Ha]. split; [|apply HG..].
    intros k nn Ho. apply undisturbed; [done|]. by eapply concerned_footprint.
  - intros i u ev r Hi Hc. eapply ended_keeps, keeps_less; [by eapply Hen|exact HG].
Qed.

Lemma inv_step phase settled s s' :
  overlap external s s' -> inv phase settled s ->
  exists settled', (settled = true -> settled' = true) /\ inv phase settled' s'.
Proof.
  intros [s0 u Hsc Hfree|s0 i u ev r cont x w' Hi E|s0 w' Hx] Hs.
  - exists settled. split; [done|]. by apply inv_start.
  - by apply (inv_request _ _ _ _ _ _ _ _ _ _ Hi E).
  - exists settled. split; [done|]. by apply inv_external.
Qed.

Lemma inv_steps phase settled s s' :
  rtc (overlap external) s s' -> inv phase settled s ->
  exists settled', (settled = true -> settled' = true) /\ inv phase settled' s'.
Proof.
  intros Hr. revert settled. induction Hr as [s|s1 s2 s3 Hst _ IH]; intros settled Hs; [by exists settled|].
  destruct (inv_step _ _ _ _ Hst Hs) as (set2 & H2 & Hs2). destruct (IH _ Hs2) as (set3 & H3 & Hs3).
  exists set3. auto.
Qed.

Lemma inv_keeps phase settled s s' :
  overlap external s s' -> inv phase settled s -> keeps false (cluster s) (cluster s').
Proof.
  intros [s0 u Hsc Hfree|s0 i u ev r cont x w' Hi E|s0 w' Hx] Hs; cbn [cluster]; [reflexivity|..].
  - destruct (request_keeps _ _ _ _ _ _ _ _ _ _ Hs Hi E) as (up & _ & HG & _). by eapply keeps_less.
  - apply footprint_keeps. by apply undisturbed.
Qed.

Lemma inv_calm phase settled s i u ev :
  inv phase settled s -> threads s !! i <> Some (mkThread u ev Panic).
Proof. intros Hs Hi. by destruct (inv_sane _ _ _ _ _ Hs Hi) as [_ _ _ Hsh _ _]. Qed.

Lemma inv_init w : declared w -> inv None false (mkSys w []).
Proof. intros Hd. split; simpl; try done; by intros []. Qed.

(** From a state in which the model is ready, the next phase. *)
Lemma inv_phase settled s :
  inv None settled s -> model_ok (cluster s) -> inv (Some (length (threads s))) settled s.
Proof.
  intros [Hd _ Hup Hti Hl Hen] Hm.
  assert (forall i th, threads s !! i = Some th -> strong (Some (length (threads s))) i = false)
    as Hst.
  { intros i th Hi%lookup_lt_Some. simpl. rewrite bool_decide_eq_false. lia. }
  split; try done.
  - intros i u ev r cont Hi. rewrite (Hst _ _ Hi). by apply (Hl i u ev).
  - intros i u ev r Hi. rewrite (Hst _ _ Hi). by apply (Hen i u ev).
Qed.
End platform.

Section concurrent.
Context `{L : K8sLib, !K8sLibLaws} {W : Type}
  `{!Cluster W, !ClusterLaws W, !ApiClient.Available W}.

(** C5: the whole operator at work: any number of reconciles of any objects
    at once, their requests interleaved in any order, though never two of one
    object, against a server that is up.  There are a Tenant whose quota parses, a
    Model whose artifact verifies and an InferenceService on it with a known
    profile, and others leave alone these three, the objects of the tenant (its
    namespace, quota, service account, role, binding and network policy), and
    whether there is a Job of the service.  Every reconcile, of any object, asks
    at most eight times and does not panic.  Those of the three end without error.  Once one
    of the tenant has ended its objects are provisioned, and once one of the
    model has, it is reported as verified, whatever else is under way.  One of
    the service ends with the service Ready, with its priority and its Job, or
    asks to be called again in ten seconds; it never does the latter if it was started after
    one of the model had ended.  All of this stays so. *)
Theorem operator_converges (external : W -> W -> Prop) ns mname name (w : W) t m isvc hard s s' :
  stored KTenant w (mkNN "" ns) = Some t ->
  buildQuotaResourceList (tenant_ResourceQuota (tenant_Spec t)) = Ok hard ->
  stored KModel w (mkNN ns mname) = Some m -> verified m = true ->
  stored ISVC w (mkNN ns name) = Some isvc -> isvc_Model (isvc_Spec isvc) = mname ->
  profile_known isvc = true ->
  (forall w1 w2, external w1 w2 -> forall k nn, footprint t m isvc k nn -> same k nn w1 w2) ->
  rtc (overlap external) (mkSys w []) s -> rtc (overlap external) s s' ->
  Forall (fun th => rest th <> Panic /\ (length (past th) <= 8)%nat) (threads s) /\
  (forall now ev r, mkThread (ReconcileTenant now (mkNN "" ns)) ev (Ret r) ∈ threads s ->
     r = (Result0, None) /\ provisioned t (cluster s')) /\
  (forall now ev r, mkThread (ReconcileModel now (mkNN ns mname)) ev (Ret r) ∈ threads s ->
     r = (Result0, None) /\ model_up m (cluster s') /\
     forall i now' ev' r', (length (threads s) <= i)%nat ->
       threads s' !! i =
         Some (mkThread (ReconcileInferenceService now' (mkNN ns name)) ev' (Ret r')) ->
       r' = (Result0, None)) /\
  (forall now ev r, mkThread (ReconcileInferenceService now (mkNN ns name)) ev (Ret r) ∈ threads s ->
     r = (Result0, None) /\ service_up t isvc (cluster s') \/
     r = (mkResult (10 * Second), None)).
Proof.
  intros Ht Hq Hm Hv Hi Hmn Hp Hx Hs Hs'.
  destruct (three_declared _ _ _ _ _ _ _ Ht Hm Hi Hmn) as (Hd & Hin & Hof & Hsco & Kt & Km & Ki).
  destruct (inv_steps external t m isvc hard ltac:(done) ltac:(done) ltac:(done) ltac:(done)
    ltac:(done) ltac:(done) ltac:(done) None false _ _ Hs (inv_init _ _ _ _ Hd)) as (set & _ & HI).
  destruct (inv_steps external t m isvc hard ltac:(done) ltac:(done) ltac:(done) ltac:(done)
    ltac:(done) ltac:(done) ltac:(done) _ _ _ _ Hs' HI) as (set' & Hmono & HI').
  assert (concerned t m isvc (ReconcileTenant 0 (mkNN "" ns))) as Hct by (left; by rewrite <- Kt).
  assert (concerned t m isvc (ReconcileModel 0 (mkNN ns mname))) as Hcm
    by (right; left; by rewrite <- Km).
  assert (concerned t m isvc (ReconcileInferenceService 0 (mkNN ns name))) as Hci
    by (right; right; by rewrite <- Ki).
  split; [|split; [|split]].
  - apply Forall_lookup. intros i th Hth. destruct (inv_sane _ _ _ _ _ _ _ _ HI Hth) as [_ _ _ Hsh Hle _].
    split; [|done]. intros Hpan. by rewrite Hpan in Hsh.
  - intros now ev r [i Hth]%list_elem_of_lookup.
    by apply (inv_ended _ _ _ _ _ _ HI' _ _ _ _ (finished_stays external _ _ _ _ _ _ Hs' Hth) Hct).
  - intros now ev r [j Hth]%list_elem_of_lookup.
    destruct (inv_ended _ _ _ _ _ _ HI' _ _ _ _ (finished_stays external _ _ _ _ _ _ Hs' Hth) Hcm)
      as [Hr Hup]. do 2 (split; [done|]). intros i now' ev' r' Hle Hth'.
    pose proof (inv_ended _ _ _ _ _ _ HI _ _ _ _ Hth Hcm) as [_ Hup0].
    pose proof (inv_phase _ _ _ _ _ HI (model_up_ok _ _ Hup0)) as HI1.
    destruct (inv_steps external t m isvc hard ltac:(done) ltac:(done) ltac:(done) ltac:(done)
      ltac:(done) ltac:(done) ltac:(done) _ _ _ _ Hs' HI1) as (set2 & _ & HI2).
    destruct (inv_ended _ _ _ _ _ _ HI2 _ _ _ _ Hth' Hci) as [[He _]|[_ Hst]]; [done|].
    simpl in Hst. by rewrite bool_decide_eq_false in Hst.
  - intros now ev r [i Hth]%list_elem_of_lookup.
    destruct (inv_ended _ _ _ _ _ _ HI _ _ _ _ Hth Hci) as [[He Hset]|[He _]]; [left|by right].
    split; [done|]. by apply (inv_up _ _ _ _ _ _ HI'), Hmono.
Qed.
End concurrent.
