(* ===== verification/Workqueue.v ===== *)
(** * The work queue

    What makes the controllers converge in operation: an object waits in a
    queue until it is reconciled, and waits again after an error or when its
    reconcile asks to be called again.  When nothing of a tenant, its model and
    its service waits any more they are all up, and from every state that can
    be reached this can be reached. *)
From S2P Require Import Prelude.
From S2P Require Import ApiTypes.
From S2P Require Import K8sLib.
From S2P Require Import ApiClient.
From S2P Require Import Scheduling.
From S2P Require Import ModelController.
From S2P Require Import TenantController.
From S2P Require Import InferenceServiceController.
From S2P Require Import System.
From S2P Require Import Convergence.
From S2P Require Import Interference.
From S2P Require Import Overlap.
From S2P Require Import Concurrent.

(** ** The system with its queue *)

Record Queued (W : Type) := mkQueued { system : Sys W; queue : list (Kind * NamespacedName) }.
Arguments mkQueued {W} system queue.
Arguments system {W} q.
Arguments queue {W} q.

(** Whether the object of a reconcile that ended so is put back. *)
Definition again (r : Result * option error) : bool :=
  match r.2 with Some _ => true | None => bool_decide (0 < RequeueAfter r.1) end.
Definition requeued (th : Thread) : list (Kind * NamespacedName) :=
  match rest th with Ret r => if again r then [subject (task th)] else [] | _ => [] end.

Section steps.
Context `{L : K8sLib} {W : Type} `{!Cluster W}.
Variable external : W -> W -> Prop.

(** An event puts an object in the queue; an object is taken out when it is
    reconciled, which no two reconciles are at once; at its end it may be put
    back.  Delays are not modelled: whatever waits may be reconciled next. *)
Inductive qstep : Queued W -> Queued W -> Prop :=
  | q_event s q k nn : primary k -> qstep (mkQueued s q) (mkQueued s (q ++ [(k, nn)]))
  | q_start s q1 q2 k nn now :
      primary k -> scoped (task_of k nn now) ->
      Forall (fun th => live th = true -> subject (task th) <> (k, nn)) (threads s) ->
      qstep (mkQueued s (q1 ++ (k, nn) :: q2))
        (mkQueued (mkSys (cluster s)
                     (threads s ++ [mkThread (task_of k nn now) [] (program (task_of k nn now))]))
           (q1 ++ q2))
  | q_request s q i u ev r cont x w' :
      threads s !! i = Some (mkThread u ev (Call r cont)) -> handle r (cluster s) = (x, w') ->
      let th := mkThread u (ev ++ [Ev r x]) (cont x) in
      qstep (mkQueued s q) (mkQueued (mkSys w' (<[i := th]> (threads s))) (q ++ requeued th))
  | q_external s q w' :
      external (cluster s) w' -> qstep (mkQueued s q) (mkQueued (mkSys w' (threads s)) q).

(** But for the queue these are the steps of overlapping reconciles. *)
Lemma qstep_overlap q q' :
  qstep q q' -> system q' = system q \/ overlap external (system q) (system q').
Proof.
  intros [s q0 k nn _|s q1 q2 k nn now Hk Hsc Hfree|s q0 i u ev r cont x w' Hi E th|s q0 w' Hx];
    cbn [system]; [by left|right..].
  - apply overlap_start; [done|]. by rewrite subject_task_of.
  - by eapply overlap_request.
  - by apply overlap_external.
Qed.

(** An object waits, or is being reconciled. *)
Definition waiting (x : Kind * NamespacedName) (q : Queued W) : Prop :=
  x ∈ queue q \/
  exists i th, threads (system q) !! i = Some th /\ live th = true /\ subject (task th) = x.

Lemma program_live u : live (mkThread u [] (program u)) = true.
Proof. by destruct u. Qed.

(** It goes on waiting until its reconcile has ended, and need not be called
    again. *)
Lemma waiting_step q q' x :
  qstep q q' -> waiting x q ->
  waiting x q' \/
  exists i u ev r, threads (system q') !! i = Some (mkThread u ev (Ret r)) /\
    subject u = x /\ again r = false \/
    threads (system q') !! i = Some (mkThread u ev Panic).
Proof.
  intros [s q0 k nn _|s q1 q2 k nn now Hk Hsc Hfree|s q0 i u ev r cont x0 w' Hi E th|s q0 w' Hx];
    intros [Hq|(j & thj & Hj & Hl & Hsub)]; unfold waiting; cbn [system queue threads] in *.
  - left. left. rewrite elem_of_app. by left.
  - left. right. by exists j, thj.
  - left. rewrite elem_of_app, elem_of_cons in Hq. rewrite elem_of_app.
    destruct Hq as [Hq|[->|Hq]]; [left; by left| |left; by right].
    right. eexists (length (threads s)), _. split; [by apply list_lookup_middle|].
    split; [apply program_live|by apply subject_task_of].
  - left. right. exists j, thj. split; [|done]. rewrite lookup_app_l; [done|by eapply lookup_lt_Some].
  - left. left. rewrite elem_of_app. by left.
  - destruct (decide (j = i)) as [->|Hne].
    2:{ left. right. exists j, thj. by rewrite list_lookup_insert_ne. }
    rewrite Hi in Hj. injection Hj as <-. cbn [task] in Hsub.
    assert (<[i := th]> (threads s) !! i = Some th) as Hth
      by (apply list_lookup_insert_eq; by eapply lookup_lt_Some).
    destruct (cont x0) as [res| |r2 k2] eqn:Ec.
    + destruct (again res) eqn:Ha.
      * left. left. rewrite elem_of_app. right. unfold requeued, th. cbn [rest task].
        rewrite ?Ec, Ha, Hsub. apply list_elem_of_here.
      * right. exists i, u, (ev ++ [Ev r x0]), res. left. unfold th in Hth. by rewrite ?Ec in Hth.
    + right. exists i, u, (ev ++ [Ev r x0]), (Result0, None). right. unfold th in Hth.
      by rewrite ?Ec in Hth.
    + left. right. exists i, th. split; [done|]. split; [|done]. unfold th, live. cbn [rest].
      by rewrite ?Ec.
  - left. by left.
  - left. right. by exists j, thj.
Qed.
End steps.

(** ** Letting it work *)

(** No reconcile is under way. *)
Definition idle {W} (q : Queued W) : Prop :=
  Forall (fun th => live th = false) (threads (system q)).

(** A system that has this one as a part: reconciles can be seen through to
    their end, and started from the queue when nothing else is under way.
    What else a step leaves behind is the business of the system. *)
Class Scheduler (W : Type) `{!Cluster W} (St : Type) := {
  view : St -> Queued W;
  moves : St -> St -> Prop;
  leftover : option Req -> W -> St -> St -> Prop
}.

Class SchedulerLaws `{L : K8sLib} (W : Type) `{!Cluster W} (St : Type) `{!Scheduler W St} : Prop := {
  can_request st i u ev r cont :
    threads (system (view st)) !! i = Some (mkThread u ev (Call r cont)) ->
    let w := cluster (system (view st)) in
    let th := mkThread u (ev ++ [Ev r (handle r w).1]) (cont (handle r w).1) in
    exists st', moves st st' /\ leftover (Some r) w st st' /\
      view st' = mkQueued (mkSys (handle r w).2 (<[i := th]> (threads (system (view st)))))
                   (queue (view st) ++ requeued th);
  can_start st q1 q2 k nn :
    queue (view st) = q1 ++ (k, nn) :: q2 -> primary k -> scoped (task_of k nn 0) ->
    idle (view st) ->
    let s := system (view st) in
    let u := task_of k nn 0 in
    exists st', moves st st' /\ leftover None (cluster s) st st' /\
      view st' = mkQueued (mkSys (cluster s) (threads s ++ [mkThread u [] (program u)])) (q1 ++ q2)
}.

Section work.
Context `{L : K8sLib} {W : Type} `{!Cluster W} {St : Type} `{!Scheduler W St, !SchedulerLaws W St}.
Implicit Types st : St.

(** What the requests of a program leave behind. *)
Fixpoint along {A} (p : Prog A) (w : W) (st st' : St) : Prop :=
  match p with
  | Call r cont => exists st1, leftover (Some r) w st st1 /\
      along (cont (handle r w).1) (handle r w).2 st1 st'
  | _ => st' = st
  end.

Definition over (o : option (Result * option error)) : Prog (Result * option error) :=
  match o with Some r => Ret r | None => Panic end.

Lemma run_Call {A} r (cont : Resp r -> Prog A) w :
  outcome (Call r cont) w = outcome (cont (handle r w).1) (handle r w).2 /\
  final (Call r cont) w = final (cont (handle r w).1) (handle r w).2.
Proof.
  unfold outcome, final. simpl. destruct (handle r w) as [x w1]. cbn [fst snd].
  by destruct (run (cont x) w1) as [[t o] w2].
Qed.

(** A reconcile that is under way, seen through to its end. *)
Lemma finish p : forall u ev i st,
  threads (system (view st)) !! i = Some (mkThread u ev p) -> live (mkThread u ev p) = true ->
  let s := system (view st) in
  exists st' th, rtc moves st st' /\ along p (cluster s) st st' /\
    task th = u /\ rest th = over (outcome p (cluster s)) /\
    view st' = mkQueued (mkSys (final p (cluster s)) (<[i := th]> (threads s)))
                 (queue (view st) ++ requeued th).
Proof.
  induction p as [r| |r cont IH]; intros u ev i st Hi Hl s; [done..|].
  destruct (can_request st i u ev r cont Hi) as (st1 & Hm & Hleft & Hv). fold s in Hleft, Hv.
  set (x := (handle r (cluster s)).1) in *. set (th := mkThread u (ev ++ [Ev r x]) (cont x)) in *.
  destruct (run_Call r cont (cluster s)) as [-> ->]. fold x.
  assert (threads (system (view st1)) !! i = Some th) as Hi1
    by (rewrite Hv; apply list_lookup_insert_eq; by eapply lookup_lt_Some).
  destruct (live th) eqn:Hth.
  - destruct (IH x u _ i st1 Hi1 Hth) as (st' & th' & Hr & Hal & Ht & He & Hv').
    rewrite Hv in Hal, He, Hv'. cbn [system cluster threads queue] in Hal, He, Hv'.
    rewrite list_insert_insert_eq in Hv'. exists st', th'.
    split; [by eapply rtc_l|]. split; [by exists st1|]. split; [done|]. split; [done|].
    rewrite Hv'. f_equal. replace (requeued th) with (@nil (Kind * NamespacedName));
      [by rewrite app_nil_r|]. unfold requeued. unfold th, live in Hth |- *. cbn [rest] in *.
    by destruct (cont x).
  - exists st1, th. split; [by apply rtc_once|].
    assert (along (cont x) (handle r (cluster s)).2 st1 st1 /\
            rest th = over (outcome (cont x) (handle r (cluster s)).2) /\
            final (cont x) (handle r (cluster s)).2 = (handle r (cluster s)).2) as (Hal & Hrest & ->).
    { unfold th, live in Hth |- *. cbn [rest] in *. by destruct (cont x). }
    split; [by exists st1|]. by split.
Qed.

Lemma over_idle th o : rest th = over o -> live th = false.
Proof. unfold live. intros ->. by destruct o. Qed.

Lemma quiesce st : exists st', rtc moves st st' /\ idle (view st').
Proof.
  assert (forall n, exists st', rtc moves st st' /\
    length (threads (system (view st'))) = length (threads (system (view st))) /\
    forall i th, threads (system (view st')) !! i = Some th -> (i < n)%nat -> live th = false) as Hn.
  { induction n as [|n (st1 & Hr1 & Hlen & Hd)]; [exists st; split_and!; [done..|lia]|].
    assert (forall th, threads (system (view st1)) !! n = Some th -> live th = false ->
      forall i th, threads (system (view st1)) !! i = Some th -> (i < S n)%nat -> live th = false) as Hdone.
    { intros th0 H0 Hl i th Hi Hlt. destruct (decide (i = n)) as [->|]; [congruence|].
      apply (Hd i); [done|lia]. }
    destruct (threads (system (view st1)) !! n) as [[u ev p]|] eqn:Hn.
    2:{ exists st1. split_and!; [done..|]. intros i th Hi Hlt. apply (Hd i); [done|].
        assert (i <> n) by congruence. lia. }
    destruct (live (mkThread u ev p)) eqn:Hl; [|exists st1; split_and!; [done..|by eapply Hdone]].
    destruct (finish p u ev n st1 Hn Hl) as (st' & th' & Hr & _ & _ & Hth%over_idle & Hv).
    exists st'. split; [by etransitivity|]. rewrite Hv. cbn [system threads].
    split; [by rewrite length_insert|].
    intros i th Hi Hlt. destruct (decide (i = n)) as [->|Hne].
    - rewrite list_lookup_insert_eq in Hi by (by eapply lookup_lt_Some). by injection Hi as <-.
    - rewrite list_lookup_insert_ne in Hi by done. apply (Hd i); [done|lia]. }
  destruct (Hn (length (threads (system (view st))))) as (st' & Hr & Hlen & Hd). exists st'.
  split; [done|]. apply Forall_lookup. intros i th Hi. apply (Hd i th Hi). rewrite <- Hlen.
  by eapply lookup_lt_Some.
Qed.

(** What is in the queue, reconciled. *)
Lemma serve st q1 q2 k nn :
  queue (view st) = q1 ++ (k, nn) :: q2 -> idle (view st) -> primary k -> scoped (task_of k nn 0) ->
  let s := system (view st) in
  let u := task_of k nn 0 in
  exists st1 st' th, rtc moves st st' /\
    leftover None (cluster s) st st1 /\ along (program u) (cluster s) st1 st' /\
    task th = u /\ rest th = over (outcome (program u) (cluster s)) /\
    view st' = mkQueued (mkSys (final (program u) (cluster s)) (threads s ++ [th]))
                 (q1 ++ q2 ++ requeued th).
Proof.
  intros Hq Hidle Hk Hsc s u. destruct (can_start st q1 q2 k nn Hq Hk Hsc Hidle) as (st1 & Hm & Hl & Hv).
  fold s u in Hl, Hv.
  destruct (finish (program u) u [] (length (threads s)) st1) as (st' & th & Hr & Hal & Ht & He & Hv');
    [rewrite Hv; by apply list_lookup_middle|apply program_live|].
  rewrite Hv in Hal, He, Hv'. cbn [system cluster threads queue] in Hal, He, Hv'.
  rewrite insert_app_r_alt, Nat.sub_diag, <- app_assoc in Hv' by done.
  exists st1, st', th. split; [by eapply rtc_l|]. done.
Qed.
End work.

(** The system with its queue is one. *)
Section self.
Context `{L : K8sLib} {W : Type} `{!Cluster W} (external : W -> W -> Prop).

#[local] Instance queue_scheduler : Scheduler W (Queued W) :=
  {| view := id; moves := qstep external; leftover := fun _ _ _ _ => True |}.

#[local] Instance queue_scheduler_laws : SchedulerLaws W (Queued W).
Proof.
  split.
  - intros [[w ths] q] i u ev r cont Hi. cbn [view queue_scheduler id system threads cluster queue] in *.
    cbv zeta. destruct (handle r w) as [x w'] eqn:E. eexists. split; [|done].
    by apply (q_request external (mkSys w ths) q i u ev r cont x w').
  - intros [[w ths] q] q1 q2 k nn Hq Hk Hsc Hidle.
    cbn [view queue_scheduler id system threads cluster queue] in *. subst q. eexists.
    split; [|done]. apply (q_start external (mkSys w ths)); [done..|].
    eapply Forall_impl; [|exact Hidle]. intros th0 H0 H1. congruence.
Qed.

Lemma queue_quiesce q : exists q', rtc (qstep external) q q' /\ idle q'.
Proof. exact (quiesce (St := Queued W) q). Qed.

Lemma queue_serve w ths q1 q2 k nn :
  idle (mkQueued (mkSys w ths) (q1 ++ (k, nn) :: q2)) -> primary k -> scoped (task_of k nn 0) ->
  exists w' th, live th = false /\ subject (task th) = (k, nn) /\
    rtc (qstep external) (mkQueued (mkSys w ths) (q1 ++ (k, nn) :: q2))
      (mkQueued (mkSys w' (ths ++ [th])) (q1 ++ q2 ++ requeued th)).
Proof.
  intros Hidle Hk Hsc.
  pose proof (serve (mkQueued (mkSys w ths) (q1 ++ (k, nn) :: q2)) q1 q2 k nn) as Hs.
  destruct (Hs eq_refl Hidle Hk Hsc)
    as (_ & q' & th & Hr & _ & _ & Ht & He%over_idle & Hv).
  cbn [view queue_scheduler id] in Hv. subst q'. eexists _, th. split; [done|].
  split; [rewrite Ht; by apply subject_task_of|exact Hr].
Qed.
End self.

(** ** A tenant, a model of it, and a service on the model *)

Section platform.
Context `{L : K8sLib, !K8sLibLaws} {W : Type}
  `{!Cluster W, !ClusterLaws W, !ApiClient.Available W}.
Variable external : W -> W -> Prop.
Variables (t : Tenant) (m : Model) (isvc : InferenceService) (hard : ResourceList).
Hypothesis quota_built : buildQuotaResourceList (tenant_ResourceQuota (tenant_Spec t)) = Ok hard.
Hypothesis model_verifies : verified m = true.
Hypothesis known_profile : profile_known isvc = true.
Hypothesis in_tenant : Namespace_ (isvc_ObjectMeta isvc) = tenant_name t.
Hypothesis of_model :
  mkNN (Namespace_ (isvc_ObjectMeta isvc)) (isvc_Model (isvc_Spec isvc)) = key KModel m.
Hypothesis cluster_scoped : Namespace_ (tenant_ObjectMeta t) = "".
Hypothesis undisturbed : forall w w', external w w' ->
  forall k nn, footprint t m isvc k nn -> same k nn w w'.

Abbreviation inv := (inv t m isvc).
Abbreviation qstep := (qstep external).
Abbreviation the_tenant := (KTenant, key KTenant t).
Abbreviation the_model := (KModel, key KModel m).
Abbreviation the_service := (ISVC, key ISVC isvc).

(** Each waits, or has been established. *)
Record qinv (settled : bool) (q : Queued W) : Prop := {
  qinv_inv : inv None settled (system q);
  qinv_tenant : waiting the_tenant q \/ provisioned t (cluster (system q));
  qinv_model : waiting the_model q \/ model_up m (cluster (system q));
  qinv_service : waiting the_service q \/ settled = true
}.

Lemma step_inv phase settled q q' :
  qstep q q' -> inv phase settled (system q) ->
  keeps t m isvc false (cluster (system q)) (cluster (system q')) /\
  exists settled', (settled = true -> settled' = true) /\ inv phase settled' (system q').
Proof.
  intros [->|Hst]%qstep_overlap Hs; [split; [reflexivity|by exists settled]|]. split.
  - by eapply inv_keeps.
  - by eapply inv_step.
Qed.

Lemma steps_inv phase settled q q' :
  rtc qstep q q' -> inv phase settled (system q) ->
  keeps t m isvc false (cluster (system q)) (cluster (system q')) /\
  exists settled', (settled = true -> settled' = true) /\ inv phase settled' (system q').
Proof.
  intros Hr. revert settled. induction Hr as [q|q1 q2 q3 Hst _ IH]; intros settled Hs;
    [split; [reflexivity|by exists settled]|].
  destruct (step_inv _ _ _ _ Hst Hs) as (HG & set2 & H2 & Hs2).
  destruct (IH _ Hs2) as (HG' & set3 & H3 & Hs3). split; [by etransitivity|]. exists set3. auto.
Qed.

(** What is left of the reconcile that ended a wait. *)
Lemma waiting_ended settled q q' x :
  qstep q q' -> inv None settled (system q') -> waiting x q ->
  waiting x q' \/
  forall u0, subject u0 = x -> concerned t m isvc u0 ->
    exists u r, subject u = x /\ again r = false /\
      ended t m settled false u r (cluster (system q')).
Proof.
  intros Hst Hs Hw. destruct (waiting_step _ _ _ _ Hst Hw) as [Hw'|(i & u & ev & r & [(Hi & Hsub & Ha)|Hi])];
    [by left|right|by destruct (inv_calm _ _ _ _ _ _ _ _ _ Hs Hi)].
  intros u0 Hu0 Hc. exists u, r. split; [done|]. split; [done|].
  apply (inv_ended _ _ _ _ _ _ Hs _ _ _ _ Hi). unfold concerned in *. by rewrite Hsub, <- Hu0.
Qed.

Lemma qinv_step settled q q' :
  qstep q q' -> qinv settled q -> exists settled', (settled = true -> settled' = true) /\ qinv settled' q'.
Proof.
  intros Hst [Hs Ht Hm Hi]. destruct (step_inv _ _ _ _ Hst Hs) as (HG & settled' & Hmono & Hs').
  exists settled'. split; [done|]. split; [done|..].
  - destruct Ht as [Hw|Hp]; [|right; by apply HG].
    destruct (waiting_ended _ _ _ _ Hst Hs' Hw) as [?|Hend]; [by left|right].
    destruct (Hend (ReconcileTenant 0 (key KTenant t)) eq_refl) as (u & r & Hsub & _ & He);
      [by left|]. destruct u; try done. by apply He.
  - destruct Hm as [Hw|Hp]; [|right; by apply HG].
    destruct (waiting_ended _ _ _ _ Hst Hs' Hw) as [?|Hend]; [by left|right].
    destruct (Hend (ReconcileModel 0 (key KModel m)) eq_refl) as (u & r & Hsub & _ & He);
      [right; by left|]. destruct u; try done. by apply He.
  - destruct Hi as [Hw|Hp]; [|right; auto].
    destruct (waiting_ended _ _ _ _ Hst Hs' Hw) as [?|Hend]; [by left|right].
    destruct (Hend (ReconcileInferenceService 0 (key ISVC isvc)) eq_refl) as (u & r & Hsub & Ha & He);
      [right; by right|]. destruct u; try done. destruct He as [[_ ?]|[-> _]]; [done|].
    vm_compute in Ha. done.
Qed.

Lemma qinv_steps settled q q' : rtc qstep q q' -> qinv settled q -> exists settled', qinv settled' q'.
Proof.
  intros Hr. revert settled. induction Hr as [q|q1 q2 q3 Hst _ IH]; intros settled Hq;
    [by exists settled|]. destruct (qinv_step _ _ _ Hst Hq) as (set2 & _ & H2). by apply (IH set2).
Qed.

Lemma qinv_init w q : 
  declared t m isvc w -> the_tenant ∈ q -> the_model ∈ q -> the_service ∈ q ->
  qinv false (mkQueued (mkSys w []) q).
Proof. intros Hd Ht Hm Hi. split; [by apply inv_init|left; by left..]. Qed.

Abbreviation the_three := [the_tenant; the_model; the_service].
Abbreviation none_waits q := (Forall (fun x => ~ waiting x q) the_three).
Abbreviation all_up w := (provisioned t w /\ model_up m w /\ service_up t isvc w).

(** When none of them waits they are all up, and stay so. *)
Lemma qinv_up settled q q' :
  qinv settled q -> none_waits q -> rtc qstep q q' -> all_up (cluster (system q')).
Proof.
  rewrite !Forall_cons_iff. intros [Hs [?|Ht] [?|Hm] [?|Hi]] (Nt & Nm & Ni & _) Hr; try done.
  destruct (steps_inv _ _ _ _ Hr Hs) as (HG & settled' & Hmono & Hs').
  split; [by apply HG|]. split; [by apply HG|]. apply (inv_up _ _ _ _ _ _ Hs'). auto.
Qed.

(** *** The queue can be drained of them *)

(** A reconcile of one of them that is over is not put back; of the service, if
    the model was ready when it started. *)
Lemma not_requeued phase settled s i th :
  inv phase settled s -> threads s !! i = Some th -> live th = false ->
  subject (task th) ∈ the_three -> (subject (task th) = the_service -> strong phase i = true) ->
  requeued th = [].
Proof.
  intros Hs Hi Hl Hin Hst. destruct th as [u ev [r| |r cont]]; [|done..]. cbn [task] in *.
  assert (concerned t m isvc u) as Hc
    by (rewrite !elem_of_cons, elem_of_nil in Hin; unfold concerned; tauto).
  pose proof (inv_ended _ _ _ _ _ _ Hs _ _ _ _ Hi Hc) as He. unfold requeued. cbn [rest task].
  destruct u as [now req|now req|now req]; cbn [ended] in He; [by destruct He as [-> _]..|].
  destruct He as [[-> _]|[-> Hf]]; [done|]. rewrite Hst in Hf; [done|].
  simpl. by rewrite !elem_of_cons, elem_of_nil in Hin; simpl in Hin; intuition congruence.
Qed.

Lemma drain phase x : x ∈ the_three -> forall n q settled,
  length (queue q) = n -> idle q -> inv phase settled (system q) ->
  (x = the_service -> strong phase (length (threads (system q))) = true) ->
  exists q', rtc qstep q q' /\ idle q' /\ (x ∉ queue q') /\ queue q' ⊆ queue q.
Proof.
  intros Hx. induction n as [|n IH]; intros q settled Hlen Hidle Hs Hst.
  { exists q. split; [done|]. split; [done|]. rewrite (nil_length_inv _ Hlen). split; [apply not_elem_of_nil|done]. }
  destruct (decide (x ∈ queue q)) as [Hin|]; [|by exists q].
  apply list_elem_of_split in Hin as (q1 & q2 & Hq). destruct q as [[w ths] qu].
  cbn [queue system threads cluster] in *. subst qu. destruct x as [k nn].
  assert (primary k /\ scoped (task_of k nn 0)) as [Hk Hsc].
  { rewrite !elem_of_cons, elem_of_nil in Hx. unfold primary.
    destruct Hx as [[= -> ->]|[[= -> ->]|[[= -> ->]|[]]]]; simpl; auto. }
  destruct (queue_serve external w ths q1 q2 k nn Hidle Hk Hsc) as (w' & th & Hl & Hsub & Hr).
  destruct (steps_inv _ _ _ _ Hr Hs) as (_ & settled' & _ & Hs').
  assert (requeued th = []) as Hn.
  { apply (not_requeued phase settled' _ (length ths) th Hs');
      [by apply list_lookup_middle|done|by rewrite Hsub|]. rewrite Hsub. exact Hst. }
  rewrite Hn, app_nil_r in Hr.
  destruct (IH (mkQueued (mkSys w' (ths ++ [th])) (q1 ++ q2)) settled') as (q' & Hr' & Hi' & Hx' & Hsb);
    [| |done| |].
  - cbn [queue]. rewrite !length_app in *. simpl in Hlen. lia.
  - apply Forall_app. split; [exact Hidle|]. by constructor.
  - intros He. specialize (Hst He). revert Hst. cbn [system threads]. destruct phase as [b|]; [|done].
    simpl. rewrite length_app, !bool_decide_eq_true. lia.
  - exists q'. split; [by etransitivity|]. split; [done|]. split; [done|]. cbn [queue] in Hsb.
    etransitivity; [exact Hsb|]. intros y. rewrite !elem_of_app, elem_of_cons. tauto.
Qed.

Lemma idle_waiting (q : Queued W) x : idle q -> x ∉ queue q -> ~ waiting x q.
Proof.
  intros Hi Hx [?|(i & th & Hth & Hl & _)]; [done|]. unfold idle in Hi. rewrite Forall_lookup in Hi.
  by rewrite (Hi _ _ Hth) in Hl.
Qed.

(** The tenant and its model come first; then the service is found ready. *)
Lemma drained_idle settled q1 : qinv settled q1 -> idle q1 ->
  exists q', rtc qstep q1 q' /\ idle q' /\ queue q' ⊆ queue q1 /\ Forall (fun x => x ∉ queue q') the_three.
Proof.
  intros Hq1 Hi1.
  destruct (drain None the_tenant ltac:(set_solver) _ q1 settled eq_refl Hi1 (qinv_inv _ _ Hq1) ltac:(done))
    as (q2 & Hr2 & Hi2 & Hx2 & Hs2).
  destruct (qinv_steps _ _ _ Hr2 Hq1) as (s2 & Hq2).
  destruct (drain None the_model ltac:(set_solver) _ q2 s2 eq_refl Hi2 (qinv_inv _ _ Hq2) ltac:(done))
    as (q3 & Hr3 & Hi3 & Hx3 & Hs3).
  destruct (qinv_steps _ _ _ Hr3 Hq2) as (s3 & Hq3).
  destruct (qinv_model _ _ Hq3) as [Hw|Hm]; [by destruct (idle_waiting _ _ Hi3 Hx3)|].
  pose proof (inv_phase _ _ _ _ _ (qinv_inv _ _ Hq3) (model_up_ok _ _ Hm)) as Hp.
  destruct (drain _ the_service ltac:(set_solver) _ q3 s3 eq_refl Hi3 Hp)
    as (q4 & Hr4 & Hi4 & Hx4 & Hs4); [intros _; by apply bool_decide_eq_true|].
  exists q4. split; [by repeat (etransitivity; [eassumption|])|]. split; [done|].
  split; [by repeat (etransitivity; [eassumption|])|]. repeat constructor; auto.
Qed.

Lemma drained settled q : qinv settled q -> exists q', rtc qstep q q' /\ none_waits q'.
Proof.
  intros Hq. destruct (queue_quiesce external q) as (q1 & Hr1 & Hi1).
  destruct (qinv_steps _ _ _ Hr1 Hq) as (s1 & Hq1).
  destruct (drained_idle s1 q1 Hq1 Hi1) as (q2 & Hr2 & Hi2 & _ & Hn).
  exists q2. split; [by etransitivity|]. eapply Forall_impl; [|exact Hn].
  intros x Hx. by apply idle_waiting.
Qed.
End platform.

Section settles.
Context `{L : K8sLib, !K8sLibLaws} {W : Type}
  `{!Cluster W, !ClusterLaws W, !ApiClient.Available W}.

(** The operator with its work queue: a tenant, a model of it and a
    service on the model wait to be reconciled, at first.  An object leaves the
    queue when its reconcile starts, and goes back when it ended with an error
    or asked to be called again.  Whatever else waits or is reconciled in
    between, when none of the three waits any more, the tenant is provisioned,
    the model verified and the service up, and this stays so; and in every
    state that can be reached the operator can still get there. *)
Theorem operator_settles (external : W -> W -> Prop) ns mname name (w : W) waits t m isvc hard q :
  stored KTenant w (mkNN "" ns) = Some t ->
  buildQuotaResourceList (tenant_ResourceQuota (tenant_Spec t)) = Ok hard ->
  stored KModel w (mkNN ns mname) = Some m -> verified m = true ->
  stored ISVC w (mkNN ns name) = Some isvc -> isvc_Model (isvc_Spec isvc) = mname ->
  profile_known isvc = true ->
  (forall w1 w2, external w1 w2 -> forall k nn, footprint t m isvc k nn -> same k nn w1 w2) ->
  let three := [(KTenant, mkNN "" ns); (KModel, mkNN ns mname); (ISVC, mkNN ns name)] in
  three ⊆ waits -> rtc (qstep external) (mkQueued (mkSys w []) waits) q ->
  (Forall (fun x => ~ waiting x q) three -> forall q', rtc (qstep external) q q' ->
     let w' := cluster (system q') in provisioned t w' /\ model_up m w' /\ service_up t isvc w') /\
  exists q', rtc (qstep external) q q' /\ Forall (fun x => ~ waiting x q') three.
Proof.
  intros Ht Hq Hm Hv Hi Hmn Hp Hx three Hin Hr.
  destruct (three_declared _ _ _ _ _ _ _ Ht Hm Hi Hmn) as (Hd & Hns & Hof & Hsco & Kt & Km & Ki).
  subst three. rewrite <- Kt, <- Km, <- Ki in Hin |- *.
  assert (qinv t m isvc false (mkQueued (mkSys w []) waits)) as Hinit
    by (apply qinv_init; [done|apply Hin; set_solver..]).
  eapply qinv_steps in Hinit as [settled HQ]; [|done..]. split.
  - intros Hn q' Hr'. by eapply qinv_up.
  - by eapply drained.
Qed.
End settles.
