(* ===== verification/Fairness.v ===== *)
(** * Fair runs

    Endless runs of the operator with its work queue.  In a fair one every
    reconcile that is under way goes on in the end, and whatever waits is taken
    up in the end.  In every such run a tenant, its model and its service come up
    and stay up, whatever else is reconciled and however often. *)
From S2P Require Import Prelude.
From S2P Require Import ApiTypes.
From S2P Require Import K8sLib.
From S2P Require Import ApiClient.
From S2P Require Import ModelController.
From S2P Require Import TenantController.
From S2P Require Import InferenceServiceController.
From S2P Require Import System.
From S2P Require Import Convergence.
From S2P Require Import Interference.
From S2P Require Import Overlap.
From S2P Require Import Concurrent.
From S2P Require Import Workqueue.

(** ** Runs *)

Section runs.
Context `{L : K8sLib} {W : Type} `{!Cluster W}.
Variable external : W -> W -> Prop.

Abbreviation qstep := (qstep external).
Abbreviation ths s := (threads (system s)).

(** At each moment there is a step, of the operator or of others, or nothing
    happens. *)
Definition endless (run : nat -> Queued W) : Prop :=
  forall n, run (S n) = run n \/ qstep (run n) (run (S n)).

Record fair (run : nat -> Queued W) : Prop := {
  fair_request n i th : ths (run n) !! i = Some th -> live th = true ->
    exists n', (n <= n')%nat /\ ths (run n') !! i <> Some th;
  fair_start n k nn : primary k -> scoped (task_of k nn 0) -> (k, nn) ∈ queue (run n) ->
    exists n' i th, (n <= n')%nat /\ (length (ths (run n)) <= i)%nat /\
      ths (run n') !! i = Some th /\ subject (task th) = (k, nn)
}.

Lemma endless_steps run n n' : endless run -> (n <= n')%nat -> rtc qstep (run n) (run n').
Proof.
  intros He. induction 1 as [|n' _ IH]; [done|]. destruct (He n') as [->|Hst]; [done|].
  by eapply rtc_r.
Qed.

(** What becomes of a reconcile in a step; if it ends and asks for it, it is put
    back in the queue. *)
Lemma qstep_thread s s' i u ev p :
  qstep s s' -> ths s !! i = Some (mkThread u ev p) ->
  ths s' !! i = Some (mkThread u ev p) \/
  match p with
  | Call r cont => exists x, let th := mkThread u (ev ++ [Ev r x]) (cont x) in
      ths s' !! i = Some th /\ requeued th ⊆ queue s'
  | _ => False
  end.
Proof.
  intros [s0 q k nn _|s0 q1 q2 k nn now _ _ _|s0 q j v ev' r cont x w' Hj E th|s0 q w' _] Hi;
    cbn [system queue threads] in *; [by left| | |by left].
  - left. rewrite lookup_app_l; [done|by eapply lookup_lt_Some].
  - destruct (decide (j = i)) as [->|Hne]; [|left; by rewrite list_lookup_insert_ne].
    right. assert (mkThread u ev p = mkThread v ev' (Call r cont)) as [= -> -> ->] by congruence.
    exists x. split.
    + rewrite list_lookup_insert_eq; [done|by eapply lookup_lt_Some].
    + intros y Hy. apply elem_of_app. by right.
Qed.

Lemma steps_length s s' : rtc qstep s s' -> (length (ths s) <= length (ths s'))%nat.
Proof.
  induction 1 as [|s1 s2 s3 Hst _ IH]; [done|]. etransitivity; [|exact IH].
  destruct Hst; cbn [system threads]; rewrite ?length_app, ?length_insert; lia.
Qed.

(** What waits is there until it is started. *)
Lemma steps_started s s' x :
  rtc qstep s s' -> x ∈ queue s ->
  x ∈ queue s' \/ exists i th, (length (ths s) <= i)%nat /\ ths s' !! i = Some th /\ subject (task th) = x.
Proof.
  intros Hr Hx. revert s' Hr. apply rtc_ind_r; [by left|].
  intros s1 s2 Hr Hst [Hq|(i & [u ev p] & Hi & Hth & Hsub)].
  - apply steps_length in Hr. destruct Hst as [s0 q k nn _|s0 q1 q2 k nn now Hk _ _|s0 q j v ev' r cont x0 w' Hj E th|s0 q w' _];
      cbn [system queue threads] in *; [left; apply elem_of_app; by left| |left; apply elem_of_app; by left|by left].
    rewrite elem_of_app, elem_of_cons in Hq. rewrite elem_of_app.
    destruct Hq as [Hq|[->|Hq]]; [left; by left| |left; by right]. right. eexists _, _.
    split; [exact Hr|]. split; [by apply list_lookup_middle|]. by apply subject_task_of.
  - right. exists i. destruct (qstep_thread _ _ _ _ _ _ Hst Hth) as [Hth'|Hadv]; [by eexists|].
    destruct p as [| |r cont]; [done..|]. destruct Hadv as (x0 & Hth' & _). by eexists.
Qed.

(** ** Fair runs exist *)

Lemma steps_run s s' :
  rtc qstep s s' -> exists run N, run 0%nat = s /\ endless run /\ forall n, (N <= n)%nat -> run n = s'.
Proof.
  induction 1 as [s|s1 s2 s3 Hst _ (run & N & H0 & He & HN)].
  - exists (fun _ => s), 0%nat. split; [done|]. by split; [left|].
  - exists (fun n => match n with O => s1 | S n => run n end), (S N). split; [done|]. split.
    + intros [|n]; [right; by rewrite H0|apply He].
    + intros [|n] Hn; [lia|]. apply HN. lia.
Qed.

Lemma rest_is_fair run N s :
  endless run -> (forall n, (N <= n)%nat -> run n = s) -> idle s -> queue s = [] -> fair run.
Proof.
  intros He HN Hi Hq. assert (forall n, exists n', (n <= n')%nat /\ run n' = s) as Hend
    by (intros n; exists (n + N)%nat; split; [lia|]; apply HN; lia).
  split.
  - intros n i th Hth Hl. destruct (Hend n) as (n' & Hn & Hs). exists n'. split; [done|].
    rewrite Hs. intros Hth'. unfold idle in Hi. rewrite Forall_lookup in Hi.
    by rewrite (Hi _ _ Hth') in Hl.
  - intros n k nn _ _ Hin. destruct (Hend n) as (n' & Hn & Hs).
    destruct (steps_started _ _ _ (endless_steps run n n' He Hn) Hin) as [Hin'|(i & th & ? & ? & ?)].
    + rewrite Hs, Hq in Hin'. by apply elem_of_nil in Hin'.
    + by exists n', i, th.
Qed.

(** ** What is under way ends *)

Lemma advances run n n' i u ev r cont :
  endless run -> (n <= n')%nat -> ths (run n) !! i = Some (mkThread u ev (Call r cont)) ->
  ths (run n') !! i = Some (mkThread u ev (Call r cont)) \/
  exists m x, (n <= m)%nat /\ let th := mkThread u (ev ++ [Ev r x]) (cont x) in
    ths (run m) !! i = Some th /\ requeued th ⊆ queue (run m).
Proof.
  intros He Hn Hi. induction Hn as [|n' Hn [IH|(m & x & Hm & IH)]]; [by left| |right; by exists m, x].
  destruct (He n') as [->|Hst]; [by left|].
  destruct (qstep_thread _ _ _ _ _ _ Hst IH) as [?|(x & Hth)]; [by left|right].
  exists (S n'), x. split; [lia|exact Hth].
Qed.

Lemma ends run : endless run -> fair run -> forall p n i u ev,
  ths (run n) !! i = Some (mkThread u ev p) -> live (mkThread u ev p) = true ->
  exists n' th, (n <= n')%nat /\ ths (run n') !! i = Some th /\ task th = u /\ live th = false /\
    requeued th ⊆ queue (run n').
Proof.
  intros He Hf. induction p as [a| |r cont IH]; intros n i u ev Hi Hl; [done..|].
  destruct (fair_request _ Hf n i _ Hi Hl) as (n' & Hn & Hne).
  destruct (advances run n n' i u ev r cont He Hn Hi) as [?|(m & x & Hm & Hth & Hq)]; [done|].
  destruct (live (mkThread u (ev ++ [Ev r x]) (cont x))) eqn:Hlx.
  - destruct (IH x m i u _ Hth Hlx) as (n2 & th & Hn2 & Hrest). exists n2, th. split; [lia|done].
  - exists m. eexists. split; [done|]. by split.
Qed.
End runs.

(** ** A tenant, a model of it, and a service on the model *)

Section platform.
Context `{L : K8sLib, !K8sLibLaws} {W : Type}
  `{!Cluster W, !ClusterLaws W, !ApiClient.Available W}.
Variable external : W -> W -> Prop.
Variables (t : Tenant) (m : Model) (isvc : InferenceService) (hard : ResourceList).
Hypothesis quota_built : buildQuotaResourceList (tenant_ResourceQuota (tenant_Spec t)) = Ok hard.
Hypothesis model_verifies : verified m = true.
Hypothesis known_profile : profile_known isvc = true.
Hypothesis in_tenant : Namespace_ (isvc_ObjectMeta isvc) = tenant_name t.
Hypothesis of_model :
  mkNN (Namespace_ (isvc_ObjectMeta isvc)) (isvc_Model (isvc_Spec isvc)) = key KModel m.
Hypothesis cluster_scoped : Namespace_ (tenant_ObjectMeta t) = "".
Hypothesis undisturbed : forall w w', external w w' ->
  forall k nn, footprint t m isvc k nn -> same k nn w w'.
Variable run : nat -> Queued W.
Hypothesis run_endless : endless external run.
Hypothesis run_fair : fair run.

Abbreviation inv := (inv t m isvc).
Abbreviation the_tenant := (KTenant, key KTenant t).
Abbreviation the_model := (KModel, key KModel m).
Abbreviation the_service := (ISVC, key ISVC isvc).
Abbreviation the_three := [the_tenant; the_model; the_service].
Abbreviation ths n := (threads (system (run n))).
Abbreviation world n := (cluster (system (run n))).

Lemma run_steps phase settled n n' :
  (n <= n')%nat -> inv phase settled (system (run n)) ->
  keeps t m isvc false (world n) (world n') /\
  exists settled', (settled = true -> settled' = true) /\ inv phase settled' (system (run n')).
Proof.
  intros Hn%(endless_steps external run _ _ run_endless) Hs.
  eapply (steps_inv external t m isvc hard); done.
Qed.

(** A reconcile of one of the three comes to its end without a panic. *)
Lemma three_end phase settled n i th :
  inv phase settled (system (run n)) -> ths n !! i = Some th -> concerned t m isvc (task th) ->
  exists n' settled' ev r, (n <= n')%nat /\ inv phase settled' (system (run n')) /\
    ths n' !! i = Some (mkThread (task th) ev (Ret r)) /\
    ended t m settled' (strong phase i) (task th) r (world n') /\
    (live th = true -> again r = true -> subject (task th) ∈ queue (run n')).
Proof.
  intros Hs Hi Hc. destruct th as [u ev p]. cbn [task] in *.
  assert (exists n' th, (n <= n')%nat /\ ths n' !! i = Some th /\ task th = u /\ live th = false /\
    (live (mkThread u ev p) = true -> requeued th ⊆ queue (run n'))) as (n' & th & Hn & Hth & <- & Hl & Hq).
  { destruct (live (mkThread u ev p)) eqn:Hl.
    - destruct (ends external run run_endless run_fair p n i u ev Hi Hl)
        as (n' & th & ? & ? & ? & ? & ?). by exists n', th.
    - exists n. eexists. by split_and!. }
  destruct (run_steps phase settled n n' Hn Hs) as (_ & settled' & _ & Hs').
  destruct th as [u ev' [r| |r cont]]; [|by destruct (inv_calm _ _ _ _ _ _ _ _ _ Hs' Hth)|done].
  cbn [task] in *. exists n', settled', ev', r. split_and!; try done.
  - by apply (inv_ended _ _ _ _ _ _ Hs' _ _ _ _ Hth).
  - intros Hl' Ha. apply Hq; [done|]. unfold requeued. cbn [rest task]. rewrite Ha. apply list_elem_of_here.
Qed.

Lemma three_task u k nn :
  subject u = (k, nn) -> (k, nn) ∈ the_three -> concerned t m isvc u.
Proof. unfold concerned. rewrite !elem_of_cons, elem_of_nil. intros ->. tauto. Qed.

Lemma three_primary k nn :
  (k, nn) ∈ the_three -> primary k /\ scoped (task_of k nn 0).
Proof.
  rewrite !elem_of_cons, elem_of_nil. unfold primary.
  intros [[= -> ->]|[[= -> ->]|[[= -> ->]|[]]]]; simpl; auto.
Qed.

(** What is in the queue is reconciled to the end, by a reconcile that starts
    from now on. *)
Lemma queued_end phase settled n k nn :
  inv phase settled (system (run n)) -> (k, nn) ∈ the_three ->
  (k, nn) ∈ queue (run n) ->
  exists n' settled' i u r, (n <= n')%nat /\ inv phase settled' (system (run n')) /\
    (length (ths n) <= i)%nat /\ subject u = (k, nn) /\
    ended t m settled' (strong phase i) u r (world n').
Proof.
  intros Hs Hx Hq. destruct (three_primary _ _ Hx) as [Hk Hsc].
  destruct (fair_start _ run_fair n k nn Hk Hsc Hq) as (n1 & i & th & Hn1 & Hi & Hth & Hsub).
  destruct (run_steps phase settled n n1 Hn1 Hs) as (_ & set1 & _ & Hs1).
  destruct (three_end phase set1 n1 i th Hs1 Hth) as (n2 & set2 & ev & r & Hn2 & Hs2 & _ & He & _);
    [by eapply three_task|]. exists n2, set2, i, (task th), r. split_and!; try done. lia.
Qed.

(** What waits is reconciled to the end, or goes back to the queue. *)
Lemma waits_end phase settled n k nn :
  inv phase settled (system (run n)) -> (k, nn) ∈ the_three ->
  waiting (k, nn) (run n) ->
  exists n' settled', (n <= n')%nat /\ inv phase settled' (system (run n')) /\
    ((k, nn) ∈ queue (run n') \/ exists st u r, subject u = (k, nn) /\ again r = false /\
       ended t m settled' st u r (world n')).
Proof.
  intros Hs Hx [Hq|(i & th & Hi & Hl & Hsub)]; [exists n, settled; auto|].
  destruct (three_end phase settled n i th Hs Hi) as (n' & set' & ev & r & Hn & Hs' & _ & He & Ha);
    [by eapply three_task|]. exists n', set'. split; [done|]. split; [done|].
  destruct (again r) eqn:Er; [left; rewrite <- Hsub; by apply Ha|right].
  by exists (strong phase i), (task th), r.
Qed.

(** Whatever waits of the three has a reconcile that ends. *)
Lemma comes settled n k nn :
  inv None settled (system (run n)) -> (k, nn) ∈ the_three -> waiting (k, nn) (run n) ->
  exists n' settled' st u r, (n <= n')%nat /\ subject u = (k, nn) /\ ended t m settled' st u r (world n').
Proof.
  intros Hs Hx Hw. destruct (waits_end None settled n k nn Hs Hx Hw)
    as (n1 & set1 & Hn1 & Hs1 & [Hq|(st & u & r & Hsub & _ & He)]); [|by exists n1, set1, st, u, r].
  destruct (queued_end None set1 n1 k nn Hs1 Hx Hq) as (n2 & set2 & i & u & r & Hn2 & _ & _ & Hsub & He).
  exists n2, set2, (strong None i), u, r. split; [lia|done].
Qed.

(** A reconcile of the service that starts when the model is ready settles it. *)
Lemma service_comes settled n :
  inv None settled (system (run n)) -> model_up m (world n) ->
  waiting the_service (run n) \/ settled = true ->
  exists n' phase, (n <= n')%nat /\ inv phase true (system (run n')).
Proof.
  intros Hs Hm [Hw| ->]; [|by exists n, None].
  pose proof (inv_phase _ _ _ _ _ Hs (model_up_ok _ _ Hm)) as Hp.
  assert (the_service ∈ the_three) as Hx by (rewrite !elem_of_cons; auto).
  destruct (waits_end _ settled n _ _ Hp Hx Hw)
    as (n1 & set1 & Hn1 & Hs1 & [Hq|(st & u & r & Hsub & Ha & He)]).
  - destruct (queued_end _ set1 n1 _ _ Hs1 Hx Hq) as (n2 & set2 & i & u & r & Hn2 & Hs2 & Hi & Hsub & He).
    exists n2. eexists. split; [lia|]. destruct u; try done. destruct He as [[_ ->]|[_ Hst]]; [exact Hs2|].
    pose proof (steps_length external _ _ (endless_steps external run _ _ run_endless Hn1)) as Hlen.
    apply bool_decide_eq_false in Hst. lia.
  - exists n1. eexists. split; [done|]. destruct u; try done. destruct He as [[_ ->]|[-> _]]; [exact Hs1|].
    vm_compute in Ha. done.
Qed.

(** In the end they are all up, for good. *)
Lemma all_come_up settled :
  qinv t m isvc settled (run 0%nat) ->
  exists n, forall n', (n <= n')%nat ->
    provisioned t (world n') /\ model_up m (world n') /\ service_up t isvc (world n').
Proof.
  intros HQ. pose proof HQ as [Hs Ht Hm _].
  assert (exists n1, provisioned t (world n1)) as [n1 Hp].
  { destruct Ht as [Hw|Hp]; [|by exists 0%nat].
    destruct (comes settled 0 KTenant _ Hs ltac:(rewrite !elem_of_cons; auto) Hw)
      as (n1 & ? & ? & u & r & _ & Hsub & He). exists n1. destruct u; try done. by apply He. }
  assert (exists n2, model_up m (world n2)) as [n2 Hup].
  { destruct Hm as [Hw|Hup]; [|by exists 0%nat].
    destruct (comes settled 0 KModel _ Hs ltac:(rewrite !elem_of_cons; auto) Hw)
      as (n2 & ? & ? & u & r & _ & Hsub & He). exists n2. destruct u; try done. by apply He. }
  assert (exists set2, qinv t m isvc set2 (run n2)) as [set2 HQ2].
  { eapply (qinv_steps external t m isvc hard) with (q := run 0%nat) (settled := settled); try done.
    by apply (endless_steps external run _ _ run_endless), Nat.le_0_l. }
  destruct (service_comes set2 n2 (qinv_inv _ _ _ _ _ HQ2) Hup (qinv_service _ _ _ _ _ HQ2))
    as (n3 & phase & Hn3 & Hs3).
  exists (n1 + n3)%nat. intros n' Hn'.
  destruct (run_steps None settled 0 n1 ltac:(lia) Hs) as (_ & set1 & _ & Hs1).
  destruct (run_steps None set1 n1 n' ltac:(lia) Hs1) as [HG1 _].
  destruct (run_steps None set2 n2 n' ltac:(lia) (qinv_inv _ _ _ _ _ HQ2)) as [HG2 _].
  destruct (run_steps phase true n3 n' ltac:(lia) Hs3) as (_ & set3 & Hmono & Hs').
  split; [by apply HG1|]. split; [by apply HG2|]. apply (inv_up _ _ _ _ _ _ Hs'). auto.
Qed.
End platform.

Section fairly.
Context `{L : K8sLib, !K8sLibLaws} {W : Type}
  `{!Cluster W, !ClusterLaws W, !ApiClient.Available W}.

(** C1: the operator converges: let a Tenant whose quota parses, a Model whose
    artifact verifies and an InferenceService on it with a known profile wait in
    the queue, at first.  In every endless fair run, against a server that is up,
    the tenant is provisioned, the model verified and the service up from some
    moment on, however the reconciles of these and of any other objects overlap,
    whatever else is announced, and whatever others do to the rest of the
    cluster: they leave alone the three, the objects of the tenant (its
    namespace, quota, service account, role, binding and network policy), and
    whether there is a Job of the service. *)
Theorem operator_fair (external : W -> W -> Prop) ns mname name (w : W) waits t m isvc hard :
  stored KTenant w (mkNN "" ns) = Some t ->
  buildQuotaResourceList (tenant_ResourceQuota (tenant_Spec t)) = Ok hard ->
  stored KModel w (mkNN ns mname) = Some m -> verified m = true ->
  stored ISVC w (mkNN ns name) = Some isvc -> isvc_Model (isvc_Spec isvc) = mname ->
  profile_known isvc = true ->
  (forall w1 w2, external w1 w2 -> forall k nn, footprint t m isvc k nn -> same k nn w1 w2) ->
  [(KTenant, mkNN "" ns); (KModel, mkNN ns mname); (ISVC, mkNN ns name)] ⊆ waits ->
  forall run, run 0%nat = mkQueued (mkSys w []) waits -> endless external run -> fair run ->
  exists n, forall n', (n <= n')%nat ->
    let w' := cluster (system (run n')) in provisioned t w' /\ model_up m w' /\ service_up t isvc w'.
Proof.
  intros Ht Hq Hm Hv Hi Hmn Hp Hx Hin run Hstart He Hf.
  destruct (three_declared _ _ _ _ _ _ _ Ht Hm Hi Hmn) as (Hd & Hns & Hof & Hsco & Kt & Km & Ki).
  rewrite <- Kt, <- Km, <- Ki in Hin.
  eapply (all_come_up external t m isvc hard); try done.
  rewrite Hstart. apply qinv_init; [done|apply Hin; rewrite !elem_of_cons; auto..].
Qed.
End fairly.
