(* ===== verification/Settled.v ===== *)
(** * What a reconcile settles

    Each controller on its own, against a server that may fail and next to
    others that leave alone what the reconcile reads and owns: at its end the
    object is as the specification asks, for the spec it has now, or the
    reconcile asks to be called again. *)
From S2P Require Import Prelude.
From S2P Require Import ApiTypes.
From S2P Require Import K8sLib.
From S2P Require Import ApiClient.
From S2P Require Import Conditions.
From S2P Require Import Priority.
From S2P Require Import ResourceProfile.
From S2P Require Import Scheduling.
From S2P Require Import ModelController.
From S2P Require Import TenantController.
From S2P Require Import InferenceServiceController.
From S2P Require Import System.
From S2P Require Import Convergence.
From S2P Require Import Interference.
From S2P Require Import Overlap.
From S2P Require Import Workqueue.

(** The Model an InferenceService refers to. *)
Definition model_key (i : InferenceService) : NamespacedName :=
  mkNN (Namespace_ (isvc_ObjectMeta i)) (isvc_Model (isvc_Spec i)).

(** The default priorities the tenant of a namespace may have: a range that those
    who change Tenants stay in, the one default if nobody changes it. *)
Class Defaults := may_default : string -> Z -> Prop.

Section settled.
Context `{L : K8sLib, !K8sLibLaws, D : Defaults} {W : Type} `{!Cluster W, !ClusterLaws W}.

Definition within (w : W) : Prop :=
  forall ns t, stored KTenant w (mkNN "" ns) = Some t ->
  may_default ns (Default (tenant_Priority (tenant_Spec t))).

(** ** The specification *)

(** A Tenant is provisioned, and says so. *)
Definition tenant_settled (t : Tenant) (w : W) : Prop :=
  provisioned t w /\ tenant_ready (tenant_Status t).

(** A Model says whether its artifact verifies. *)
Definition model_settled (m : Model) : Prop := reports (verified m) (model_Status m).

(** An InferenceService says that all it depends on is there, which was so, or
    still is so of the Model; it has a Job, and the priority that is derived for
    it from a default its tenant may have. *)
Record service_settled (i : InferenceService) (w : W) : Prop := {
  settled_profile : profile_known i = true;
  settled_model : exists m, stored KModel w (model_key i) = Some m /\
    IsStatusConditionTrue (model_Conditions (model_Status m)) "Ready" = true;
  settled_job : is_Some (stored KJob w (key ISVC i));
  settled_status : exists default, may_default (Namespace_ (isvc_ObjectMeta i)) default /\
    isvc_reports (verdicts None None None None) true
      (Calculate default (WorkloadClass (isvc_Spec i)) (Priority (isvc_Spec i)))
      (Generation (isvc_ObjectMeta i)) (isvc_Status i);
  settled_workload : workload_reported None (isvc_Status i)
}.

(** What is asked of the object of a key, if there is one. *)
Definition settled (x : Kind * NamespacedName) (w : W) : Prop :=
  match x.1 with
  | KTenant => forall t, stored KTenant w x.2 = Some t -> tenant_settled t w
  | KModel => forall m, stored KModel w x.2 = Some m -> model_settled m
  | KInferenceService => forall i, stored ISVC w x.2 = Some i -> service_settled i w
  | _ => True
  end.

(** ** The environment *)

(** What this depends on: the objects its reconcile owns, and the Model of a
    service; the Tenants keep to their range. *)
Definition region (u : Task) (w : W) (k : Kind) (nn : NamespacedName) : Prop :=
  owns u k nn \/
  match u with
  | ReconcileInferenceService _ req =>
      exists i, stored ISVC w req = Some i /\ k = KModel /\ nn = model_key i
  | _ => False
  end.

Definition leaves (u : Task) (w w' : W) : Prop := 
  (forall k nn, region u w k nn -> same k nn w w') /\ (within w -> within w').

Lemma leaves_service now req w w' :
  leaves (ReconcileInferenceService now req) w w' -> stored ISVC w' req = stored ISVC w req.
Proof. intros [Hl _]. apply same_stored; [done|]. apply Hl. left. split; [by left|done]. Qed.

#[export] Instance leaves_preorder u : PreOrder (leaves u).
Proof.
  split; [intros w; split; [intros k nn _; apply same_refl|done]|].
  intros w1 w2 w3 H1 H2. split; [intros k nn Hr|intros Hw; by apply H2, H1].
  eapply same_trans; [by apply H1|]. apply H2. destruct Hr as [Ho|Hm]; [by left|right].
  destruct u as [| |now req]; [done..|]. by rewrite (leaves_service _ _ _ _ H1).
Qed.

(** Nothing is asked of the reconcile itself. *)
Definition anything (w w' : W) : Prop := True.

#[export] Instance anything_reflexive : Reflexive anything.
Proof. done. Qed.

(** Next to others that leave that alone the program ends with [Q]. *)
Definition ends {A} (u : Task) (p : Prog A) (Q : A -> W -> Prop) (w : W) : Prop :=
  under (leaves u) anything p Q w.

Lemma ends_ret {A} u (a : A) (Q : A -> W -> Prop) w :
  (forall w', leaves u w w' -> Q a w') -> ends u (Ret a) Q w.
Proof. done. Qed.

Lemma ends_call u r (Q : Resp r -> W -> Prop) w :
  (forall w' x w1 w2, leaves u w w' -> handle r w' = (x, w1) -> leaves u w1 w2 -> Q x w2) ->
  ends u (call r) Q w.
Proof. intros HQ. apply under_call. intros w' x w1 Hw' E. split; [done|]. intros w2 Hw2. eauto. Qed.

Lemma ends_Get u k nn (Q : result (obj k) -> W -> Prop) w :
  (forall w' w2, leaves u w w' -> leaves u w' w2 -> Q (read k nn w') w2) ->
  ends u (call (Get k nn)) Q w.
Proof. intros HQ. apply under_Get; [apply _|]. eauto. Qed.

Lemma ends_bind {A B} u (p : Prog A) (f : A -> Prog B) Q w :
  ends u p (fun a w' => ends u (f a) Q w') w -> ends u (bind p f) Q w.
Proof. apply under_bind; apply _. Qed.

Lemma ends_mono {A} u (p : Prog A) (Q Q' : A -> W -> Prop) w :
  (forall a w, Q a w -> Q' a w) -> ends u p Q w -> ends u p Q' w.
Proof. apply under_mono; apply _. Qed.

(** The reconcile is to be repeated, or the object is settled. *)
Definition concluded (x : Kind * NamespacedName) (r : Result * option error) (w : W) : Prop :=
  again r = true \/ settled x w.

Lemma ends_again u x r w : again r = true -> ends u (Ret r) (concluded x) w.
Proof. intros Hr w' _. by left. Qed.


(** What it reconciles is left alone, and settled when there is none. *)
Lemma leaves_subject now k nn w w' :
  primary k -> leaves (task_of k nn now) w w' -> stored k w' nn = stored k w nn.
Proof.
  intros Hk Hl. apply same_stored; [by destruct Hk as [-> |[-> | ->]]|]. apply Hl. left.
  destruct Hk as [-> |[-> | ->]]; simpl; auto.
Qed.

Lemma settled_absent k nn w : primary k -> stored k w nn = None -> settled (k, nn) w.
Proof. intros [-> |[-> | ->]] Hn o Ho; cbn [snd] in Ho; congruence. Qed.

Lemma ends_missing now k nn e w w2 :
  primary k -> (IsNotFound e = true -> stored k w nn = None) -> leaves (task_of k nn now) w w2 ->
  ends (task_of k nn now) (Ret (Result0, IgnoreNotFound e)) (concluded (k, nn)) w2.
Proof.
  intros Hk Hn Hl w3 Hw3. unfold concluded, IgnoreNotFound. destruct (IsNotFound e); [right|by left].
  apply settled_absent; [done|].
  by rewrite (leaves_subject _ _ _ _ _ Hk Hw3), (leaves_subject _ _ _ _ _ Hk Hl), Hn.
Qed.
End settled.

(** What a read found; an absent object is settled. *)
Lemma read_cases {W} `{!Cluster W, !ClusterLaws W} k nn (w : W) :
  match read k nn w with
  | Ok o => stored k w nn = Some o
  | Err e => IsNotFound e = true -> stored k w nn = None
  end.
Proof.
  pose proof (get_ok k nn w). pose proof (get_missing k nn w). unfold read.
  destruct (handle (Get k nn) w).1; eauto.
Qed.

Lemma again_error res e : again (res, Some e) = true.
Proof. done. Qed.

Ltac ends_bind := apply ends_bind.

(** ** Tenants *)

Section tenant.
Context `{L : K8sLib, !K8sLibLaws, D : Defaults} {W : Type} `{!Cluster W, !ClusterLaws W}.
Variables (now : Time) (req : NamespacedName).

Abbreviation me := (ReconcileTenant now req).

(** The Tenant that was read is stored still, and these kinds are provisioned. *)
Definition holding (t : Tenant) (ks : list Kind) (w : W) : Prop :=
  stored KTenant w req = Some t /\ forall k, k ∈ ks -> due t k w.

Lemma due_leaves t k w w' : key KTenant t = req -> leaves me w w' -> due t k w -> due t k w'.
Proof.
  intros Hk Hl. apply due_same. intros nn Ho. apply same_stored; [by intros ->|].
  apply Hl. left. right. by exists t.
Qed.

Lemma holding_leaves t ks w w' : leaves me w w' -> holding t ks w -> holding t ks w'.
Proof.
  intros Hl [Ht Hks]. split.
  - rewrite <- Ht. apply same_stored; [done|]. apply Hl. left. by left.
  - intros k Hin. apply (due_leaves t k w); [by apply (stored_key _ _ _ _ Ht)|done|auto].
Qed.

(** The kind, if the step that provisions it succeeded. *)
Definition passed (x : option error) (k : Kind) : list Kind := if is_nil x then [k] else [].

Lemma elem_of_passed x k k' : k' ∈ passed x k <-> x = None /\ k' = k.
Proof.
  unfold passed. destruct x as [e|]; simpl; [|].
  2:{ rewrite list_elem_of_singleton. split; [by intros ->|by intros [_ ->]]. }
  rewrite elem_of_nil. by split; [|intros [? _]].
Qed.

Lemma tenant_upsert_ends t k o f ks w :
  holding t ks w -> k ∉ ks ->
  tenant_object t k = Some (key k o) -> (forall o', key k (f o') = key k o') ->
  (forall w w', handle (CreateOrUpdate k o f) w = (None, w') -> due t k w') ->
  ends me (call (CreateOrUpdate k o f)) (fun x w' => holding t (passed x k ++ ks) w') w.
Proof.
  intros Hh Hni Hobj Hf Hdue. apply ends_call. intros w' x w1 w2 Hw' E Hw2.
  apply (holding_leaves _ _ _ _ Hw') in Hh as [Ht Hks]. apply (holding_leaves _ _ w1); [done|].
  assert (k <> KTenant) as Hk by (by intros ->). split.
  - rewrite <- Ht. by apply (stored_frame _ _ _ _ _ _ E).
  - intros k' [Hin|Hin]%elem_of_app.
    + apply elem_of_passed in Hin as [-> ->]. by apply (Hdue w').
    + apply (due_same t k' w'); [|auto]. intros nn _.
      apply (stored_frame _ _ _ _ _ _ E); [done|]. by intros ->.
Qed.

(** Without an error the status is written, or was as it should be. *)
Lemma tenant_status_ends t ks e1 e2 e3 e4 e5 w :
  holding t ks w ->
  ends me (TenantController.updateStatus now t e1 e2 e3 e4 e5)
    (fun x w' => x = None -> exists t', stored KTenant w' req = Some t' /\
       tenant_reports e1 e2 e3 e4 e5 (tenant_Status t') /\
       forall k, k ∈ ks -> due t' k w') w.
Proof.
  intros Hh. rewrite tenant_updateStatus_unfold. case_bool_decide as Hr.
  - intros w' Hw' _. destruct (holding_leaves _ _ _ _ Hw' Hh). by exists t.
  - ends_bind. apply ends_call. intros w' x w1 w2 Hw' E Hw2.
    destruct x as [o|e]; [|by intros w3 _]. intros w3 Hw3 _.
    apply (holding_leaves _ _ _ _ Hw') in Hh as [Ht Hks].
    pose proof (stored_key _ _ _ _ Ht) as Hk.
    destruct (status_stored _ _ _ _ _ E) as (t0 & Ht0 & (Hm & Hs & Hst) & Ho).
    assert (key KTenant (TenantController.with_outcomes now t e1 e2 e3 e4 e5) = req) as Hko by exact Hk.
    rewrite Hko in *. replace t0 with t in * by congruence.
    assert (tenant_name o = tenant_name t) as Hn
      by (unfold same_meta in Hm; injection Hm as ? ? ? ? ? ?; unfold tenant_name; congruence).
    assert (holding o ks w1) as Hh.
    { split; [done|]. intros k Hin. apply (due_of t o k); [done|done|].
      apply (due_same t k w'); [|auto]. intros nn Hob.
      apply (stored_frame _ _ _ _ _ _ E); [done|]. by intros ->. }
    apply (holding_leaves _ _ _ _ Hw2), (holding_leaves _ _ _ _ Hw3) in Hh as [Ho3 Hd3].
    exists o. split; [done|]. split; [|done]. rewrite Hst. apply tenant_with_outcomes_reports.
Qed.
(** The status is not looked at when the reconcile has failed anyway. *)
Lemma tenant_fails t ks e1 e2 e3 e4 e5 err w :
  holding t ks w ->
  ends me (let! _ := TenantController.updateStatus now t e1 e2 e3 e4 e5 in
           Ret (Result0, Some err)) (concluded (KTenant, req)) w.
Proof.
  intros Hh. ends_bind. eapply ends_mono; [|by eapply tenant_status_ends].
  intros x w' _. by apply ends_again.
Qed.

(** All steps were taken: either all succeeded, or the reconcile fails. *)
Lemma tenant_finish t ks saErr rbacErr npErr w :
  holding t ks w ->
  (saErr = None -> rbacErr = None -> npErr = None -> tenant_kinds ⊆ ks) ->
  ends me
    (let! err := TenantController.updateStatus now t None None saErr rbacErr npErr in
     match err with
     | Some err => Ret (Result0, Some err)
     | None =>
         match saErr, rbacErr, npErr with
         | Some err, _, _ => Ret (Result0, Some err)
         | None, Some err, _ => Ret (Result0, Some err)
         | None, None, Some err => Ret (Result0, Some err)
         | None, None, None => Ret (Result0, None)
         end
     end) (concluded (KTenant, req)) w.
Proof.
  intros Hh Hall. ends_bind. eapply ends_mono; [|by eapply tenant_status_ends].
  intros x w' Hx. destruct x as [err|]; [by apply ends_again|].
  destruct saErr, rbacErr, npErr; try by apply ends_again.
  intros w3 Hw3. right. intros t2 Ht2. cbn [snd] in Ht2.
  destruct (Hx eq_refl) as (t' & Ht' & Hrep & Hd). specialize (Hall eq_refl eq_refl eq_refl).
  assert (holding t' ks w') as Hh' by done.
  apply (holding_leaves _ _ _ _ Hw3) in Hh' as [Ht3 Hd3]. replace t2 with t' by congruence.
  split; [|done]. apply provisioned_due. intros k.
  destruct k; try done; apply Hd3, Hall; unfold tenant_kinds; rewrite !elem_of_cons; auto 10.
Qed.

Ltac tenant_upsert stores :=
  eapply ends_mono; [|eapply tenant_upsert_ends;
    [eassumption|rewrite ?elem_of_app, ?elem_of_passed, ?elem_of_nil; intuition discriminate
    |reflexivity|done|intros ? ? E; stores E]];
  let x := fresh "x" in let Hh := fresh "Hh" in intros x ? Hh; cbn beta in Hh; cbn beta iota.

Lemma tenant_ends w :
  ends me (TenantController.Reconcile now req)
    (concluded (KTenant, req)) w.
Proof.
  unfold TenantController.Reconcile, reconcileNamespace, reconcileResourceQuota,
    reconcileServiceAccount, reconcileRBAC, reconcileNetworkPolicy.
  ends_bind. apply ends_Get. intros w' w2 Hw' Hw2.
  pose proof (read_cases KTenant req w') as Hr. destruct (read KTenant req w') as [t|e].
  2:{ by apply (ends_missing now KTenant req e w'); [left|..]. }
  assert (holding t [] w2) as Hh.
  { apply (holding_leaves _ _ _ _ Hw2). split; [done|]. intros k Hk. by apply elem_of_nil in Hk. }
  clear Hr Hw' Hw2. cbn beta iota.
  ends_bind. tenant_upsert ltac:(fun E => apply (reconcileNamespace_stores _ _ _ E)).
  destruct x as [e|]; [by eapply tenant_fails|].
  destruct (buildQuotaResourceList _) as [hard|e] eqn:Hq;
    [|ends_bind; apply ends_ret; intros w4 Hw4; eapply tenant_fails, holding_leaves; done].
  ends_bind. tenant_upsert ltac:(fun E =>
    destruct (reconcileResourceQuota_stores _ _ _ _ E) as (rq & ? & ? & ?);
    exists rq; split_and!; congruence).
  destruct x as [e|]; [by eapply tenant_fails|].
  ends_bind. tenant_upsert ltac:(fun E => apply (reconcileServiceAccount_stores _ _ _ E)).
  ends_bind. ends_bind. tenant_upsert ltac:(fun E => apply (mutateRole_stores _ _ _ E)).
  destruct x0 as [e|].
  - apply ends_ret. intros w5 Hw5. eapply holding_leaves in Hh3; [|done].
    ends_bind. tenant_upsert ltac:(fun E => apply (reconcileNetworkPolicy_stores _ _ _ E)).
    by eapply tenant_finish.
  - tenant_upsert ltac:(fun E => apply (mutateRoleBinding_stores _ _ _ E)).
    ends_bind. tenant_upsert ltac:(fun E => apply (reconcileNetworkPolicy_stores _ _ _ E)).
    eapply tenant_finish; [done|]. intros -> -> ->. unfold tenant_kinds, passed. simpl. set_solver.
Qed.
End tenant.

(** ** Models *)

Section model.
Context `{L : K8sLib, !K8sLibLaws, D : Defaults} {W : Type} `{!Cluster W, !ClusterLaws W}.

Lemma model_ends now req w :
  ends (ReconcileModel now req) (ModelController.Reconcile now req) (concluded (KModel, req)) w.
Proof.
  unfold ModelController.Reconcile. ends_bind. apply ends_Get. intros w' w2 Hw' Hw2.
  pose proof (read_cases KModel req w') as Hr. destruct (read KModel req w') as [m|e].
  2:{ by apply (ends_missing now KModel req e w'); [right; left|..]. }
  cbn beta iota. pose proof (leaves_subject now KModel req) as Hsub.
  pose proof (verify_reports m) as Hrep. pose proof (to_write_facts now m) as (Kw & Sw & Rw & _).
  unfold to_write in *. destruct (verifyArtifact m) as [m1 v].
  rewrite model_updateStatus_unfold, (bool_decide_ext _ _ Hrep). clear Hrep.
  case_bool_decide as Hc.
  - ends_bind. intros w3 Hw3 w4 Hw4. right. intros m' Hm'. cbn [snd] in Hm'.
    rewrite (Hsub w3 w4), (Hsub w2 w3), (Hsub w' w2), Hr in Hm' by (done || by right; left).
    by injection Hm' as <-.
  - ends_bind. ends_bind. apply ends_call. intros w3 x w4 w5 Hw3 E Hw5.
    destruct x as [o|e]; intros w6 Hw6 w7 Hw7; [right|by left].
    intros m' Hm'. cbn [snd] in Hm'.
    destruct (status_stored _ _ _ _ _ E) as (m0 & Hm0 & (Hm & Hs & Hst) & Ho).
    rewrite Kw, (stored_key _ _ _ _ Hr) in *.
    rewrite (Hsub w6 w7), (Hsub w5 w6), (Hsub w4 w5), Ho in Hm' by (done || by right; left).
    injection Hm' as <-.
    rewrite (Hsub w2 w3), (Hsub w' w2), Hr in Hm0 by (done || by right; left).
    injection Hm0 as <-.
    assert (verified o = verified m) as Hv by (unfold verified; by rewrite Hs).
    unfold model_settled. by rewrite Hv, Hst.
Qed.
End model.

(** ** InferenceServices *)

Section service.
Context `{L : K8sLib, !K8sLibLaws, D : Defaults} {W : Type} `{!Cluster W, !ClusterLaws W}.
Variables (now : Time) (req : NamespacedName).

Abbreviation me := (ReconcileInferenceService now req).

(** The service in hand is stored, with the Model ready if it was found so. *)
Definition in_hand (ms : ModelState) (i : InferenceService) (w : W) : Prop :=
  stored ISVC w req = Some i /\
  (ms = ModelReady -> exists m, stored KModel w (model_key i) = Some m /\
     IsStatusConditionTrue (model_Conditions (model_Status m)) "Ready" = true).

Lemma in_hand_leaves ms i w w' : leaves me w w' -> in_hand ms i w -> in_hand ms i w'.
Proof.
  intros Hl [Hi Hm]. split; [by rewrite (leaves_service _ _ _ _ Hl)|]. intros Hms.
  destruct (Hm Hms) as (m & Hs & Hc). exists m. split; [|done]. rewrite <- Hs.
  apply same_stored; [done|]. apply Hl. right. by exists i.
Qed.

Definition has_job (w : W) : Prop := is_Some (stored KJob w req).

Lemma has_job_leaves w w' : leaves me w w' -> has_job w -> has_job w'.
Proof. intros Hl. apply (same_job req w w'), Hl. left. split; [by right|done]. Qed.

(** A status update of the service in hand. *)
Lemma in_hand_status ms i o w o' w1 :
  handle (StatusUpdate ISVC o) w = (Ok o', w1) -> isvc_ObjectMeta o = isvc_ObjectMeta i ->
  in_hand ms i w ->
  in_hand ms o' w1 /\ isvc_Status o' = isvc_Status o /\ updated i o' w w1.
Proof.
  intros E Hm [Hi Hms]. pose proof (stored_key _ _ _ _ Hi) as Hk. rewrite <- Hk in Hi.
  destruct (status_update_stored i o o' w w1 Hi Hm E) as [Hu Hst].
  pose proof Hu as (Ho & Hs & Hme & Hf). split; [|done]. split; [by rewrite <- Hk|].
  intros Hr. destruct (Hms Hr) as (m & Hsm & Hc). exists m. split; [|done].
  assert (model_key o' = model_key i) as ->
    by (unfold model_key; rewrite Hs; unfold same_meta in Hme; congruence).
  by rewrite Hf.
Qed.

(** The same service but for its status. *)
Definition like (i i' : InferenceService) : Prop :=
  isvc_Spec i' = isvc_Spec i /\ same_meta (isvc_ObjectMeta i) (isvc_ObjectMeta i').

Lemma service_status_ends ms i derived e1 e2 e3 e4 w :
  in_hand ms i w ->
  ends me (InferenceServiceController.updateStatus now i derived e1 e2 e3 e4)
    (fun r w' => r.2.2 = None -> in_hand ms r.1 w' /\ like i r.1 /\
       reports_outcomes i derived e1 e2 e3 e4 (isvc_Status r.1)) w.
Proof.
  intros Hh. rewrite isvc_updateStatus_unfold. case_bool_decide as Hr.
  - intros w' Hw' _. split; [by eapply in_hand_leaves|done].
  - ends_bind. apply ends_call. intros w' x w1 w2 Hw' E Hw2.
    destruct x as [o|e]; intros w3 Hw3; [intros _|done]. cbn [fst].
    apply (in_hand_leaves _ _ _ _ Hw') in Hh.
    destruct (in_hand_status _ i _ _ _ _ E eq_refl Hh) as (Hh1 & Hst & _ & Hs & Hm & _).
    split; [by apply (in_hand_leaves _ _ w2), (in_hand_leaves _ _ w1)|]. split; [done|].
    rewrite Hst. apply isvc_with_outcomes_reports.
Qed.

Lemma service_job_ends ms i model w :
  in_hand ms i w ->
  ends me (reconcileKueueJob i model) (fun e w' => in_hand ms i w' /\ (e = None -> has_job w')) w.
Proof.
  intros Hh. pose proof (stored_key _ _ _ _ (proj1 Hh)) as Hk.
  destruct (job_for_exists i model) as [job Hj]. rewrite (reconcileKueueJob_unfold _ _ _ Hj), Hk.
  pose proof (job_for_key _ _ _ Hj) as Hkj. rewrite Hk in Hkj.
  ends_bind. apply ends_Get. intros w' w2 Hw' Hw2. pose proof (read_cases KJob req w') as Hr.
  apply (in_hand_leaves _ _ _ _ Hw'), (in_hand_leaves _ _ _ _ Hw2) in Hh.
  destruct (read KJob req w') as [j|e].
  - intros w3 Hw3. split; [by eapply in_hand_leaves|]. intros _.
    apply (has_job_leaves w2), (has_job_leaves w'); [done..|]. by exists j.
  - destruct (IsNotFound e); [|intros w3 Hw3; split; [by eapply in_hand_leaves|done]].
    apply ends_call. intros w3 x w4 w5 Hw3 E Hw5.
    split.
    + apply (in_hand_leaves _ _ w4); [done|]. apply (in_hand_leaves _ _ _ _ Hw3) in Hh as [Hi Hm].
      split; [by rewrite (stored_frame _ _ _ _ ISVC _ E)|].
      intros Hms. destruct (Hm Hms) as (m & ? & ?). exists m.
      by rewrite (stored_frame _ _ _ _ KModel _ E).
    + intros ->. apply (has_job_leaves w4); [done|]. pose proof (create_ok KJob job w3) as Hc.
      rewrite E in Hc. destruct (Hc eq_refl) as (_ & j' & Hj' & _). cbn [snd] in Hj'.
      rewrite Hkj in Hj'. by eexists.
Qed.

Lemma service_workload_ends ms i derived w :
  in_hand ms i w -> has_job w ->
  isvc_reports (verdicts None None None None) true derived (Generation (isvc_ObjectMeta i))
    (isvc_Status i) ->
  ends me (updateWorkloadCondition now i None)
    (fun r w' => r.2 = None -> in_hand ms r.1 w' /\ has_job w' /\ like i r.1 /\
       isvc_reports (verdicts None None None None) true derived (Generation (isvc_ObjectMeta i))
         (isvc_Status r.1) /\
       workload_reported None (isvc_Status r.1)) w.
Proof.
  intros Hh Hj Hr. rewrite updateWorkloadCondition_unfold. case_bool_decide as Hc.
  - intros w' Hw' _. split; [by eapply in_hand_leaves|]. by split; [eapply has_job_leaves|].
  - ends_bind. apply ends_call. intros w' x w1 w2 Hw' E Hw2.
    destruct x as [o|e]; intros w3 Hw3; [intros _|done]. cbn [fst].
    apply (in_hand_leaves _ _ _ _ Hw') in Hh. apply (has_job_leaves _ _ Hw') in Hj.
    destruct (in_hand_status _ i _ _ _ _ E eq_refl Hh) as (Hh1 & Hst & _ & Hs & Hm & Hf).
    split; [by apply (in_hand_leaves _ _ w2), (in_hand_leaves _ _ w1)|].
    split; [apply (has_job_leaves w2), (has_job_leaves w1); [done..|]; unfold has_job; by rewrite Hf|].
    split; [done|]. rewrite Hst. apply with_workload_reports; [|done].
    by apply (bool_decide_unpack _).
Qed.
(** A Job that could not be made is reported and returned. *)
Lemma service_fails i e w :
  ends me
    (let! '(_, err) := updateWorkloadCondition now i (Some e) in
     match err with Some err => Ret (Result0, Some err) | None => Ret (Result0, Some e) end)
    (concluded (ISVC, req)) w.
Proof.
  rewrite updateWorkloadCondition_unfold. case_bool_decide; [by ends_bind; intros w' _; apply ends_again|].
  ends_bind. ends_bind. apply ends_call. intros w' x w1 w2 _ _ _.
  by destruct x as [o|e']; intros w3 _; apply ends_again.
Qed.

(** The rest of it, once the dependencies are resolved. *)
Lemma service_finish_ends i i0 model default w :
  in_hand ModelReady i w -> like i0 i -> profile_known i0 = true ->
  may_default (Namespace_ (isvc_ObjectMeta i0)) default ->
  reports_outcomes i0 (Calculate default (WorkloadClass (isvc_Spec i0)) (Priority (isvc_Spec i0)))
    None None None None (isvc_Status i) ->
  ends me
    (let! jobErr := reconcileKueueJob i model in
     let! '(isvc, err) := updateWorkloadCondition now i jobErr in
     match err with Some err => Ret (Result0, Some err) | None => Ret (Result0, jobErr) end)
    (concluded (ISVC, req)) w.
Proof.
  intros Hh [Hs Hm] Hp Hdef Hr. pose proof (same_meta_generation _ _ Hm) as Hg.
  unfold reports_outcomes in Hr. rewrite <- Hg, <- Hs in Hr. cbn [is_nil andb] in Hr.
  assert (profile_known i = true) as Hpi by (unfold profile_known in *; by rewrite Hs).
  ends_bind. eapply ends_mono; [|by apply service_job_ends]. intros [e|] w1 [Hh1 Hj1];
    [apply service_fails|]. specialize (Hj1 eq_refl).
  ends_bind. eapply ends_mono; [|by eapply service_workload_ends]. intros [i2 [e|]] w2 H2;
    [by apply ends_again|].
  destruct (H2 eq_refl) as (Hh2 & Hj2 & [Hs2 Hm2] & Hr2 & Hw2). cbn [fst] in *. clear H2.
  intros w3 Hw3. right. apply (in_hand_leaves _ _ _ _ Hw3) in Hh2 as [Hi3 Hmod3].
  apply (has_job_leaves _ _ Hw3) in Hj2. intros i3 Hi3'. cbn [snd] in Hi3'.
  rewrite Hi3 in Hi3'. injection Hi3' as <-. pose proof (stored_key _ _ _ _ Hi3) as Hk.
  split; [unfold profile_known in *; by rewrite Hs2|by apply Hmod3|by rewrite Hk| |done].
  exists default. split; [|by rewrite Hs2, (same_meta_generation _ _ Hm2)].
  unfold same_meta in Hm, Hm2. congruence.
Qed.

Lemma service_ends w :
  within w ->
  ends me (InferenceServiceController.Reconcile now req) (concluded (ISVC, req)) w.
Proof.
  intros Hin. unfold InferenceServiceController.Reconcile. ends_bind. apply ends_Get. intros w' w2 Hw' Hw2.
  pose proof (read_cases ISVC req w') as Hi. destruct (read ISVC req w') as [i|e].
  2:{ by apply (ends_missing now ISVC req e w'); [right; right|..]. }
  assert (stored ISVC w2 req = Some i) as Hi2 by (by rewrite (leaves_service _ _ _ _ Hw2)).
  cbn beta iota zeta. ends_bind. apply ends_Get. intros w3 w4 Hw3 Hw4.
  pose proof (read_cases KModel (model_key i) w3) as Hm. unfold model_key in Hm.
  destruct (resolveModel i _) as [[ms model]|e] eqn:Hrm; [|by apply ends_again].
  assert (in_hand ms i w4) as Hh.
  { apply (in_hand_leaves _ _ _ _ Hw4). split; [by rewrite (leaves_service _ _ _ _ Hw3)|].
    intros ->. unfold resolveModel in Hrm. destruct (read KModel _ w3) as [m|e].
    - exists m. destruct (IsStatusConditionTrue _ _) eqn:Hc; [done|]. discriminate Hrm.
    - by destruct (IsNotFound e). }
  apply Hw' in Hin. apply Hw2 in Hin. apply Hw3 in Hin. apply Hw4 in Hin.
  clear Hi Hw' Hw2 Hi2 Hw3 Hw4 Hm Hrm. cbn beta iota.
  ends_bind. apply ends_Get. intros w5 w6 Hw5 Hw6.
  destruct (resolveTenant i _) as [[found derived]|e] eqn:Hrt; [|by apply ends_again].
  apply (in_hand_leaves _ _ _ _ Hw5), (in_hand_leaves _ _ _ _ Hw6) in Hh.
  apply Hw5 in Hin. clear Hw5 Hw6.
  cbn beta iota. ends_bind. eapply ends_mono; [|by apply service_status_ends].
  intros [i1 [changed [e|]]] w7 H7; [by apply ends_again|].
  destruct (H7 eq_refl) as (Hh7 & Hl7 & Hr7). cbn [fst snd] in *. clear H7.
  destruct (negb _) eqn:Hn; [by apply ends_again|].
  apply negb_false_iff in Hn. rewrite !andb_true_iff in Hn. destruct Hn as [[[H1 H2] H3] H4].
  assert (forall x : option error, is_nil x = true -> x = None) as Hnil by (by intros []).
  apply Hnil in H1, H2, H3, H4. rewrite H4, H1, H2, H3 in Hr7. clear Hnil H4.
  destruct ms; try done. destruct found; [|done].
  assert (exists default, derived = Calculate default (WorkloadClass (isvc_Spec i))
    (Priority (isvc_Spec i)) /\ may_default (Namespace_ (isvc_ObjectMeta i)) default)
    as (default & -> & Hdef).
  { pose proof (read_cases KTenant (mkNN "" (Namespace_ (isvc_ObjectMeta i))) w5) as Ht.
    unfold resolveTenant in Hrt. destruct (read KTenant _ w5) as [t|e]; [|by destruct (IsNotFound e)].
    injection Hrt as <-. eexists. split; [done|]. by apply Hin. }
  eapply service_finish_ends; [done|done| |done|done].
  unfold profile_known, profileError in *. by destruct (Resolve _).
Qed.
End service.

(** All three: at the end of a reconcile its object is settled, or the
    reconcile is to be repeated. *)
Lemma program_ends `{L : K8sLib, !K8sLibLaws, D : Defaults} {W} `{!Cluster W, !ClusterLaws W} u (w : W) :
  within w ->
  ends u (program u) (concluded (subject u)) w.
Proof. intros Hw. destruct u; [apply tenant_ends|apply model_ends|by apply service_ends]. Qed.
