(* ===== verification/Schema.v ===== *)
(** * The schema of the stored objects

    What the CRDs of the operator ([operator/config/crd/bases], generated from
    the types) demand of the objects' integers, enumerations, amounts and
    conditions, as a type system for the store, and that every request of the
    controllers keeps it, in every interleaving.  The server rejects a status update that does not
    meet the schema, so a controller that composed one could never report. *)
From S2P Require Import Prelude.
From S2P Require Import ApiTypes.
From S2P Require Import K8sLib.
From S2P Require Import ApiClient.
From S2P Require Import Conditions.
From S2P Require Import Priority.
From S2P Require Import Scheduling.
From S2P Require Import ModelController.
From S2P Require Import TenantController.
From S2P Require Import TenantQuota.
From S2P Require Import InferenceServiceController.
From S2P Require Import System.

(** ** Patterns *)

(** Regular expressions over classes of characters, matched by derivatives. *)
Inductive regex :=
  | RNone
  | REmpty
  | RClass (ranges : list (ascii * ascii))
  | RSeq (r s : regex)
  | RAlt (r s : regex)
  | RStar (r : regex).

Definition ROpt (r : regex) : regex := RAlt REmpty r.

Definition in_class (ranges : list (ascii * ascii)) (c : ascii) : bool :=
  existsb (fun r => (N_of_ascii (fst r) <=? N_of_ascii c)%N
                    && (N_of_ascii c <=? N_of_ascii (snd r))%N) ranges.

Fixpoint nullable (r : regex) : bool :=
  match r with
  | RNone | RClass _ => false
  | REmpty | RStar _ => true
  | RSeq r s => nullable r && nullable s
  | RAlt r s => nullable r || nullable s
  end.

Fixpoint derivative (c : ascii) (r : regex) : regex :=
  match r with
  | RNone | REmpty => RNone
  | RClass ranges => if in_class ranges c then REmpty else RNone
  | RSeq r s =>
      let d := RSeq (derivative c r) s in
      if nullable r then RAlt d (derivative c s) else d
  | RAlt r s => RAlt (derivative c r) (derivative c s)
  | RStar r => RSeq (derivative c r) (RStar r)
  end.

Fixpoint matches (r : regex) (s : string) : bool :=
  match s with
  | EmptyString => nullable r
  | String c s => matches (derivative c r) s
  end.

Definition single (c : ascii) : ascii * ascii := (c, c).
Definition lower : list (ascii * ascii) := [("a"%char, "z"%char); ("0"%char, "9"%char)].
Definition alpha : list (ascii * ascii) := [("A"%char, "Z"%char); ("a"%char, "z"%char)].
Definition alnum : list (ascii * ascii) := ("0"%char, "9"%char) :: alpha.

(** The pattern of a condition's reason: a letter, and behind it letters,
    digits, and commas, colons and underscores, the former two not at the end. *)
Definition reason_pattern : regex :=
  let word := single "_" :: alnum in
  RSeq (RClass alpha)
    (ROpt (RSeq (RStar (RClass (single "," :: single ":" :: word))) (RClass word))).

(** The pattern of its type: a name, behind an optional domain and a slash. *)
Definition type_pattern : regex :=
  let label := RSeq (RClass lower)
    (ROpt (RSeq (RStar (RClass (single "-" :: lower))) (RClass lower))) in
  RSeq
    (ROpt (RSeq label (RSeq (RStar (RSeq (RClass [single "."]) label)) (RClass [single "/"]))))
    (RSeq (ROpt (RSeq (RClass alnum)
                   (RStar (RClass (single "-" :: single "_" :: single "." :: alnum)))))
       (RClass alnum)).

Example pattern_samples :
  (matches reason_pattern "ProfileFound", matches reason_pattern "", matches reason_pattern "a:",
   matches type_pattern "kueue.x-k8s.io/Admitted", matches type_pattern "Ready",
   matches type_pattern "-Ready") = (true, false, false, true, true, false).
Proof. reflexivity. Qed.

(** ** Types of objects *)

(** A condition, by its type and reason; its status is one of the three by
    construction. *)
Definition condition_admitted (s : sig) : bool :=
  matches type_pattern s.1 && (String.length s.1 <=? 316)%nat &&
  matches reason_pattern s.2.2 && (1 <=? String.length s.2.2)%nat &&
  (String.length s.2.2 <=? 1024)%nat.

(** Every condition is admitted, and no two have the same type: the latter is
    the convention for conditions, which the schemas leave to the writers. *)
Definition conditions_typed (l : list sig) : Prop :=
  NoDup (map fst l) /\ Forall (fun s => condition_admitted s = true) l.

Definition int64_ok (z : Z) : Prop := - 2 ^ 63 <= z < 2 ^ 63.

(** What holds of a field that may be absent; an empty string is left out of
    the JSON text (omitempty), and so not looked at. *)
Definition optional {A} (P : A -> Prop) (o : option A) : Prop :=
  match o with Some a => P a | None => True end.
Definition enum_or_empty (values : list string) (s : string) : Prop := s = "" \/ s ∈ values.

Definition tenant_spec_typed (s : TenantSpec) : Prop :=
  quota_admitted (tenant_ResourceQuota s) /\ 0 <= Default (tenant_Priority s) <= 1000.
Definition tenant_status_typed (st : TenantStatus) : Prop :=
  conditions_typed (sigs (tenant_Conditions st)).
Definition tenant_typed (t : Tenant) : Prop :=
  tenant_spec_typed (tenant_Spec t) /\ tenant_status_typed (tenant_Status t).

Definition model_spec_typed (s : ModelSpec) : Prop :=
  source_Type (Source s) ∈ ["oci"; "gcs"; "huggingface"].
Definition model_status_typed (st : ModelStatus) : Prop :=
  conditions_typed (sigs (model_Conditions st)).
Definition model_typed (m : Model) : Prop :=
  model_spec_typed (model_Spec m) /\ model_status_typed (model_Status m).

Definition isvc_spec_typed (s : InferenceServiceSpec) : Prop :=
  WorkloadClass s ∈ ["interactive"; "batch"; "background"] /\
  optional int32_ok (Priority s) /\
  optional (fun r => 1 <= r /\ int32_ok r) (Replicas s) /\
  enum_or_empty ["stateless"; "cache-affine"; "session-affine"; "long-generation"]
    (Statefulness s) /\
  enum_or_empty ["full"; "mig-3g.40gb"] (GPUType s) /\
  optional int64_ok (TTFTP99Milliseconds (SLO s)) /\
  optional int64_ok (TPOTP99Milliseconds (SLO s)).
Definition isvc_status_typed (st : InferenceServiceStatus) : Prop :=
  int32_ok (DerivedPriority st) /\ conditions_typed (sigs (isvc_Conditions st)).
Definition isvc_typed (i : InferenceService) : Prop :=
  isvc_spec_typed (isvc_Spec i) /\ isvc_status_typed (isvc_Status i).

(** The type of a stored object, and of the status a request writes. *)
Definition typed (k : Kind) : obj k -> Prop :=
  match k with
  | KTenant => tenant_typed | KModel => model_typed | KInferenceService => isvc_typed
  | _ => fun _ => True
  end.
Definition status_typed (k : Kind) : obj k -> Prop :=
  match k with
  | KTenant => fun t => tenant_status_typed (tenant_Status t)
  | KModel => fun m => model_status_typed (model_Status m)
  | KInferenceService => fun i => isvc_status_typed (isvc_Status i)
  | _ => fun _ => True
  end.

Lemma typed_status k o : typed k o -> status_typed k o.
Proof. destruct k; simpl; try done; by intros [_ ?]. Qed.

(** ** Setting conditions *)

Lemma upsert_keys ty v l :
  map fst (upsert ty v l) = if decide (ty ∈ map fst l) then map fst l else map fst l ++ [ty].
Proof.
  induction l as [|[ty' v'] l IH]; simpl; [done|].
  destruct (decide (ty' = ty)) as [->|Hne].
  - simpl. rewrite decide_True; [done|apply list_elem_of_here].
  - simpl. rewrite IH. destruct (decide (ty ∈ map fst l)) as [Hin|Hin].
    + rewrite decide_True; [done|by apply list_elem_of_further].
    + rewrite decide_False; [done|]. rewrite elem_of_cons. intros [?|?]; [congruence|done].
Qed.

Lemma upsert_typed ty v l :
  condition_admitted (ty, v) = true -> conditions_typed l -> conditions_typed (upsert ty v l).
Proof.
  intros Ha [Hn Hf]. split.
  - rewrite upsert_keys. case_decide; [done|]. apply list.NoDup_app. split; [done|].
    split; [|apply NoDup_singleton]. intros x Hx ->%list_elem_of_singleton. done.
  - clear Hn. induction Hf as [|[ty' v'] l Hs Hl IH]; simpl; [by constructor|].
    destruct (decide (ty' = ty)) as [->|_]; by constructor.
Qed.

Lemma upsert_all_typed vs l :
  Forall (fun s => condition_admitted s = true) vs -> conditions_typed l ->
  conditions_typed (upsert_all vs l).
Proof.
  unfold upsert_all. intros Hvs. revert l. induction Hvs as [|[ty v] vs Hv _ IH]; intros l Hl; [done|].
  simpl. apply IH. by apply upsert_typed.
Qed.

(** Every verdict the controllers compose is admitted. *)
Lemma tenant_verdicts_admitted e1 e2 e3 e4 e5 :
  Forall (fun s => condition_admitted s = true) (TenantController.verdicts e1 e2 e3 e4 e5).
Proof. destruct e1, e2, e3, e4, e5; repeat constructor. Qed.

Lemma isvc_verdicts_admitted e1 e2 e3 e4 :
  Forall (fun s => condition_admitted s = true)
    (InferenceServiceController.verdicts e1 e2 e3 e4).
Proof. destruct e1, e2, e3, e4; repeat constructor. Qed.

(** ** What the controllers ask for *)

(** The answers of the server so far are of their types, ... *)
Definition typed_event (e : Event) : Prop :=
  match e with
  | Ev r x =>
      match r return Resp r -> Prop with
      | Get k _ => fun x => match x with Ok o => typed k o | Err _ => True end
      | StatusUpdate k _ => fun x => match x with Ok o => typed k o | Err _ => True end
      | _ => fun _ => True
      end x
  end.

(** ... and then so is every status that is written. *)
Definition typed_request (past : list Event) (r : Req) : Prop :=
  Forall typed_event past ->
  match r with StatusUpdate k o => status_typed k o | _ => True end.

Section typed_programs.
Context `{L : K8sLib, !K8sLibLaws}.

Lemma tenant_with_outcomes_typed now t e1 e2 e3 e4 e5 :
  tenant_typed t ->
  status_typed KTenant (TenantController.with_outcomes now t e1 e2 e3 e4 e5).
Proof.
  intros [_ Ht]. simpl. unfold tenant_status_typed. simpl. rewrite TenantController.tenant_sigs_newConditions.
  apply upsert_all_typed; [apply tenant_verdicts_admitted|done].
Qed.

Lemma model_next_status_typed now verdict m :
  model_typed m ->
  status_typed KModel (set_model_Status (next_status now verdict (model_Status m)) m).
Proof.
  intros [_ Hm]. simpl. unfold model_status_typed. cbn [model_Status set_model_Status].
  rewrite next_status_sigs. apply upsert_typed; [|done]. by case_decide.
Qed.

Lemma isvc_with_outcomes_typed now i derived e1 e2 e3 e4 :
  isvc_typed i -> int32_ok derived ->
  status_typed KInferenceService
    (InferenceServiceController.with_outcomes now i derived e1 e2 e3 e4).
Proof.
  intros [_ [_ Hi]] Hd. split; [done|]. simpl.
  rewrite InferenceServiceController.isvc_sigs_newConditions.
  apply upsert_all_typed; [apply isvc_verdicts_admitted|done].
Qed.

Lemma isvc_with_workload_typed now i jobErr :
  isvc_status_typed (isvc_Status i) ->
  status_typed KInferenceService (with_workload now i jobErr).
Proof.
  intros [Hd Hi]. split; [by destruct jobErr|]. rewrite with_workload_sigs.
  apply upsert_typed; [|done]. by destruct jobErr.
Qed.

Lemma verifyArtifact_typed m : model_typed m -> model_typed (verifyArtifact m).1.
Proof.
  unfold model_typed, model_status_typed.
  by destruct (verifyArtifact_verdict m) as (_ & -> & _ & -> & _).
Qed.

(** The derived priority is an [int32], as the priorities it is made of are. *)
Lemma resolveTenant_int32 i r found derived :
  resolveTenant i r = Ok (found, derived) -> isvc_typed i ->
  (forall t, r = Ok t -> tenant_typed t) -> int32_ok derived.
Proof.
  unfold resolveTenant. intros Hr [(_ & Hp & _) _] Ht. destruct r as [t|e].
  - simplify_eq. apply Calculate_int32; [|by intros o Ho; rewrite Ho in Hp]. destruct (Ht t eq_refl) as [[_ [? ?]] _].
    unfold int32_ok, min_int32, max_int32. lia.
  - destruct (IsNotFound e); simplify_eq. by vm_compute.
Qed.

Lemma tenant_typed_wp now req :
  wp typed_request (fun _ _ => True) [] (TenantController.Reconcile now req).
Proof.
  tenant_steps; try (by intros ?); intros Hpast; apply Forall_cons_iff in Hpast as [Ht _];
    by apply tenant_with_outcomes_typed.
Qed.

Lemma model_typed_wp now req :
  wp typed_request (fun _ _ => True) [] (ModelController.Reconcile now req).
Proof.
  unfold ModelController.Reconcile. apply wp_bind, wp_call; [done|]. intros [m|e]; [|done].
  pose proof (verifyArtifact_typed m) as Hm'. destruct (verifyArtifact m) as [m' v].
  rewrite ModelController.model_updateStatus_unfold. wp_steps; try done.
  intros Hpast. apply Forall_cons_iff in Hpast as [Hm _]. by apply model_next_status_typed, Hm'.
Qed.

Lemma isvc_typed_wp now req :
  wp typed_request (fun _ _ => True) [] (InferenceServiceController.Reconcile now req).
Proof.
  isvc_steps; try done; intros Hpast; rewrite !Forall_cons_iff in Hpast; unpack;
    match goal with
    | Hi : typed_event (Ev _ (Ok ?i)) |- status_typed _ (with_workload _ ?i _) =>
        apply isvc_with_workload_typed; exact (typed_status KInferenceService i Hi)
    | Hi : typed_event (Ev _ (Ok ?i)), Ht : typed_event (Ev (Get KTenant _) ?r),
      E : resolveTenant _ ?r = Ok _ |- status_typed _ _ =>
        apply isvc_with_outcomes_typed; [exact Hi|];
        apply (resolveTenant_int32 _ _ _ _ E Hi); by intros t ->
    end.
Qed.
End typed_programs.

(** ** The type of the store *)

Definition well_typed {W : Type} `{!Cluster W} (w : W) : Prop :=
  forall k nn o, stored k w nn = Some o -> typed k o.

Section typed_system.
Context `{L : K8sLib, !K8sLibLaws} {W : Type} `{!Cluster W, !ClusterLaws W}.

(** A status write replaces the status, and keeps the rest. *)
Lemma status_written_typed k o o0 o' :
  status_written k o o0 o' -> typed k o0 -> status_typed k o -> typed k o'.
Proof.
  destruct k; simpl; try done.
  - intros (_ & Hs & Ht) [Hd _] Ho. unfold tenant_typed. by rewrite Hs, Ht.
  - intros (_ & Hs & Ht) [Hd _] Ho. unfold model_typed. by rewrite Hs, Ht.
  - intros (_ & Hs & Ht) [Hd _] Ho. unfold isvc_typed. by rewrite Hs, Ht.
Qed.

Lemma program_typed_wp t : wp typed_request (fun _ _ => True) [] (program t).
Proof.
  destruct t; [apply tenant_typed_wp|apply model_typed_wp|apply isvc_typed_wp].
Qed.

(** The kinds with a type are written by status updates only. *)
Lemma other_write_typed t past r w x w' k nn o :
  handle r w = (x, w') -> may t past r -> is_write r = true ->
  (forall k o, r <> StatusUpdate k o) -> stored k w' nn = Some o ->
  typed k o \/ stored k w nn = Some o.
Proof.
  intros E Hmay Hwr Hns Hs. destruct (decide (k = req_kind r)) as [->|Hk].
  2:{ right. by rewrite <- (stored_frame _ _ _ _ k nn E). }
  left. destruct t; simpl in Hmay.
  - unfold tenant_may in Hmay. rewrite Hwr in Hmay. destruct Hmay as (t & _ & Hr).
    destruct r as [| | |k o'|k o' f]; try done; [by destruct (Hns k o')|].
    by destruct Hr as [Hr _]; destruct k.
  - destruct r as [[]| | |k o'|]; try done. by destruct (Hns k o').
  - destruct r as [[]| |[]|k o'|[]]; try done. by destruct (Hns k o').
Qed.

(** One request: the answer and the new store are typed. *)
Lemma request_typed t past r w x w' :
  handle r w = (x, w') -> may t past r -> typed_request past r -> Forall typed_event past ->
  well_typed w -> typed_event (Ev r x) /\ well_typed w'.
Proof.
  intros E Hmay Hr Hpast Hw. specialize (Hr Hpast).
  destruct (is_write r) eqn:Hwr.
  2:{ assert (w' = w) as ->.
      { destruct r as [k nn|k ns| | |]; try done;
          [pose proof (get_pure k nn w) as Hp|pose proof (list_pure k ns w) as Hp];
          by rewrite E in Hp. }
      split; [|done]. destruct r as [k nn| | | |]; try done. simpl. destruct x as [o|]; [|done].
      apply (Hw _ nn). pose proof (get_ok k nn w o) as Hg. rewrite E in Hg. by apply Hg. }
  destruct r as [| | k o|k o|k o f]; try done.
  - split; [done|]. intros k' nn' o' Hs.
    destruct (other_write_typed _ _ _ _ _ _ _ _ _ E Hmay Hwr ltac:(done) Hs); [done|].
    by apply (Hw _ nn').
  - split.
    + simpl. destruct x as [o'|]; [|done].
      destruct (status_stored _ _ _ _ _ E) as (o0 & Ho0 & Hwt & _).
      eapply status_written_typed; [done| |done]. by apply (Hw _ _ _ Ho0).
    + intros k' nn' o' Hs. destruct (decide (k' = k)) as [->|Hk].
      * destruct (status_update_cases _ _ _ _ _ _ _ E Hs) as [Hs'|(o0 & Ho0 & Hwt)];
          [by apply (Hw _ nn')|].
        eapply status_written_typed; [done| |done]. by apply (Hw _ _ _ Ho0).
      * rewrite (stored_frame _ _ _ _ _ _ E) in Hs by done. by apply (Hw _ nn').
  - split; [done|]. intros k' nn' o' Hs.
    destruct (other_write_typed _ _ _ _ _ _ _ _ _ E Hmay Hwr ltac:(done) Hs); [done|].
    by apply (Hw _ nn').
Qed.

(** ** The whole operator *)

(** What the others write is validated against the schema by the server. *)
Variable external : W -> W -> Prop.
Hypothesis others_typed : forall w w', external w w' -> well_typed w -> well_typed w'.

(** A reconcile under way has had typed answers, and keeps to its part. *)
Definition thread_typed (th : Thread) : Prop :=
  thread_ok th /\ Forall typed_event (past th) /\
  wp typed_request (fun _ _ => True) (past th) (rest th).

Lemma step_typed s s' :
  step external s s' -> well_typed (cluster s) -> Forall thread_typed (threads s) ->
  well_typed (cluster s') /\ Forall thread_typed (threads s').
Proof.
  intros Hstep Hw Hths.
  destruct Hstep as [s t|w w' pre t ev r cont x post E|w pre th post|w w' ths Hx]; simpl in *.
  - split; [done|]. apply Forall_app. split; [done|]. constructor; [|done].
    split; [apply thread_start|]. split; [constructor|apply program_typed_wp].
  - apply Forall_app in Hths as [Hpre Hpost]. apply Forall_cons_iff in Hpost as [Hth Hpost].
    destruct Hth as (Hok & Hev & Hwp). destruct (thread_step _ _ _ _ _ _ _ E Hok) as [Hmay Hok'].
    destruct Hwp as [Hr Hwp]. destruct (request_typed _ _ _ _ _ _ E Hmay Hr Hev Hw) as [He Hw'].
    split; [done|]. apply Forall_app. split; [done|]. constructor; [|done].
    split; [done|]. split; [|apply Hwp]. apply Forall_app. split; [done|]. by constructor.
  - split; [done|]. apply Forall_app in Hths as [Hpre Hpost].
    apply Forall_cons_iff in Hpost as [_ Hpost]. by apply Forall_app.
  - split; [|done]. by apply (others_typed w).
Qed.

(** C9: however the reconciles interleave, fail or stop half-way, the objects
    stay typed by the schema: a derived priority is an [int32], and the
    conditions of every Tenant, Model and InferenceService have types and
    reasons that the patterns of the CRDs admit, no type twice.  So no status
    the controllers write is rejected by the schema for one of these, and no
    Tenant that is stored can fail on the text of its quota. *)
Theorem operator_well_typed w0 s :
  well_typed w0 -> reachable external w0 s ->
  well_typed (cluster s) /\
  (forall nn t, stored KTenant (cluster s) nn = Some t ->
     exists hard, buildQuotaResourceList (tenant_ResourceQuota (tenant_Spec t)) = Ok hard).
Proof.
  intros H0 Hr. cut (well_typed (cluster s) /\ Forall thread_typed (threads s)).
  { intros [Hw _]. split; [done|]. intros nn t Ht. apply quota_admitted_built.
    by destruct (Hw KTenant nn t Ht) as [[Hq _] _]. }
  induction Hr as [|s s' _ IH Hstep]; [by split|]. destruct IH as [Hw Hths].
  by apply (step_typed s).
Qed.
End typed_system.
