(* ===== verification/GoStd.v ===== *)
(** * Go's slices, flags and paths

    What [operator/cmd/main.go] uses of the language and its standard library:
    slices that share their backing array and the built-in [append], the
    [flag] package and [filepath.Join]. *)
From S2P Require Import Prelude.

(** ** Slices *)

(** The backing arrays, by number; a cell nothing was written to is [None]. *)
Abbreviation Arrays A := (list (list (option A))).

(** A slice that begins at the start of its array, as every slice of the code
    does.  The nil slice has no capacity, so its array is never accessed. *)
Record Slice := mkSlice { array : nat; len : nat; cap : nat }.
Definition nil_slice : Slice := mkSlice 0 0 0.

Section slices.
Context {A : Type}.

Definition cells (h : Arrays A) (s : Slice) : list (option A) := default [] (h !! array s).

(** The elements, as they are in the array now. *)
Definition elements (h : Arrays A) (s : Slice) : list A := omap id (take (len s) (cells h s)).

(** The built-in [append] of one element: in place while the capacity lasts,
    and otherwise to a fresh array, whose capacity the language leaves open. *)
Definition append (growcap : nat -> nat) (s : Slice) (x : A) (h : Arrays A)
    : Arrays A * Slice :=
  if decide (len s < cap s)%nat
  then (alter (fun a => <[len s := Some x]> a) (array s) h,
        mkSlice (array s) (S (len s)) (cap s))
  else (h ++ [take (len s) (cells h s) ++
              Some x :: replicate (growcap (cap s) - S (len s)) None],
        mkSlice (length h) (S (len s)) (growcap (cap s))).

(** The slice lies within its array and all its elements are set. *)
Definition slice_ok (h : Arrays A) (s : Slice) : Prop :=
  (len s <= cap s)%nat /\ (cap s = 0%nat \/ length (cells h s) = cap s) /\
  exists xs, take (len s) (cells h s) = Some <$> xs.

Lemma omap_Some (xs : list A) : omap id (Some <$> xs) = xs.
Proof. induction xs as [|x xs IH]; [done|]. cbn. f_equal. exact IH. Qed.

Lemma nil_slice_ok h : slice_ok h nil_slice.
Proof. split; [done|]. split; [by left|]. by exists []. Qed.

Lemma nil_elements h : elements h nil_slice = [].
Proof. done. Qed.

Lemma slice_ok_length h s : slice_ok h s -> (len s <= length (cells h s))%nat.
Proof. intros (Hl & [Hc|Hc] & _); lia. Qed.

(** Cells of an array that was there before an append to a full slice. *)
Lemma cells_alloc h s a : (array s < length h)%nat -> cells (h ++ [a]) s = cells h s.
Proof. intros Ha. unfold cells. by rewrite lookup_app_l. Qed.

Lemma cells_new (h : Arrays A) a n c : cells (h ++ [a]) (mkSlice (length h) n c) = a.
Proof. unfold cells. cbn [array]. by rewrite lookup_app_r, Nat.sub_diag by done. Qed.

Section grow.
Variable growcap : nat -> nat.

(** [append] adds the element at the end. *)
Lemma append_elements s x h h' s' :
  append growcap s x h = (h', s') -> slice_ok h s ->
  elements h' s' = elements h s ++ [x] /\ len s' = S (len s).
Proof.
  intros E Hs. pose proof (slice_ok_length _ _ Hs) as Hlen.
  destruct Hs as (Hl & Hc & xs & Hxs). unfold append in E. case_decide as Hd.
  - injection E as <- <-. split; [|done]. unfold elements, cells at 1. simpl.
    destruct (h !! array s) as [a|] eqn:Ha; unfold cells in *; rewrite Ha in *; simpl in *; [|lia].
    rewrite list_lookup_alter_eq, Ha. simpl.
    assert (len s < length a)%nat as Hla by lia.
    rewrite (take_S_r _ _ (Some x)) by (by rewrite list_lookup_insert_eq).
    rewrite take_insert_ge by done. by rewrite omap_app.
  - injection E as <- <-. split; [|done]. unfold elements. rewrite cells_new. simpl.
    rewrite (take_S_r _ _ (Some x)).
    2:{ rewrite lookup_app_r by (rewrite length_take; lia). rewrite length_take.
        by replace (len s - _)%nat with 0%nat by lia. }
    rewrite omap_app. f_equal. f_equal. rewrite take_app_le by (rewrite length_take; lia).
    by rewrite take_take, Nat.min_id.
Qed.

(** The new slice lies within its array. *)
Lemma append_within s x h h' s' :
  append growcap s x h = (h', s') -> slice_ok h s -> (len s' <= length (cells h' s'))%nat.
Proof.
  intros E Hs. pose proof (slice_ok_length _ _ Hs) as Hlen. destruct Hs as (_ & Hc & _).
  unfold append in E. case_decide as Hd; injection E as <- <-.
  - unfold cells in *. cbn [array len]. rewrite list_lookup_alter_eq.
    destruct (h !! array s); cbn in *; [rewrite length_insert|]; lia.
  - rewrite cells_new, length_app, length_take. cbn. lia.
Qed.

(** It writes behind the elements of every slice that is no longer than the
    one appended to, and of every slice if it needs a fresh array. *)
Lemma append_keeps s x h h' s' r :
  append growcap s x h = (h', s') -> (len r <= length (cells h r))%nat ->
  (len r <= len s)%nat \/ (cap s <= len s)%nat ->
  elements h' r = elements h r.
Proof.
  intros E Hr Hk. unfold append in E. case_decide as Hd; injection E as <- <-;
    unfold elements; f_equal.
  - unfold cells. destruct (decide (array r = array s)) as [He|He].
    + rewrite He, list_lookup_alter_eq. destruct (h !! array s) as [a|]; [|done].
      simpl. apply take_insert_ge. lia.
    + by rewrite list_lookup_alter_ne.
  - destruct (decide (array r < length h)%nat) as [Ha|Ha]; [by rewrite cells_alloc|].
    unfold cells in Hr. rewrite lookup_ge_None_2 in Hr by lia. simpl in Hr.
    by replace (len r) with 0%nat by lia.
Qed.

(** A fresh array leaves every slice as it was. *)
Lemma append_full_ok s x h h' s' r :
  append growcap s x h = (h', s') -> (cap s <= len s)%nat -> slice_ok h r -> slice_ok h' r.
Proof.
  unfold append. intros E Hf. rewrite decide_False in E by lia. injection E as <- _.
  intros (Hl & Hc & xs & Hxs).
  destruct (decide (array r < length h)%nat) as [Ha|Ha].
  - unfold slice_ok. rewrite cells_alloc by done. split_and!; [done..|]. by exists xs.
  - unfold cells in Hc at 1. rewrite lookup_ge_None_2 in Hc by lia. simpl in Hc.
    split; [done|]. split; [left; lia|]. exists []. by replace (len r) with 0%nat by lia.
Qed.
End grow.
End slices.

(** ** [strconv.ParseBool] *)

Definition ParseBool (s : string) : option bool :=
  if decide (s ∈ ["1"; "t"; "T"; "TRUE"; "true"; "True"]) then Some true
  else if decide (s ∈ ["0"; "f"; "F"; "FALSE"; "false"; "False"]) then Some false
  else None.

(** ** [flag.Parse] *)

(** The value of a flag: of the two types the program declares, or of a type
    of another package, which is or is not a boolean flag, accepts some texts,
    and keeps the ones it was set to. *)
Inductive Value :=
  | StringValue (s : string)
  | BoolValue (b : bool)
  | LibValue (is_bool : bool) (accepts : string -> bool) (set : list string).

Definition IsBoolFlag (v : Value) : bool :=
  match v with StringValue _ => false | BoolValue _ => true | LibValue b _ _ => b end.

Definition Set_ (text : string) (v : Value) : option Value :=
  match v with
  | StringValue _ => Some (StringValue text)
  | BoolValue _ => BoolValue <$> ParseBool text
  | LibValue b accepts set =>
      if accepts text then Some (LibValue b accepts (set ++ [text])) else None
  end.

(** The flags by name. *)
Abbreviation FlagSet := (gmap string Value).

(** With [ExitOnError], the program exits with code 0 after printing the help,
    and with code 2 on any other error. *)
Inductive ParseResult :=
  | Parsed (formal : FlagSet)
  | ErrHelp
  | ParseError.

(** A name and, behind the first equals sign, a value. *)
Fixpoint cut_eq (s : string) : string * option string :=
  match s with
  | EmptyString => ("", None)
  | String c s' =>
      if decide (c = "="%char) then ("", Some s')
      else let '(n, v) := cut_eq s' in (String c n, v)
  end.

(** What an argument is: the end of the flags, a malformed flag, or a flag. *)
Inductive Token := NonFlag | BadFlag | AFlag (name : string) (value : option string).

Definition flag_name (s : string) : Token :=
  match s with
  | EmptyString => BadFlag
  | String c s' =>
      if decide (c = "-"%char \/ c = "="%char) then BadFlag
      else let '(n, v) := cut_eq s' in AFlag (String c n) v
  end.

Definition token (s : string) : Token :=
  match s with
  | String c (String c' s') =>
      if decide (c = "-"%char) then
        if decide (c' = "-"%char)
        then match s' with EmptyString => NonFlag | _ => flag_name s' end
        else flag_name (String c' s')
      else NonFlag
  | _ => NonFlag
  end.

Fixpoint Parse (arguments : list string) (formal : FlagSet) : ParseResult :=
  match arguments with
  | [] => Parsed formal
  | s :: arguments =>
      match token s with
      | NonFlag => Parsed formal
      | BadFlag => ParseError
      | AFlag name value =>
          match formal !! name with
          | None => if decide (name = "help" \/ name = "h") then ErrHelp else ParseError
          | Some v =>
              if IsBoolFlag v then
                match Set_ (default "true" value) v with
                | None => ParseError
                | Some v => Parse arguments (<[name := v]> formal)
                end
              else
                match value, arguments with
                | Some text, _ =>
                    match Set_ text v with
                    | None => ParseError
                    | Some v => Parse arguments (<[name := v]> formal)
                    end
                | None, text :: arguments =>
                    match Set_ text v with
                    | None => ParseError
                    | Some v => Parse arguments (<[name := v]> formal)
                    end
                | None, [] => ParseError
                end
          end
      end
  end.

(** An argument that sets a flag. *)
Definition flag_arg (name text : string) : string := "--" +:+ name +:+ "=" +:+ text.

(** Names that can be given on a command line. *)
Fixpoint no_equals (s : string) : bool :=
  match s with
  | EmptyString => true
  | String c s' => negb (bool_decide (c = "="%char)) && no_equals s'
  end.
Definition name_ok (s : string) : bool :=
  match s with
  | EmptyString => false
  | String c _ => negb (bool_decide (c = "-"%char)) && no_equals s
  end.

Lemma cut_eq_app n v : no_equals n = true -> cut_eq (n +:+ "=" +:+ v) = (n, Some v).
Proof.
  induction n as [|c n IH]; [done|]. simpl. intros [Hc Hn]%andb_true_iff.
  apply negb_true_iff, bool_decide_eq_false in Hc.
  rewrite decide_False by done. change (String "=" v) with ("=" +:+ v). by rewrite IH.
Qed.

Lemma token_flag_arg n v : name_ok n = true -> token (flag_arg n v) = AFlag n (Some v).
Proof.
  destruct n as [|c n]; [done|]. simpl. intros [Hd [He Hn]%andb_true_iff]%andb_true_iff.
  apply negb_true_iff, bool_decide_eq_false in Hd, He.
  rewrite decide_False by (by intros [?|?]). change (String "=" v) with ("=" +:+ v).
  by rewrite cut_eq_app.
Qed.

(** An argument of this form sets the flag, whatever its type. *)
Lemma Parse_flag_arg n text v v' args formal :
  name_ok n = true -> formal !! n = Some v -> Set_ text v = Some v' ->
  Parse (flag_arg n text :: args) formal = Parse args (<[n := v']> formal).
Proof.
  intros Hn Hv Hs. cbn [Parse]. rewrite token_flag_arg, Hv by done. simpl.
  rewrite Hs. by destruct (IsBoolFlag v).
Qed.

(** ** [filepath.Join] *)

Definition slash : ascii := "/"%char.

(** The text split at the slashes. *)
Fixpoint split_slash (s : string) : list string :=
  match s with
  | EmptyString => [""]
  | String c s' =>
      let r := split_slash s' in
      if decide (c = slash) then "" :: r
      else match r with [] => [String c ""] | e :: r => String c e :: r end
  end.

Definition is_rooted (s : string) : bool :=
  match s with String c _ => bool_decide (c = slash) | _ => false end.

(** One element of the path: the elements so far, the last one first. *)
Definition clean_element (rooted : bool) (out : list string) (e : string) : list string :=
  if decide (e = "" \/ e = ".") then out
  else if decide (e = "..") then
    match out with
    | [] => if rooted then [] else [".."]
    | l :: out' => if decide (l = "..") then ".." :: out else out'
    end
  else e :: out.

Definition Clean (path : string) : string :=
  let rooted := is_rooted path in
  let out := String.concat "/" (reverse (fold_left (clean_element rooted) (split_slash path) [])) in
  if rooted then "/" +:+ out else if decide (out = "") then "." else out.

(** Of two elements; empty ones in front are left out. *)
Definition Join (dir name : string) : string :=
  if decide (dir = "") then (if decide (name = "") then "" else Clean name)
  else Clean (dir +:+ "/" +:+ name).

Example Join_samples :
  (Join "/certs/" "tls.crt", Join "a/../b/./c" "../d", Join "/../x" "", Join ".." "..",
   Join "" "", Join "a" "../..") =
  ("/certs/tls.crt", "b/d", "/x", "../..", "", "..").
Proof. reflexivity. Qed.
