(* ===== verification/Manager.v ===== *)
(** * Entry point

    [operator/cmd/main.go]: the flags, the TLS options of the two servers, and
    the registration of the controllers and webhooks with the manager, which is
    started last; [SetupWithManager] of each controller and the two set-up
    functions of the webhooks. *)
From S2P Require Import Prelude.
From S2P Require Import GoStd.
From S2P Require Import ApiTypes.
From S2P Require Import K8sLib.
From S2P Require Import ApiClient.
From S2P Require Import Webhook.
From S2P Require Import ModelController.
From S2P Require Import TenantController.
From S2P Require Import InferenceServiceController.

(** ** Flags *)

(** The variables of [main] that flags are bound to. *)
Record Flags := mkFlags {
  metricsAddr : string;
  metricsCertPath : string; metricsCertName : string; metricsCertKey : string;
  webhookCertPath : string; webhookCertName : string; webhookCertKey : string;
  enableLeaderElection : bool;
  probeAddr : string;
  secureMetrics : bool;
  enableHTTP2 : bool
}.

(** The calls of [flag.StringVar] and [flag.BoolVar], on top of the flags the
    libraries have declared. *)
Definition declare_flags (libFlags : FlagSet) : FlagSet :=
  <["metrics-bind-address" := StringValue "0"]>
  (<["health-probe-bind-address" := StringValue ":8081"]>
  (<["leader-elect" := BoolValue false]>
  (<["metrics-secure" := BoolValue true]>
  (<["webhook-cert-path" := StringValue ""]>
  (<["webhook-cert-name" := StringValue "tls.crt"]>
  (<["webhook-cert-key" := StringValue "tls.key"]>
  (<["metrics-cert-path" := StringValue ""]>
  (<["metrics-cert-name" := StringValue "tls.crt"]>
  (<["metrics-cert-key" := StringValue "tls.key"]>
  (<["enable-http2" := BoolValue false]> libFlags)))))))))).

Definition string_var (fs : FlagSet) (name : string) : string :=
  match fs !! name with Some (StringValue s) => s | _ => "" end.
Definition bool_var (fs : FlagSet) (name : string) : bool :=
  match fs !! name with Some (BoolValue b) => b | _ => false end.

(** The variables after [flag.Parse]. *)
Definition flag_vars (fs : FlagSet) : Flags :=
  mkFlags (string_var fs "metrics-bind-address")
    (string_var fs "metrics-cert-path") (string_var fs "metrics-cert-name")
    (string_var fs "metrics-cert-key")
    (string_var fs "webhook-cert-path") (string_var fs "webhook-cert-name")
    (string_var fs "webhook-cert-key")
    (bool_var fs "leader-elect") (string_var fs "health-probe-bind-address")
    (bool_var fs "metrics-secure") (bool_var fs "enable-http2").

(** ** TLS options *)

(** A certificate watcher, by the files it watches. *)
Record CertWatcher := mkCertWatcher { certPath : string; keyPath : string }.

(** The fields of [tls.Config] the options assign. *)
Record Config := mkConfig { NextProtos : list string; GetCertificate : option CertWatcher }.

(** The closures of type [func( *tls.Config)]. *)
Inductive TLSOpt := DisableHTTP2 | UseCertificateOf (w : CertWatcher).

Definition apply_opt (c : Config) (opt : TLSOpt) : Config :=
  match opt with
  | DisableHTTP2 => mkConfig ["http/1.1"] (GetCertificate c)
  | UseCertificateOf w => mkConfig (NextProtos c) (Some w)
  end.

(** What a server makes of its options. *)
Definition configure (opts : list TLSOpt) (c : Config) : Config := fold_left apply_opt opts c.

(** ** The manager *)

Inductive FilterProvider := WithAuthenticationAndAuthorization.

(** [metricsserver.Options]. *)
Record MetricsOptions := mkMetricsOptions {
  BindAddress : string;
  SecureServing : bool;
  TLSOpts : Slice;
  FilterProvider_ : option FilterProvider
}.

(** [ctrl.Options], the webhook server by its TLS options. *)
Record ManagerOptions := mkManagerOptions {
  Metrics : MetricsOptions;
  WebhookServer : Slice;
  HealthProbeBindAddress : string;
  LeaderElection : bool;
  LeaderElectionID : string
}.

(** What a controller is built from: its name, the kind it reconciles, the
    other kinds it watches with the mapping of their events, its reconciler. *)
Record Controller := mkController {
  Named : string;
  For : Kind;
  Watches : list (Kind * (Object -> Prog (list NamespacedName)));
  Reconciler : Time -> NamespacedName -> Prog (Result * option error)
}.

Definition tenant_SetupWithManager `{L : K8sLib} : Controller :=
  mkController "tenant" KTenant [] TenantController.Reconcile.
Definition model_SetupWithManager `{L : K8sLib} : Controller :=
  mkController "model" KModel [] ModelController.Reconcile.
Definition isvc_SetupWithManager `{L : K8sLib} : Controller :=
  mkController "inferenceservice" KInferenceService
    [(KModel, mapModelToInferenceServices)] InferenceServiceController.Reconcile.

(** What a webhook is built from. *)
Record ValidatingHandlers := mkValidatingHandlers {
  OnCreate : Object -> Prog (list string * option error);
  OnUpdate : Object -> Object -> Prog (list string * option error);
  OnDelete : Object -> Prog (list string * option error)
}.
Record AdmissionWebhook := mkAdmissionWebhook {
  webhook_For : Kind;
  WithValidator : option ValidatingHandlers;
  WithDefaulter : option (Object -> Prog (Object * option error))
}.

Definition SetupInferenceServiceWebhook : AdmissionWebhook :=
  mkAdmissionWebhook KInferenceService
    (Some (mkValidatingHandlers ValidateCreate ValidateUpdate ValidateDelete)) None.
Definition SetupInferenceServiceMutator : AdmissionWebhook :=
  mkAdmissionWebhook KInferenceService None (Some Default_).

(** ** [main] *)

(** The calls of [main] that can fail, in the order it makes them. *)
Inductive Step :=
  | NewCertWatcher (w : CertWatcher)
  | GetConfigOrDie
  | NewManager (o : ManagerOptions)
  | SetupController (c : Controller)
  | SetupWebhook (h : AdmissionWebhook)
  | AddWatcher (w : CertWatcher)
  | AddHealthzCheck (name : string)
  | AddReadyzCheck (name : string)
  | Start.

(** What has been called so far, and the arrays behind the TLS options. *)
Record State := mkState { calls : list Step; arrays : Arrays TLSOpt }.

(** A computation is given the errors of the calls, by their position, and
    ends with a value or exits with a code. *)
Definition M (A : Type) : Type := (nat -> option error) -> State -> State * (Z + A).

Definition ret {A} (a : A) : M A := fun _ st => (st, inr a).
Definition os_Exit {A} (code : Z) : M A := fun _ st => (st, inl code).
Definition then_ {A B} (m : M A) (f : A -> M B) : M B :=
  fun errs st =>
    match m errs st with
    | (st', inl code) => (st', inl code)
    | (st', inr a) => f a errs st'
    end.

Declare Scope main_scope.
Delimit Scope main_scope with main.
Notation "'do!' x := p 'in' q" := (then_ p (fun x => q))
  (at level 10, x name, p at level 100, q at level 200) : main_scope.
Notation "'do!' ' x := p 'in' q" := (then_ p (fun x => q))
  (at level 10, x pattern, p at level 100, q at level 200) : main_scope.
Notation "p ;;; q" := (then_ p (fun _ => q))
  (at level 100, q at level 200, right associativity) : main_scope.
Open Scope main_scope.

(** A call whose failure is logged and ends the process with code 1. *)
Definition must (s : Step) : M unit :=
  fun errs st =>
    (mkState (calls st ++ [s]) (arrays st),
     match errs (length (calls st)) with None => inr () | Some _ => inl 1 end).

Definition append_opt (growcap : nat -> nat) (s : Slice) (opt : TLSOpt) : M Slice :=
  fun _ st => let '(h, s') := append growcap s opt (arrays st) in
              (mkState (calls st) h, inr s').

(** A new watcher, if the path is given, and the options with its closure. *)
Definition watch_certificates (growcap : nat -> nat) (path name key : string) (opts : Slice)
    : M (option CertWatcher * Slice) :=
  if (0 <? String.length path)%nat then
    let w := mkCertWatcher (Join path name) (Join path key) in
    must (NewCertWatcher w) ;;;
    do! opts := append_opt growcap opts (UseCertificateOf w) in
    ret (Some w, opts)
  else ret (None, opts).

Definition add_watcher (w : option CertWatcher) : M unit :=
  match w with None => ret () | Some w => must (AddWatcher w) end.

(** Up to [ctrl.NewManager]: the watchers and the options of the manager. *)
Definition new_manager (growcap : nat -> nat) (v : Flags)
    : M (option CertWatcher * option CertWatcher * ManagerOptions) :=
  do! tlsOpts :=
    (if negb (enableHTTP2 v) then append_opt growcap nil_slice DisableHTTP2
     else ret nil_slice) in
  do! '(webhookCertWatcher, webhookTLSOpts) :=
    watch_certificates growcap (webhookCertPath v) (webhookCertName v) (webhookCertKey v)
      tlsOpts in
  do! '(metricsCertWatcher, metricsTLSOpts) :=
    watch_certificates growcap (metricsCertPath v) (metricsCertName v) (metricsCertKey v)
      tlsOpts in
  let metricsServerOptions :=
    mkMetricsOptions (metricsAddr v) (secureMetrics v) metricsTLSOpts
      (if secureMetrics v then Some WithAuthenticationAndAuthorization else None) in
  let o := mkManagerOptions metricsServerOptions webhookTLSOpts (probeAddr v)
             (enableLeaderElection v) "f9f5a821.platform.io" in
  must GetConfigOrDie ;;;
  must (NewManager o) ;;;
  ret (metricsCertWatcher, webhookCertWatcher, o).

(** The rest: the registrations and the start. *)
Definition register_and_start `{L : K8sLib}
    (metricsCertWatcher webhookCertWatcher : option CertWatcher) : M unit :=
  must (SetupController tenant_SetupWithManager) ;;;
  must (SetupController model_SetupWithManager) ;;;
  must (SetupController isvc_SetupWithManager) ;;;
  must (SetupWebhook SetupInferenceServiceWebhook) ;;;
  must (SetupWebhook SetupInferenceServiceMutator) ;;;
  add_watcher metricsCertWatcher ;;;
  add_watcher webhookCertWatcher ;;;
  must (AddHealthzCheck "healthz") ;;;
  must (AddReadyzCheck "readyz") ;;;
  must Start.

Definition main_body `{L : K8sLib} (growcap : nat -> nat) (v : Flags) : M unit :=
  do! '(metricsCertWatcher, webhookCertWatcher, _) := new_manager growcap v in
  register_and_start metricsCertWatcher webhookCertWatcher.

(** The whole program: the calls it made with the arrays at its end, and its
    exit code. *)
Definition main `{L : K8sLib} (growcap : nat -> nat) (libFlags : FlagSet)
    (arguments : list string) (errs : nat -> option error) : State * Z :=
  match Parse arguments (declare_flags libFlags) with
  | ErrHelp => (mkState [] [], 0)
  | ParseError => (mkState [] [], 2)
  | Parsed fs =>
      match main_body growcap (flag_vars fs) errs (mkState [] []) with
      | (st, inl code) => (st, code)
      | (st, inr _) => (st, 0)
      end
  end.

(** The arguments of the deployment ([operator/config/manager/manager.yaml]). *)
Definition manager_args : list string :=
  [ "--leader-elect"; "--health-probe-bind-address=:8081"; "--metrics-bind-address=:8443";
    "--zap-log-level=debug" ].

(** ** Specification *)

(** The watcher a server is due. *)
Definition watcher_due (path name key : string) : option CertWatcher :=
  if decide (path = "") then None else Some (mkCertWatcher (Join path name) (Join path key)).
Definition webhook_watcher (v : Flags) : option CertWatcher :=
  watcher_due (webhookCertPath v) (webhookCertName v) (webhookCertKey v).
Definition metrics_watcher (v : Flags) : option CertWatcher :=
  watcher_due (metricsCertPath v) (metricsCertName v) (metricsCertKey v).

(** The calls of a start that nothing fails in. *)
Definition new_watchers (v : Flags) : list Step :=
  NewCertWatcher <$> option_list (webhook_watcher v) ++ option_list (metrics_watcher v).
Definition registrations `{L : K8sLib} (v : Flags) : list Step :=
  [ SetupController tenant_SetupWithManager; SetupController model_SetupWithManager;
    SetupController isvc_SetupWithManager;
    SetupWebhook SetupInferenceServiceWebhook; SetupWebhook SetupInferenceServiceMutator ] ++
  (AddWatcher <$> option_list (metrics_watcher v) ++ option_list (webhook_watcher v)) ++
  [ AddHealthzCheck "healthz"; AddReadyzCheck "readyz" ].
Definition start_up `{L : K8sLib} (v : Flags) (o : ManagerOptions) : list Step :=
  new_watchers v ++ [GetConfigOrDie; NewManager o] ++ registrations v ++ [Start].

(** What the flags say of the manager, but for the TLS options. *)
Definition options_due (v : Flags) (o : ManagerOptions) : Prop :=
  BindAddress (Metrics o) = metricsAddr v /\ SecureServing (Metrics o) = secureMetrics v /\
  FilterProvider_ (Metrics o) =
    (if secureMetrics v then Some WithAuthenticationAndAuthorization else None) /\
  HealthProbeBindAddress o = probeAddr v /\ LeaderElection o = enableLeaderElection v.

(** What a server is due to make of its TLS configuration. *)
Definition tls_due (v : Flags) (w : option CertWatcher) (c : Config) : Config :=
  mkConfig (if enableHTTP2 v then NextProtos c else ["http/1.1"])
    (match w with Some w => Some w | None => GetCertificate c end).

(** ** Sequences of calls *)

(** The first of [n] calls that fails is the one at [i]. *)
Definition first_error (errs : nat -> option error) (start n i : nat) : Prop :=
  (i < n)%nat /\ errs (start + i)%nat <> None /\
  forall j, (j < i)%nat -> errs (start + j)%nat = None.
Definition no_error (errs : nat -> option error) (start n : nat) : Prop :=
  forall j, (j < n)%nat -> errs (start + j)%nat = None.

(** The computation makes these calls and returns this value, or stops behind
    the first call that fails. *)
Definition performs {A} (m : M A) (st : State) (steps : list Step) (st0 : State) (a : A) : Prop :=
  calls st0 = calls st ++ steps /\
  forall errs,
    (no_error errs (length (calls st)) (length steps) /\ m errs st = (st0, inr a)) \/
    (exists i st', first_error errs (length (calls st)) (length steps) i /\
       m errs st = (st', inl 1) /\ calls st' = calls st ++ take (S i) steps).

Lemma performs_ret {A} (a : A) st : performs (ret a) st [] st a.
Proof.
  split; [by rewrite app_nil_r|]. intros errs. left. split; [|done]. intros j Hj. cbn in Hj. lia.
Qed.

Lemma performs_must s st :
  performs (must s) st [s] (mkState (calls st ++ [s]) (arrays st)) ().
Proof.
  split; [done|]. intros errs. unfold must.
  destruct (errs (length (calls st))) as [e|] eqn:He; [right|left].
  - exists 0%nat. eexists. split; [|done]. split; [cbn; lia|]. rewrite Nat.add_0_r.
    split; [congruence|]. intros j Hj. lia.
  - split; [|done]. intros j Hj. cbn in Hj. by replace j with 0%nat by lia; rewrite Nat.add_0_r.
Qed.

Lemma performs_append growcap s opt st :
  performs (append_opt growcap s opt) st []
    (mkState (calls st) (append growcap s opt (arrays st)).1)
    (append growcap s opt (arrays st)).2.
Proof.
  split; [by rewrite app_nil_r|]. intros errs. left.
  split; [intros j Hj; cbn in Hj; lia|]. unfold append_opt. by destruct (append _ _ _ _).
Qed.

Lemma performs_then {A B} (m : M A) (f : A -> M B) st s1 st1 a s2 st2 b :
  performs m st s1 st1 a -> performs (f a) st1 s2 st2 b ->
  performs (then_ m f) st (s1 ++ s2) st2 b.
Proof.
  intros [Hc1 H1] [Hc2 H2]. split; [by rewrite Hc2, Hc1, app_assoc|].
  intros errs. unfold then_. rewrite Hc1, length_app in H2. rewrite length_app.
  destruct (H1 errs) as [[Hn ->]|(i & st' & (Hi & He & Hb) & -> & Hs)].
  - destruct (H2 errs) as [[Hn' ->]|(i & st' & (Hi & He & Hb) & -> & Hs)]; [left|right].
    + split; [|done]. intros j Hj. destruct (decide (j < length s1)%nat); [by apply Hn|].
      specialize (Hn' (j - length s1)%nat). rewrite <- Hn' by lia. f_equal. lia.
    + exists (length s1 + i)%nat, st'. split; [|split; [done|]].
      * split; [lia|]. split; [by rewrite Nat.add_assoc|]. intros j Hj.
        destruct (decide (j < length s1)%nat); [by apply Hn|].
        rewrite <- (Hb (j - length s1)%nat) by lia. f_equal. lia.
      * rewrite Hs, <- app_assoc. f_equal.
        rewrite take_app_ge by lia. do 2 f_equal. lia.
  - right. exists i, st'. split; [|split; [done|]].
    + split; [lia|]. by split.
    + rewrite Hs. f_equal. by rewrite take_app_le by lia.
Qed.

(** ** The run of [main] *)

Lemma length_pos_path (path : string) :
  (0 <? String.length path)%nat = negb (bool_decide (path = "")).
Proof. by destruct path. Qed.

(** The options with the closure of the watcher, if there is one. *)
Definition watched (growcap : nat -> nat) (w : option CertWatcher) (opts : Slice)
    (h : Arrays TLSOpt) : Arrays TLSOpt * Slice :=
  match w with
  | Some w => append growcap opts (UseCertificateOf w) h
  | None => (h, opts)
  end.

Lemma performs_watch growcap path name key opts st :
  let w := watcher_due path name key in
  performs (watch_certificates growcap path name key opts) st
    (NewCertWatcher <$> option_list w)
    (mkState (calls st ++ (NewCertWatcher <$> option_list w)) (watched growcap w opts (arrays st)).1)
    (w, (watched growcap w opts (arrays st)).2).
Proof.
  cbv zeta. unfold watch_certificates, watcher_due. rewrite length_pos_path.
  destruct (decide (path = "")) as [->|Hp].
  - rewrite bool_decide_eq_true_2 by done. simpl. rewrite app_nil_r.
    destruct st as [cs h]. apply performs_ret.
  - rewrite bool_decide_eq_false_2 by done. cbn [negb option_list option_rect fmap list_fmap].
    eapply (performs_then _ _ _ [_]); [apply performs_must|].
    eapply (performs_then _ _ _ [] _ _ []); [apply performs_append|apply performs_ret].
Qed.

(** The arrays and the slices of the webhook and of the metrics server. *)
Definition tls_slices (growcap : nat -> nat) (v : Flags) : Arrays TLSOpt * Slice * Slice :=
  let '(h, tlsOpts) :=
    if enableHTTP2 v then ([], nil_slice) else append growcap nil_slice DisableHTTP2 [] in
  let '(h, sw) := watched growcap (webhook_watcher v) tlsOpts h in
  let '(h, sm) := watched growcap (metrics_watcher v) tlsOpts h in
  (h, sw, sm).

Definition options_with (v : Flags) (sw sm : Slice) : ManagerOptions :=
  mkManagerOptions
    (mkMetricsOptions (metricsAddr v) (secureMetrics v) sm
       (if secureMetrics v then Some WithAuthenticationAndAuthorization else None))
    sw (probeAddr v) (enableLeaderElection v) "f9f5a821.platform.io".

Lemma new_manager_performs growcap v :
  let '(h, sw, sm) := tls_slices growcap v in
  let o := options_with v sw sm in
  let steps := new_watchers v ++ [GetConfigOrDie; NewManager o] in
  performs (new_manager growcap v) (mkState [] []) steps (mkState steps h)
    (metrics_watcher v, webhook_watcher v, o).
Proof.
  unfold tls_slices, new_manager, new_watchers.
  set (h0 := if enableHTTP2 v then ([], nil_slice) else append growcap nil_slice DisableHTTP2 []).
  assert (performs (if negb (enableHTTP2 v) then append_opt growcap nil_slice DisableHTTP2
                    else ret nil_slice) (mkState [] []) [] (mkState [] h0.1) h0.2) as H0.
  { unfold h0. destruct (enableHTTP2 v); [apply performs_ret|].
    apply (performs_append growcap nil_slice DisableHTTP2 (mkState [] [])). }
  destruct h0 as [h tlsOpts]. cbn [fst snd] in H0.
  destruct (watched growcap (webhook_watcher v) tlsOpts h) as [h1 sw] eqn:E1.
  destruct (watched growcap (metrics_watcher v) tlsOpts h1) as [h2 sm] eqn:E2.
  cbv zeta. rewrite fmap_app, <- app_assoc.
  apply (performs_then _ _ _ [] _ _ _ _ _ H0).
  eapply performs_then; [apply performs_watch|]. fold (webhook_watcher v). cbn [arrays calls].
  rewrite E1. cbn [fst snd].
  eapply performs_then; [apply performs_watch|]. fold (metrics_watcher v). cbn [arrays calls].
  rewrite E2. cbn [fst snd].
  eapply (performs_then _ _ _ [_] _ _ [_]); [apply performs_must|]. cbn [arrays calls].
  eapply (performs_then _ _ _ [_] _ _ []); [apply performs_must|]. cbn [arrays calls app].
  rewrite <- !app_assoc. apply performs_ret.
Qed.

Lemma performs_add_watcher w st :
  performs (add_watcher w) st (AddWatcher <$> option_list w)
    (mkState (calls st ++ (AddWatcher <$> option_list w)) (arrays st)) ().
Proof.
  destruct w as [w|]; simpl; [apply performs_must|].
  rewrite app_nil_r. destruct st. apply performs_ret.
Qed.

Section start_up.
Context `{L : K8sLib}.

Lemma register_performs v st :
  let steps := registrations v ++ [Start] in
  performs (register_and_start (metrics_watcher v) (webhook_watcher v)) st steps
    (mkState (calls st ++ steps) (arrays st)) ().
Proof.
  cbv zeta. unfold register_and_start, registrations. rewrite fmap_app, <- !app_assoc.
  cbn [app].
  do 5 (eapply (performs_then _ _ _ [_]); [apply performs_must|]; cbn [arrays calls]).
  do 2 (eapply performs_then; [apply performs_add_watcher|]; cbn [arrays calls]).
  do 2 (eapply (performs_then _ _ _ [_] _ _ [_]) ||
        eapply (performs_then _ _ _ [_]); [apply performs_must|]; cbn [arrays calls]).
  match goal with |- performs _ ?st _ ?st' _ =>
    replace st' with (mkState (calls st ++ [Start]) (arrays st))
      by (cbn [arrays calls]; by rewrite <- ?app_assoc) end.
  apply performs_must.
Qed.

Lemma main_body_performs growcap v :
  let '(h, sw, sm) := tls_slices growcap v in
  performs (main_body growcap v) (mkState [] []) (start_up v (options_with v sw sm))
    (mkState (start_up v (options_with v sw sm)) h) ().
Proof.
  pose proof (new_manager_performs growcap v) as H.
  destruct (tls_slices growcap v) as [[h sw] sm]. cbv zeta in H.
  unfold main_body, start_up. rewrite app_assoc.
  eapply performs_then; [exact H|]. cbn beta iota. apply register_performs.
Qed.

(** C32: given flags that parse, [main] makes the watchers, the manager, the
    three controllers, the two webhooks and the checks in this order, starts
    the manager last, and with the options the flags ask for.  It exits with 0
    if nothing fails; if a call fails, it exits with 1 at that call: nothing
    behind it is made, so that a manager never runs half registered. *)
Theorem main_starts_registered growcap libFlags arguments fs errs st code :
  Parse arguments (declare_flags libFlags) = Parsed fs ->
  main growcap libFlags arguments errs = (st, code) ->
  exists o, let steps := start_up (flag_vars fs) o in
    options_due (flag_vars fs) o /\
    ((code = 0 /\ calls st = steps /\ no_error errs 0 (length steps)) \/
     (code = 1 /\ exists i, first_error errs 0 (length steps) i /\
                            calls st = take (S i) steps)).
Proof.
  intros Hp Hm. unfold main in Hm. rewrite Hp in Hm.
  pose proof (main_body_performs growcap (flag_vars fs)) as H.
  destruct (tls_slices growcap (flag_vars fs)) as [[h sw] sm].
  exists (options_with (flag_vars fs) sw sm). cbv zeta. split; [done|]. destruct H as [_ H].
  destruct (H errs) as [[Hn Hr]|(i & st' & Hf & Hr & Hc)]; rewrite Hr in Hm; simplify_eq.
  - by left.
  - right. split; [done|]. by exists i.
Qed.

(** The calls of the second part leave the arrays alone. *)
Definition keeps_arrays {A} (m : M A) : Prop :=
  forall errs st, arrays (m errs st).1 = arrays st.

Lemma keeps_must s : keeps_arrays (must s).
Proof. done. Qed.

Lemma keeps_then {A B} (m : M A) (f : A -> M B) :
  keeps_arrays m -> (forall a, keeps_arrays (f a)) -> keeps_arrays (then_ m f).
Proof.
  intros Hm Hf errs st. unfold then_. specialize (Hm errs st).
  destruct (m errs st) as [st' [code|a]]; [done|]. rewrite Hf. exact Hm.
Qed.

Lemma register_keeps mw ww : keeps_arrays (register_and_start mw ww).
Proof.
  unfold register_and_start.
  repeat (apply keeps_then; [first [apply keeps_must|unfold add_watcher; by case_match]|intros _]).
  apply keeps_must.
Qed.

Lemma start_up_manager v o o' : NewManager o' ∈ start_up v o -> o' = o.
Proof.
  unfold start_up, new_watchers, registrations.
  rewrite !elem_of_app, !list_elem_of_fmap, !elem_of_cons, !elem_of_nil.
  intros H. repeat destruct H as [H|H]; unpack; (done || congruence).
Qed.

Lemma new_manager_no_start v o : Start ∉ new_watchers v ++ [GetConfigOrDie; NewManager o].
Proof.
  unfold new_watchers. rewrite elem_of_app, list_elem_of_fmap, !elem_of_cons, elem_of_nil.
  intros H. repeat destruct H as [H|H]; unpack; (done || congruence).
Qed.

(** In a run that gets to the start, the manager has been given the options
    and the arrays are the ones they refer to. *)
Lemma started growcap v errs st r o :
  main_body growcap v errs (mkState [] []) = (st, r) ->
  Start ∈ calls st -> NewManager o ∈ calls st ->
  let '(h, sw, sm) := tls_slices growcap v in o = options_with v sw sm /\ arrays st = h.
Proof.
  intros Hr Hs Ho.
  pose proof (new_manager_performs growcap v) as H1.
  pose proof (main_body_performs growcap v) as H2.
  destruct (tls_slices growcap v) as [[h sw] sm]. cbv zeta in H1.
  destruct H1 as [_ H1], H2 as [_ H2]. split.
  - apply (start_up_manager v).
    destruct (H2 errs) as [[_ Hm]|(i & st' & _ & Hm & Hc)]; rewrite Hr in Hm; simplify_eq; [done|].
    rewrite Hc in Ho. by apply (subseteq_take (S i)) in Ho.
  - unfold main_body, then_ in Hr.
    destruct (H1 errs) as [[_ Hm]|(i & st' & _ & Hm & Hc)]; rewrite Hm in Hr.
    + apply (f_equal (fun x => arrays x.1)) in Hr. cbn beta iota in Hr.
      by rewrite register_keeps in Hr.
    + simplify_eq. rewrite Hc in Hs. apply (subseteq_take (S i)) in Hs.
      by apply new_manager_no_start in Hs.
Qed.

(** ** The TLS configurations *)

Lemma configure_due v w c :
  configure ((if enableHTTP2 v then [] else [DisableHTTP2]) ++ (UseCertificateOf <$> option_list w)) c
  = tls_due v w c.
Proof. unfold tls_due. destruct c, w, (enableHTTP2 v); done. Qed.

(** Appending the closure of a watcher to a full slice. *)
Lemma watched_elements growcap w s h h' s' :
  watched growcap w s h = (h', s') -> slice_ok h s ->
  elements h' s' = elements h s ++ (UseCertificateOf <$> option_list w).
Proof.
  destruct w as [w|]; simpl; intros E Hs.
  - by destruct (append_elements _ _ _ _ _ _ E Hs).
  - injection E as <- <-. by rewrite app_nil_r.
Qed.

Lemma watched_keeps growcap w s h h' s' r :
  watched growcap w s h = (h', s') -> (cap s <= len s)%nat ->
  (len r <= length (cells h r))%nat -> elements h' r = elements h r.
Proof.
  destruct w as [w|]; simpl; intros E Hc Hr; [|by injection E as <- <-].
  apply (append_keeps _ _ _ _ _ _ _ E Hr). by right.
Qed.

Lemma watched_ok growcap w s h h' s' :
  watched growcap w s h = (h', s') -> (cap s <= len s)%nat -> slice_ok h s ->
  slice_ok h' s /\ (len s' <= length (cells h' s'))%nat.
Proof.
  destruct w as [w|]; simpl; intros E Hc Hs.
  - split; [by apply (append_full_ok _ _ _ _ _ _ _ E)|by apply (append_within _ _ _ _ _ _ E)].
  - injection E as <- <-. split; [done|]. by apply slice_ok_length.
Qed.

(** The options every slice is due, once the first append has no room left. *)
Lemma tls_slices_due growcap v :
  growcap 0%nat = 1%nat ->
  let '(h, sw, sm) := tls_slices growcap v in
  forall c, configure (elements h sw) c = tls_due v (webhook_watcher v) c /\
            configure (elements h sm) c = tls_due v (metrics_watcher v) c.
Proof.
  intros Hg. unfold tls_slices.
  set (h0 := if enableHTTP2 v then ([], nil_slice) else append growcap nil_slice DisableHTTP2 []).
  assert (slice_ok h0.1 h0.2 /\ (cap h0.2 <= len h0.2)%nat /\
          elements h0.1 h0.2 = if enableHTTP2 v then [] else [DisableHTTP2]) as (Hok & Hfull & He).
  { unfold h0. destruct (enableHTTP2 v); [split_and!; [apply nil_slice_ok|done|done]|].
    unfold append. cbn [len cap nil_slice decide_rel]. rewrite decide_False by (cbn; lia).
    rewrite Hg. split_and!; [|done|done]. split; [done|]. split; [by right|]. by exists [DisableHTTP2]. }
  destruct h0 as [h s]. cbn [fst snd] in *.
  destruct (watched growcap (webhook_watcher v) s h) as [h1 sw] eqn:E1.
  destruct (watched growcap (metrics_watcher v) s h1) as [h2 sm] eqn:E2.
  destruct (watched_ok _ _ _ _ _ _ E1 Hfull Hok) as [Hok1 Hsw].
  intros c. rewrite (watched_keeps _ _ _ _ _ _ _ E2 Hfull Hsw).
  rewrite (watched_elements _ _ _ _ _ _ E1 Hok), (watched_elements _ _ _ _ _ _ E2 Hok1).
  rewrite (watched_keeps _ _ _ _ _ _ _ E1 Hfull) by by apply slice_ok_length.
  rewrite He. by rewrite !configure_due.
Qed.

(** The two servers configure TLS as the flags ask for. *)
Definition servers_configured (growcap : nat -> nat) : Prop :=
  forall libFlags arguments fs errs st code o c,
    Parse arguments (declare_flags libFlags) = Parsed fs ->
    main growcap libFlags arguments errs = (st, code) ->
    Start ∈ calls st -> NewManager o ∈ calls st ->
    let v := flag_vars fs in
    configure (elements (arrays st) (WebhookServer o)) c = tls_due v (webhook_watcher v) c /\
    configure (elements (arrays st) (TLSOpts (Metrics o))) c = tls_due v (metrics_watcher v) c.

Lemma append_nil growcap (x : TLSOpt) :
  append growcap nil_slice x [] =
  ([Some x :: replicate (growcap 0 - 1) None], mkSlice 0 1 (growcap 0))%nat.
Proof. reflexivity. Qed.

(** With room for a second option, the one of the metrics server overwrites
    the one of the webhook server. *)
Lemma shared_array growcap n :
  growcap 0%nat = S (S n) -> ~ servers_configured growcap.
Proof.
  intros Hg H.
  set (args := [flag_arg "webhook-cert-path" "/w"; flag_arg "metrics-cert-path" "/m"]).
  destruct (Parse args (declare_flags ∅)) as [fs| |] eqn:Hp; [|by vm_compute in Hp..].
  pose proof (main_body_performs growcap (flag_vars fs)) as Hm.
  destruct (tls_slices growcap (flag_vars fs)) as [[h sw] sm] eqn:Et.
  destruct Hm as [_ Hm]. specialize (Hm (fun _ => None)).
  destruct Hm as [[_ Hm]|(i & st' & (_ & He & _) & _)]; [|done].
  edestruct (H ∅ args fs (fun _ => None)
    (mkState (start_up (flag_vars fs) (options_with (flag_vars fs) sw sm)) h) 0
    (options_with (flag_vars fs) sw sm)
               (mkConfig [] None)) as [Hw _]; [done| | | |].
  - unfold main. rewrite Hp, Hm. done.
  - cbn [calls]. unfold start_up. rewrite !elem_of_app. right. right. right. by left.
  - cbn [calls]. unfold start_up. rewrite !elem_of_app. right. left. by right; left.
  - cbv zeta in Hw. cbn [arrays] in Hw.
    assert (flag_vars fs = mkFlags "0" "/m" "tls.crt" "tls.key" "/w" "tls.crt" "tls.key"
                             false ":8081" true false) as Hv
      by (vm_compute in Hp; injection Hp as <-; by vm_compute).
    rewrite Hv in *. unfold tls_slices in Et. cbn [enableHTTP2] in Et.
    rewrite append_nil, Hg in Et. vm_compute in Et. injection Et as <- <- <-. vm_compute in Hw. discriminate.
Qed.

(** C33: whenever the servers are started, the webhook server and the metrics
    server each present the certificate of its own path, and neither offers
    HTTP/2 unless asked to.  The two lists of options grow out of one slice
    ([webhookTLSOpts := tlsOpts]), so this holds exactly because the array of
    a first append has no room for a second element, as that of Go's runtime
    has not for elements of one word; the language does not promise it. *)
Theorem servers_configured_iff growcap :
  (0 < growcap 0)%nat -> servers_configured growcap <-> growcap 0%nat = 1%nat.
Proof.
  intros Hpos. split.
  - intros H. destruct (growcap 0%nat) as [|[|n]] eqn:Hg; [lia|done|].
    by apply (shared_array _ _ Hg) in H.
  - intros Hg libFlags arguments fs errs st code o c Hp Hm Hs Ho. cbv zeta.
    unfold main in Hm. rewrite Hp in Hm.
    destruct (main_body growcap (flag_vars fs) errs (mkState [] [])) as [st1 r] eqn:Hb.
    assert (st1 = st) as -> by (by destruct r; simplify_eq).
    pose proof (started _ _ _ _ _ _ Hb Hs Ho) as Hst.
    pose proof (tls_slices_due growcap (flag_vars fs) Hg) as Hdue.
    destruct (tls_slices growcap (flag_vars fs)) as [[h sw] sm].
    destruct Hst as [-> ->]. apply Hdue.
Qed.
End start_up.

(** ** Flags, there and back *)

(** The arguments that give the variables these values. *)
Definition bool_text (b : bool) : string := if b then "true" else "false".
Definition flag_args (v : Flags) : list string :=
  [ flag_arg "metrics-bind-address" (metricsAddr v);
    flag_arg "health-probe-bind-address" (probeAddr v);
    flag_arg "leader-elect" (bool_text (enableLeaderElection v));
    flag_arg "metrics-secure" (bool_text (secureMetrics v));
    flag_arg "webhook-cert-path" (webhookCertPath v);
    flag_arg "webhook-cert-name" (webhookCertName v);
    flag_arg "webhook-cert-key" (webhookCertKey v);
    flag_arg "metrics-cert-path" (metricsCertPath v);
    flag_arg "metrics-cert-name" (metricsCertName v);
    flag_arg "metrics-cert-key" (metricsCertKey v);
    flag_arg "enable-http2" (bool_text (enableHTTP2 v)) ].

Lemma ParseBool_text b : ParseBool (bool_text b) = Some b.
Proof. by destruct b. Qed.

(** Looks a flag up in flags some of which have been set. *)
Ltac lookup_flag :=
  repeat first
    [ rewrite lookup_insert_eq | rewrite lookup_insert_ne by (by vm_compute) ]; reflexivity.

Lemma string_var_lookup fs n s : fs !! n = Some (StringValue s) -> string_var fs n = s.
Proof. unfold string_var. by intros ->. Qed.
Lemma bool_var_lookup fs n b : fs !! n = Some (BoolValue b) -> bool_var fs n = b.
Proof. unfold bool_var. by intros ->. Qed.

(** C34: every setting of the variables can be reached from the command line,
    and is read back as it was given, whatever flags the libraries declare. *)
Theorem flags_roundtrip (libFlags : FlagSet) (v : Flags) :
  exists fs, Parse (flag_args v) (declare_flags libFlags) = Parsed fs /\ flag_vars fs = v.
Proof.
  eexists. split.
  - unfold flag_args, declare_flags.
    repeat (erewrite Parse_flag_arg;
      [|reflexivity|lookup_flag|cbn [Set_]; rewrite ?ParseBool_text; reflexivity]).
    reflexivity.
  - destruct v. unfold flag_vars.
    f_equal; (apply string_var_lookup || apply bool_var_lookup); lookup_flag.
Qed.
