(* ===== verification/Watch.v ===== *)
(** * Watching

    What fills the work queue: [SetupWithManager] of each controller says which
    objects it watches.  A change of one of them is announced to the
    controllers that watch its kind; an announcement, when it is delivered,
    puts keys in the queue: that of the object in that of its own controller,
    and for a Model, of the InferenceServices that [mapModelToInferenceServices]
    finds.  Anyone may create, change and delete Tenants, Models and
    InferenceServices at any time.  Still whatever does not wait to be
    reconciled is as the specification asks. *)
From S2P Require Import Prelude.
From S2P Require Import ApiTypes.
From S2P Require Import EqDec.
From S2P Require Import K8sLib.
From S2P Require Import ApiClient.
From S2P Require Import ModelController.
From S2P Require Import TenantController.
From S2P Require Import InferenceServiceController.
From S2P Require Import System.
From S2P Require Import Convergence.
From S2P Require Import Interference.
From S2P Require Import Overlap.
From S2P Require Import Concurrent.
From S2P Require Import Workqueue.
From S2P Require Import Settled.
From S2P Require Import Manager.

(** ** What an announcement puts in a queue *)

Section sources.
Context `{L : K8sLib}.

Definition operator_controllers : list Controller :=
  [tenant_SetupWithManager; model_SetupWithManager; isvc_SetupWithManager].

(** The kinds a controller is told of. *)
Definition watches (c : Controller) (k : Kind) : Prop := k = For c \/ k ∈ map fst (Watches c).

Definition typed_key (o : Object) : option (Kind * NamespacedName) :=
  match o with Typed k x => Some (k, key k x) | Untyped _ => None end.

Definition is_kind (k : Kind) (o : Object) : bool :=
  bool_decide (fst <$> typed_key o = Some k).

Definition own_key (c : Controller) (o : Object) : list NamespacedName :=
  match typed_key o with
  | Some (k, nn) => if decide (k = For c) then [nn] else []
  | None => []
  end.

Fixpoint mapped (ws : list (Kind * (Object -> Prog (list NamespacedName)))) (o : Object)
    : Prog (list NamespacedName) :=
  match ws with
  | [] => Ret []
  | (k, f) :: ws =>
      let! l := if is_kind k o then f o else Ret [] in
      let! l' := mapped ws o in
      Ret (l ++ l')
  end.

Definition enqueues (c : Controller) (o : Object) : Prog (list NamespacedName) :=
  let! l := mapped (Watches c) o in Ret (own_key c o ++ l).
End sources.

(** ** The system with its announcements *)

Record Watched `{L : K8sLib} (W : Type) :=
  mkWatched { queued : Queued W; pending : list (Controller * Object) }.
Arguments mkWatched {L W} queued pending.
Arguments queued {L W} w.
Arguments pending {L W} w.

Section steps.
Context `{L : K8sLib} {W : Type} `{!Cluster W}.
Variable external : W -> W -> Prop.

(** Every change is announced to the controllers that watch the kind. *)
Definition announced (w w' : W) (l : list (Controller * Object)) : Prop :=
  Forall (fun a => a.1 ∈ operator_controllers) l /\
  forall c k nn, c ∈ operator_controllers -> watches c k ->
    stored k w' nn <> stored k w nn -> exists o, typed_key o = Some (k, nn) /\ (c, o) ∈ l.

(** At the start everything there is. *)
Definition listed (w : W) (l : list (Controller * Object)) : Prop :=
  Forall (fun a => a.1 ∈ operator_controllers) l /\
  forall c k nn, c ∈ operator_controllers -> watches c k ->
    is_Some (stored k w nn) -> exists o, typed_key o = Some (k, nn) /\ (c, o) ∈ l.

(** Announcements are delivered in any order; one may be dropped if another
    of the same object is still to come, and a key that waits twice is one. *)
Inductive wstep : Watched W -> Watched W -> Prop :=
  | w_step q q' p l :
      qstep external q q' -> announced (cluster (system q)) (cluster (system q')) l ->
      wstep (mkWatched q p) (mkWatched q' (p ++ l))
  | w_deliver s q p1 p2 c o reqs :
      outcome (enqueues c o) (cluster s) = Some reqs ->
      wstep (mkWatched (mkQueued s q) (p1 ++ (c, o) :: p2))
        (mkWatched (mkQueued s (q ++ map (pair (For c)) reqs)) (p1 ++ p2))
  | w_coalesce q p1 p2 c o o' :
      typed_key o' = typed_key o -> (c, o') ∈ p1 ++ p2 ->
      wstep (mkWatched q (p1 ++ (c, o) :: p2)) (mkWatched q (p1 ++ p2))
  | w_merge s q1 q2 x p :
      x ∈ q1 ++ q2 ->
      wstep (mkWatched (mkQueued s (q1 ++ x :: q2)) p) (mkWatched (mkQueued s (q1 ++ q2)) p).

(** The announcement puts the key in the queue: it is of its object, or of the
    Model of its service. *)
Definition heralds (x : Kind * NamespacedName) (w : W) (o : Object) : Prop :=
  typed_key o = Some x \/
  x.1 = ISVC /\ exists i, stored ISVC w x.2 = Some i /\ typed_key o = Some (KModel, model_key i).

Definition notified (x : Kind * NamespacedName) (w : W) (p : list (Controller * Object)) : Prop :=
  exists c o, (c, o) ∈ p /\ c ∈ operator_controllers /\ For c = x.1 /\ heralds x w o.

(** The object of the key is still to be reconciled. *)
Definition awaits (x : Kind * NamespacedName) (s : Watched W) : Prop :=
  waiting x (queued s) \/ notified x (cluster (system (queued s))) (pending s).
End steps.

(** ** The controllers and their kinds *)

Section kinds.
Context `{L : K8sLib}.

Lemma controller_of k : primary k -> exists c, c ∈ operator_controllers /\ For c = k.
Proof.
  unfold operator_controllers. setoid_rewrite elem_of_cons. setoid_rewrite elem_of_cons.
  intros [-> |[-> | ->]]; [exists tenant_SetupWithManager|exists model_SetupWithManager
    |exists isvc_SetupWithManager]; rewrite ?elem_of_cons; auto.
Qed.

Lemma controller_for c : c ∈ operator_controllers -> For c = ISVC -> c = isvc_SetupWithManager.
Proof.
  unfold operator_controllers. rewrite !elem_of_cons, elem_of_nil.
  by intros [-> |[-> |[-> |[]]]].
Qed.

Lemma service_watches_models : watches isvc_SetupWithManager KModel.
Proof. right. simpl. rewrite list_elem_of_singleton. done. Qed.

Lemma isvc_operates : isvc_SetupWithManager ∈ operator_controllers.
Proof. unfold operator_controllers. rewrite !elem_of_cons. auto. Qed.

(** A reconcile of an object owns none of the objects others reconcile. *)
Lemma owns_primary k nn now k' nn' :
  primary k -> owns (task_of k nn now) k' nn' -> primary k' -> k' = k /\ nn' = nn.
Proof.
  intros [-> |[-> | ->]]; simpl.
  - intros [[-> ->]|(t & _ & Ht)]; [done|]. by intros [-> |[-> | ->]].
  - by intros [-> ->].
  - by intros [[-> | ->] ->] [|[|]].
Qed.

Lemma owns_at k nn now now' k' nn' :
  owns (task_of k nn now) k' nn' -> owns (task_of k nn now') k' nn'.
Proof. by destruct k. Qed.

Lemma task_of_subject u k nn : subject u = (k, nn) -> exists now, u = task_of k nn now.
Proof. destruct u as [now req|now req|now req]; intros [= <- <-]; by exists now. Qed.

Lemma subject_primary u : primary (subject u).1.
Proof. destruct u; unfold primary; simpl; auto. Qed.
End kinds.

(** ** What the requests of the operator leave of what it reconciles *)

Section meek_requests.
Context `{L : K8sLib, D : Defaults} {W : Type} `{!Cluster W, !ClusterLaws W}.

Lemma read_pure r w : is_write r = false -> (handle r w).2 = w.
Proof. destruct r; intros [=]; [apply get_pure|apply list_pure]. Qed.

(** A meek request keeps the objects that are reconciled, and their specs, and
    makes none. *)
Lemma meek_stored r x (w w' : W) k nn :
  meek r -> handle r w = (x, w') -> primary k ->
  stored k w' nn = stored k w nn \/
  exists o o1 o', stored k w nn = Some o /\ stored k w' nn = Some o' /\ status_written k o1 o o'.
Proof.
  intros Hr E Hk. destruct (decide ((k, nn) = (req_kind r, req_key r))) as [[= Hkr Hnn]|Hne].
  2:{ left. destruct (is_write r) eqn:Hw.
      - pose proof (write_frame r w k nn Hw Hne) as Hf. by rewrite E in Hf.
      - pose proof (read_pure r w Hw) as Hp. rewrite E in Hp. simpl in Hp. by subst w'. }
  destruct r as [k0 nn0|k0 ns|k0 o0|k0 o0|k0 o0 f]; cbn [req_kind req_key meek] in *.
  - left. pose proof (get_pure k0 nn0 w) as Hp. rewrite E in Hp. simpl in Hp. by subst w'.
  - left. pose proof (list_pure k0 ns w) as Hp. rewrite E in Hp. simpl in Hp. by subst w'.
  - by subst k0.
  - subst k0 nn. destruct (status_any k o0 w) as [Hs|(o1 & o' & Ho1 & Hwr & Hs)];
      rewrite E in Hs; simpl in Hs; [by left|right]. by exists o1, o0, o'.
  - by subst k0.
Qed.

Lemma meek_keeps r x (w w' : W) k nn o :
  meek r -> handle r w = (x, w') -> primary k -> stored k w nn = Some o ->
  stored k w' nn = Some o \/ exists o' o1, stored k w' nn = Some o' /\ status_written k o1 o o'.
Proof.
  intros Hr E Hk Ho. destruct (meek_stored r x w w' k nn Hr E Hk) as [Hs|(o2 & o1 & o' & Ho2 & Ho' & Hw)].
  - left. congruence.
  - right. exists o', o1. by replace o with o2 by congruence.
Qed.

(** So the Tenants keep to their range. *)
Lemma meek_within r x (w w' : W) : meek r -> handle r w = (x, w') -> within w -> within w'.
Proof.
  intros Hr E Hin ns t Ht.
  destruct (meek_stored r x w w' KTenant (mkNN "" ns) Hr E ltac:(by left))
    as [Hs|(t0 & t1 & t' & Ht0 & Ht' & _ & Hs & _)].
  - apply (Hin ns). congruence.
  - replace t with t' by congruence. rewrite Hs. by apply (Hin ns).
Qed.
End meek_requests.

(** ** The invariant *)

Section consistency.
Context `{L : K8sLib, !K8sLibLaws, D : Defaults} {W : Type} `{!Cluster W, !ClusterLaws W}.

(** Whoever changes the cluster leaves the objects alone that a controller makes
    for an object that exists. *)
Definition respects (w w' : W) : Prop :=
  forall k nn k' nn', primary k -> scoped (task_of k nn 0) ->
    is_Some (stored k w nn) -> is_Some (stored k w' nn) ->
    owns (task_of k nn 0) k' nn' -> ~ primary k' -> same k' nn' w w'.

Definition busy (x : Kind * NamespacedName) (s : Sys W) : Prop :=
  exists i th, threads s !! i = Some th /\ live th = true /\ subject (task th) = x.

(** Each key waits, or is being reconciled in its current state, or needs no
    reconcile. *)
Definition provided (k : Kind) (nn : NamespacedName) (s : Watched W) : Prop :=
  let w := cluster (system (queued s)) in
  (k, nn) ∈ queue (queued s) \/ notified (k, nn) w (pending s) \/
  (exists i u ev r cont,
     threads (system (queued s)) !! i = Some (mkThread u ev (Call r cont)) /\
     subject u = (k, nn) /\ ends u (Call r cont) (concluded (k, nn)) w) \/
  settled (k, nn) w /\ (stored k w nn = None \/ ~ busy (k, nn) (system (queued s))).

Lemma own_change_notified k nn (w w' : W) l :
  primary k -> announced w w' l -> stored k w' nn <> stored k w nn -> notified (k, nn) w' l.
Proof.
  intros Hk Hl Hne. destruct (controller_of k Hk) as (c & Hc & Hfor).
  destruct (proj2 Hl c k nn Hc (or_introl (eq_sym Hfor)) Hne) as (o & Ho & Hin).
  exists c, o. split; [done|]. split; [done|]. split; [done|]. by left.
Qed.

Lemma notified_keep k nn (w w' : W) p l :
  primary k -> notified (k, nn) w p -> announced w w' l -> notified (k, nn) w' (p ++ l).
Proof.
  intros Hk (c & o & Hin & Hc & Hfor & Hh) Hl.
  destruct (decide (stored k w' nn = stored k w nn)) as [E|Hne].
  - exists c, o. split; [apply elem_of_app; by left|]. split; [done|]. split; [done|].
    destruct Hh as [Ho|(Hx & i & Hi & Ho)]; [by left|right]. cbn [fst snd] in *.
    clear c Hin Hc Hfor. subst k. split; [done|]. exists i. by rewrite E.
  - destruct (own_change_notified _ _ _ _ _ Hk Hl Hne) as (c' & o' & Hin' & Hrest).
    exists c', o'. split; [apply elem_of_app; by right|done].
Qed.

(** What a change does to a key: it is announced, or there is no such object,
    or it changes nothing its reconcile depends on. *)
Lemma disturbed k nn now (w w' : W) l :
  primary k -> announced w w' l -> (within w -> within w') ->
  (is_Some (stored k w nn) -> is_Some (stored k w' nn) ->
   forall k' nn', owns (task_of k nn now) k' nn' -> ~ primary k' -> same k' nn' w w') ->
  notified (k, nn) w' l \/ stored k w nn = None /\ stored k w' nn = None \/
  leaves (task_of k nn now) w w'.
Proof.
  intros Hk Hl Hin Hf. destruct (decide (stored k w' nn = stored k w nn)) as [E|Hne];
    [|left; by eapply own_change_notified].
  destruct (stored k w nn) as [o|] eqn:Es; [|by right; left].
  assert (forall k' nn', owns (task_of k nn now) k' nn' -> same k' nn' w w') as Hown.
  { intros k' nn' Ho. destruct (decide (k' = KTenant \/ k' = KModel \/ k' = ISVC)) as [Hp|Hp].
    - destruct (owns_primary _ _ _ _ _ Hk Ho Hp) as [-> ->]. apply same_eq. congruence.
    - apply Hf; [by eexists|rewrite E; by eexists|done|done]. }
  destruct (decide (k = ISVC)) as [->|Hns].
  2:{ right. right. split; [|done]. intros k' nn' [Ho|Hm]; [by apply Hown|].
      destruct Hk as [-> |[-> | ->]]; done. }
  destruct (decide (stored KModel w' (model_key o) = stored KModel w (model_key o))) as [Em|Hne].
  - right. right. split; [|done]. intros k' nn' [Ho|(i & Hi & -> & ->)]; [by apply Hown|].
    replace i with o by congruence. by apply same_eq.
  - left. destruct (proj2 Hl _ _ _ isvc_operates service_watches_models Hne) as (m & Hm & Hinl).
    exists isvc_SetupWithManager, m.
    split; [done|]. split; [apply isvc_operates|]. split; [done|]. right. split; [done|].
    exists o. split; [exact E|done].
Qed.

Lemma settled_leaves k nn now (w w' : W) :
  primary k -> leaves (task_of k nn now) w w' -> settled (k, nn) w -> settled (k, nn) w'.
Proof.
  intros Hk Hl. pose proof (leaves_subject _ _ _ _ _ Hk Hl) as Hs.
  destruct Hk as [-> |[-> | ->]]; intros Hset o Ho; cbn [fst snd] in *; rewrite Hs in Ho.
  - destruct (Hset o Ho) as [Hp Hr]. split; [|done]. rewrite provisioned_due in *. intros k.
    apply (due_leaves now nn o k w); [by apply (stored_key _ _ _ _ Ho)|done|done].
  - by apply Hset.
  - destruct (Hset o Ho) as [Hp (m & Hm & Hc) Hj Hst Hw]. pose proof (stored_key _ _ _ _ Ho) as Hk.
    split; [done| | |done|done].
    + exists m. split; [|done]. rewrite <- Hm. apply same_stored; [done|]. apply Hl. right.
      by exists o.
    + rewrite Hk in *. by apply (has_job_leaves now nn w).
Qed.

(** *** Steps that leave the reconciles of a key alone *)

Lemma carried k nn (w w' : W) ths ths' q q' p l :
  primary k -> announced w w' l -> (within w -> within w') ->
  (is_Some (stored k w nn) -> is_Some (stored k w' nn) ->
   forall k' nn', owns (task_of k nn 0) k' nn' -> ~ primary k' -> same k' nn' w w') ->
  ((k, nn) ∈ q -> (k, nn) ∈ q') ->
  (forall i th, live th = true -> subject (task th) = (k, nn) ->
     ths !! i = Some th <-> ths' !! i = Some th) ->
  provided k nn (mkWatched (mkQueued (mkSys w ths) q) p) ->
  provided k nn (mkWatched (mkQueued (mkSys w' ths') q') (p ++ l)).
Proof.
  intros Hk Hl Hwin Hf Hq Hths Hp. unfold provided, busy in *. cbn [queued system cluster threads queue pending] in *.
  assert (forall now, notified (k, nn) w' (p ++ l) \/
    stored k w nn = None /\ stored k w' nn = None \/ leaves (task_of k nn now) w w') as Hdist.
  { intros now. destruct (disturbed k nn now w w' l Hk Hl Hwin) as [(c & o & Hin & Hn)|Hd]; [|left|by right].
    - intros H1 H2 k' nn' Ho. apply Hf; [done..|]. by eapply owns_at.
    - exists c, o. split; [apply elem_of_app; by right|done]. }
  destruct Hp as [Hin|[Hn|[(i & u & ev & r & cont & Hi & Hsub & Hu)|(Hset & Hidle)]]].
  - left. by apply Hq.
  - right. left. by eapply notified_keep.
  - destruct (task_of_subject u k nn Hsub) as [now ->]. right.
    destruct (Hdist now) as [Hn|[[_ Hnone]|Hlv]]; [by left| |].
    + right. right. split; [by apply settled_absent|by left].
    + right. left. exists i, (task_of k nn now), ev, r, cont. split; [by apply Hths|].
      split; [done|]. by apply (under_stable _ _ _ _ _ _ Hlv).
  - right. destruct (Hdist 0) as [Hn|[[_ Hnone]|Hlv]]; [by left| |].
    + right. right. split; [by apply settled_absent|by left].
    + right. right. split; [by eapply settled_leaves|].
      destruct Hidle as [Hnone|Hb]; [left|right].
      * by rewrite (leaves_subject _ _ _ _ _ Hk Hlv).
      * intros (i & th & Hi & Hlive & Hsub). apply Hb. exists i, th. by rewrite Hths.
Qed.

(** *** A request *)

(** It leaves alone what others own. *)
Lemma request_other s i u ev r cont x w' k nn :
  tidy s -> threads s !! i = Some (mkThread u ev (Call r cont)) -> handle r (cluster s) = (x, w') ->
  scoped (task_of k nn 0) -> primary k -> subject u <> (k, nn) ->
  forall k' nn', owns (task_of k nn 0) k' nn' -> same k' nn' (cluster s) w'.
Proof.
  intros Hti Hi E Hsc Hk Hne k' nn' Ho. pose proof (tidy_sane _ Hti _ _ Hi) as Hsane. apply same_eq.
  eapply sane_frame; [exact Hsane|exact E|]. apply (owns_disjoint (task_of k nn 0) u k' nn'); try done.
  - apply Hsane.
  - by rewrite subject_task_of.
Qed.

Lemma provided_request s i u ev r cont x w' q p l k nn :
  let th := mkThread u (ev ++ [Ev r x]) (cont x) in
  tidy s -> threads s !! i = Some (mkThread u ev (Call r cont)) -> handle r (cluster s) = (x, w') ->
  announced (cluster s) w' l -> primary k -> scoped (task_of k nn 0) ->
  provided k nn (mkWatched (mkQueued s q) p) ->
  provided k nn (mkWatched (mkQueued (mkSys w' (<[i := th]> (threads s))) (q ++ requeued th)) (p ++ l)).
Proof.
  intros th Hti Hi E Hl Hk Hsc Hp. destruct s as [w ths]. cbn [cluster threads] in *.
  destruct (decide (subject u = (k, nn))) as [Hsub|Hne].
  2:{ eapply carried; [done|done| | | | |exact Hp].
      - apply (meek_within r x); [|done]. apply (tidy_sane _ Hti _ _ Hi).
      - intros _ _ k' nn' Ho _. by eapply (request_other (mkSys w ths)).
      - intros Hin. apply elem_of_app. by left.
      - intros j thj Hlj Hsj. destruct (decide (j = i)) as [->|Hji].
        + rewrite Hi, list_lookup_insert_eq by (by eapply lookup_lt_Some).
          split; intros [= <-]; by destruct Hne.
        + by rewrite list_lookup_insert_ne. }
  unfold provided in *. cbn [queued system cluster threads queue pending] in *.
  assert (forall j thj, <[i := th]> ths !! j = Some thj -> live thj = true ->
    subject (task thj) = (k, nn) -> j = i /\ thj = th) as Honly.
  { intros j thj Hj Hlj Hsj. destruct (updated_lookup _ _ _ _ _ _ Hi Hj) as [?|[Hji Hj']]; [done|].
    destruct Hji. apply (tidy_exclusive _ Hti j i thj _ Hj' Hi); [done|done|]. by rewrite Hsj. }
  destruct Hp as [Hin|[Hn|[(j & v & ev' & r' & cont' & Hj & Hsv & Hu)|(Hset & [Hnone|Hidle])]]].
  - left. apply elem_of_app. by left.
  - right. left. by eapply notified_keep.
  - assert (j = i) as ->.
    { apply (tidy_exclusive _ Hti j i _ _ Hj Hi); [done..|]. cbn [task]. congruence. }
    rewrite Hi in Hj. assert (Call r cont = Call r' cont') as Hrest by congruence.
    assert (u = v) as <- by congruence. rewrite <- Hrest in Hu. clear Hj Hrest.
    destruct (Hu w ltac:(reflexivity)) as [_ Hc]. rewrite E in Hc. cbn [fst snd] in Hc.
    assert (<[i := th]> ths !! i = Some th) as Hth
      by (apply list_lookup_insert_eq; by eapply lookup_lt_Some).
    destruct (cont x) as [res| |r2 cont2] eqn:Ec; [|done|].
    + destruct (Hc w' ltac:(reflexivity)) as [Ha|Hset].
      * left. apply elem_of_app. right. unfold requeued, th. cbn [rest task].
        rewrite ?Ec, Ha, Hsub. apply list_elem_of_here.
      * right. right. right. split; [done|]. right. intros (j & thj & Hj & Hlj & Hsj).
        destruct (Honly _ _ Hj Hlj Hsj) as [_ ->]. unfold th, live in Hlj. cbn [rest] in Hlj.
        by rewrite ?Ec in Hlj.
    + right. right. left. exists i, u, (ev ++ [Ev r x]), r2, cont2.
      split; [|done]. rewrite Hth. unfold th. by rewrite ?Ec.
  - destruct (decide (stored k w' nn = None)) as [Hnone'|Hsome].
    + right. right. right. split; [by apply settled_absent|by left].
    + right. left. destruct (own_change_notified k nn w w' l Hk Hl) as (c & o & Hin & Hn);
        [congruence|]. exists c, o. split; [apply elem_of_app; by right|done].
  - destruct Hidle. by exists i, (mkThread u ev (Call r cont)).
Qed.

(** *** A start *)

Lemma program_calls u : exists r cont, program u = Call r cont.
Proof.
  pose proof (program_live u) as Hl. unfold live in Hl. cbn [rest] in Hl.
  destruct (program u) as [| |r cont]; [done..|]. by exists r, cont.
Qed.

Lemma provided_start w ths q1 q2 p l k' nn' now k nn :
  within w -> primary k' -> announced w w l -> primary k ->
  provided k nn (mkWatched (mkQueued (mkSys w ths) (q1 ++ (k', nn') :: q2)) p) ->
  let u := task_of k' nn' now in
  provided k nn (mkWatched (mkQueued (mkSys w (ths ++ [mkThread u [] (program u)])) (q1 ++ q2)) (p ++ l)).
Proof.
  intros Hin Hk' Hl Hk Hp u. pose proof (subject_task_of k' nn' now Hk') as Hsub. fold u in Hsub.
  destruct (decide ((k, nn) = (k', nn'))) as [[= -> ->]|Hne].
  - right. right. left. destruct (program_calls u) as (r & cont & Hc).
    exists (length ths), u, [], r, cont. cbn [queued system cluster threads].
    split; [rewrite <- Hc; by apply list_lookup_middle|]. split; [done|].
    rewrite <- Hsub, <- Hc. by apply program_ends.
  - eapply carried; [done|done|done| | | |exact Hp]; [by intros; apply same_refl| |].
    + rewrite !elem_of_app, elem_of_cons. intros [?|[?|?]]; [by left|congruence|by right].
    + intros i th Hlive Hs. split; intros Hi.
      * rewrite lookup_app_l; [done|by eapply lookup_lt_Some].
      * apply lookup_snoc_Some in Hi as [[_ Hi]|[_ <-]]; [done|]. cbn [task] in Hs. congruence.
Qed.

(** *** A delivery *)

(** The InferenceServices can always be listed; only their own controller asks. *)
Definition lists_services : Prop :=
  forall ns (w : W), exists items, (handle (List_ ISVC ns) w).1 = Ok items.

Lemma enqueues_herald c o w reqs k nn :
  (k = ISVC -> lists_services) -> c ∈ operator_controllers -> For c = k -> heralds (k, nn) w o ->
  outcome (enqueues c o) w = Some reqs -> nn ∈ reqs.
Proof.
  intros Hlists Hc Hfor [Ho|(Hx & i & Hi & Ho)]; unfold enqueues; rewrite outcome_bind;
    destruct (outcome (mapped _ _) w) as [l|] eqn:Hm; try done; intros [= <-]; apply elem_of_app.
  - left. unfold own_key. rewrite Ho, decide_True by done. apply list_elem_of_here.
  - right. cbn [fst snd] in *. rewrite (controller_for c Hc ltac:(congruence)) in *. clear c Hc Hfor.
    cbn [Watches isvc_SetupWithManager mapped] in Hm.
    assert (is_kind KModel o = true) as Hkind by (unfold is_kind; rewrite Ho; by apply bool_decide_eq_true).
    rewrite Hkind, outcome_bind in Hm.
    destruct (mapModel_requests o w) as (_ & reqs & Hreqs & Hspec). rewrite Hreqs in Hm.
    injection Hm as <-. apply elem_of_app. left.
    assert (exists m, as_Model o = Some m /\ key KModel m = model_key i) as (m & Hm & Hkm).
    { destruct o as [k' m|]; [|done]. cbn [typed_key] in Ho. assert (k' = KModel) as -> by congruence.
      exists m. split; [done|congruence]. }
    rewrite Hm in Hspec. destruct (Hlists Hx (Namespace_ (model_ObjectMeta m)) w) as [items Hitems].
    rewrite Hitems in Hspec. apply Hspec. exists i. split; [done|].
    unfold key, key_of, model_key in Hkm. cbn in Hkm. by injection Hkm as -> ->.
Qed.

Lemma provided_deliver s q p1 p2 c o reqs k nn :
  (k = ISVC -> lists_services) ->
  outcome (enqueues c o) (cluster s) = Some reqs ->
  provided k nn (mkWatched (mkQueued s q) (p1 ++ (c, o) :: p2)) ->
  provided k nn (mkWatched (mkQueued s (q ++ map (pair (For c)) reqs)) (p1 ++ p2)).
Proof.
  intros Hlists Hreqs Hp. unfold provided in *. cbn [queued system queue pending] in *.
  destruct Hp as [Hin|[(c' & o' & Hin & Hc & Hfor & Hh)|Hrest]]; [|..|by right; right].
  - left. apply elem_of_app. by left.
  - rewrite elem_of_app, elem_of_cons in Hin.
    destruct Hin as [Hin|[[= -> ->]|Hin]].
    2:{ left. apply elem_of_app. right. rewrite list_elem_of_fmap. exists nn.
        split; [by rewrite Hfor|]. by eapply enqueues_herald. }
    all: right; left; exists c', o'; rewrite elem_of_app; auto.
Qed.

Lemma provided_coalesce q p1 p2 c o o' k nn :
  typed_key o' = typed_key o -> (c, o') ∈ p1 ++ p2 ->
  provided k nn (mkWatched q (p1 ++ (c, o) :: p2)) -> provided k nn (mkWatched q (p1 ++ p2)).
Proof.
  intros Hko Hin [Hq|[(c' & o2 & Hin2 & Hc & Hfor & Hh)|Hrest]]; [by left| |by right; right].
  right. left. cbn [queued pending] in *. rewrite elem_of_app, elem_of_cons in Hin2.
  destruct Hin2 as [Hin2|[[= -> ->]|Hin2]].
  2:{ exists c, o'. split_and!; try done. unfold heralds in *. by rewrite Hko. }
  all: exists c', o2; rewrite elem_of_app; auto.
Qed.

(** *** The steps *)

Lemma provided_step external s s' k nn :
  (k = ISVC -> lists_services) ->
  (forall w w', external w w' -> respects w w' /\ (within w -> within w')) ->
  primary k -> scoped (task_of k nn 0) -> tidy (system (queued s)) ->
  within (cluster (system (queued s))) ->
  wstep external s s' -> provided k nn s -> provided k nn s'.
Proof.
  intros Hlists Hext Hk Hsc Hti Hin Hst Hp.
  destruct Hst as [q q' p l Hq Hl|s q p1 p2 c o reqs Hreqs|q p1 p2 c o o' Hko Hin2|s q1 q2 x p Hin2].
  - destruct Hq as [s q k' nn' Hk'|s q1 q2 k' nn' now Hk' Hsc' Hfree|s q i u ev r cont x w' Hi E th|s q w' Hx];
      cbn [queued system cluster] in *.
    + destruct s as [w ths]. eapply carried; [done|done|done| | |done|exact Hp]; [by intros; apply same_refl|].
      intros Hq. apply elem_of_app. by left.
    + destruct s as [w ths]. by apply provided_start.
    + by eapply provided_request.
    + destruct s as [w ths]. eapply carried; [done|done|by apply Hext| |done|done|exact Hp].
      intros H1 H2 k' nn' Ho Hnp. by apply (proj1 (Hext _ _ Hx) k nn).
  - by eapply provided_deliver.
  - by eapply provided_coalesce.
  - destruct Hp as [Hq|Hrest]; [left|by right]. cbn [queued queue] in *.
    rewrite elem_of_app, elem_of_cons in Hq. rewrite elem_of_app in Hin2 |- *.
    destruct Hq as [?|[<-|?]]; auto.
Qed.

Lemma tidy_wstep external s s' :
  wstep external s s' -> tidy (system (queued s)) -> tidy (system (queued s')).
Proof.
  intros [q q' p l Hq Hl|s0 q p1 p2 c o reqs Hreqs|q p1 p2 c o o' Hko Hin|s0 q1 q2 x p Hin] Hti;
    [|done..]. cbn [queued] in *.
  destruct (qstep_overlap _ _ _ Hq) as [->|Ho]; [done|]. destruct Ho as [s1 u Hsc Hfree|s1 i u ev r cont x w' Hi E|s1 w' Hx].
  - by apply tidy_start.
  - by apply tidy_request.
  - by apply tidy_cluster.
Qed.

Lemma within_wstep external s s' :
  (forall w w', external w w' -> within w -> within w') ->
  wstep external s s' -> tidy (system (queued s)) ->
  within (cluster (system (queued s))) -> within (cluster (system (queued s'))).
Proof.
  intros Hext [q q' p l Hq _|s0 q p1 p2 c o reqs Hreqs|q p1 p2 c o o' Hko Hin|s0 q1 q2 x p Hin] Hti Hw;
    [|done..]. cbn [queued] in *.
  destruct Hq as [s1 q k nn Hk|s1 q1 q2 k nn now Hk Hsc Hfree|s1 q i u ev r cont x w' Hi E th|s1 q w' Hx];
    cbn [system cluster] in *; [done..| |by eapply Hext].
  apply (meek_within r x (cluster s1)); [|done..]. apply (tidy_sane _ Hti _ _ Hi).
Qed.

Lemma provided_init w waits p k nn :
  primary k -> listed w p -> provided k nn (mkWatched (mkQueued (mkSys w []) waits) p).
Proof.
  intros Hk Hl. right. cbn [queued system cluster pending threads].
  destruct (stored k w nn) as [o|] eqn:Ho.
  - left. destruct (controller_of k Hk) as (c & Hc & Hfor).
    destruct (proj2 Hl c k nn Hc (or_introl (eq_sym Hfor))) as (ob & Hob & Hin); [by eexists|].
    exists c, ob. split; [done|]. split; [done|]. split; [done|]. by left.
  - right. right. split; [by apply settled_absent|by left].
Qed.

Lemma provided_reachable external w waits p s k nn :
  (k = ISVC -> lists_services) ->
  (forall w w', external w w' -> respects w w' /\ (within w -> within w')) ->
  within w -> listed w p -> primary k -> scoped (task_of k nn 0) ->
  rtc (wstep external) (mkWatched (mkQueued (mkSys w []) waits) p) s ->
  tidy (system (queued s)) /\ within (cluster (system (queued s))) /\ provided k nn s.
Proof.
  intros Hlists Hext Hin Hl Hk Hsc. revert s. apply rtc_ind_r.
  - split; [apply tidy_init|]. split; [done|by apply provided_init].
  - intros s s' _ Hst (Hti & Hw & Hp). split; [by eapply tidy_wstep|]. split; [|by eapply provided_step].
    eapply within_wstep; [|exact Hst|exact Hti|exact Hw]. intros w1 w2 Hx. by apply Hext.
Qed.

Lemma provided_settled k nn s :
  provided k nn s -> ~ awaits (k, nn) s -> settled (k, nn) (cluster (system (queued s))).
Proof.
  intros [Hq|[Hn|[(i & u & ev & r & cont & Hi & Hsub & _)|[Hset _]]]] Ha; [destruct Ha..|done].
  - left. by left.
  - by right.
  - left. right. by exists i, (mkThread u ev (Call r cont)).
Qed.
End consistency.

Section consistent.
Context `{L : K8sLib, !K8sLibLaws} {W : Type} `{!Cluster W, !ClusterLaws W}.

End consistent.
