(* ===== verification/Settling.v ===== *)
(** * Settling

    Left to itself the watched system comes to rest: from every state that can
    be reached, a tenant, a model of it and a service on the model can be
    reconciled until nothing of theirs waits, although each write is announced
    and puts keys back in the queue. *)
From S2P Require Import Prelude.
From S2P Require Import ApiTypes.
From S2P Require Import EqDec.
From S2P Require Import K8sLib.
From S2P Require Import ApiClient.
From S2P Require Import Scheduling.
From S2P Require Import ModelController.
From S2P Require Import TenantController.
From S2P Require Import InferenceServiceController.
From S2P Require Import Progress.
From S2P Require Import System.
From S2P Require Import Convergence.
From S2P Require Import Overlap.
From S2P Require Import Concurrent.
From S2P Require Import Workqueue.
From S2P Require Import Settled.
From S2P Require Import Manager.
From S2P Require Import Watch.

(** ** Announcements of a request *)

Section requests.
Context `{L : K8sLib} {W : Type} `{!Cluster W, !ClusterLaws W}.

(** The announcement is of the object of the request, to a controller that
    watches it. *)
Definition tells (r : Req) (a : Controller * Object) : Prop :=
  a.1 ∈ operator_controllers /\ is_write r = true /\
  typed_key a.2 = Some (req_kind r, req_key r).

(** A write never removes its object. *)
Lemma write_keeps r w :
  is_write r = true -> stored (req_kind r) (handle r w).2 (req_key r) = None ->
  stored (req_kind r) w (req_key r) = None.
Proof.
  destruct r as [| |k o|k o|k o f]; intros [=] Hn; simpl in *.
  - destruct (create_any k o w) as [Hs|(_ & o' & Hs & _)]; congruence.
  - destruct (status_any k o w) as [Hs|(o0 & o' & _ & _ & Hs)]; congruence.
  - destruct (upsert_any k o f w) as [Hs|(o' & Hs & _)]; congruence.
Qed.

Lemma announced_same w : announced w w [].
Proof. by split. Qed.

Lemma request_announced r w :
  exists l, announced w (handle r w).2 l /\ Forall (tells r) l /\ ((handle r w).2 = w -> l = []).
Proof.
  destruct (is_write r) eqn:Hw.
  2:{ rewrite read_pure by done. exists []. split; [apply announced_same|done]. }
  destruct (stored (req_kind r) (handle r w).2 (req_key r)) as [o|] eqn:Ho.
  - destruct (decide (stored (req_kind r) w (req_key r) = Some o)) as [Hs|Hs].
    + exists []. split; [|done]. split; [done|]. intros c k nn _ _ Hne. destruct Hne.
      destruct (decide ((k, nn) = (req_kind r, req_key r))) as [[= -> ->]|Hk]; [congruence|].
      by apply write_frame.
    + exists (map (fun c => (c, Typed (req_kind r) o)) operator_controllers).
      assert (typed_key (Typed (req_kind r) o) = Some (req_kind r, req_key r)) as Hko
        by (simpl; by rewrite (stored_key _ _ _ _ Ho)).
      split; [split|split].
      * apply Forall_forall. intros a (c & <- & Hc)%in_map_iff. by apply list_elem_of_In.
      * intros c k nn Hc _ Hne.
        destruct (decide ((k, nn) = (req_kind r, req_key r))) as [[= -> ->]|Hk];
          [|by destruct Hne; apply write_frame].
        exists (Typed (req_kind r) o). split; [done|]. apply list_elem_of_fmap. by exists c.
      * apply Forall_forall. intros a (c & <- & Hc)%in_map_iff. split; [by apply list_elem_of_In|done].
      * intros Hsame. rewrite Hsame in Ho. done.
  - exists []. split; [|done]. split; [done|]. intros c k nn _ _ Hne. destruct Hne.
    destruct (decide ((k, nn) = (req_kind r, req_key r))) as [[= -> ->]|Hk];
      [|by apply write_frame]. rewrite Ho. symmetry. by apply write_keeps.
Qed.
End requests.

(** ** The watched system as a scheduler *)

Section scheduler.
Context `{L : K8sLib} {W : Type} `{!Cluster W, !ClusterLaws W} (external : W -> W -> Prop).

#[export] Instance watch_scheduler : Scheduler W (Watched W) :=
  {| view := queued; moves := wstep external;
     leftover := fun r w s s' =>
       match r with
       | None => pending s' = pending s
       | Some r => exists l, pending s' = pending s ++ l /\ Forall (tells r) l /\
           ((handle r w).2 = w -> l = [])
       end |}.

#[export] Instance watch_scheduler_laws : SchedulerLaws W (Watched W).
Proof.
  split.
  - intros [[[w ths] q] p] i u ev r cont Hi.
    cbn [view watch_scheduler queued system threads cluster queue pending moves leftover] in *.
    cbv zeta. destruct (request_announced r w) as (l & Hl & Ht & Hn).
    destruct (handle r w) as [x w'] eqn:E. cbn [fst snd] in *. eexists. split.
    + eapply w_step; [by apply (q_request external (mkSys w ths) q i u ev r cont x w')|exact Hl].
    + split; [|done]. by exists l.
  - intros [[[w ths] q] p] q1 q2 k nn Hq Hk Hsc Hidle.
    cbn [view watch_scheduler queued system threads cluster queue pending moves leftover] in *.
    subst q. eexists. split.
    + eapply w_step; [apply (q_start external (mkSys w ths) q1 q2 k nn 0); [done..|]|apply announced_same].
      eapply Forall_impl; [|exact Hidle]. intros th0 H0 H1. congruence.
    + cbn [pending queued]. by rewrite app_nil_r.
Qed.
End scheduler.

(** ** Runs that change nothing on the way *)

Section still.
Context `{L : K8sLib} {W : Type} `{!Cluster W, !ClusterLaws W}.

Fixpoint still {A} (p : Prog A) (w : W) : Prop :=
  match p with
  | Call r cont => (handle r w).2 = w /\ still (cont (handle r w).1) w
  | _ => True
  end.

Lemma still_final {A} (p : Prog A) w : still p w -> final p w = w.
Proof.
  induction p as [a| |r cont IH]; [done..|]. intros [Hw Hs]. cbn [still] in *.
  destruct (run_Call r cont w) as [_ ->]. rewrite Hw. by apply IH.
Qed.

Lemma still_bind {A B} (p : Prog A) (f : A -> Prog B) w :
  still p w -> (forall a, outcome p w = Some a -> still (f a) w) -> still (bind p f) w.
Proof.
  induction p as [a| |r cont IH]; [|done|].
  - intros _ Hf. by apply Hf.
  - intros [Hw Hs] Hf. change (still (Call r (fun x => bind (cont x) f)) w). cbn [still].
    split; [done|]. apply IH; [done|]. intros a Ha. apply Hf.
    destruct (run_Call r cont w) as [-> _]. by rewrite Hw.
Qed.

Lemma still_Get {A} k nn (f : Resp (Get k nn) -> Prog A) w :
  still (f (read k nn w)) w -> still (bind (call (Get k nn)) f) w.
Proof.
  intros Hf. apply still_bind; [by split; [apply get_pure|]|]. rewrite outcome_Get. by intros a [= <-].
Qed.

Lemma still_upsert {A} k o f (cont : option error -> Prog A) o0 w :
  ApiClient.Available W -> stored k w (key k o) = Some o0 -> f o0 = o0 ->
  (forall o', key k (f o') = key k o') ->
  still (cont None) w -> still (Call (CreateOrUpdate k o f) cont) w.
Proof.
  intros Hav Ho Hf Hk Hc. pose proof (upsert_noop k o f w o0 Ho Hf) as Hw.
  destruct (handle (CreateOrUpdate k o f) w) as [x w1] eqn:E. cbn [fst snd] in *. subst w1.
  pose proof (upsert_accepted _ _ _ _ _ _ E Hk) as ->. cbn [still]. by rewrite E.
Qed.

Lemma quiet_still {A} (p : Prog A) w : quiet p w -> still p w.
Proof.
  intros [He _]. induction p as [a| |r cont IH]; [done..|].
  unfold events in *. simpl in He. destruct (handle r w) as [x w1] eqn:E.
  assert (is_write r = false) as Hr
    by (destruct (run (cont x) w1) as [[? ?] ?]; by apply Forall_cons_iff in He as [? _]).
  pose proof (read_pure r w Hr) as Hp. rewrite E in Hp. simpl in Hp. subst w1.
  cbn [still]. rewrite E. split; [done|]. apply IH.
  cbn [fst]. destruct (run (cont x) w) as [[tr o] w2]. by apply Forall_cons_iff in He as [_ ?].
Qed.

(** A reconcile of a tenant that is provisioned and says so. *)
Lemma tenant_still `{!K8sLibLaws} now req w t hard :
  ApiClient.Available W -> stored KTenant w req = Some t -> provisioned t w ->
  tenant_ready (tenant_Status t) ->
  buildQuotaResourceList (tenant_ResourceQuota (tenant_Spec t)) = Ok hard ->
  still (TenantController.Reconcile now req) w.
Proof.
  intros Hav Ht [(ns & Hns & N1 & N2 & N3 & N4) (rq & Hrq & Q1 & Q2) (sa & Hsa & S1)
    (role & Hro & R1 & R2) (b & Hb & B1 & B2 & B3) (np & Hnp & P1 & P2)] Hready Hq.
  unfold TenantController.Reconcile, reconcileNamespace, reconcileResourceQuota,
    reconcileServiceAccount, reconcileRBAC, reconcileNetworkPolicy.
  apply still_Get. rewrite (read_avail _ _ _ _ Ht).
  eapply still_upsert; [done|exact Hns|by apply mutateNamespace_settled|done|]. cbn [bind]. rewrite Hq.
  eapply still_upsert; [done|exact Hrq|apply mutateResourceQuota_settled; [done|congruence]|done|].
  eapply still_upsert; [done|exact Hsa|by apply mutateServiceAccount_settled|done|].
  eapply still_upsert; [done|exact Hro|by apply mutateRole_settled|done|].
  eapply still_upsert; [done|exact Hb|by apply mutateRoleBinding_settled|done|].
  eapply still_upsert; [done|exact Hnp|by apply mutateNetworkPolicy_settled|done|]. cbn [bind].
  rewrite tenant_updateStatus_unfold, bool_decide_eq_true_2 by apply Hready.
  done.
Qed.

(** What a program leaves behind. *)
Lemma along_tells (external : W -> W -> Prop) {A} (p : Prog A) w (s s' : Watched W) :
  along (Scheduler0 := watch_scheduler external) p w s s' ->
  exists l, pending s' = pending s ++ l /\
    Forall (fun a => exists e, e ∈ events p w /\ tells (ev_req e) a) l /\ (still p w -> l = []).
Proof.
  revert w s. induction p as [a| |r cont IH]; intros w s; cbn [along].
  - intros ->. exists []. by rewrite app_nil_r.
  - intros ->. exists []. by rewrite app_nil_r.
  - intros (s1 & (l & Hl & Ht & Hn) & Hal). destruct (IH _ _ _ Hal) as (l' & Hl' & Ht' & Hn').
    exists (l ++ l'). split; [by rewrite Hl', Hl, app_assoc|].
    assert (events (Call r cont) w = Ev r (handle r w).1 :: events (cont (handle r w).1) (handle r w).2)
      as ->. { unfold events. simpl. destruct (handle r w) as [x w1]. cbn [fst snd].
               by destruct (run (cont x) w1) as [[tr o] w2]. }
    split.
    + apply Forall_app. split; eapply Forall_impl; try done.
      * intros a Ha. eexists. split; [apply list_elem_of_here|done].
      * intros a (e & He & Ha). exists e. split; [by apply list_elem_of_further|done].
    + intros [Hw Hs]. rewrite (Hn Hw). apply Hn'. by rewrite Hw.
Qed.
End still.

(** ** Deliveries *)

Section deliveries.
Context `{L : K8sLib, !K8sLibLaws} {W : Type} `{!Cluster W, !ClusterLaws W} (external : W -> W -> Prop).

(** The keys an announcement may put in a queue. *)
Definition origin (o : Object) (y : Kind * NamespacedName) : Prop :=
  primary y.1 /\ exists k nn, typed_key o = Some (k, nn) /\ (y = (k, nn) \/ k = KModel /\ y.1 = ISVC).

Lemma mapModel_origin o w reqs nn :
  outcome (mapModelToInferenceServices o) w = Some reqs -> nn ∈ reqs -> origin o (ISVC, nn).
Proof.
  unfold mapModelToInferenceServices. destruct o as [k m|ty].
  2:{ intros [= <-] Hin. by apply elem_of_nil in Hin. }
  destruct k; cbn [as_Model]; try by intros [= <-] Hin%elem_of_nil.
  intros _ _. split; [by right; right|]. exists KModel, (key KModel m). split; [done|]. by right.
Qed.

Lemma operated_primary c : c ∈ operator_controllers -> primary (For c).
Proof.
  unfold operator_controllers. rewrite !elem_of_cons, elem_of_nil.
  intros [-> |[-> |[-> |[]]]]; [by left|by right; left|by right; right].
Qed.

Lemma enqueues_origin c o w :
  c ∈ operator_controllers ->
  exists reqs, outcome (enqueues c o) w = Some reqs /\ forall nn, nn ∈ reqs -> origin o (For c, nn).
Proof.
  intros Hc. assert (exists l, outcome (mapped (Watches c) o) w = Some l /\
    forall nn, nn ∈ l -> origin o (For c, nn)) as (l & Hl & Ho).
  { unfold operator_controllers in Hc. rewrite !elem_of_cons, elem_of_nil in Hc.
    destruct Hc as [-> |[-> |[-> |[]]]]; [by exists []; split; [|intros nn Hn%elem_of_nil]..|].
    cbn [Watches isvc_SetupWithManager mapped For]. destruct (is_kind KModel o).
    - destruct (mapModel_requests o w) as (_ & reqs & Hreqs & _). exists (reqs ++ []).
      rewrite outcome_bind, Hreqs. split; [done|]. rewrite app_nil_r. intros nn.
      by eapply mapModel_origin.
    - exists []. split; [done|]. by intros nn Hn%elem_of_nil. }
  exists (own_key c o ++ l). unfold enqueues. rewrite outcome_bind, Hl. split; [done|].
  intros nn [Hown|Hin]%elem_of_app; [|by apply Ho]. unfold own_key in Hown.
  destruct (typed_key o) as [[k nn']|] eqn:Hk; [|by apply elem_of_nil in Hown].
  case_decide as Hf; [|by apply elem_of_nil in Hown]. apply list_elem_of_singleton in Hown as ->.
  split; [by apply operated_primary|]. exists k, nn'. split; [done|]. left. by rewrite Hf.
Qed.

(** Everything that is pending can be delivered. *)
Lemma flush s p : Forall (fun a => a.1 ∈ operator_controllers) p -> forall q,
  exists new, rtc (wstep external) (mkWatched (mkQueued s q) p) (mkWatched (mkQueued s (q ++ new)) []) /\
    Forall (fun y => exists a, a ∈ p /\ origin a.2 y) new.
Proof.
  induction p as [|[c o] p IH]; intros Hp q; [by exists []; rewrite app_nil_r|].
  apply Forall_cons_iff in Hp as [Hc Hp].
  destruct (enqueues_origin c o (cluster s) Hc) as (reqs & Hr & Ho).
  destruct (IH Hp (q ++ map (pair (For c)) reqs)) as (new & Hrtc & Hnew).
  exists (map (pair (For c)) reqs ++ new). split.
  - eapply rtc_l; [by apply (w_deliver external s q [] p c o reqs)|]. by rewrite app_assoc.
  - apply Forall_app. split.
    + apply Forall_forall. intros y (nn & <- & Hin)%in_map_iff. exists (c, o).
      split; [apply list_elem_of_here|]. apply Ho. by apply list_elem_of_In.
    + eapply Forall_impl; [|exact Hnew]. intros y (a & Ha & Hoy). exists a.
      split; [by apply list_elem_of_further|done].
Qed.
End deliveries.

(** ** Left to itself *)

(** Nobody else changes the cluster. *)
Definition nobody {W : Type} (w w' : W) : Prop := False.

Section alone.
Context `{L : K8sLib, !K8sLibLaws} {W : Type} `{!Cluster W, !ClusterLaws W}.

Abbreviation wsteps := (rtc (wstep (@nobody W))).

Lemma wstep_mono (external : W -> W -> Prop) s s' : wstep nobody s s' -> wstep external s s'.
Proof.
  intros [q q' p l Hq Hl|s0 q p1 p2 c o reqs Hreqs|q p1 p2 c o o' Hko Hin|s0 q1 q2 x p Hin];
    [|by econstructor..].
  apply w_step; [|done]. destruct Hq; by econstructor.
Qed.

Lemma wsteps_mono (external : W -> W -> Prop) s s' : wsteps s s' -> rtc (wstep external) s s'.
Proof. induction 1; [done|]. eapply rtc_l; [by apply wstep_mono|done]. Qed.

(** Announcements are addressed to the operator's controllers. *)
Lemma addressed_step (external : W -> W -> Prop) s s' :
  wstep external s s' -> Forall (fun a => a.1 ∈ operator_controllers) (pending s) ->
  Forall (fun a => a.1 ∈ operator_controllers) (pending s').
Proof.
  intros [q q' p l Hq [Hl _]|s0 q p1 p2 c o reqs Hreqs|q p1 p2 c o o' Hko Hin|s0 q1 q2 x p Hin];
    cbn [pending]; rewrite ?Forall_app, ?Forall_cons_iff; tauto.
Qed.

Lemma addressed_steps (external : W -> W -> Prop) s s' :
  rtc (wstep external) s s' -> Forall (fun a => a.1 ∈ operator_controllers) (pending s) ->
  Forall (fun a => a.1 ∈ operator_controllers) (pending s').
Proof. induction 1 as [|s1 s2 s3 Hst _ IH]; [done|]. intros Ha. by eapply IH, addressed_step. Qed.

Section three.
Variables (t : Tenant) (m : Model) (isvc : InferenceService).
Abbreviation declared := (declared t m isvc).

Lemma meek_declared r x (w w' : W) : meek r -> handle r w = (x, w') -> declared w -> declared w'.
Proof.
  intros Hr E [(t' & Ht & Hst) (m' & Hm & Hsm) (i' & Hi & Hsi & Hmi)]. split.
  - destruct (meek_keeps _ _ _ _ _ _ _ Hr E ltac:(by left) Ht) as [Ht'|(t2 & t1 & Ht' & _ & Hs & _)];
      [by exists t'|]. exists t2. split; [done|congruence].
  - destruct (meek_keeps _ _ _ _ _ _ _ Hr E ltac:(right; by left) Hm)
      as [Hm'|(m2 & m1 & Hm' & _ & Hs & _)]; [by exists m'|]. exists m2. split; [done|congruence].
  - destruct (meek_keeps _ _ _ _ _ _ _ Hr E ltac:(right; by right) Hi)
      as [Hi'|(i2 & i1 & Hi' & Hme & Hs & _)]; [by exists i'|]. exists i2. split; [done|].
    unfold same_meta in *. split; congruence.
Qed.

Lemma declared_wstep s s' :
  wstep nobody s s' -> tidy (system (queued s)) ->
  declared (cluster (system (queued s))) -> declared (cluster (system (queued s'))).
Proof.
  intros [q q' p l Hq _|s0 q p1 p2 c o reqs Hreqs|q p1 p2 c o o' Hko Hin|s0 q1 q2 x p Hin] Hti;
    [|done..]. cbn [queued] in *.
  destruct Hq as [s1 q k nn Hk|s1 q1 q2 k nn now Hk Hsc Hfree|s1 q i u ev r cont x w' Hi E th|s1 q w' Hx];
    cbn [system cluster] in *; [done..| |done].
  apply (meek_declared r x); [|done]. apply (tidy_sane _ Hti _ _ Hi).
Qed.

Lemma declared_wsteps s s' :
  wsteps s s' -> tidy (system (queued s)) ->
  declared (cluster (system (queued s))) -> declared (cluster (system (queued s'))).
Proof.
  induction 1 as [|s1 s2 s3 Hst _ IH]; [done|]. intros Hti Hd.
  apply IH; [by eapply tidy_wstep|by eapply declared_wstep].
Qed.
End three.

(** ** One object at a time *)

(** Nothing is under way, and nothing to be announced. *)
Definition resting (s : Watched W) : Prop := idle (queued s) /\ pending s = [].

Abbreviation world s := (cluster (system (queued s))).
Abbreviation waits s := (queue (queued s)).

Lemma resting_rest s :
  Forall (fun a => a.1 ∈ operator_controllers) (pending s) ->
  exists s', wsteps s s' /\ resting s'.
Proof.
  intros Ha. destruct (quiesce (Scheduler0 := watch_scheduler nobody) s) as (s1 & Hr & Hi).
  pose proof (addressed_steps nobody _ _ Hr Ha) as Ha1.
  destruct s1 as [[y q] p]. destruct (flush nobody y p Ha1 q) as (new & Hr' & _).
  eexists. split; [etransitivity; [exact Hr|exact Hr']|]. by split.
Qed.

(** A key is reconciled; what is announced was written by the reconcile. *)
Lemma serve_once s q1 q2 k nn :
  resting s -> waits s = q1 ++ (k, nn) :: q2 -> primary k -> scoped (task_of k nn 0) ->
  let p := program (task_of k nn 0) in
  outcome p (world s) = Some (Result0, None) ->
  exists s', wsteps s s' /\ idle (queued s') /\ world s' = final p (world s) /\
    waits s' = q1 ++ q2 /\ (still p (world s) -> pending s' = []) /\
    Forall (fun a => a.1 ∈ operator_controllers /\
              exists k' nn', typed_key a.2 = Some (k', nn') /\ owns (task_of k nn 0) k' nn') (pending s').
Proof.
  intros [Hi Hp] Hq Hk Hsc p Ho. pose proof (serve (Scheduler0 := watch_scheduler nobody) s q1 q2 k nn) as Hs.
  destruct (Hs Hq Hi Hk Hsc) as (s1 & s' & th & Hr & Hl & Hal & Ht & He & Hv).
  cbn [view watch_scheduler leftover] in *. fold p in Hal, He, Hv. rewrite Ho in He.
  destruct (along_tells _ _ _ _ _ Hal) as (l & Hl' & Htell & Hstill). rewrite Hl, Hp in Hl'.
  cbn [app] in Hl'. exists s'. split; [done|]. rewrite Hv. cbn [system cluster queue threads idle].
  split; [|split; [done|split; [|split]]].
  - apply Forall_app. split; [exact Hi|]. constructor; [|done]. by eapply over_idle.
  - unfold requeued. rewrite He. cbn [over]. by rewrite app_nil_r.
  - rewrite Hl'. exact Hstill.
  - rewrite Hl'. pose proof (run_owned (task_of k nn 0) p (fun _ _ => True) [] (world s)
      (program_owned_wp _) (Forall_nil_2 _)) as Hown. rewrite Forall_forall in Hown.
    eapply Forall_impl; [|exact Htell]. intros a (e & Hin & Hc & Hwr & Hko). split; [done|].
    exists (req_kind (ev_req e)), (req_key (ev_req e)). split; [done|].
    apply Hown; [by apply list_elem_of_In|done].
Qed.

(** When its reconciles change nothing all its turns can be taken at once. *)
Lemma drain_still k nn : primary k -> scoped (task_of k nn 0) -> forall n s,
  length (waits s) = n -> resting s ->
  let p := program (task_of k nn 0) in
  outcome p (world s) = Some (Result0, None) -> still p (world s) ->
  exists s', wsteps s s' /\ resting s' /\ world s' = world s /\ ((k, nn) ∉ waits s') /\
    waits s' ⊆ waits s.
Proof.
  intros Hk Hsc. induction n as [|n IH]; intros s Hlen Hs p Ho Hst.
  { exists s. rewrite (nil_length_inv _ Hlen). split_and!; [done..|apply not_elem_of_nil|done]. }
  destruct (decide ((k, nn) ∈ waits s)) as [Hin|]; [|by exists s].
  apply list_elem_of_split in Hin as (q1 & q2 & Hq).
  destruct (serve_once s q1 q2 k nn Hs Hq Hk Hsc Ho) as (s1 & Hr & Hi & Hw & Hq1 & Hp & _).
  fold p in Hw, Hp. rewrite (still_final _ _ Hst) in Hw. specialize (Hp Hst).
  destruct (IH s1) as (s' & Hr' & Hs' & Hw' & Hni & Hsub); [| |by rewrite Hw..|].
  - rewrite Hq1. rewrite Hq in Hlen. rewrite !length_app in *. simpl in Hlen. lia.
  - by split.
  - exists s'. split; [by etransitivity|]. split; [done|]. split; [congruence|]. split; [done|].
    rewrite Hq1 in Hsub. rewrite Hq. intros y Hy%Hsub. rewrite !elem_of_app, ?elem_of_cons in *. tauto.
Qed.

Lemma resting_awaits (s : Watched W) x : resting s -> x ∉ waits s -> ~ awaits x s.
Proof.
  intros [Hi Hp] Hx [Hw|(c & o & Hin & _)]; [by eapply idle_waiting|].
  rewrite Hp in Hin. by apply elem_of_nil in Hin.
Qed.

(** One reconcile establishes what the next ones find. *)
Definition establishes (k : Kind) (nn : NamespacedName) (w : W) : Prop :=
  let p := program (task_of k nn 0) in
  outcome p w = Some (Result0, None) /\
  outcome p (final p w) = Some (Result0, None) /\ still p (final p w).

Lemma stage s k nn :
  resting s -> primary k -> scoped (task_of k nn 0) -> establishes k nn (world s) ->
  exists s', wsteps s s' /\ resting s' /\ ((k, nn) ∉ waits s') /\
    ((k, nn) ∈ waits s -> world s' = final (program (task_of k nn 0)) (world s)) /\
    forall y, y ∈ waits s' -> y ∈ waits s \/ k = KModel /\ y.1 = ISVC.
Proof.
  intros Hs Hk Hsc (Ho & Ho' & Hst). set (p := program (task_of k nn 0)) in *.
  destruct (decide ((k, nn) ∈ waits s)) as [Hin|Hout].
  2:{ exists s. split_and!; [done..|by left]. }
  apply list_elem_of_split in Hin as (q1 & q2 & Hq).
  destruct (serve_once s q1 q2 k nn Hs Hq Hk Hsc Ho) as ([[y q] pd] & Hr & Hi & Hw & Hq1 & _ & Hpd).
  cbn [queued system queue pending] in *. fold p in Hw.
  assert (Forall (fun a => a.1 ∈ operator_controllers) pd) as Hpd'
    by (eapply Forall_impl; [|exact Hpd]; by intros a [? _]).
  destruct (flush nobody y pd Hpd' q) as (new & Hr' & Hnew).
  destruct (drain_still k nn Hk Hsc _ (mkWatched (mkQueued y (q ++ new)) []) eq_refl)
    as (s' & Hr2 & Hs' & Hw' & Hni & Hsub); [done|cbn [queued system]; rewrite Hw; done..|].
  exists s'. split; [by etransitivity; [exact Hr|]; etransitivity|]. split; [done|]. split; [done|].
  split; [intros _; rewrite Hw'; exact Hw|].
  intros z Hzw. pose proof Hzw as [Hz|Hz]%Hsub%elem_of_app.
  - left. rewrite Hq1 in Hz. rewrite Hq, elem_of_app, elem_of_cons in *. tauto.
  - right. rewrite Forall_forall in Hnew. apply list_elem_of_In, Hnew in Hz as (a & Ha & Hor).
    rewrite Forall_forall in Hpd. apply list_elem_of_In, Hpd in Ha as (Hc & k' & nn' & Hko & Hown).
    destruct Hor as (Hpz & k2 & nn2 & Hko2 & Hz). rewrite Hko in Hko2. injection Hko2 as <- <-.
    destruct Hz as [-> |[-> Hz]]; cbn [fst] in *.
    + destruct (owns_primary _ _ _ _ _ Hk Hown Hpz) as [-> ->]. done.
    + split; [|done]. symmetry. apply (owns_primary _ _ _ _ _ Hk Hown). by right; left.
Qed.
End alone.

(** ** A tenant, a model of it, and a service on the model *)

Section platform.
Context `{L : K8sLib, !K8sLibLaws} {W : Type}
  `{!Cluster W, !ClusterLaws W, !ApiClient.Available W}.

Lemma tenant_establishes req t hard (w : W) :
  stored KTenant w req = Some t ->
  buildQuotaResourceList (tenant_ResourceQuota (tenant_Spec t)) = Ok hard ->
  establishes KTenant req w.
Proof.
  intros Ht Hq. pose proof (tenant_progress 0 _ _ _ _ Ht Hq) as Ho.
  pose proof (TenantController.tenant_Reconcile_stored _ _ _ _ Ho) as [_ Hst].
  rewrite Ht in Hst. destruct Hst as (Hp & t2 & Ht2 & Hready & Hs).
  unfold establishes. cbn [task_of program] in *.
  assert (buildQuotaResourceList (tenant_ResourceQuota (tenant_Spec t2)) = Ok hard) as Hq2 by (by rewrite Hs).
  split; [done|]. split; [by apply (tenant_progress 0 _ _ _ _ Ht2 Hq2)|].
  apply (tenant_still 0 _ _ t2 hard); try done. apply (provisioned_same t2 t); [|congruence|done].
  rewrite (stored_key _ _ _ _ Ht). by rewrite (stored_key _ _ _ _ Ht2).
Qed.

Lemma model_establishes req m (w : W) : stored KModel w req = Some m -> establishes KModel req w.
Proof.
  intros Hm. pose proof (model_progress 0 _ _ _ Hm) as Ho.
  pose proof (ModelController.model_Reconcile_stored _ _ _ _ Ho) as [_ Hst].
  rewrite Hm in Hst. destruct Hst as (m2 & Hm2 & _). unfold establishes. cbn [task_of program] in *.
  split; [done|]. split; [by apply (model_progress 0 _ _ _ Hm2)|].
  by apply quiet_still, (model_Reconcile_settles 0 0 _ _ _ Ho).
Qed.

Section service.
Variables (t : Tenant) (m : Model) (isvc : InferenceService) (hard : ResourceList).
Hypothesis quota_built : buildQuotaResourceList (tenant_ResourceQuota (tenant_Spec t)) = Ok hard.
Hypothesis model_verifies : verified m = true.
Hypothesis known_profile : profile_known isvc = true.
Hypothesis in_tenant : Namespace_ (isvc_ObjectMeta isvc) = tenant_name t.
Hypothesis of_model :
  mkNN (Namespace_ (isvc_ObjectMeta isvc)) (isvc_Model (isvc_Spec isvc)) = key KModel m.
Hypothesis cluster_scoped : Namespace_ (tenant_ObjectMeta t) = "".

Abbreviation declared := (declared t m isvc).
Abbreviation model_up := (model_up m).

Lemma task_declared u (w : W) : declared w -> declared (final (program u) w).
Proof. intros Hd. by eapply (declared_kept t m isvc hard). Qed.

Lemma service_outcome (w : W) :
  declared w -> model_up w ->
  outcome (Reconcile 0 (key ISVC isvc)) w = Some (Result0, None).
Proof.
  intros [(t1 & Ht & _) (m1 & Hm & _) (i & Hi & Hs & Hme)] (m2 & Hm2 & Hrep).
  replace m2 with m1 in * by congruence. destruct (isvc_progress 0 _ _ _ Hi) as [res Hres].
  destruct (isvc_Reconcile_stored _ _ _ _ _ Hi Hres) as [Hr _].
  destruct (isvc_depends t m isvc in_tenant of_model cluster_scoped w i t1 m1 Hs Hme Ht Hm) as [Hto Hmo].
  assert (profile_known i = true) as Hp by (unfold profile_known in *; by rewrite Hs).
  destruct (bring_up_deps w i t1 m1 Hto Hmo Hrep Hp) as (Hdeps & _). rewrite Hdeps in Hr. by subst res.
Qed.

Lemma service_establishes (w : W) :
  declared w -> model_up w -> establishes ISVC (key ISVC isvc) w.
Proof.
  intros Hd Hm. pose proof (task_declared (ReconcileInferenceService 0 (key ISVC isvc)) w Hd) as Hd1.
  pose proof (model_up_kept t m isvc model_verifies
    (ReconcileInferenceService 0 (key ISVC isvc)) w Hd Hm) as Hm1.
  pose proof (service_outcome _ Hd Hm) as Ho. pose proof (service_outcome _ Hd1 Hm1) as Ho1.
  unfold establishes. cbn [task_of program] in *. split; [done|]. split; [done|].
  destruct Hd as [_ _ (i & Hi & _)]. by apply quiet_still, (isvc_Reconcile_settles 0 0 _ _ _ Result0 _ Hi Ho).
Qed.

Abbreviation wsteps := (rtc (wstep (@nobody W))).
Abbreviation world s := (cluster (system (queued s))).

(** The tenant and its model come first; then the service is found ready. *)
Lemma staged s :
  resting s ->
  (forall s', wsteps s s' -> declared (world s') /\ (~ awaits (KModel, key KModel m) s' -> model_up (world s'))) ->
  exists s', wsteps s s' /\
    Forall (fun x => ~ awaits x s')
      [(KTenant, key KTenant t); (KModel, key KModel m); (ISVC, key ISVC isvc)].
Proof.
  intros Hs Hst. destruct (Hst s) as [[(t1 & Ht1 & Hts) _ _] _]; [done|].
  pose proof quota_built as Hq. rewrite <- Hts in Hq.
  destruct (stage s KTenant (key KTenant t) Hs) as (s2 & Hr2 & Hs2 & Ht2 & _);
    [by left|exact cluster_scoped|by eapply tenant_establishes|].
  destruct (Hst s2 Hr2) as [[_ (m2 & Hm2 & _) _] _].
  destruct (stage s2 KModel (key KModel m) Hs2) as (s3 & Hr3 & Hs3 & Hm3 & _ & Hw3);
    [by right; left|done|by eapply model_establishes|].
  assert (wsteps s s3) as Hr by (by etransitivity). destruct (Hst _ Hr) as [Hd Hm].
  destruct (stage s3 ISVC (key ISVC isvc) Hs3) as (s4 & Hr4 & Hs4 & Hi4 & _ & Hw4);
    [by right; right|done|apply service_establishes; [done|]; by apply Hm, resting_awaits|].
  exists s4. split; [by etransitivity|].
  assert (forall x, x.1 <> ISVC -> x ∉ queue (queued s3) -> ~ awaits x s4) as Hkeep
    by (intros x Hx Hn; apply resting_awaits; [done|]; intros [?|[? ?]]%Hw4; done).
  repeat constructor; [|by apply Hkeep|by apply resting_awaits].
  apply Hkeep; [done|]. by intros [?|[_ ?]]%Hw3.
Qed.
End service.
End platform.

Section settles.
Context `{L : K8sLib, !K8sLibLaws} {W : Type}
  `{!Cluster W, !ClusterLaws W, !ApiClient.Available W}.

Abbreviation wsteps := (rtc (wstep (@nobody W))).
Abbreviation world s := (cluster (system (queued s))).

Lemma settled_up {D : Defaults} t m isvc (w : W) :
  verified m = true -> declared t m isvc w -> settled (KModel, key KModel m) w -> model_up m w.
Proof.
  intros Hv [_ (m' & Hm & Hs) _] Hset. exists m'. split; [done|].
  assert (verified m' = true) as Hv' by (unfold verified in *; by rewrite Hs).
  rewrite <- Hv'. by apply Hset.
Qed.

Lemma tenant_watchers c : c ∈ operator_controllers -> watches c KTenant -> c = tenant_SetupWithManager.
Proof.
  unfold operator_controllers. rewrite !elem_of_cons, elem_of_nil.
  intros [-> |[-> |[-> |[]]]]; [done|..]; intros [Hf|Hw]; try done; simpl in Hw.
  - by apply elem_of_nil in Hw.
  - by apply list_elem_of_singleton in Hw.
Qed.

(** C36: a change of a Tenant is not announced to the controller of the services:
    from a state at rest, whatever changes the spec of a Tenant alone, the
    operator can come to rest again with the Tenant as it is to be, and every
    InferenceService, with the priority derived from it, as it was. *)
Theorem tenant_edit_not_followed (external : W -> W -> Prop) (s : Watched W) (w' : W) ns t hard :
  resting s -> queue (queued s) = [] -> external (world s) w' ->
  (forall k nn, (k, nn) <> (KTenant, mkNN "" ns) -> stored k w' nn = stored k (world s) nn) ->
  stored KTenant w' (mkNN "" ns) = Some t ->
  buildQuotaResourceList (tenant_ResourceQuota (tenant_Spec t)) = Ok hard ->
  exists s', rtc (wstep external) s s' /\ resting s' /\ queue (queued s') = [] /\
    (exists t', stored KTenant (world s') (mkNN "" ns) = Some t' /\ tenant_Spec t' = tenant_Spec t /\
       tenant_ready (tenant_Status t')) /\
    provisioned t (world s') /\
    forall nn, stored ISVC (world s') nn = stored ISVC (world s) nn.
Proof.
  destruct s as [[[w ths] q] p]. intros [Hi Hp] Hq Hx Hframe Ht Hb.
  cbn [queued system cluster queue pending] in *. subst q p.
  pose proof (stored_key _ _ _ _ Ht) as Hk. set (x := (KTenant, mkNN "" ns)) in *.
  set (l := [(tenant_SetupWithManager, Typed KTenant t)]).
  assert (announced w w' l) as Hl.
  { split; [by repeat constructor|]. intros c' k nn Hc Hw Hne.
    destruct (decide ((k, nn) = x)) as [[= -> ->]|Hne']; [|by destruct Hne; apply Hframe].
    exists (Typed KTenant t). split; [simpl; by rewrite Hk|].
    rewrite (tenant_watchers _ Hc Hw). apply list_elem_of_here. }
  assert (rtc (wstep external) (mkWatched (mkQueued (mkSys w ths) []) [])
    (mkWatched (mkQueued (mkSys w' ths) [x]) [])) as Hr1.
  { eapply rtc_l; [eapply w_step; [by apply q_external|exact Hl]|]. apply rtc_once.
    apply (w_deliver external (mkSys w' ths) [] [] []
             tenant_SetupWithManager (Typed KTenant t) [mkNN "" ns]). unfold enqueues, own_key.
    simpl. by rewrite Hk. }
  destruct (stage (mkWatched (mkQueued (mkSys w' ths) [x]) []) KTenant (mkNN "" ns))
    as (s' & Hr2 & Hs' & Hno & Hw & Hsub); [done|by left|done|by eapply tenant_establishes|].
  specialize (Hw (list_elem_of_here _ _)). cbn [queued system cluster queue task_of program] in *.
  pose proof (TenantController.tenant_Reconcile_stored _ _ _ _ (tenant_progress 0 _ _ _ _ Ht Hb)) as [_ Hst].
  rewrite Ht, <- Hw in Hst. destruct Hst as (Hprov & t' & Ht' & Hready & Hspec).
  exists s'. split; [etransitivity; [exact Hr1|by apply wsteps_mono]|]. split; [done|]. split_and!.
  - destruct (queue (queued s')) as [|y q] eqn:Ey; [done|].
    destruct (Hsub y) as [Hy%list_elem_of_singleton|[? _]]; [apply list_elem_of_here| |done].
    subst y. destruct Hno. apply list_elem_of_here.
  - by exists t'.
  - done.
  - intros nn. rewrite Hw, tenant_frame by done. by apply Hframe.
Qed.

(** *** From any state that can be reached *)

Section reached.
Context {D : Defaults}.
Variables (external : W -> W -> Prop) (w0 : W) (waits0 : list (Kind * NamespacedName))
  (p0 : list (Controller * Object)).
Hypothesis respectful : forall w w', external w w' -> respects w w' /\ (within w -> within w').
Hypothesis lists : forall ns (w : W), exists items, (handle (List_ ISVC ns) w).1 = Ok items.
Hypothesis all_within : within w0.
Hypothesis all_listed : listed w0 p0.

Abbreviation reached := (rtc (wstep external) (mkWatched (mkQueued (mkSys w0 []) waits0) p0)).

Lemma reached_later s s' : reached s -> wsteps s s' -> reached s'.
Proof. intros Hr Hr'. etransitivity; [exact Hr|by apply wsteps_mono]. Qed.

Lemma reached_tidy s : reached s -> tidy (system (queued s)).
Proof.
  intros Hr. by eapply (provided_reachable external w0 waits0 p0 s KModel (mkNN "" ""));
    [done|..|right; left| |].
Qed.

Lemma reached_settled s k nn :
  reached s -> primary k -> scoped (task_of k nn 0) -> ~ awaits (k, nn) s -> settled (k, nn) (world s).
Proof. intros Hr Hk Hsc. apply provided_settled. by eapply provided_reachable. Qed.

Lemma settling s ns mname name t m isvc hard :
  reached s -> stored KTenant (world s) (mkNN "" ns) = Some t ->
  buildQuotaResourceList (tenant_ResourceQuota (tenant_Spec t)) = Ok hard ->
  stored KModel (world s) (mkNN ns mname) = Some m -> verified m = true ->
  stored ISVC (world s) (mkNN ns name) = Some isvc -> isvc_Model (isvc_Spec isvc) = mname ->
  profile_known isvc = true ->
  exists s', wsteps s s' /\
    Forall (fun x => ~ awaits x s')
      [(KTenant, mkNN "" ns); (KModel, mkNN ns mname); (ISVC, mkNN ns name)] /\
    declared t m isvc (world s').
Proof.
  intros Hr Ht Hq Hm Hv Hi Hmn Hp.
  destruct (three_declared _ _ _ _ _ _ _ Ht Hm Hi Hmn) as (Hd & Hns & Hof & Hsco & Kt & Km & Ki).
  rewrite <- Kt, <- Km, <- Ki.
  assert (forall s', wsteps s s' -> declared t m isvc (world s')) as Hdecl
    by (intros s' Hr'; eapply declared_wsteps; [exact Hr'|by apply reached_tidy|exact Hd]).
  destruct (resting_rest s) as (s1 & Hr1 & Hs1); [eapply addressed_steps; [exact Hr|]; apply all_listed|].
  destruct (staged t m isvc hard Hq Hv Hp Hns Hof Hsco s1 Hs1) as (s' & Hr' & Hno).
  - intros s' Hr'. assert (wsteps s s') as Hs by (by etransitivity). split; [by apply Hdecl|].
    intros Ha. apply (settled_up t m isvc); [done|by apply Hdecl|].
    apply reached_settled; [by eapply reached_later|right; by left|done|done].
  - assert (wsteps s s') as Hs by (by etransitivity). exists s'. split; [done|]. split; [done|by apply Hdecl].
Qed.
End reached.

(** C4: the operator settles on the specs it finds: take any state that
    can be reached, whatever edits and overlapping reconciles led there, in which
    there is a Tenant whose quota parses, a Model of it that verifies and an
    InferenceService on the Model with a known profile.  Left alone by everyone
    else the operator can go on, with reconciles, requests and deliveries of
    announcements, its own writes announced too, to a state in which none of the
    three waits any more; there the three have the specs they had, the tenant is
    provisioned, the model is reported as verified, and the service is Ready with
    a Job and the priority derived from a default its tenant may have (its own,
    if nobody ever changed it).  The server is up and lists, and others leave
    alone what the controllers make for an object that exists. *)
Theorem watched_settles (D : Defaults) (external : W -> W -> Prop) (w : W) waits p s
    ns mname name t m isvc hard :
  (forall w w', external w w' -> respects w w' /\ (within w -> within w')) ->
  (forall ns (w : W), exists items, (handle (List_ ISVC ns) w).1 = Ok items) ->
  within w -> listed w p ->
  rtc (wstep external) (mkWatched (mkQueued (mkSys w []) waits) p) s ->
  stored KTenant (world s) (mkNN "" ns) = Some t ->
  buildQuotaResourceList (tenant_ResourceQuota (tenant_Spec t)) = Ok hard ->
  stored KModel (world s) (mkNN ns mname) = Some m -> verified m = true ->
  stored ISVC (world s) (mkNN ns name) = Some isvc -> isvc_Model (isvc_Spec isvc) = mname ->
  profile_known isvc = true ->
  exists s', rtc (wstep nobody) s s' /\
    Forall (fun x => ~ awaits x s')
      [(KTenant, mkNN "" ns); (KModel, mkNN ns mname); (ISVC, mkNN ns name)] /\
    declared t m isvc (world s') /\ provisioned t (world s') /\ model_up m (world s') /\
    exists i, stored ISVC (world s') (mkNN ns name) = Some i /\ service_settled i (world s').
Proof.
  intros Hext Hlist Hin Hl Hr Ht Hq Hm Hv Hi Hmn Hp.
  destruct (settling _ _ waits p Hext Hlist Hin Hl s _ _ _ _ _ _ _ Hr Ht Hq Hm Hv Hi Hmn Hp)
    as (s' & Hs & Hno & Hd). exists s'. split; [done|]. split; [done|]. split; [done|].
  rewrite !Forall_cons_iff in Hno. destruct Hno as (Nt & Nm & Ni & _).
  pose proof (reached_settled external w waits p Hext Hlist Hin Hl s') as Hset.
  pose proof (reached_later external w waits p _ _ Hr Hs) as Hr'.
  destruct (three_declared _ _ _ _ _ _ _ Ht Hm Hi Hmn) as (_ & _ & _ & Hsco & Kt & Km & Ki).
  rewrite <- ?Kt, <- ?Km, <- ?Ki in *.
  destruct Hd as [(t' & Ht' & Hts) Hdm (i' & Hi' & His & Hme)]. split; [|split].
  - apply (provisioned_same t t'); [by apply stored_key in Ht'|done|].
    apply (Hset KTenant (key KTenant t)); try done. by left.
  - apply (settled_up t m isvc); [done|split; eauto|]. by apply Hset; [|right; left|..].
  - exists i'. split; [done|]. by apply (Hset ISVC (key ISVC isvc)); [|right; right|..].
Qed.
End settles.
