(* ===== verification/GoMemory.v ===== *)
(** * Go's memory

    Pointers, slices and structs in a store of cells, for the code that is
    about sharing: [zz_generated.deepcopy.go].  A Go value that holds pointers
    has a type of its own here (the words in memory), and [reads] says which
    value of the model it stands for in a given store, and which cells it
    reaches.  [DeepCopier] is the interface of a type whose values can be
    copied, [DeepCopyLaws] what a deep copy promises. *)
From S2P Require Import Prelude.

Abbreviation loc := positive.
Abbreviation Store Cell := (gmap loc Cell).

(** A pointer to an [A]. *)
Inductive Ptr (A : Type) := Nil | To (l : loc).
Arguments Nil {A}.
Arguments To {A} l.

(** A slice, with its backing array and its length; every slice of the code
    begins at the start of its array. *)
Inductive SliceOf (A : Type) := NilSlice | SliceAt (array : loc) (len : nat).
Arguments NilSlice {A}.
Arguments SliceAt {A} array len.

Section memory.
(** The contents of a cell: a value of any of the types that are allocated. *)
Context {Cell : Type}.

(** A computation on the store; [None] is a panic. *)
Definition Mem (A : Type) : Type := Store Cell -> option (A * Store Cell).

Definition mret_ {A} (a : A) : Mem A := fun h => Some (a, h).
Definition mbind_ {A B} (m : Mem A) (f : A -> Mem B) : Mem B :=
  fun h => match m h with Some (a, h') => f a h' | None => None end.

(** A type that cells can hold, with the zero value Go allocates it with. *)
Class Storable (A : Type) := {
  to_cell : A -> Cell;
  of_cell : Cell -> option A;
  of_to_cell a : of_cell (to_cell a) = Some a;
  zero_value : A
}.

Section cells.
Context {A : Type} `{!Storable A}.

Definition lookup_cell (l : loc) (h : Store Cell) : option A := h !! l ≫= of_cell.

(** [new(A)]: a cell that was not in use, with the zero value. *)
Definition new : Mem loc :=
  fun h => let l := fresh (dom h) in Some (l, <[l := to_cell zero_value]> h).
Definition load (l : loc) : Mem A :=
  fun h => match lookup_cell l h with Some a => Some (a, h) | None => None end.
Definition store (l : loc) (a : A) : Mem () :=
  fun h => match lookup_cell l h with
           | Some _ => Some ((), <[l := to_cell a]> h)
           | None => None
           end.
End cells.

(** Arrays: a cell with a list; [make] fills it with zero values. *)
Section arrays.
Context {A : Type} `{!Storable (list A)} (zero : A).

Definition make (n : nat) : Mem loc :=
  fun h => let l := fresh (dom h) in Some (l, <[l := to_cell (replicate n zero)]> h).
Definition load_index (l : loc) (i : nat) : Mem A :=
  fun h => match lookup_cell l h ≫= (fun xs => xs !! i) with
           | Some a => Some (a, h)
           | None => None
           end.
Definition store_index (l : loc) (i : nat) (a : A) : Mem () :=
  fun h => match lookup_cell l h with
           | Some xs =>
               if decide (i < length xs)%nat then Some ((), <[l := to_cell (<[i := a]> xs)]> h)
               else None
           | None => None
           end.
End arrays.
End memory.

Arguments Mem : clear implicits.
Arguments Storable : clear implicits.

Declare Scope mem_scope.
Delimit Scope mem_scope with mem.
Notation "'mem!' x := p 'in' q" := (mbind_ p (fun x => q))
  (at level 10, x name, p at level 100, q at level 200) : mem_scope.
Notation "p ;m; q" := (mbind_ p (fun _ => q))
  (at level 100, q at level 200, right associativity) : mem_scope.
Open Scope mem_scope.

(** ** Deep copies *)

(** A type [T] of words in memory that stand for values of [A]: how its
    [DeepCopyInto] copies one, given as the value it leaves in [*out], and what
    a word means in a store, with the cells it reaches. *)
Class DeepCopier (Cell T A : Type) := {
  copy_into : T -> Mem Cell T;
  reads : Store Cell -> T -> A -> gset loc -> Prop
}.

(** The copy stands for the same value, in cells none of which was in use, and
    every cell that was keeps its contents; what a word stands for depends on
    the cells it reaches only. *)
Class DeepCopyLaws (Cell T A : Type) `{!DeepCopier Cell T A} := {
  reads_dom (h : Store Cell) (x : T) (a : A) F : reads h x a F -> F ⊆ dom h;
  reads_local (h h' : Store Cell) (x : T) (a : A) F :
    reads h x a F -> (forall l, l ∈ F -> h' !! l = h !! l) -> reads h' x a F;
  copy_into_reads (h : Store Cell) (x : T) (a : A) F : reads h x a F ->
    exists x' h' F', copy_into x h = Some (x', h') /\ h ⊆ h' /\
      reads h' x' a F' /\ F' ## dom h
}.

(** [m] allocates only, and gives a word with these properties in new cells. *)
Definition copies {Cell T : Type} (h : Store Cell) (m : Mem Cell T)
    (R : Store Cell -> T -> gset loc -> Prop) : Prop :=
  exists x h' F, m h = Some (x, h') /\ h ⊆ h' /\ R h' x F /\ F ## dom h.

Section copies.
Context {Cell : Type}.

Lemma copies_ret {T} (h : Store Cell) (x : T) R : R h x ∅ -> copies h (mret_ x) R.
Proof. intros H. exists x, h, ∅. split_and!; [done|done|done|set_solver]. Qed.

(** In sequence; the cells of the first are new, and stay as they are. *)
Lemma copies_bind {S T} (h : Store Cell) (m : Mem Cell S) (f : S -> Mem Cell T) R Q :
  copies h m R ->
  (forall h' x F, h ⊆ h' -> R h' x F -> F ## dom h ->
     copies h' (f x) (fun h'' y G => Q h'' y (F ∪ G))) ->
  copies h (mbind_ m f) Q.
Proof.
  intros (x & h1 & F & Hm & Hs & HR & HF) Hf.
  destruct (Hf h1 x F Hs HR HF) as (y & h2 & G & Hm2 & Hs2 & HQ & HG).
  exists y, h2, (F ∪ G). unfold mbind_. rewrite Hm. split_and!; [done| |done|].
  - by transitivity h1.
  - apply subseteq_dom in Hs. set_solver.
Qed.

Lemma copies_mono {T} (h : Store Cell) (m : Mem Cell T) (R R' : Store Cell -> T -> gset loc -> Prop) :
  copies h m R -> (forall h' x F, h ⊆ h' -> R h' x F -> R' h' x F) -> copies h m R'.
Proof. intros (x & h' & F & Hm & Hs & HR & HF) H. exists x, h', F. split_and!; eauto. Qed.
End copies.

Section laws.
Context {Cell T A : Type} `{!DeepCopier Cell T A, !DeepCopyLaws Cell T A}.

Lemma copies_copy (h : Store Cell) (x : T) (a : A) F :
  reads h x a F -> copies h (copy_into x) (fun h' x' F' => reads h' x' a F').
Proof. intros H. by apply copy_into_reads in H. Qed.

(** A larger store reads the same. *)
Lemma reads_mono (h h' : Store Cell) (x : T) (a : A) F :
  reads h x a F -> h ⊆ h' -> reads h' x a F.
Proof.
  intros H Hs. apply (reads_local h); [done|]. intros l Hl.
  apply (reads_dom _ _ _ _ H) in Hl as [c Hc]%elem_of_dom. rewrite Hc.
  by apply (lookup_weaken h).
Qed.
End laws.

(** Cells, as they are read and written. *)
Section stores.
Context {Cell A : Type} `{!Storable Cell A}.
Implicit Type h : Store Cell.

Lemma lookup_cell_insert l a h : lookup_cell l (<[l := to_cell a]> h) = Some a.
Proof. unfold lookup_cell. rewrite lookup_insert_eq. apply of_to_cell. Qed.

Lemma lookup_cell_mono l (a : A) h h' :
  lookup_cell l h = Some a -> h ⊆ h' -> lookup_cell l h' = Some a.
Proof.
  unfold lookup_cell. intros (c & Hc & Ha)%bind_Some Hs. by rewrite (lookup_weaken _ _ _ _ Hc Hs).
Qed.

Lemma lookup_cell_local l (a : A) h h' :
  lookup_cell l h = Some a -> h' !! l = h !! l -> lookup_cell l h' = Some a.
Proof. unfold lookup_cell. by intros H ->. Qed.

Lemma lookup_cell_dom l (a : A) h : lookup_cell l h = Some a -> l ∈ dom h.
Proof. unfold lookup_cell. intros (c & Hc & _)%bind_Some. by apply elem_of_dom. Qed.

Lemma load_ok l (a : A) h : lookup_cell l h = Some a -> load l h = Some (a, h).
Proof. unfold load. by intros ->. Qed.

(** A word that has been read is no new allocation. *)
Lemma copies_load {T} l (a : A) h (f : A -> Mem Cell T) Q :
  lookup_cell l h = Some a -> copies h (f a) Q -> copies h (mbind_ (load l) f) Q.
Proof. intros Hl. unfold copies, mbind_. by rewrite (load_ok _ _ _ Hl). Qed.
End stores.

(** ** Copying pointers *)

(** A property of a word that depends on its cells only. *)
Definition local {Cell T : Type} (R : Store Cell -> T -> gset loc -> Prop) : Prop :=
  forall h h' x F, R h x F -> (forall l, l ∈ F -> h' !! l = h !! l) -> R h' x F.

(** A pointer to a word with the property. *)
Definition points_to {Cell T : Type} `{!Storable Cell T}
    (R : Store Cell -> T -> gset loc -> Prop) (h : Store Cell) (p : Ptr T) (F : gset loc) : Prop :=
  exists l x G, p = To l /\ lookup_cell l h = Some x /\ R h x G /\ F = {[l]} ∪ G.

(** [*out = new(T)], and then the copy is written to it. *)
Definition copy_to_new {Cell T : Type} `{!Storable Cell T} (m : Mem Cell T) : Mem Cell (Ptr T) :=
  mem! out := new in
  mem! x := m in
  store out x ;m;
  mret_ (To out).

Lemma copy_to_new_copies {Cell T : Type} `{!Storable Cell T} (h : Store Cell)
    (m : Mem Cell T) (R : Store Cell -> T -> gset loc -> Prop) :
  local R -> (forall h', h ⊆ h' -> copies h' m R) ->
  copies h (copy_to_new m) (points_to R).
Proof.
  intros HR Hm. set (out := fresh (dom h)).
  assert (out ∉ dom h) as Hout by apply is_fresh.
  assert (h ⊆ <[out := to_cell zero_value]> h) as Hs1
    by (apply insert_subseteq, not_elem_of_dom; done).
  destruct (Hm _ Hs1) as (x & h2 & G & Em & Hs2 & Hx & HG).
  exists (To out), (<[out := to_cell x]> h2), ({[out]} ∪ G).
  rewrite dom_insert in HG.
  split; [|split; [|split]].
  - unfold copy_to_new, mbind_, new, store. fold out. rewrite Em.
    assert (lookup_cell out h2 = Some (zero_value : T)) as ->; [|done].
    eapply lookup_cell_mono; [apply lookup_cell_insert|done].
  - apply insert_subseteq_r; [by apply not_elem_of_dom|]. by transitivity (<[out := to_cell zero_value]> h).
  - exists out, x, G. split; [done|]. split; [apply lookup_cell_insert|]. split; [|done].
    apply (HR h2); [done|]. intros l Hl. apply lookup_insert_ne. set_solver.
  - set_solver.
Qed.

(** ** Scalars *)

(** A value without pointers stands for itself, and reaches no cell. *)
Definition plain {Cell A : Type} (into : A -> Mem Cell A) : DeepCopier Cell A A :=
  {| copy_into := into; reads := fun h x a F => a = x /\ F = ∅ |}.

Lemma plain_laws {Cell A : Type} (into : A -> Mem Cell A) :
  (forall x, into x = mret_ x) -> @DeepCopyLaws Cell A A (plain into).
Proof.
  intros Hinto. split.
  - intros h x a F [_ ->]. set_solver.
  - by intros h h' x a F [-> ->] _.
  - intros h x a F [-> ->]. exists x, h, ∅. simpl. rewrite Hinto.
    split; [done|]. split; [done|]. split; [done|set_solver].
Qed.

(** ** Pointers *)

Section pointers.
Context {Cell T A : Type} `{!Storable Cell T} `{!DeepCopier Cell T A, !DeepCopyLaws Cell T A}.

(** What a pointer stands for: nothing, or what the word behind it does. *)
Definition reads_ptr (h : Store Cell) (p : Ptr T) (o : option A) (F : gset loc) : Prop :=
  match o with
  | None => p = Nil /\ F = ∅
  | Some a => points_to (fun h x G => reads h x a G) h p F
  end.

(** The body of every generated [DeepCopy], and of the copy of a pointer field. *)
Definition DeepCopy (p : Ptr T) : Mem Cell (Ptr T) :=
  match p with
  | Nil => mret_ Nil
  | To l => copy_to_new (mem! x := load l in copy_into x)
  end.

Lemma reads_is_local (a : A) : local (fun h x F => reads h x a F).
Proof. intros h h' x F. apply reads_local. Qed.

Lemma points_to_local (R : Store Cell -> T -> gset loc -> Prop) : local R -> local (points_to R).
Proof.
  intros HR h h' p F (l & x & G & -> & Hl & Hx & ->) Hag. exists l, x, G.
  split; [done|]. split; [apply (lookup_cell_local _ _ h); [done|apply Hag; set_solver]|].
  split; [|done]. apply (HR h); [done|]. intros l' Hl'. apply Hag. set_solver.
Qed.

Lemma DeepCopy_reads (h : Store Cell) (p : Ptr T) o F :
  reads_ptr h p o F -> copies h (DeepCopy p) (fun h' p' F' => reads_ptr h' p' o F').
Proof.
  destruct o as [a|]; simpl.
  - intros (l & x & G & -> & Hl & Hx & ->). simpl. apply copy_to_new_copies; [apply reads_is_local|].
    intros h' Hs. apply (copies_load _ x); [by eapply lookup_cell_mono|].
    by eapply copies_copy, reads_mono.
  - intros [-> ->]. by apply copies_ret.
Qed.

Lemma reads_ptr_dom (h : Store Cell) (p : Ptr T) o F : reads_ptr h p o F -> F ⊆ dom h.
Proof.
  destruct o as [a|]; simpl; [|intros [_ ->]; set_solver].
  intros (l & x & G & -> & Hl & Hx & ->). apply lookup_cell_dom in Hl. apply reads_dom in Hx.
  set_solver.
Qed.

Lemma reads_ptr_local (h h' : Store Cell) (p : Ptr T) o F :
  reads_ptr h p o F -> (forall l, l ∈ F -> h' !! l = h !! l) -> reads_ptr h' p o F.
Proof. destruct o as [a|]; simpl; [|done]. apply points_to_local, reads_is_local. Qed.

#[export] Instance ptr_copier : DeepCopier Cell (Ptr T) (option A) := {|
  copy_into := DeepCopy;
  reads := reads_ptr
|}.

#[export] Instance ptr_laws : DeepCopyLaws Cell (Ptr T) (option A).
Proof. split; [apply reads_ptr_dom|apply reads_ptr_local|apply DeepCopy_reads]. Qed.
End pointers.

(** ** Slices *)

Section slices.
Context {Cell T A : Type} `{!Storable Cell (list T)} `{!DeepCopier Cell T A, !DeepCopyLaws Cell T A}.
Variable zero : T.

(** [for i := range *in { ( *in)[i].DeepCopyInto(&( *out)[i]) }], for the [k]
    indices from [i] on. *)
Fixpoint copy_items (a out : loc) (i k : nat) : Mem Cell () :=
  match k with
  | 0%nat => mret_ ()
  | S k =>
      mem! x := load_index a i in
      mem! y := copy_into x in
      store_index out i y ;m;
      copy_items a out (S i) k
  end.

(** [*out = make([]T, len( *in))], and then the loop; a nil slice is left. *)
Definition copy_slice (s : SliceOf T) : Mem Cell (SliceOf T) :=
  match s with
  | NilSlice => mret_ NilSlice
  | SliceAt a n =>
      mem! out := make zero n in
      copy_items a out 0 n ;m;
      mret_ (SliceAt out n)
  end.

(** Words that stand for the values one by one. *)
Definition reads_items (h : Store Cell) (ws : list T) (xs : list A) (Gs : list (gset loc)) : Prop :=
  Forall3 (fun w x G => reads h w x G) ws xs Gs.

Definition reads_slice (h : Store Cell) (s : SliceOf T) (o : option (list A)) (F : gset loc) : Prop :=
  match o with
  | None => s = NilSlice /\ F = ∅
  | Some xs => exists a n ws Gs, s = SliceAt a n /\ lookup_cell a h = Some ws /\
      (n <= length ws)%nat /\ reads_items h (take n ws) xs Gs /\ F = {[a]} ∪ ⋃ Gs
  end.

Lemma reads_items_local h h' ws xs Gs :
  reads_items h ws xs Gs -> (forall l, l ∈ ⋃ Gs -> h' !! l = h !! l) -> reads_items h' ws xs Gs.
Proof.
  induction 1 as [|w x G ws xs Gs Hw _ IH]; intros Hag; constructor.
  - apply (reads_local h); [done|]. intros l Hl. apply Hag. set_solver.
  - apply IH. intros l Hl. apply Hag. set_solver.
Qed.

Lemma reads_items_dom h ws xs Gs : reads_items h ws xs Gs -> ⋃ Gs ⊆ dom h.
Proof.
  induction 1 as [|w x G ws xs Gs Hw _ IH]; [set_solver|]. apply reads_dom in Hw. set_solver.
Qed.

Lemma reads_items_snoc h ws xs Gs w x G :
  reads_items h ws xs Gs -> reads h w x G -> reads_items h (ws ++ [w]) (xs ++ [x]) (Gs ++ [G]).
Proof. intros H Hw. apply Forall3_app; [done|]. by constructor; [|constructor]. Qed.

Lemma union_snoc (Gs : list (gset loc)) G : ⋃ (Gs ++ [G]) = ⋃ Gs ∪ G.
Proof. rewrite union_list_app_L. cbn. by rewrite union_empty_r_L. Qed.

(** Half-way through the loop: the first elements of the new array are copied,
    into cells that [h] did not have, and [h] is as it was. *)
Definition copied (h : Store Cell) (out : loc) (hi : Store Cell) (ys zs : list T) (xs : list A)
    (Gs : list (gset loc)) : Prop :=
  h ⊆ hi /\ lookup_cell out hi = Some (ys ++ zs) /\ reads_items hi ys xs Gs /\
  ⋃ Gs ## dom h /\ out ∉ ⋃ Gs.

(** One turn of the loop. *)
Lemma copied_step h out hi ys z zs xs Gs w x F :
  out ∉ dom h -> copied h out hi ys (z :: zs) xs Gs -> reads h w x F ->
  exists y h2 G, copy_into w hi = Some (y, h2) /\
    lookup_cell out h2 = Some (ys ++ z :: zs) /\
    copied h out (<[out := to_cell (ys ++ y :: zs)]> h2) (ys ++ [y]) zs (xs ++ [x]) (Gs ++ [G]).
Proof.
  intros Hout (Hs & Hl & Hr & Hd & Ho) Hw. apply (reads_mono _ hi) in Hw; [|done].
  destruct (copy_into_reads _ _ _ _ Hw) as (y & h2 & G & E & Hs2 & Hy & HG).
  exists y, h2, G. split; [done|].
  assert (out ∈ dom hi) as Hoi by by eapply lookup_cell_dom.
  pose proof (subseteq_dom _ _ Hs) as Hdom.
  split; [by eapply lookup_cell_mono|]. unfold copied. rewrite <- app_assoc, union_snoc. cbn [app].
  split; [|split; [apply lookup_cell_insert|split]]; [| |split; set_solver].
  - apply insert_subseteq_r; [by apply not_elem_of_dom|]. by transitivity hi.
  - apply reads_items_snoc.
    + pose proof (reads_items_dom _ _ _ _ Hr) as HGs.
      apply (reads_items_local hi); [done|]. intros l Hl'. rewrite lookup_insert_ne by set_solver.
      apply HGs, elem_of_dom in Hl' as [c Hc]. rewrite Hc. by apply (lookup_weaken hi).
    + apply (reads_local h2); [done|]. intros l Hl'. apply lookup_insert_ne. set_solver.
Qed.

Lemma copy_items_ok h a out arr ws :
  lookup_cell a h = Some arr -> out ∉ dom h ->
  forall xs Fs, reads_items h ws xs Fs ->
  forall hi i tail ys zs xs1 Gs1,
    drop i arr = ws ++ tail -> length ys = i -> length zs = length ws ->
    copied h out hi ys zs xs1 Gs1 ->
    exists h' ys' Gs', copy_items a out i (length ws) hi = Some ((), h') /\
      length ys' = (i + length ws)%nat /\ copied h out h' ys' [] (xs1 ++ xs) Gs'.
Proof.
  intros Ha Hout xs Fs Hr. induction Hr as [|w x F ws xs Fs Hw _ IH];
    intros hi i tail ys zs xs1 Gs1 Harr Hi Hz Hc; simpl in *.
  - destruct zs; [|done]. exists hi, ys, Gs1. rewrite app_nil_r. split_and!; [done|lia|done].
  - destruct zs as [|z zs]; [done|].
    destruct (copied_step _ _ _ _ _ _ _ _ _ _ _ Hout Hc Hw) as (y & h2 & G & E & Hl & Hc').
    assert (arr !! i = Some w) as Hai.
    { replace i with (i + 0)%nat by lia. by rewrite <- lookup_drop, Harr. }
    destruct Hc as (Hs & _).
    unfold mbind_, load_index, store_index.
    rewrite (lookup_cell_mono _ _ _ _ Ha Hs). cbn. rewrite Hai, E, Hl.
    rewrite decide_True by (rewrite length_app; cbn; lia).
    rewrite insert_app_r_alt, Hi, Nat.sub_diag by lia. cbn.
    assert (drop (S i) arr = ws ++ tail) as Harr'.
    { replace (S i) with (i + 1)%nat by lia. by rewrite <- drop_drop, Harr. }
    edestruct (fun H1 H2 => IH _ (S i) tail (ys ++ [y]) zs _ _ Harr' H1 H2 Hc')
      as (h' & ys' & Gs' & E' & Hlen & Hc''); [rewrite length_app; cbn; lia|cbn in Hz; lia|].
    exists h', ys', Gs'. rewrite <- app_assoc in Hc''. split_and!; [exact E'|lia|done].
Qed.

Lemma copy_slice_reads h s o F :
  reads_slice h s o F -> copies h (copy_slice s) (fun h' s' F' => reads_slice h' s' o F').
Proof.
  destruct o as [xs|]; simpl.
  2:{ intros [-> ->]. by apply copies_ret. }
  intros (a & n & ws & Gs & -> & Ha & Hn & Hr & ->).
  set (out := fresh (dom h)). assert (out ∉ dom h) as Hout by apply is_fresh.
  destruct (copy_items_ok h a out ws (take n ws) Ha Hout xs Gs Hr
              (<[out := to_cell (replicate n zero)]> h) 0 (drop n ws) [] (replicate n zero) [] [])
    as (h' & ys & Gs' & E & Hlen & Hs & Hl & Hr' & Hd & Ho).
  - by rewrite take_drop.
  - done.
  - rewrite length_replicate, length_take. lia.
  - split; [by apply insert_subseteq, not_elem_of_dom|]. split; [apply lookup_cell_insert|].
    split; [constructor|]. set_solver.
  - rewrite length_take in Hlen, E. replace (n `min` length ws)%nat with n in * by lia.
    rewrite app_nil_r in Hl. exists (SliceAt out n), h', ({[out]} ∪ ⋃ Gs').
    split; [|split; [done|split; [|set_solver]]].
    + simpl. unfold mbind_, make. fold out. by rewrite E.
    + exists out, n, ys, Gs'. split_and!; [done|done|lia| |done]. rewrite take_ge by lia. exact Hr'.
Qed.

Definition slice_copier : DeepCopier Cell (SliceOf T) (option (list A)) := {|
  copy_into := copy_slice;
  reads := reads_slice
|}.

Lemma slice_laws : @DeepCopyLaws Cell (SliceOf T) (option (list A)) slice_copier.
Proof.
  split.
  - intros h s [xs|] F; simpl; [|intros [_ ->]; set_solver].
    intros (a & n & ws & Gs & -> & Ha & _ & Hr & ->). apply lookup_cell_dom in Ha.
    apply reads_items_dom in Hr. set_solver.
  - intros h h' s [xs|] F; simpl; [|done]. intros (a & n & ws & Gs & -> & Ha & Hn & Hr & ->) Hag.
    exists a, n, ws, Gs. split; [done|].
    split; [apply (lookup_cell_local _ _ h); [done|apply Hag; set_solver]|]. split_and!; [done| |done].
    apply (reads_items_local h); [done|]. intros l Hl. apply Hag. set_solver.
  - apply copy_slice_reads.
Qed.
End slices.
