(* ===== verification/DeepCopy.v ===== *)
(** * Deep copies of the API types

    [operator/api/v1alpha1/zz_generated.deepcopy.go]: [DeepCopyInto], [DeepCopy]
    and [DeepCopyObject] of every type, on the words these types have in Go's
    memory.  The types of the library that occur in them (the metadata and the
    conditions) are parameters, with the interface of their own copies. *)
From S2P Require Import Prelude.
From S2P Require Import ApiTypes.
From S2P Require Import GoMemory.

(** ** The types in memory *)

Record TypeMeta := mkTypeMeta { meta_Kind : string; meta_APIVersion : string }.

Record InferenceSLO_m := mkInferenceSLO_m {
  m_TTFTP99Milliseconds : Ptr Z;
  m_TPOTP99Milliseconds : Ptr Z;
  m_Availability : Ptr string
}.

Record InferenceServiceSpec_m := mkInferenceServiceSpec_m {
  m_Model : string;
  m_WorkloadClass : string;
  m_ResourceProfile : string;
  m_Priority : Ptr Z;
  m_Statefulness : string;
  m_Replicas : Ptr Z;
  m_GPU : Ptr bool;
  m_GPUType : string;
  m_SLO : InferenceSLO_m
}.

Section types.
(** [metav1.ObjectMeta], [metav1.Condition] and [metav1.ListMeta]. *)
Context {MetaM CondM ListMetaM : Type}.

Record InferenceServiceStatus_m := mkInferenceServiceStatus_m {
  m_isvc_Conditions : SliceOf CondM;
  m_isvc_Phase : string;
  m_Endpoint : string;
  m_ObservedGeneration : Z;
  m_DerivedPriority : Z
}.
Record InferenceService_m := mkInferenceService_m {
  m_isvc_TypeMeta : TypeMeta;
  m_isvc_ObjectMeta : MetaM;
  m_isvc_Spec : InferenceServiceSpec_m;
  m_isvc_Status : InferenceServiceStatus_m
}.

Record ModelStatus_m := mkModelStatus_m {
  m_model_Conditions : SliceOf CondM;
  m_model_Phase : string;
  m_ResolvedDigest : string
}.
Record Model_m := mkModel_m {
  m_model_TypeMeta : TypeMeta;
  m_model_ObjectMeta : MetaM;
  m_model_Spec : ModelSpec;
  m_model_Status : ModelStatus_m
}.

Record TenantStatus_m := mkTenantStatus_m {
  m_tenant_Conditions : SliceOf CondM;
  m_tenant_Phase : string
}.
Record Tenant_m := mkTenant_m {
  m_tenant_TypeMeta : TypeMeta;
  m_tenant_ObjectMeta : MetaM;
  m_tenant_Spec : TenantSpec;
  m_tenant_Status : TenantStatus_m
}.

Record PlatformPolicy_m := mkPlatformPolicy_m {
  m_policy_TypeMeta : TypeMeta;
  m_policy_ObjectMeta : MetaM;
  m_policy_Spec : PlatformPolicySpec
}.

(** The four list types, by their items. *)
Record List_m (I : Type) := mkList_m {
  m_list_TypeMeta : TypeMeta;
  m_ListMeta : ListMetaM;
  m_Items : SliceOf I
}.
End types.

Arguments InferenceServiceStatus_m : clear implicits.
Arguments InferenceService_m : clear implicits.
Arguments ModelStatus_m : clear implicits.
Arguments Model_m : clear implicits.
Arguments TenantStatus_m : clear implicits.
Arguments Tenant_m : clear implicits.
Arguments PlatformPolicy_m : clear implicits.
Arguments List_m : clear implicits.
Arguments mkList_m {ListMetaM I} m_list_TypeMeta m_ListMeta m_Items.
Arguments m_list_TypeMeta {ListMetaM I} l.
Arguments m_ListMeta {ListMetaM I} l.
Arguments m_Items {ListMetaM I} l.

(** What can be allocated: scalars, the structs, the backing arrays, and the
    cells of the library. *)
Inductive Tag :=
  | TInt | TString | TBool
  | TInferenceSLO | TInferenceServiceSpec | TInferenceServiceStatus | TInferenceService
  | TModelSource | TModelSpec | TModelStatus | TModel
  | TTenantResourceQuota | TTenantPriority | TTenantSpec | TTenantStatus | TTenant
  | TIsolationPolicy | TSignedModelsPolicy | TSchedulingPolicy | TPlatformPolicySpec | TPlatformPolicy
  | TInferenceServiceList | TModelList | TTenantList | TPlatformPolicyList
  | TConditions | TInferenceServices | TModels | TTenants | TPlatformPolicies
  | TLibrary.

#[export] Instance Tag_eq_dec : EqDecision Tag.
Proof. solve_decision. Defined.

Section deepcopy.
Context {MetaM CondM ListMetaM LibCell : Type}.

Abbreviation IsvcM := (InferenceService_m MetaM CondM).
Abbreviation ModelM := (Model_m MetaM CondM).
Abbreviation TenantM := (Tenant_m MetaM CondM).
Abbreviation PolicyM := (PlatformPolicy_m MetaM).

Definition content (t : Tag) : Type :=
  match t with
  | TInt => Z | TString => string | TBool => bool
  | TInferenceSLO => InferenceSLO_m | TInferenceServiceSpec => InferenceServiceSpec_m
  | TInferenceServiceStatus => InferenceServiceStatus_m CondM | TInferenceService => IsvcM
  | TModelSource => ModelSource | TModelSpec => ModelSpec
  | TModelStatus => ModelStatus_m CondM | TModel => ModelM
  | TTenantResourceQuota => TenantResourceQuota | TTenantPriority => TenantPriority
  | TTenantSpec => TenantSpec | TTenantStatus => TenantStatus_m CondM | TTenant => TenantM
  | TIsolationPolicy => IsolationPolicy | TSignedModelsPolicy => SignedModelsPolicy
  | TSchedulingPolicy => SchedulingPolicy | TPlatformPolicySpec => PlatformPolicySpec
  | TPlatformPolicy => PolicyM
  | TInferenceServiceList => List_m ListMetaM IsvcM | TModelList => List_m ListMetaM ModelM
  | TTenantList => List_m ListMetaM TenantM | TPlatformPolicyList => List_m ListMetaM PolicyM
  | TConditions => list CondM | TInferenceServices => list IsvcM | TModels => list ModelM
  | TTenants => list TenantM | TPlatformPolicies => list PolicyM
  | TLibrary => LibCell
  end.

Definition Cell : Type := {t : Tag & content t}.

Definition of_tag (t : Tag) (c : Cell) : option (content t) :=
  match decide (projT1 c = t) with
  | left e => Some (eq_rect _ content (projT2 c) _ e)
  | right _ => None
  end.

Lemma of_tag_existT t (a : content t) : of_tag t (existT t a) = Some a.
Proof.
  unfold of_tag. cbn [projT1 projT2]. destruct (decide (t = t)) as [e|]; [|done].
  by rewrite (proof_irrel e eq_refl).
Qed.

Definition tagged (t : Tag) (zero : content t) : Storable Cell (content t) :=
  {| to_cell := existT t; of_cell := of_tag t; of_to_cell := of_tag_existT t; zero_value := zero |}.
End deepcopy.

Arguments Cell : clear implicits.

(** ** The types of the library *)

Class LibraryTypes (MetaM CondM ListMetaM LibCell ListMeta : Type) := {
  zero_ObjectMeta : MetaM;
  zero_Condition : CondM;
  zero_ListMeta : ListMetaM;
  zero_cell : LibCell;
  ObjectMeta_copier :: DeepCopier (Cell MetaM CondM ListMetaM LibCell) MetaM ObjectMeta;
  Condition_copier :: DeepCopier (Cell MetaM CondM ListMetaM LibCell) CondM Condition;
  ListMeta_copier :: DeepCopier (Cell MetaM CondM ListMetaM LibCell) ListMetaM ListMeta
}.

(** Their [DeepCopyInto] methods copy deeply, as their documentation says. *)
Class LibraryTypesLaws (MetaM CondM ListMetaM LibCell ListMeta : Type)
    `{!LibraryTypes MetaM CondM ListMetaM LibCell ListMeta} := {
  ObjectMeta_laws :: DeepCopyLaws (Cell MetaM CondM ListMetaM LibCell) MetaM ObjectMeta;
  Condition_laws :: DeepCopyLaws (Cell MetaM CondM ListMetaM LibCell) CondM Condition;
  ListMeta_laws :: DeepCopyLaws (Cell MetaM CondM ListMetaM LibCell) ListMetaM ListMeta
}.

(** ** Zero values *)

Definition zero_TypeMeta : TypeMeta := mkTypeMeta "" "".
Definition zero_InferenceSLO : InferenceSLO_m := mkInferenceSLO_m Nil Nil Nil.
Definition zero_InferenceServiceSpec : InferenceServiceSpec_m :=
  mkInferenceServiceSpec_m "" "" "" Nil "" Nil Nil "" zero_InferenceSLO.
Definition zero_ModelSource : ModelSource := mkModelSource "" "" "".
Definition zero_ModelSpec : ModelSpec := mkModelSpec zero_ModelSource "" false.
Definition zero_TenantResourceQuota : TenantResourceQuota := mkTenantResourceQuota "" "" "" "" "".
Definition zero_TenantPriority : TenantPriority := mkTenantPriority 0.
Definition zero_TenantSpec : TenantSpec := mkTenantSpec zero_TenantResourceQuota zero_TenantPriority.
Definition zero_IsolationPolicy : IsolationPolicy := mkIsolationPolicy "".
Definition zero_SignedModelsPolicy : SignedModelsPolicy := mkSignedModelsPolicy false.
Definition zero_SchedulingPolicy : SchedulingPolicy := mkSchedulingPolicy false.
Definition zero_PlatformPolicySpec : PlatformPolicySpec :=
  mkPlatformPolicySpec zero_IsolationPolicy zero_SignedModelsPolicy zero_SchedulingPolicy.

Section copies_of_types.
Context {MetaM CondM ListMetaM LibCell ListMeta : Type}
  `{!LibraryTypes MetaM CondM ListMetaM LibCell ListMeta}.

Abbreviation C := (Cell MetaM CondM ListMetaM LibCell).
Abbreviation IsvcM := (InferenceService_m MetaM CondM).
Abbreviation ModelM := (Model_m MetaM CondM).
Abbreviation TenantM := (Tenant_m MetaM CondM).
Abbreviation PolicyM := (PlatformPolicy_m MetaM).
Abbreviation ListM := (List_m ListMetaM).

Definition zero_InferenceServiceStatus : InferenceServiceStatus_m CondM :=
  mkInferenceServiceStatus_m NilSlice "" "" 0 0.
Definition zero_ModelStatus : ModelStatus_m CondM := mkModelStatus_m NilSlice "" "".
Definition zero_TenantStatus : TenantStatus_m CondM := mkTenantStatus_m NilSlice "".
Definition zero_InferenceService : IsvcM :=
  mkInferenceService_m zero_TypeMeta zero_ObjectMeta zero_InferenceServiceSpec
    zero_InferenceServiceStatus.
Definition zero_Model : ModelM :=
  mkModel_m zero_TypeMeta zero_ObjectMeta zero_ModelSpec zero_ModelStatus.
Definition zero_Tenant : TenantM :=
  mkTenant_m zero_TypeMeta zero_ObjectMeta zero_TenantSpec zero_TenantStatus.
Definition zero_PlatformPolicy : PolicyM :=
  mkPlatformPolicy_m zero_TypeMeta zero_ObjectMeta zero_PlatformPolicySpec.
Definition zero_List {I} : ListM I := mkList_m zero_TypeMeta zero_ListMeta NilSlice.

(** Each type has its tag. *)
#[export] Instance int_storable : Storable C Z := tagged TInt 0.
#[export] Instance string_storable : Storable C string := tagged TString "".
#[export] Instance bool_storable : Storable C bool := tagged TBool false.
#[export] Instance InferenceSLO_storable : Storable C InferenceSLO_m :=
  tagged TInferenceSLO zero_InferenceSLO.
#[export] Instance InferenceServiceSpec_storable : Storable C InferenceServiceSpec_m :=
  tagged TInferenceServiceSpec zero_InferenceServiceSpec.
#[export] Instance InferenceServiceStatus_storable : Storable C (InferenceServiceStatus_m CondM) :=
  tagged TInferenceServiceStatus zero_InferenceServiceStatus.
#[export] Instance InferenceService_storable : Storable C IsvcM :=
  tagged TInferenceService zero_InferenceService.
#[export] Instance ModelSource_storable : Storable C ModelSource :=
  tagged TModelSource zero_ModelSource.
#[export] Instance ModelSpec_storable : Storable C ModelSpec := tagged TModelSpec zero_ModelSpec.
#[export] Instance ModelStatus_storable : Storable C (ModelStatus_m CondM) :=
  tagged TModelStatus zero_ModelStatus.
#[export] Instance Model_storable : Storable C ModelM := tagged TModel zero_Model.
#[export] Instance TenantResourceQuota_storable : Storable C TenantResourceQuota :=
  tagged TTenantResourceQuota zero_TenantResourceQuota.
#[export] Instance TenantPriority_storable : Storable C TenantPriority :=
  tagged TTenantPriority zero_TenantPriority.
#[export] Instance TenantSpec_storable : Storable C TenantSpec :=
  tagged TTenantSpec zero_TenantSpec.
#[export] Instance TenantStatus_storable : Storable C (TenantStatus_m CondM) :=
  tagged TTenantStatus zero_TenantStatus.
#[export] Instance Tenant_storable : Storable C TenantM := tagged TTenant zero_Tenant.
#[export] Instance IsolationPolicy_storable : Storable C IsolationPolicy :=
  tagged TIsolationPolicy zero_IsolationPolicy.
#[export] Instance SignedModelsPolicy_storable : Storable C SignedModelsPolicy :=
  tagged TSignedModelsPolicy zero_SignedModelsPolicy.
#[export] Instance SchedulingPolicy_storable : Storable C SchedulingPolicy :=
  tagged TSchedulingPolicy zero_SchedulingPolicy.
#[export] Instance PlatformPolicySpec_storable : Storable C PlatformPolicySpec :=
  tagged TPlatformPolicySpec zero_PlatformPolicySpec.
#[export] Instance PlatformPolicy_storable : Storable C PolicyM :=
  tagged TPlatformPolicy zero_PlatformPolicy.
#[export] Instance InferenceServiceList_storable : Storable C (ListM IsvcM) :=
  tagged TInferenceServiceList zero_List.
#[export] Instance ModelList_storable : Storable C (ListM ModelM) := tagged TModelList zero_List.
#[export] Instance TenantList_storable : Storable C (ListM TenantM) := tagged TTenantList zero_List.
#[export] Instance PlatformPolicyList_storable : Storable C (ListM PolicyM) :=
  tagged TPlatformPolicyList zero_List.
#[export] Instance Conditions_storable : Storable C (list CondM) := tagged TConditions [].
#[export] Instance InferenceServices_storable : Storable C (list IsvcM) :=
  tagged TInferenceServices [].
#[export] Instance Models_storable : Storable C (list ModelM) := tagged TModels [].
#[export] Instance Tenants_storable : Storable C (list TenantM) := tagged TTenants [].
#[export] Instance PlatformPolicies_storable : Storable C (list PolicyM) :=
  tagged TPlatformPolicies [].

(** ** Types without pointers: [*out = *in] *)

Definition ModelSource_DeepCopyInto (in_ : ModelSource) : Mem C ModelSource := mret_ in_.
Definition ModelSpec_DeepCopyInto (in_ : ModelSpec) : Mem C ModelSpec := mret_ in_.
Definition TenantResourceQuota_DeepCopyInto (in_ : TenantResourceQuota)
    : Mem C TenantResourceQuota := mret_ in_.
Definition TenantPriority_DeepCopyInto (in_ : TenantPriority) : Mem C TenantPriority := mret_ in_.
Definition TenantSpec_DeepCopyInto (in_ : TenantSpec) : Mem C TenantSpec := mret_ in_.
Definition IsolationPolicy_DeepCopyInto (in_ : IsolationPolicy)
    : Mem C IsolationPolicy := mret_ in_.
Definition SignedModelsPolicy_DeepCopyInto (in_ : SignedModelsPolicy)
    : Mem C SignedModelsPolicy := mret_ in_.
Definition SchedulingPolicy_DeepCopyInto (in_ : SchedulingPolicy)
    : Mem C SchedulingPolicy := mret_ in_.
Definition PlatformPolicySpec_DeepCopyInto (in_ : PlatformPolicySpec)
    : Mem C PlatformPolicySpec := mret_ in_.

(** The interface, for scalars and for these types. *)
#[export] Instance int_copier : DeepCopier C Z Z := plain mret_.
#[export] Instance string_copier : DeepCopier C string string := plain mret_.
#[export] Instance bool_copier : DeepCopier C bool bool := plain mret_.
#[export] Instance ModelSource_copier : DeepCopier C ModelSource ModelSource :=
  plain ModelSource_DeepCopyInto.
#[export] Instance ModelSpec_copier : DeepCopier C ModelSpec ModelSpec :=
  plain ModelSpec_DeepCopyInto.
#[export] Instance TenantResourceQuota_copier : DeepCopier C TenantResourceQuota TenantResourceQuota :=
  plain TenantResourceQuota_DeepCopyInto.
#[export] Instance TenantPriority_copier : DeepCopier C TenantPriority TenantPriority :=
  plain TenantPriority_DeepCopyInto.
#[export] Instance TenantSpec_copier : DeepCopier C TenantSpec TenantSpec :=
  plain TenantSpec_DeepCopyInto.
#[export] Instance IsolationPolicy_copier : DeepCopier C IsolationPolicy IsolationPolicy :=
  plain IsolationPolicy_DeepCopyInto.
#[export] Instance SignedModelsPolicy_copier : DeepCopier C SignedModelsPolicy SignedModelsPolicy :=
  plain SignedModelsPolicy_DeepCopyInto.
#[export] Instance SchedulingPolicy_copier : DeepCopier C SchedulingPolicy SchedulingPolicy :=
  plain SchedulingPolicy_DeepCopyInto.
#[export] Instance PlatformPolicySpec_copier : DeepCopier C PlatformPolicySpec PlatformPolicySpec :=
  plain PlatformPolicySpec_DeepCopyInto.

(** ** Types with pointers *)

Definition InferenceSLO_DeepCopyInto (in_ : InferenceSLO_m) : Mem C InferenceSLO_m :=
  mem! ttft := DeepCopy (m_TTFTP99Milliseconds in_) in
  mem! tpot := DeepCopy (m_TPOTP99Milliseconds in_) in
  mem! availability := DeepCopy (m_Availability in_) in
  mret_ (mkInferenceSLO_m ttft tpot availability).

Definition InferenceServiceSpec_DeepCopyInto (in_ : InferenceServiceSpec_m)
    : Mem C InferenceServiceSpec_m :=
  mem! priority := DeepCopy (m_Priority in_) in
  mem! replicas := DeepCopy (m_Replicas in_) in
  mem! gpu := DeepCopy (m_GPU in_) in
  mem! slo := InferenceSLO_DeepCopyInto (m_SLO in_) in
  mret_ (mkInferenceServiceSpec_m (m_Model in_) (m_WorkloadClass in_) (m_ResourceProfile in_)
           priority (m_Statefulness in_) replicas gpu (m_GPUType in_) slo).

Definition InferenceServiceStatus_DeepCopyInto (in_ : InferenceServiceStatus_m CondM)
    : Mem C (InferenceServiceStatus_m CondM) :=
  mem! conditions := copy_slice zero_Condition (m_isvc_Conditions in_) in
  mret_ (mkInferenceServiceStatus_m conditions (m_isvc_Phase in_) (m_Endpoint in_)
           (m_ObservedGeneration in_) (m_DerivedPriority in_)).

Definition InferenceService_DeepCopyInto (in_ : IsvcM) : Mem C IsvcM :=
  mem! meta := copy_into (m_isvc_ObjectMeta in_) in
  mem! spec := InferenceServiceSpec_DeepCopyInto (m_isvc_Spec in_) in
  mem! status := InferenceServiceStatus_DeepCopyInto (m_isvc_Status in_) in
  mret_ (mkInferenceService_m (m_isvc_TypeMeta in_) meta spec status).

Definition ModelStatus_DeepCopyInto (in_ : ModelStatus_m CondM) : Mem C (ModelStatus_m CondM) :=
  mem! conditions := copy_slice zero_Condition (m_model_Conditions in_) in
  mret_ (mkModelStatus_m conditions (m_model_Phase in_) (m_ResolvedDigest in_)).

Definition Model_DeepCopyInto (in_ : ModelM) : Mem C ModelM :=
  mem! meta := copy_into (m_model_ObjectMeta in_) in
  mem! status := ModelStatus_DeepCopyInto (m_model_Status in_) in
  mret_ (mkModel_m (m_model_TypeMeta in_) meta (m_model_Spec in_) status).

Definition TenantStatus_DeepCopyInto (in_ : TenantStatus_m CondM) : Mem C (TenantStatus_m CondM) :=
  mem! conditions := copy_slice zero_Condition (m_tenant_Conditions in_) in
  mret_ (mkTenantStatus_m conditions (m_tenant_Phase in_)).

Definition Tenant_DeepCopyInto (in_ : TenantM) : Mem C TenantM :=
  mem! meta := copy_into (m_tenant_ObjectMeta in_) in
  mem! status := TenantStatus_DeepCopyInto (m_tenant_Status in_) in
  mret_ (mkTenant_m (m_tenant_TypeMeta in_) meta (m_tenant_Spec in_) status).

Definition PlatformPolicy_DeepCopyInto (in_ : PolicyM) : Mem C PolicyM :=
  mem! meta := copy_into (m_policy_ObjectMeta in_) in
  mret_ (mkPlatformPolicy_m (m_policy_TypeMeta in_) meta (m_policy_Spec in_)).

(** ** What the words stand for *)

Definition reads_InferenceSLO (h : Store C) (x : InferenceSLO_m) (a : InferenceSLO)
    (F : gset loc) : Prop :=
  exists F1 F2 F3,
    reads h (m_TTFTP99Milliseconds x) (TTFTP99Milliseconds a) F1 /\
    reads h (m_TPOTP99Milliseconds x) (TPOTP99Milliseconds a) F2 /\
    reads h (m_Availability x) (Availability a) F3 /\ F = F1 ∪ F2 ∪ F3.

#[export] Instance InferenceSLO_copier : DeepCopier C InferenceSLO_m InferenceSLO :=
  {| copy_into := InferenceSLO_DeepCopyInto; reads := reads_InferenceSLO |}.

Definition reads_InferenceServiceSpec (h : Store C) (x : InferenceServiceSpec_m)
    (a : InferenceServiceSpec) (F : gset loc) : Prop :=
  exists F1 F2 F3 F4,
    reads h (m_Priority x) (Priority a) F1 /\ reads h (m_Replicas x) (Replicas a) F2 /\
    reads h (m_GPU x) (GPU a) F3 /\ reads h (m_SLO x) (SLO a) F4 /\
    F = F1 ∪ F2 ∪ F3 ∪ F4 /\
    a = mkInferenceServiceSpec (m_Model x) (m_WorkloadClass x) (m_ResourceProfile x) (Priority a)
          (m_Statefulness x) (Replicas a) (GPU a) (m_GPUType x) (SLO a).

#[export] Instance InferenceServiceSpec_copier :
    DeepCopier C InferenceServiceSpec_m InferenceServiceSpec :=
  {| copy_into := InferenceServiceSpec_DeepCopyInto; reads := reads_InferenceServiceSpec |}.

(** A nil slice of conditions stands for no conditions, as an empty one. *)
Definition reads_conditions (h : Store C) (s : SliceOf CondM) (cs : list Condition)
    (F : gset loc) : Prop :=
  exists o, reads_slice h s o F /\ cs = default [] o.

#[export] Instance conditions_copier : DeepCopier C (SliceOf CondM) (list Condition) :=
  {| copy_into := copy_slice zero_Condition; reads := reads_conditions |}.

Definition reads_InferenceServiceStatus (h : Store C) (x : InferenceServiceStatus_m CondM)
    (a : InferenceServiceStatus) (F : gset loc) : Prop :=
  reads h (m_isvc_Conditions x) (isvc_Conditions a) F /\
  a = mkInferenceServiceStatus (isvc_Conditions a) (m_isvc_Phase x) (m_Endpoint x)
        (m_ObservedGeneration x) (m_DerivedPriority x).

#[export] Instance InferenceServiceStatus_copier :
    DeepCopier C (InferenceServiceStatus_m CondM) InferenceServiceStatus :=
  {| copy_into := InferenceServiceStatus_DeepCopyInto; reads := reads_InferenceServiceStatus |}.

Definition reads_ModelStatus (h : Store C) (x : ModelStatus_m CondM) (a : ModelStatus)
    (F : gset loc) : Prop :=
  reads h (m_model_Conditions x) (model_Conditions a) F /\
  a = mkModelStatus (model_Conditions a) (m_model_Phase x) (m_ResolvedDigest x).

#[export] Instance ModelStatus_copier : DeepCopier C (ModelStatus_m CondM) ModelStatus :=
  {| copy_into := ModelStatus_DeepCopyInto; reads := reads_ModelStatus |}.

Definition reads_TenantStatus (h : Store C) (x : TenantStatus_m CondM) (a : TenantStatus)
    (F : gset loc) : Prop :=
  reads h (m_tenant_Conditions x) (tenant_Conditions a) F /\
  a = mkTenantStatus (tenant_Conditions a) (m_tenant_Phase x).

#[export] Instance TenantStatus_copier : DeepCopier C (TenantStatus_m CondM) TenantStatus :=
  {| copy_into := TenantStatus_DeepCopyInto; reads := reads_TenantStatus |}.

(** The objects, with their [TypeMeta]. *)
Definition reads_InferenceService (h : Store C) (x : IsvcM) (a : TypeMeta * InferenceService)
    (F : gset loc) : Prop :=
  exists F1 F2 F3, a.1 = m_isvc_TypeMeta x /\
    reads h (m_isvc_ObjectMeta x) (isvc_ObjectMeta a.2) F1 /\
    reads h (m_isvc_Spec x) (isvc_Spec a.2) F2 /\
    reads h (m_isvc_Status x) (isvc_Status a.2) F3 /\ F = F1 ∪ F2 ∪ F3.

#[export] Instance InferenceService_copier : DeepCopier C IsvcM (TypeMeta * InferenceService) :=
  {| copy_into := InferenceService_DeepCopyInto; reads := reads_InferenceService |}.

Definition reads_Model (h : Store C) (x : ModelM) (a : TypeMeta * Model) (F : gset loc) : Prop :=
  exists F1 F2, a.1 = m_model_TypeMeta x /\ model_Spec a.2 = m_model_Spec x /\
    reads h (m_model_ObjectMeta x) (model_ObjectMeta a.2) F1 /\
    reads h (m_model_Status x) (model_Status a.2) F2 /\ F = F1 ∪ F2.

#[export] Instance Model_copier : DeepCopier C ModelM (TypeMeta * Model) :=
  {| copy_into := Model_DeepCopyInto; reads := reads_Model |}.

Definition reads_Tenant (h : Store C) (x : TenantM) (a : TypeMeta * Tenant) (F : gset loc) : Prop :=
  exists F1 F2, a.1 = m_tenant_TypeMeta x /\ tenant_Spec a.2 = m_tenant_Spec x /\
    reads h (m_tenant_ObjectMeta x) (tenant_ObjectMeta a.2) F1 /\
    reads h (m_tenant_Status x) (tenant_Status a.2) F2 /\ F = F1 ∪ F2.

#[export] Instance Tenant_copier : DeepCopier C TenantM (TypeMeta * Tenant) :=
  {| copy_into := Tenant_DeepCopyInto; reads := reads_Tenant |}.

Definition reads_PlatformPolicy (h : Store C) (x : PolicyM) (a : TypeMeta * PlatformPolicy)
    (F : gset loc) : Prop :=
  a.1 = m_policy_TypeMeta x /\ policy_Spec a.2 = m_policy_Spec x /\
  reads h (m_policy_ObjectMeta x) (policy_ObjectMeta a.2) F.

#[export] Instance PlatformPolicy_copier : DeepCopier C PolicyM (TypeMeta * PlatformPolicy) :=
  {| copy_into := PlatformPolicy_DeepCopyInto; reads := reads_PlatformPolicy |}.

(** ** The lists, and the methods of [runtime.Object] *)

Section lists.
Context {I A : Type} `{!Storable C (list I), !DeepCopier C I A} (zero : I).

(** The body of [DeepCopyInto] of the four list types. *)
Definition List_DeepCopyInto (in_ : ListM I) : Mem C (ListM I) :=
  mem! meta := copy_into (m_ListMeta in_) in
  mem! items := copy_slice zero (m_Items in_) in
  mret_ (mkList_m (m_list_TypeMeta in_) meta items).

(** A list stands for its metadata and its items, if it is not nil. *)
Definition reads_List (h : Store C) (x : ListM I) (a : TypeMeta * ListMeta * option (list A))
    (F : gset loc) : Prop :=
  exists F1 F2, a.1.1 = m_list_TypeMeta x /\ reads h (m_ListMeta x) a.1.2 F1 /\
    reads_slice h (m_Items x) a.2 F2 /\ F = F1 ∪ F2.

Definition List_copier : DeepCopier C (ListM I) (TypeMeta * ListMeta * option (list A)) :=
  {| copy_into := List_DeepCopyInto; reads := reads_List |}.
End lists.

Definition InferenceServiceList_DeepCopyInto : ListM IsvcM -> Mem C (ListM IsvcM) :=
  List_DeepCopyInto zero_InferenceService.
Definition ModelList_DeepCopyInto : ListM ModelM -> Mem C (ListM ModelM) :=
  List_DeepCopyInto zero_Model.
Definition TenantList_DeepCopyInto : ListM TenantM -> Mem C (ListM TenantM) :=
  List_DeepCopyInto zero_Tenant.
Definition PlatformPolicyList_DeepCopyInto : ListM PolicyM -> Mem C (ListM PolicyM) :=
  List_DeepCopyInto zero_PlatformPolicy.

#[export] Instance InferenceServiceList_copier :
    DeepCopier C (ListM IsvcM) (TypeMeta * ListMeta * option (list (TypeMeta * InferenceService))) :=
  List_copier zero_InferenceService.
#[export] Instance ModelList_copier :
    DeepCopier C (ListM ModelM) (TypeMeta * ListMeta * option (list (TypeMeta * Model))) :=
  List_copier zero_Model.
#[export] Instance TenantList_copier :
    DeepCopier C (ListM TenantM) (TypeMeta * ListMeta * option (list (TypeMeta * Tenant))) :=
  List_copier zero_Tenant.
#[export] Instance PlatformPolicyList_copier :
    DeepCopier C (ListM PolicyM) (TypeMeta * ListMeta * option (list (TypeMeta * PlatformPolicy))) :=
  List_copier zero_PlatformPolicy.

(** [DeepCopy], the same for every type ([DeepCopy] of [GoMemory] on its
    [DeepCopyInto]). *)
Definition InferenceSLO_DeepCopy : Ptr InferenceSLO_m -> Mem C (Ptr InferenceSLO_m) := DeepCopy.
Definition InferenceServiceSpec_DeepCopy :
  Ptr InferenceServiceSpec_m -> Mem C (Ptr InferenceServiceSpec_m) := DeepCopy.
Definition InferenceServiceStatus_DeepCopy :
  Ptr (InferenceServiceStatus_m CondM) -> Mem C (Ptr (InferenceServiceStatus_m CondM)) := DeepCopy.
Definition InferenceService_DeepCopy : Ptr IsvcM -> Mem C (Ptr IsvcM) := DeepCopy.
Definition InferenceServiceList_DeepCopy :
  Ptr (ListM IsvcM) -> Mem C (Ptr (ListM IsvcM)) := DeepCopy.
Definition ModelSource_DeepCopy : Ptr ModelSource -> Mem C (Ptr ModelSource) := DeepCopy.
Definition ModelSpec_DeepCopy : Ptr ModelSpec -> Mem C (Ptr ModelSpec) := DeepCopy.
Definition ModelStatus_DeepCopy :
  Ptr (ModelStatus_m CondM) -> Mem C (Ptr (ModelStatus_m CondM)) := DeepCopy.
Definition Model_DeepCopy : Ptr ModelM -> Mem C (Ptr ModelM) := DeepCopy.
Definition ModelList_DeepCopy : Ptr (ListM ModelM) -> Mem C (Ptr (ListM ModelM)) := DeepCopy.
Definition TenantResourceQuota_DeepCopy :
  Ptr TenantResourceQuota -> Mem C (Ptr TenantResourceQuota) := DeepCopy.
Definition TenantPriority_DeepCopy : Ptr TenantPriority -> Mem C (Ptr TenantPriority) := DeepCopy.
Definition TenantSpec_DeepCopy : Ptr TenantSpec -> Mem C (Ptr TenantSpec) := DeepCopy.
Definition TenantStatus_DeepCopy :
  Ptr (TenantStatus_m CondM) -> Mem C (Ptr (TenantStatus_m CondM)) := DeepCopy.
Definition Tenant_DeepCopy : Ptr TenantM -> Mem C (Ptr TenantM) := DeepCopy.
Definition TenantList_DeepCopy : Ptr (ListM TenantM) -> Mem C (Ptr (ListM TenantM)) := DeepCopy.
Definition IsolationPolicy_DeepCopy : Ptr IsolationPolicy -> Mem C (Ptr IsolationPolicy) := DeepCopy.
Definition SignedModelsPolicy_DeepCopy :
  Ptr SignedModelsPolicy -> Mem C (Ptr SignedModelsPolicy) := DeepCopy.
Definition SchedulingPolicy_DeepCopy :
  Ptr SchedulingPolicy -> Mem C (Ptr SchedulingPolicy) := DeepCopy.
Definition PlatformPolicySpec_DeepCopy :
  Ptr PlatformPolicySpec -> Mem C (Ptr PlatformPolicySpec) := DeepCopy.
Definition PlatformPolicy_DeepCopy : Ptr PolicyM -> Mem C (Ptr PolicyM) := DeepCopy.
Definition PlatformPolicyList_DeepCopy :
  Ptr (ListM PolicyM) -> Mem C (Ptr (ListM PolicyM)) := DeepCopy.

(** The interface [runtime.Object]: a pointer of one of the eight types. *)
Inductive RuntimeObject :=
  | OInferenceService (in_ : Ptr IsvcM) | OInferenceServiceList (in_ : Ptr (ListM IsvcM))
  | OModel (in_ : Ptr ModelM) | OModelList (in_ : Ptr (ListM ModelM))
  | OPlatformPolicy (in_ : Ptr PolicyM) | OPlatformPolicyList (in_ : Ptr (ListM PolicyM))
  | OTenant (in_ : Ptr TenantM) | OTenantList (in_ : Ptr (ListM TenantM)).

(** [if c := in.DeepCopy(); c != nil { return c }; return nil]: no interface
    value is made of a nil pointer. *)
Definition object_of {T} (wrap : Ptr T -> RuntimeObject) (copy : Mem C (Ptr T))
    : Mem C (option RuntimeObject) :=
  mem! c := copy in
  mret_ (match c with Nil => None | To _ => Some (wrap c) end).

Definition InferenceService_DeepCopyObject (in_ : Ptr IsvcM) : Mem C (option RuntimeObject) :=
  object_of OInferenceService (InferenceService_DeepCopy in_).
Definition InferenceServiceList_DeepCopyObject (in_ : Ptr (ListM IsvcM))
    : Mem C (option RuntimeObject) :=
  object_of OInferenceServiceList (InferenceServiceList_DeepCopy in_).
Definition Model_DeepCopyObject (in_ : Ptr ModelM) : Mem C (option RuntimeObject) :=
  object_of OModel (Model_DeepCopy in_).
Definition ModelList_DeepCopyObject (in_ : Ptr (ListM ModelM)) : Mem C (option RuntimeObject) :=
  object_of OModelList (ModelList_DeepCopy in_).
Definition PlatformPolicy_DeepCopyObject (in_ : Ptr PolicyM) : Mem C (option RuntimeObject) :=
  object_of OPlatformPolicy (PlatformPolicy_DeepCopy in_).
Definition PlatformPolicyList_DeepCopyObject (in_ : Ptr (ListM PolicyM))
    : Mem C (option RuntimeObject) :=
  object_of OPlatformPolicyList (PlatformPolicyList_DeepCopy in_).
Definition Tenant_DeepCopyObject (in_ : Ptr TenantM) : Mem C (option RuntimeObject) :=
  object_of OTenant (Tenant_DeepCopy in_).
Definition TenantList_DeepCopyObject (in_ : Ptr (ListM TenantM)) : Mem C (option RuntimeObject) :=
  object_of OTenantList (TenantList_DeepCopy in_).

(** The method of the interface, by the type of the pointer. *)
Definition DeepCopyObject (o : RuntimeObject) : Mem C (option RuntimeObject) :=
  match o with
  | OInferenceService p => InferenceService_DeepCopyObject p
  | OInferenceServiceList p => InferenceServiceList_DeepCopyObject p
  | OModel p => Model_DeepCopyObject p
  | OModelList p => ModelList_DeepCopyObject p
  | OPlatformPolicy p => PlatformPolicy_DeepCopyObject p
  | OPlatformPolicyList p => PlatformPolicyList_DeepCopyObject p
  | OTenant p => Tenant_DeepCopyObject p
  | OTenantList p => TenantList_DeepCopyObject p
  end.

(** What an object stands for. *)
Abbreviation ListOf A := (TypeMeta * ListMeta * option (list (TypeMeta * A)))%type.
Inductive ObjectValue :=
  | VInferenceService (a : TypeMeta * InferenceService)
  | VInferenceServiceList (a : ListOf InferenceService)
  | VModel (a : TypeMeta * Model) | VModelList (a : ListOf Model)
  | VPlatformPolicy (a : TypeMeta * PlatformPolicy) | VPlatformPolicyList (a : ListOf PlatformPolicy)
  | VTenant (a : TypeMeta * Tenant) | VTenantList (a : ListOf Tenant).

Definition reads_object (h : Store C) (o : RuntimeObject) (v : ObjectValue) (F : gset loc) : Prop :=
  match o, v with
  | OInferenceService p, VInferenceService a => reads_ptr h p (Some a) F
  | OInferenceServiceList p, VInferenceServiceList a => reads_ptr h p (Some a) F
  | OModel p, VModel a => reads_ptr h p (Some a) F
  | OModelList p, VModelList a => reads_ptr h p (Some a) F
  | OPlatformPolicy p, VPlatformPolicy a => reads_ptr h p (Some a) F
  | OPlatformPolicyList p, VPlatformPolicyList a => reads_ptr h p (Some a) F
  | OTenant p, VTenant a => reads_ptr h p (Some a) F
  | OTenantList p, VTenantList a => reads_ptr h p (Some a) F
  | _, _ => False
  end.

(** A nil pointer, of any of the types. *)
Definition is_nil_object (o : RuntimeObject) : bool :=
  match o with
  | OInferenceService Nil | OInferenceServiceList Nil | OModel Nil | OModelList Nil
  | OPlatformPolicy Nil | OPlatformPolicyList Nil | OTenant Nil | OTenantList Nil => true
  | _ => false
  end.

(** ** The laws *)

Context `{!LibraryTypesLaws MetaM CondM ListMetaM LibCell ListMeta}.

#[export] Instance int_laws : DeepCopyLaws C Z Z.
Proof. by apply plain_laws. Qed.
#[export] Instance string_laws : DeepCopyLaws C string string.
Proof. by apply plain_laws. Qed.
#[export] Instance bool_laws : DeepCopyLaws C bool bool.
Proof. by apply plain_laws. Qed.
#[export] Instance ModelSource_laws : DeepCopyLaws C ModelSource ModelSource.
Proof. by apply plain_laws. Qed.
#[export] Instance ModelSpec_laws : DeepCopyLaws C ModelSpec ModelSpec.
Proof. by apply plain_laws. Qed.
#[export] Instance TenantResourceQuota_laws :
  DeepCopyLaws C TenantResourceQuota TenantResourceQuota.
Proof. by apply plain_laws. Qed.
#[export] Instance TenantPriority_laws : DeepCopyLaws C TenantPriority TenantPriority.
Proof. by apply plain_laws. Qed.
#[export] Instance TenantSpec_laws : DeepCopyLaws C TenantSpec TenantSpec.
Proof. by apply plain_laws. Qed.
#[export] Instance IsolationPolicy_laws : DeepCopyLaws C IsolationPolicy IsolationPolicy.
Proof. by apply plain_laws. Qed.
#[export] Instance SignedModelsPolicy_laws : DeepCopyLaws C SignedModelsPolicy SignedModelsPolicy.
Proof. by apply plain_laws. Qed.
#[export] Instance SchedulingPolicy_laws : DeepCopyLaws C SchedulingPolicy SchedulingPolicy.
Proof. by apply plain_laws. Qed.
#[export] Instance PlatformPolicySpec_laws : DeepCopyLaws C PlatformPolicySpec PlatformPolicySpec.
Proof. by apply plain_laws. Qed.

(** The laws of a struct, from those of its fields: the cells it reaches are
    the ones its fields reach, and the fields are copied one after the other. *)
Ltac struct_dom :=
  intros ? ? ? ? H; hnf in H; unpack; subst;
  repeat match goal with H : reads _ _ _ _ |- _ => apply reads_dom in H end; set_solver.
Ltac struct_local :=
  intros ? ? ? ? ? H Hag; hnf in H; unpack; subst; hnf;
  repeat match goal with |- exists _, _ => eexists | |- _ /\ _ => split end;
  try (eapply reads_local; [eassumption|intros; apply Hag; set_solver]);
  try done; try reflexivity.
Ltac copy_field H :=
  eapply copies_bind; [exact (copies_copy _ _ _ _ H)|];
  let h' := fresh "h'" in let Hs := fresh "Hs" in let R := fresh "R" in
  intros h' ? ? Hs R _; cbv beta in R;
  repeat match type of Hs with
         | ?h0 ⊆ _ => match goal with Hr : reads h0 _ _ _ |- _ =>
             apply (fun Hr => reads_mono _ _ _ _ _ Hr Hs) in Hr end
         end.
Ltac struct_copied :=
  apply copies_ret; rewrite ?union_empty_r_L; hnf;
  repeat match goal with |- exists _, _ => eexists | |- _ /\ _ => split end;
  cbn -[reads union]; first [eassumption | done | reflexivity | set_solver].

#[export] Instance InferenceSLO_laws : DeepCopyLaws C InferenceSLO_m InferenceSLO.
Proof.
  split; [struct_dom|struct_local|].
  intros h x a F (F1 & F2 & F3 & H1 & H2 & H3 & ->).
  copy_field H1. copy_field H2. copy_field H3. struct_copied.
Qed.

#[export] Instance InferenceServiceSpec_laws :
  DeepCopyLaws C InferenceServiceSpec_m InferenceServiceSpec.
Proof.
  split; [struct_dom|struct_local|].
  intros h x a F (F1 & F2 & F3 & F4 & H1 & H2 & H3 & H4 & -> & ->). cbn -[reads union] in *.
  copy_field H1. copy_field H2. copy_field H3. copy_field H4. struct_copied.
Qed.

#[export] Instance conditions_laws : DeepCopyLaws C (SliceOf CondM) (list Condition).
Proof.
  pose proof (slice_laws (A := Condition) zero_Condition) as [Hdom Hlocal Hcopy]. split.
  - intros h s cs F (o & H & _). by apply Hdom in H.
  - intros h h' s cs F (o & H & ->) Hag. exists o. split; [|done]. by apply (Hlocal h).
  - intros h s cs F (o & H & ->). destruct (Hcopy _ _ _ _ H) as (s' & h' & F' & E & Hs & Hr & HF).
    exists s', h', F'. split_and!; [done|done| |done]. by exists o.
Qed.

#[export] Instance InferenceServiceStatus_laws :
  DeepCopyLaws C (InferenceServiceStatus_m CondM) InferenceServiceStatus.
Proof.
  split; [struct_dom|struct_local|].
  intros h x a F (H1 & ->). cbn -[reads union] in *. copy_field H1. struct_copied.
Qed.

#[export] Instance ModelStatus_laws : DeepCopyLaws C (ModelStatus_m CondM) ModelStatus.
Proof.
  split; [struct_dom|struct_local|].
  intros h x a F (H1 & ->). cbn -[reads union] in *. copy_field H1. struct_copied.
Qed.

#[export] Instance TenantStatus_laws : DeepCopyLaws C (TenantStatus_m CondM) TenantStatus.
Proof.
  split; [struct_dom|struct_local|].
  intros h x a F (H1 & ->). cbn -[reads union] in *. copy_field H1. struct_copied.
Qed.

#[export] Instance InferenceService_laws : DeepCopyLaws C IsvcM (TypeMeta * InferenceService).
Proof.
  split; [struct_dom|struct_local|].
  intros h x a F (F1 & F2 & F3 & Ha & H1 & H2 & H3 & ->).
  copy_field H1. copy_field H2. copy_field H3. struct_copied.
Qed.

#[export] Instance Model_laws : DeepCopyLaws C ModelM (TypeMeta * Model).
Proof.
  split; [struct_dom|struct_local|].
  intros h x a F (F1 & F2 & Ha & Hs & H1 & H2 & ->). copy_field H1. copy_field H2. struct_copied.
Qed.

#[export] Instance Tenant_laws : DeepCopyLaws C TenantM (TypeMeta * Tenant).
Proof.
  split; [struct_dom|struct_local|].
  intros h x a F (F1 & F2 & Ha & Hs & H1 & H2 & ->). copy_field H1. copy_field H2. struct_copied.
Qed.

#[export] Instance PlatformPolicy_laws : DeepCopyLaws C PolicyM (TypeMeta * PlatformPolicy).
Proof.
  split; [struct_dom|struct_local|].
  intros h x a F (Ha & Hs & H1). copy_field H1. struct_copied.
Qed.

Lemma List_laws {I A : Type} `{!Storable C (list I), !DeepCopier C I A, !DeepCopyLaws C I A}
    (zero : I) :
  @DeepCopyLaws C (ListM I) (TypeMeta * ListMeta * option (list A)) (List_copier zero).
Proof.
  pose (L := slice_copier (Cell := C) (A := A) zero).
  pose proof (slice_laws (Cell := C) (A := A) zero) as SL.
  split.
  - intros h x a F (F1 & F2 & _ & H1 & H2 & ->). apply reads_dom in H1.
    apply (@reads_dom _ _ _ _ SL) in H2. set_solver.
  - intros h h' x a F (F1 & F2 & Ha & H1 & H2 & ->) Hag. exists F1, F2. split; [done|].
    split; [apply (reads_local h); [done|]; intros; apply Hag; set_solver|]. split; [|done].
    apply (@reads_local _ _ _ _ SL h); [done|]. intros; apply Hag; set_solver.
  - intros h x a F (F1 & F2 & Ha & H1 & H2 & ->). change (@reads C _ _ L h (m_Items x) a.2 F2) in H2.
    copy_field H1. copy_field H2. apply copies_ret. rewrite union_empty_r_L. eexists _, _.
    split; [done|]. split; [eassumption|]. split; [|reflexivity].
    match goal with R : @reads _ _ _ L _ _ _ _ |- _ => exact R end.
Qed.

#[export] Instance InferenceServiceList_laws : DeepCopyLaws C (ListM IsvcM) (ListOf InferenceService).
Proof. apply List_laws. Qed.
#[export] Instance ModelList_laws : DeepCopyLaws C (ListM ModelM) (ListOf Model).
Proof. apply List_laws. Qed.
#[export] Instance TenantList_laws : DeepCopyLaws C (ListM TenantM) (ListOf Tenant).
Proof. apply List_laws. Qed.
#[export] Instance PlatformPolicyList_laws : DeepCopyLaws C (ListM PolicyM) (ListOf PlatformPolicy).
Proof. apply List_laws. Qed.

(** ** What a copy is good for *)

(** Copying a pointer that is not nil copies the object behind it. *)
Lemma object_of_copies {T A} `{!Storable C T, !DeepCopier C T A, !DeepCopyLaws C T A}
    (wrap : Ptr T -> RuntimeObject) (h : Store C) (p : Ptr T) (a : A) F :
  reads_ptr h p (Some a) F ->
  copies h (object_of wrap (DeepCopy p))
    (fun h' o' F' => exists p', o' = Some (wrap p') /\ reads_ptr h' p' (Some a) F').
Proof.
  intros H. eapply copies_bind; [exact (DeepCopy_reads _ _ _ _ H)|].
  intros h' p' F' Hs Hr _. cbv beta in Hr. apply copies_ret. rewrite union_empty_r_L.
  exists p'. split; [|exact Hr]. destruct Hr as (l & _ & _ & -> & _). done.
Qed.

Lemma DeepCopyObject_copies (h : Store C) (o : RuntimeObject) (v : ObjectValue) F :
  reads_object h o v F ->
  copies h (DeepCopyObject o) (fun h' o' F' => exists c, o' = Some c /\ reads_object h' c v F').
Proof.
  intros H. destruct o, v; try done; cbn [reads_object DeepCopyObject] in *;
    (eapply copies_mono; [exact (object_of_copies _ _ _ _ _ H)|]);
    intros h' o' F' _ (p' & -> & Hr); by eexists.
Qed.

Lemma reads_object_local (h h' : Store C) (o : RuntimeObject) (v : ObjectValue) F :
  reads_object h o v F -> (forall l, l ∈ F -> h' !! l = h !! l) -> reads_object h' o v F.
Proof. destruct o, v; try done; apply reads_ptr_local. Qed.

Lemma reads_object_dom (h : Store C) (o : RuntimeObject) (v : ObjectValue) F :
  reads_object h o v F -> F ⊆ dom h.
Proof. destruct o, v; try done; apply reads_ptr_dom. Qed.

(** C10: [DeepCopyObject] of an object or a list of objects gives another of
    the same type that stands for the same value, and changes nothing that was
    in memory before.  The two share nothing: whatever is written afterwards
    to the cells of one, the other still stands for the value.  A nil pointer
    is copied to the nil interface. *)
Theorem DeepCopyObject_deep (h : Store C) (o : RuntimeObject) :
  (is_nil_object o = true -> DeepCopyObject o h = Some (None, h)) /\
  forall v F, reads_object h o v F ->
    exists c h' F', DeepCopyObject o h = Some (Some c, h') /\ h ⊆ h' /\
      reads_object h' c v F' /\
      (forall h2, (forall l, l ∉ F' -> h2 !! l = h' !! l) -> reads_object h2 o v F) /\
      (forall h2, (forall l, l ∉ F -> h2 !! l = h' !! l) -> reads_object h2 c v F').
Proof.
  split.
  - destruct o as [[]|[]|[]|[]|[]|[]|[]|[]]; done.
  - intros v F H. pose proof (reads_object_dom _ _ _ _ H) as Hd.
    destruct (DeepCopyObject_copies _ _ _ _ H) as (o' & h' & F' & E & Hs & (c & -> & Hc) & HF).
    exists c, h', F'. split_and!; [done|done|done| |].
    + intros h2 Hag. apply (reads_object_local h); [done|]. intros l Hl.
      rewrite Hag by set_solver. apply Hd, elem_of_dom in Hl as [x Hx].
      rewrite Hx. by apply (lookup_weaken h).
    + intros h2 Hag. apply (reads_object_local h'); [done|]. intros l Hl. apply Hag. set_solver.
Qed.
End copies_of_types.
