(* ===== verification/DeepCopyWitness.v ===== *)
(** * A deep copy, concretely

    One implementation of the library types, whose metadata keep their labels in
    a map of their own, and a Model in memory with labels and a condition,
    which is copied. *)
From S2P Require Import Prelude.
From S2P Require Import ApiTypes.
From S2P Require Import GoMemory.
From S2P Require Import DeepCopy.

(** The labels behind a pointer, as Go's maps are; the rest by value. *)
Record LabelledMeta := mkLabelledMeta { by_value : ObjectMeta; map_of_labels : Ptr StringMap }.

Abbreviation WC := (Cell LabelledMeta Condition string StringMap).

#[export] Instance map_storable : Storable WC StringMap :=
  tagged (MetaM := LabelledMeta) (CondM := Condition) (ListMetaM := string) (LibCell := StringMap)
    TLibrary ∅.
#[export] Instance map_copier : DeepCopier WC StringMap StringMap := plain mret_.
#[export] Instance map_laws : DeepCopyLaws WC StringMap StringMap.
Proof. by apply plain_laws. Qed.

Definition with_labels (m : ObjectMeta) (l : GoMap) : ObjectMeta :=
  mkObjectMeta (Name m) (Namespace_ m) (UID m) (ResourceVersion m) (Generation m) l
    (Annotations m) (OwnerReferences m).

#[export] Instance meta_copier : DeepCopier WC LabelledMeta ObjectMeta := {|
  copy_into := fun x =>
    mem! labels := DeepCopy (map_of_labels x) in
    mret_ (mkLabelledMeta (by_value x) labels);
  reads := fun h x a F =>
    exists l, reads_ptr h (map_of_labels x) l F /\ a = with_labels (by_value x) l
|}.

#[export] Instance meta_laws : DeepCopyLaws WC LabelledMeta ObjectMeta.
Proof.
  split.
  - intros h x a F (l & H & _). by apply reads_ptr_dom in H.
  - intros h h' x a F (l & H & ->) Hag. exists l. split; [by apply (reads_ptr_local h)|done].
  - intros h x a F (l & H & ->). eapply copies_bind; [exact (DeepCopy_reads _ _ _ _ H)|].
    intros h' p F' _ Hr _. apply copies_ret. rewrite union_empty_r_L. by exists l.
Qed.

#[export] Instance example_types : LibraryTypes LabelledMeta Condition string StringMap string := {|
  zero_ObjectMeta := mkLabelledMeta (named "" "") Nil;
  zero_Condition := mkCondition "" ConditionUnknown 0 0 "" "";
  zero_ListMeta := "";
  zero_cell := ∅;
  ObjectMeta_copier := meta_copier;
  Condition_copier := plain mret_;
  ListMeta_copier := plain mret_
|}.

#[export] Instance example_laws : LibraryTypesLaws LabelledMeta Condition string StringMap string.
Proof. split; [exact meta_laws|by apply plain_laws..]. Qed.

(** A Model of the namespace acme, which is ready. *)
Definition ready_condition : Condition :=
  mkCondition "Ready" ConditionTrue 1 7 "ModelVerified" "".
Definition model_words : Model_m LabelledMeta Condition :=
  mkModel_m (mkTypeMeta "Model" GroupVersion)
    (mkLabelledMeta (named "acme" "llama") (To 2%positive))
    (mkModelSpec (mkModelSource "huggingface" "hf://llama" "sha256:1") "1" false)
    (mkModelStatus_m (SliceAt 3%positive 1) "Ready" "sha256:1").

Definition memory : Store WC :=
  {[ 1%positive := to_cell model_words;
     2%positive := to_cell ({[ "tier" := "gold" ]} : StringMap);
     3%positive := to_cell [ready_condition] ]}.

Definition model_value : TypeMeta * Model :=
  (mkTypeMeta "Model" GroupVersion,
   mkModel (with_labels (named "acme" "llama") (Some {[ "tier" := "gold" ]}))
     (m_model_Spec model_words) (mkModelStatus [ready_condition] "Ready" "sha256:1")).

Lemma model_in_memory :
  reads_object memory (OModel (To 1%positive)) (VModel model_value)
    ({[1%positive]} ∪ (({[2%positive]} ∪ ∅) ∪ ({[3%positive]} ∪ ⋃ [∅]))).
Proof.
  exists 1%positive, model_words, (({[2%positive]} ∪ ∅) ∪ ({[3%positive]} ∪ ⋃ [∅])).
  split; [done|]. split; [reflexivity|]. split; [|done].
  exists ({[2%positive]} ∪ ∅), ({[3%positive]} ∪ ⋃ [∅]). split; [done|]. split; [done|].
  split; [|split; [|done]].
  - exists (Some {[ "tier" := "gold" ]}). split; [|done].
    exists 2%positive, {[ "tier" := "gold" ]}, ∅. split_and!; [done|reflexivity|done..].
  - split; [|done]. exists (Some [ready_condition]). split; [|done].
    exists 3%positive, 1%nat, [ready_condition], [∅]. split_and!; [done|reflexivity|done| |done].
    constructor; [done|constructor].
Qed.

(** The copy stands for the same Model, and still does once the conditions of
    the original have been overwritten. *)
Lemma DeepCopyObject_deep_witness :
  exists c h' F', DeepCopyObject (OModel (To 1%positive)) memory = Some (Some c, h') /\
    reads_object (<[3%positive := to_cell ([] : list Condition)]> h') c (VModel model_value) F'.
Proof.
  destruct (proj2 (DeepCopyObject_deep memory (OModel (To 1%positive))) _ _ model_in_memory)
    as (c & h' & F' & E & _ & _ & _ & Hc).
  exists c, h', F'. split; [exact E|]. apply Hc. intros l Hl. apply lookup_insert_ne.
  intros <-. apply Hl. set_solver.
Defined.
