(* ===== verification/TestUtils.v ===== *)
(** * Helpers of the end-to-end tests

    [operator/test/utils/utils.go]: commands run in the project's directory,
    the installation of what the tests need, and the editing of files, as
    programs over the state of the host.  The commands themselves, and which
    system calls fail, are parameters. *)
From ExtLib Require Import Structures.Monad Data.Monads.StateMonad.
From S2P Require Import Prelude.

Declare Scope host_scope.
Notation "'let*' x := p 'in' q" := (Monad.bind p (fun x => q))
  (at level 10, x name, p at level 100, q at level 200,
   format "'[v' 'let*'  x  :=  p  'in' '//' q ']'") : host_scope.
Notation "'let*' ' x := p 'in' q" := (Monad.bind p (fun x => q))
  (at level 10, x pattern, p at level 100, q at level 200,
   format "'[v' 'let*'  ' x  :=  p  'in' '//' q ']'") : host_scope.
Local Open Scope host_scope.

(** ** Package [strings] *)

(** [strings.Index]; no occurrence is [None] for -1. *)
Fixpoint Index (s substr : string) : option nat :=
  if String.prefix substr s then Some 0%nat
  else match s with EmptyString => None | String _ s' => S <$> Index s' substr end.

Definition Contains (s substr : string) : bool := bool_decide (is_Some (Index s substr)).

(** The slices [s[:n]] and [s[n:]]. *)
Definition slice_to (s : string) (n : nat) : string := String.substring 0 n s.
Definition slice_from (s : string) (n : nat) : string := String.substring n (String.length s - n) s.

Definition TrimPrefix (s prefix : string) : string :=
  if String.prefix prefix s then slice_from s (String.length prefix) else s.

(** [strings.Replace] of all occurrences of a text that is not empty: behind a
    match, its other bytes are passed over. *)
Fixpoint replace_from (skip : nat) (s old new : string) : string :=
  match s with
  | EmptyString => ""
  | String c s' =>
      match skip with
      | S k => replace_from k s' old new
      | O => if String.prefix old s
             then new +:+ replace_from (String.length old - 1) s' old new
             else String c (replace_from 0 s' old new)
      end
  end.
Definition Replace (s old new : string) : string := replace_from 0 s old new.

Definition newline : ascii := "010"%char.
Definition nl : string := String newline "".

(** Up to the first newline, and behind it. *)
Fixpoint cut_line (s : string) : string * option string :=
  match s with
  | EmptyString => ("", None)
  | String c s' =>
      if decide (c = newline) then ("", Some s')
      else let '(l, r) := cut_line s' in (String c l, r)
  end.

(** [strings.Split] at newlines. *)
Fixpoint Split (s : string) : list string :=
  match s with
  | EmptyString => [""]
  | String c s' =>
      if decide (c = newline) then "" :: Split s'
      else match Split s' with [] => [String c ""] | l :: ls => String c l :: ls end
  end.

(** ** [bufio.Scanner], over a string, by lines *)

Definition MaxScanTokenSize : nat := Z.to_nat 65536.

Fixpoint dropCR (l : string) : string :=
  match l with
  | EmptyString => ""
  | String c l' =>
      if decide (c = "013"%char /\ l' = "") then "" else String c (dropCR l')
  end.

(** The text of the next line and what is left; none at the end of the text,
    nor if the line with its newline does not fit the buffer. *)
Definition Scan (s : string) : option (string * string) :=
  match s with
  | EmptyString => None
  | _ =>
      let '(l, r) := cut_line s in
      if decide (String.length l < MaxScanTokenSize)%nat
      then Some (dropCR l, default "" r) else None
  end.

(** ** The host *)

(** The fields of [exec.Cmd] the program sets. *)
Record Cmd := mkCmd { Args : list string; Dir : string; Env : list string }.
Definition Command (name : string) (args : list string) : Cmd := mkCmd (name :: args) "" [].

(** What [os.Getwd] answers, the environment, the files, and what has been run
    and printed so far. *)
Record Host := mkHost {
  wd : string * option error;
  env : list (string * string);
  files : gmap string string;
  commands : list Cmd;
  GinkgoWriter : list string
}.

Definition set_wd (d : string * option error) (h : Host) : Host :=
  mkHost d (env h) (files h) (commands h) (GinkgoWriter h).
Definition set_files (fs : gmap string string) (h : Host) : Host :=
  mkHost (wd h) (env h) fs (commands h) (GinkgoWriter h).

Section host.

(** What changing to a directory does: an error, or what [os.Getwd] then says. *)
Variable change_dir : string -> result (string * option error).
(** What a command prints and whether it fails, after the ones before it. *)
Variable execute : list Cmd -> Cmd -> string * option error.
(** Whether a file cannot be read though it is there. *)
Variable read_fault : string -> option error.
(** Whether a file cannot be written, and what is then left of it. *)
Variable write_fault : string -> option (error * option string).

Abbreviation M := (state Host).

(** Package [os]. *)
Definition Getwd : M (string * option error) := mkState (fun h => (wd h, h)).
Definition Chdir (dir : string) : M (option error) :=
  mkState (fun h => match change_dir dir with
                    | Ok d => (None, set_wd d h)
                    | Err e => (Some e, h)
                    end).
Definition Environ : M (list string) :=
  mkState (fun h => (map (fun kv => kv.1 +:+ "=" +:+ kv.2) (env h), h)).
Definition LookupEnv (key : string) : M (option string) :=
  mkState (fun h => (snd <$> find (fun kv => bool_decide (kv.1 = key)) (env h), h)).
Definition ReadFile (name : string) : M (result string) :=
  mkState (fun h => (match files h !! name, read_fault name with
                     | Some content, None => Ok content
                     | Some _, Some e => Err e
                     | None, _ => Err (errorf ("open " +:+ name +:+ ": no such file or directory"))
                     end, h)).
Definition WriteFile (name content : string) : M (option error) :=
  mkState (fun h => match write_fault name with
                    | None => (None, set_files (<[name := content]> (files h)) h)
                    | Some (e, remains) =>
                        (Some e, set_files (partial_alter (fun _ => remains) name (files h)) h)
                    end).

(** Packages [os/exec] and [fmt]. *)
Definition CombinedOutput (cmd : Cmd) : M (string * option error) :=
  mkState (fun h => (execute (commands h) cmd,
                     mkHost (wd h) (env h) (files h) (commands h ++ [cmd]) (GinkgoWriter h))).
Definition Fprintf (text : string) : M unit :=
  mkState (fun h => (tt, mkHost (wd h) (env h) (files h) (commands h) (GinkgoWriter h ++ [text]))).

(** ** Commands *)

Definition warnError (err : error) : M unit := Fprintf ("warning: " +:+ Error_ err +:+ nl).

Definition GetProjectDir : M (string * option error) :=
  let* '(wd, err) := Getwd in
  match err with
  | Some err => Monad.ret (wd, Some err)
  | None => Monad.ret (Replace wd "/test/e2e" "", None)
  end.

Definition Run (cmd : Cmd) : M (string * option error) :=
  let* '(dir, _) := GetProjectDir in
  let cmd := mkCmd (Args cmd) dir (Env cmd) in
  let* err := Chdir (Dir cmd) in
  let* _ := match err with
            | Some err => Fprintf ("chdir dir: " +:+ Error_ err +:+ nl)
            | None => Monad.ret tt
            end in
  let* environ := Environ in
  let cmd := mkCmd (Args cmd) (Dir cmd) (environ ++ ["GO111MODULE=on"]) in
  let command := String.concat " " (Args cmd) in
  let* _ := Fprintf ("running: " +:+ command +:+ nl) in
  let* '(output, err) := CombinedOutput cmd in
  match err with
  | Some err =>
      Monad.ret (output, Some (errorf (command +:+ " failed with error: (" +:+ Error_ err +:+ ") " +:+ output)))
  | None => Monad.ret (output, None)
  end.

(** The formats of the addresses, with their one verb filled in. *)
Definition prometheusOperatorVersion : string := "v0.77.1".
Definition prometheusOperatorURL (version : string) : string :=
  "https://github.com/prometheus-operator/prometheus-operator/" +:+
  "releases/download/" +:+ version +:+ "/bundle.yaml".
Definition certmanagerVersion : string := "v1.16.3".
Definition certmanagerURLTmpl (version : string) : string :=
  "https://github.com/cert-manager/cert-manager/releases/download/" +:+ version +:+
  "/cert-manager.yaml".

Definition InstallPrometheusOperator : M (option error) :=
  let* '(_, err) := Run (Command "kubectl" ["create"; "-f"; prometheusOperatorURL prometheusOperatorVersion]) in
  Monad.ret err.

Definition UninstallPrometheusOperator : M unit :=
  let* '(_, err) := Run (Command "kubectl" ["delete"; "-f"; prometheusOperatorURL prometheusOperatorVersion]) in
  match err with Some err => warnError err | None => Monad.ret tt end.

Definition UninstallCertManager : M unit :=
  let* '(_, err) := Run (Command "kubectl" ["delete"; "-f"; certmanagerURLTmpl certmanagerVersion]) in
  match err with Some err => warnError err | None => Monad.ret tt end.

Definition wait_for_webhook : Cmd :=
  Command "kubectl" ["wait"; "deployment.apps/cert-manager-webhook"; "--for";
    "condition=Available"; "--namespace"; "cert-manager"; "--timeout"; "5m"].

Definition InstallCertManager : M (option error) :=
  let* '(_, err) := Run (Command "kubectl" ["apply"; "-f"; certmanagerURLTmpl certmanagerVersion]) in
  match err with
  | Some err => Monad.ret (Some err)
  | None => let* '(_, err) := Run wait_for_webhook in Monad.ret err
  end.

Definition GetNonEmptyLines (output : string) : list string :=
  fold_left (fun res element => if decide (element = "") then res else res ++ [element])
    (Split output) [].

(** The two nested loops, that return at the first hit. *)
Definition any_installed (crds crdList : list string) : bool :=
  existsb (fun crd => existsb (fun line => Contains line crd) crdList) crds.

Definition prometheusCRDs : list string :=
  ["prometheuses.monitoring.coreos.com"; "prometheusrules.monitoring.coreos.com";
   "prometheusagents.monitoring.coreos.com"].
Definition certManagerCRDs : list string :=
  ["certificates.cert-manager.io"; "issuers.cert-manager.io"; "clusterissuers.cert-manager.io";
   "certificaterequests.cert-manager.io"; "orders.acme.cert-manager.io";
   "challenges.acme.cert-manager.io"].

Definition IsPrometheusCRDsInstalled : M bool :=
  let* '(output, err) :=
    Run (Command "kubectl" ["get"; "crds"; "-o"; "custom-columns=NAME:.metadata.name"]) in
  match err with
  | Some _ => Monad.ret false
  | None => Monad.ret (any_installed prometheusCRDs (GetNonEmptyLines output))
  end.

Definition IsCertManagerCRDsInstalled : M bool :=
  let* '(output, err) := Run (Command "kubectl" ["get"; "crds"]) in
  match err with
  | Some _ => Monad.ret false
  | None => Monad.ret (any_installed certManagerCRDs (GetNonEmptyLines output))
  end.

Definition LoadImageToKindClusterWithName (name : string) : M (option error) :=
  let* v := LookupEnv "KIND_CLUSTER" in
  let cluster := match v with Some v => v | None => "kind" end in
  let* '(_, err) := Run (Command "kind" ["load"; "docker-image"; name; "--name"; cluster]) in
  Monad.ret err.

(** ** Uncommenting *)

(** The loop: the line at hand goes out without the prefix, and as long as
    there is a next one, a newline.  [None]: out of fuel. *)
Fixpoint copy_lines (fuel : nat) (text rest prefix out : string) : option string :=
  match fuel with
  | O => None
  | S fuel =>
      let out := out +:+ TrimPrefix text prefix in
      match Scan rest with
      | None => Some out
      | Some (text, rest) => copy_lines fuel text rest prefix (out +:+ nl)
      end
  end.

(** [None]: the loop is out of fuel, which does not happen. *)
Definition UncommentCode (filename target prefix : string) : M (option (option error)) :=
  let* r := ReadFile filename in
  match r with
  | Err err => Monad.ret (Some (Some err))
  | Ok content =>
      match Index content target with
      | None =>
          Monad.ret (Some (Some (errorf ("unable to find the code " +:+ target +:+ " to be uncomment"))))
      | Some idx =>
          match Scan target with
          | None => Monad.ret (Some None)
          | Some (text, rest) =>
              match copy_lines (S (String.length target)) text rest prefix (slice_to content idx) with
              | None => Monad.ret None
              | Some out =>
                  let* err := WriteFile filename
                                (out +:+ slice_from content (idx + String.length target)) in
                  Monad.ret (Some err)
              end
          end
      end
  end.
End host.

(** ** Facts on strings *)

Lemma app_cons c s1 s2 : String c s1 +:+ s2 = String c (s1 +:+ s2).
Proof. done. Qed.

Lemma length_append s1 s2 : String.length (s1 +:+ s2) = (String.length s1 + String.length s2)%nat.
Proof. induction s1 as [|c s1 IH]; [done|]. rewrite app_cons. simpl. by rewrite IH. Qed.

Lemma slice_to_app a b : slice_to (a +:+ b) (String.length a) = a.
Proof.
  unfold slice_to. induction a as [|c a IH]; [change ("" +:+ b) with b; by destruct b|]. rewrite app_cons. simpl. by rewrite IH.
Qed.

Lemma slice_from_app a b : slice_from (a +:+ b) (String.length a) = b.
Proof.
  unfold slice_from. rewrite length_append.
  replace (String.length a + String.length b - String.length a)%nat with (String.length b) by lia.
  induction a as [|c a IH]; [|done]. change ("" +:+ b) with b. simpl.
  rewrite <- (string_app_nil_r b) at 2. apply (slice_to_app b "").
Qed.

Lemma prefix_app t s : String.prefix t s = true <-> exists b, s = t +:+ b.
Proof.
  revert s. induction t as [|c t IH]; intros s; simpl.
  - split; [by exists s|by destruct s].
  - destruct s as [|c' s]; [split; [done|by intros [b [=]]]|].
    simpl. destruct (ascii_dec c c') as [->|Hc].
    + rewrite IH. split; intros [b Hb]; exists b; [by rewrite Hb|by injection Hb].
    + split; [done|]. intros [b [=]]. congruence.
Qed.

Local Arguments String.prefix : simpl never.

Lemma TrimPrefix_app p l : TrimPrefix (p +:+ l) p = l.
Proof.
  unfold TrimPrefix. assert (String.prefix p (p +:+ l) = true) as -> by (apply prefix_app; by exists l).
  apply slice_from_app.
Qed.

(** The index is that of the first occurrence. *)
Lemma Index_Some s t i :
  Index s t = Some i ->
  exists a b, s = a +:+ t +:+ b /\ String.length a = i.
Proof.
  revert i. induction s as [|c s IH]; intros i; simpl.
  - destruct (String.prefix t "") eqn:Hp; [|done]. intros [= <-].
    apply prefix_app in Hp as [b Hb]. by exists "", b.
  - destruct (String.prefix t (String c s)) eqn:Hp.
    + intros [= <-]. apply prefix_app in Hp as [b Hb]. by exists "", b.
    + destruct (Index s t) as [j|]; [|done]. intros [= <-].
      destruct (IH j eq_refl) as (a & b & -> & <-). by exists (String c a), b.
Qed.

Lemma Index_occurs s t : is_Some (Index s t) <-> exists a b, s = a +:+ t +:+ b.
Proof.
  split; [intros [i Hi]; destruct (Index_Some _ _ _ Hi) as (a & b & Hs & _); by exists a, b|].
  intros (a & b & ->). induction a as [|c a IH].
  - change ("" +:+ t +:+ b) with (t +:+ b).
    assert (String.prefix t (t +:+ b) = true) as Hp by (apply prefix_app; by exists b).
    destruct (t +:+ b); simpl; rewrite Hp; by eexists.
  - rewrite app_cons. simpl. case_match; [by eexists|]. destruct IH as [j ->]. by eexists.
Qed.

Lemma append_inj_l a b1 b2 : a +:+ b1 = a +:+ b2 -> b1 = b2.
Proof. induction a as [|c a IH]; [done|]. intros [=]. by apply IH. Qed.

Lemma append_inj a1 a2 b1 b2 :
  String.length a1 = String.length a2 -> a1 +:+ b1 = a2 +:+ b2 -> a1 = a2 /\ b1 = b2.
Proof.
  revert a2. induction a1 as [|c a1 IH]; intros [|c2 a2]; try done. intros [= Hl] [= -> He].
  by destruct (IH a2 Hl He) as [-> ->].
Qed.

(** *** Lines *)

Lemma Split_cut s :
  Split s = match cut_line s with (l, Some r) => l :: Split r | (l, None) => [l] end.
Proof.
  induction s as [|c s IH]; [done|]. simpl. case_decide; [done|]. rewrite IH.
  by destruct (cut_line s) as [l [r|]].
Qed.

Lemma Split_cons s : exists l ls, Split s = l :: ls.
Proof. rewrite Split_cut. destruct (cut_line s) as [l [r|]]; by do 2 eexists. Qed.

Lemma cut_line_length s l r :
  cut_line s = (l, Some r) -> (String.length r < String.length s)%nat.
Proof.
  revert l. induction s as [|c s IH]; intros l; simpl; [done|]. case_decide; [intros [= <- <-]; lia|].
  destruct (cut_line s) as [l' o] eqn:E. intros [= <- ->]. specialize (IH l' eq_refl). lia.
Qed.

Lemma cut_line_end s l : cut_line s = (l, None) -> l = s.
Proof.
  revert l. induction s as [|c s IH]; intros l; simpl; [by intros [= <-]|]. case_decide; [done|].
  destruct (cut_line s) as [l' o] eqn:E. intros [= <- ->]. by rewrite (IH l' eq_refl).
Qed.

(** The lines a scanner gives: not a last empty one, and only up to one that is
    too long. *)
Fixpoint scanned (ls : list string) : list string :=
  match ls with
  | [] => []
  | l :: ls' =>
      if decide (ls' = [] /\ l = "") then []
      else if decide (String.length l < MaxScanTokenSize)%nat then dropCR l :: scanned ls' else []
  end.

Lemma scanned_Split s :
  scanned (Split s) =
    match Scan s with Some (text, rest) => text :: scanned (Split rest) | None => [] end.
Proof.
  destruct s as [|c s]; [done|]. unfold Scan. rewrite Split_cut.
  destruct (cut_line (String c s)) as [l [r|]] eqn:E; cbn [scanned].
  - rewrite decide_False; [by case_decide|]. destruct (Split_cons r) as (? & ? & ->). by intros [? _].
  - apply cut_line_end in E as ->. rewrite decide_False by by intros [_ ?]. by case_decide.
Qed.

Lemma Scan_length s text rest :
  Scan s = Some (text, rest) -> (String.length rest < String.length s)%nat.
Proof.
  destruct s as [|c s]; [done|]. unfold Scan. destruct (cut_line _) as [l [r|]] eqn:E;
    (case_decide; [|done]); intros [= <- <-]; [by eapply cut_line_length|simpl; lia].
Qed.

(** The loop ends, with the lines without the prefix. *)
Lemma copy_lines_spec fuel text rest prefix out :
  (String.length rest < fuel)%nat ->
  copy_lines fuel text rest prefix out =
    Some (out +:+ String.concat nl (map (fun l => TrimPrefix l prefix)
                                      (text :: scanned (Split rest)))).
Proof.
  revert text rest out. induction fuel as [|fuel IH]; intros text rest out Hf; [lia|]. cbn [copy_lines].
  rewrite scanned_Split. destruct (Scan rest) as [[text' rest']|] eqn:E; [|done].
  apply Scan_length in E. rewrite IH by lia. cbn [map String.concat].
  by rewrite !string_app_assoc.
Qed.

(** *** Text put together from lines *)

(** A line that a scanner gives as it is. *)
Definition plain_line (l : string) : Prop :=
  cut_line l = (l, None) /\ dropCR l = l /\ (String.length l < MaxScanTokenSize)%nat.

#[export] Instance plain_line_dec l : Decision (plain_line l).
Proof. unfold plain_line. apply _. Defined.

Lemma cut_line_app l s : cut_line l = (l, None) -> cut_line (l +:+ nl +:+ s) = (l, Some s).
Proof.
  induction l as [|c l IH]; [done|]. rewrite app_cons. simpl. case_decide; [done|].
  destruct (cut_line l) as [l' r] eqn:E. intros [= -> ->]. by rewrite IH.
Qed.

Lemma concat_cons l1 l2 ls :
  String.concat nl (l1 :: l2 :: ls) = l1 +:+ nl +:+ String.concat nl (l2 :: ls).
Proof. done. Qed.

Lemma Split_lines ls : ls <> [] -> Forall plain_line ls -> Split (String.concat nl ls) = ls.
Proof.
  intros Hne Hls. induction Hls as [|l ls (Hc & _) Hls IH]; [done|].
  destruct ls as [|l2 ls]; rewrite Split_cut; [cbn; by rewrite Hc|].
  rewrite concat_cons, cut_line_app by done. by rewrite IH.
Qed.

Lemma Split_lines_nl ls :
  ls <> [] -> Forall plain_line ls -> Split (String.concat nl ls +:+ nl) = ls ++ [""].
Proof.
  intros Hne Hls. induction Hls as [|l ls (Hc & _) Hls IH]; [done|].
  destruct ls as [|l2 ls]; rewrite Split_cut.
  - change (String.concat nl [l] +:+ nl) with (l +:+ nl +:+ ""). by rewrite cut_line_app.
  - rewrite concat_cons, !string_app_assoc, cut_line_app by done. by rewrite IH.
Qed.

(** A newline at the end makes no difference to a scanner. *)
Lemma scanned_lines ls : Forall plain_line ls -> list.last ls <> Some "" -> scanned ls = ls.
Proof.
  induction 1 as [|l ls (_ & Hcr & Hlen) Hls IH]; [done|]. intros Hlast. cbn [scanned].
  rewrite decide_False by (intros [-> ->]; done). rewrite decide_True, Hcr by done.
  f_equal. destruct ls; [done|]. by apply IH.
Qed.

Lemma scanned_lines_nl ls : Forall plain_line ls -> scanned (ls ++ [""]) = ls.
Proof.
  induction 1 as [|l ls (_ & Hcr & Hlen) Hls IH]; [done|]. cbn [scanned app].
  rewrite decide_False by (by intros [?%app_eq_nil _]; unpack).
  by rewrite decide_True, Hcr, IH by done.
Qed.

(** ** Properties *)

Section properties.
Variable change_dir : string -> result (string * option error).
Variable execute : list Cmd -> Cmd -> string * option error.
Variable read_fault : string -> option error.
Variable write_fault : string -> option (error * option string).

Abbreviation run := (Run change_dir execute).
Abbreviation write := (WriteFile write_fault).
Abbreviation uncomment := (UncommentCode read_fault write_fault).

(** What the file becomes. *)
Definition uncommented (before target prefix after : string) : string :=
  before +:+ String.concat nl (map (fun l => TrimPrefix l prefix) (scanned (Split target))) +:+ after.

Lemma UncommentCode_run filename target prefix h :
  exists err h', runState (uncomment filename target prefix) h = (Some err, h') /\
  match files h !! filename, read_fault filename with
  | Some content, None =>
      match Index content target with
      | None => is_Some err /\ h' = h
      | Some idx =>
          if decide (scanned (Split target) = []) then err = None /\ h' = h
          else
            exists before after, content = before +:+ target +:+ after /\
              String.length before = idx /\
              runState (write filename (uncommented before target prefix after)) h = (err, h')
      end
  | _, _ => is_Some err /\ h' = h
  end.
Proof.
  unfold UncommentCode, ReadFile, uncommented. cbn -[copy_lines Scan Index].
  destruct (files h !! filename) as [content|]; [|by do 2 eexists].
  destruct (read_fault filename); [by do 2 eexists|].
  destruct (Index content target) as [idx|] eqn:Hi; [|by do 2 eexists].
  rewrite scanned_Split. destruct (Scan target) as [[text rest]|] eqn:Hs; [|by do 2 eexists].
  apply Scan_length in Hs. rewrite copy_lines_spec by lia.
  destruct (Index_Some _ _ _ Hi) as (before & after & -> & <-).
  rewrite slice_to_app, <- length_append, <- string_app_assoc, slice_from_app.
  cbn. destruct (write_fault filename) as [[e remains]|] eqn:Hw; do 2 eexists; (split; [done|]);
    exists before, after; by rewrite !string_app_assoc.
Qed.

(** Uncommenting always returns.  A file that cannot be read, or does not
    contain the target, is an error and nothing changes; a target without a
    line the scanner can read changes nothing either, and is no error.  In
    every other case the file is written, once: the first occurrence of the
    target is replaced by the lines scanned from it, without their prefix and
    joined by newlines, and what is before and behind it is kept. *)
Theorem UncommentCode_spec filename target prefix h :
  exists err h', runState (uncomment filename target prefix) h = (Some err, h') /\
  match files h !! filename, read_fault filename with
  | Some content, None =>
      match Index content target with
      | None => is_Some err /\ h' = h
      | Some idx =>
          if decide (scanned (Split target) = []) then err = None /\ h' = h
          else
            exists before after, content = before +:+ target +:+ after /\
              String.length before = idx /\
              runState (write filename (uncommented before target prefix after)) h = (err, h')
      end
  | _, _ => is_Some err /\ h' = h
  end.
Proof. apply UncommentCode_run. Qed.

(** *** Commands *)

(** Where and with which environment a command is run. *)
Definition project_dir (h : Host) : string :=
  match wd h with (d, Some _) => d | (d, None) => Replace d "/test/e2e" "" end.
Definition placed (cmd : Cmd) (h : Host) : Cmd :=
  mkCmd (Args cmd) (project_dir h)
    (map (fun kv => kv.1 +:+ "=" +:+ kv.2) (env h) ++ ["GO111MODULE=on"]).

(** What stays as it is but for the command. *)
Definition ran (c : Cmd) (h h' : Host) : Prop :=
  commands h' = commands h ++ [c] /\ files h' = files h /\ env h' = env h.

Lemma Run_spec cmd h :
  let '(output, fails) := execute (commands h) (placed cmd h) in
  exists err h', runState (run cmd) h = ((output, err), h') /\
    (err = None <-> fails = None) /\ ran (placed cmd h) h h' /\
    match change_dir (project_dir h) with
    | Ok d => wd h' = d
    | Err _ => wd h' = wd h
    end.
Proof.
  unfold Run, placed, project_dir, ran. cbn.
  destruct (wd h) as [d [e|]] eqn:Hwd; cbn; destruct (change_dir _); cbn;
    destruct (execute _ _) as [output [e'|]]; do 2 eexists; (split; [done|]);
    (split; [split; done|]); by split_and!.
Qed.

(** [strings.Replace] once, where the text occurs at the end only. *)
Lemma replace_skip s old new : replace_from (String.length s) s old new = "".
Proof. by induction s. Qed.

Lemma Replace_suffix root old :
  old <> "" -> (forall a b, root +:+ old = a +:+ old +:+ b -> b = "") ->
  Replace (root +:+ old) old "" = root.
Proof.
  intros Hne. unfold Replace. induction root as [|c root IH]; intros Honly.
  - change ("" +:+ old) with old. destruct old as [|c o]; [done|]. cbn [replace_from].
    assert (String.prefix (String c o) (String c o) = true) as ->
      by (apply prefix_app; exists ""; by rewrite string_app_nil_r).
    cbn [String.length]. rewrite Nat.sub_succ, Nat.sub_0_r, replace_skip. done.
  - rewrite app_cons. cbn [replace_from].
    destruct (String.prefix old (String c (root +:+ old))) eqn:Hp.
    + apply prefix_app in Hp as [b Hb]. pose proof (Honly "" b Hb) as ->.
      apply (f_equal String.length) in Hb. simpl in Hb. rewrite !length_append in Hb.
      simpl in Hb. lia.
    + f_equal. apply IH. intros a b Hab. apply (Honly (String c a) b). by rewrite !app_cons, Hab.
Qed.

Lemma project_dir_root h root :
  wd h = (root +:+ "/test/e2e", None) ->
  (forall a b, root +:+ "/test/e2e" = a +:+ "/test/e2e" +:+ b -> b = "") -> project_dir h = root.
Proof. intros Hw Honly. unfold project_dir. rewrite Hw. by apply Replace_suffix. Qed.

Definition apply_certmanager : Cmd := Command "kubectl" ["apply"; "-f"; certmanagerURLTmpl certmanagerVersion].

(** The installation of cert-manager applies its manifest and, if that
    succeeds, waits for its webhook. *)
Lemma InstallCertManager_run h :
  let applied := placed apply_certmanager h in
  exists err h', runState (InstallCertManager change_dir execute) h = (err, h') /\
  files h' = files h /\
  (forall root, wd h = (root +:+ "/test/e2e", None) ->
     (forall a b, root +:+ "/test/e2e" = a +:+ "/test/e2e" +:+ b -> b = "") -> Dir applied = root) /\
  match (execute (commands h) applied).2 with
  | Some _ => is_Some err /\ commands h' = commands h ++ [applied]
  | None => exists waited, Args waited = Args wait_for_webhook /\
      commands h' = commands h ++ [applied; waited] /\
      (err = None <-> (execute (commands h ++ [applied]) waited).2 = None)
  end.
Proof.
  cbv zeta. pose proof (Run_spec apply_certmanager h) as H1.
  destruct (execute (commands h) _) as [out1 fails1]. destruct H1 as (err1 & h1 & Hr1 & He1 & (Hc1 & Hf1 & _) & _).
  unfold InstallCertManager. cbn -[Run]. fold apply_certmanager. rewrite Hr1.
  assert (forall root, wd h = (root +:+ "/test/e2e", None) ->
     (forall a b, root +:+ "/test/e2e" = a +:+ "/test/e2e" +:+ b -> b = "") ->
     Dir (placed apply_certmanager h) = root) as Hdir by (intros; by apply project_dir_root).
  destruct err1 as [e1|].
  - do 2 eexists. split; [done|]. do 2 (split; [done|]).
    destruct fails1; [done|]. discriminate (proj2 He1 eq_refl).
  - rewrite (proj1 He1 eq_refl). pose proof (Run_spec wait_for_webhook h1) as H2. rewrite Hc1 in H2.
    destruct (execute _ _) as [out2 fails2] eqn:E2. destruct H2 as (err2 & h2 & Hr2 & He2 & (Hc2 & Hf2 & _) & _).
    cbn -[Run]. rewrite Hr2. do 2 eexists. split; [done|]. split; [congruence|].
    split; [done|]. exists (placed wait_for_webhook h1). split; [done|].
    split; [by rewrite Hc2, Hc1, <- app_assoc|]. by rewrite E2.
Qed.

(** *** Detection *)

Lemma GetNonEmptyLines_elem output line :
  line ∈ GetNonEmptyLines output <-> line <> "" /\ line ∈ Split output.
Proof.
  unfold GetNonEmptyLines.
  assert (forall ls acc, line ∈ fold_left (fun res element =>
      if decide (element = "") then res else res ++ [element]) ls acc <->
      line ∈ acc \/ line <> "" /\ line ∈ ls) as Hfold.
  { induction ls as [|l ls IH]; intros acc; simpl; rewrite ?IH, ?elem_of_nil; [tauto|].
    case_decide; rewrite ?elem_of_app, !elem_of_cons, ?elem_of_nil; [subst; tauto|].
    split; [|tauto]. intros [[?|[->|[]]]|?]; tauto. }
  rewrite Hfold, elem_of_nil. tauto.
Qed.

Lemma any_installed_iff crds output :
  "" ∉ crds ->
  any_installed crds (GetNonEmptyLines output) = true <->
  exists crd line, crd ∈ crds /\ line ∈ Split output /\ exists a b, line = a +:+ crd +:+ b.
Proof.
  intros Hne. unfold any_installed. rewrite existsb_exists. setoid_rewrite existsb_exists.
  setoid_rewrite <- list_elem_of_In. setoid_rewrite GetNonEmptyLines_elem.
  unfold Contains. setoid_rewrite bool_decide_eq_true. setoid_rewrite Index_occurs. split.
  - intros (crd & Hc & line & [_ Hl] & Ho). by exists crd, line.
  - intros (crd & line & Hc & Hl & a & b & ->). exists crd. split; [done|]. exists (a +:+ crd +:+ b).
    split; [|by exists a, b]. split; [|done]. intros He. apply (f_equal String.length) in He.
    rewrite !length_append in He. destruct crd; [done|]. simpl in He. lia.
Qed.

(** What the detection makes of the answer of [kubectl get crds]. *)
Definition detected (crds : list string) (answer : string * option error) : Prop :=
  answer.2 = None /\
  exists crd line, crd ∈ crds /\ line ∈ Split answer.1 /\ exists a b, line = a +:+ crd +:+ b.

(** The CRDs are found in the output of the one command that lists them. *)
Lemma CRDs_installed_iff h :
  ((runState (IsCertManagerCRDsInstalled change_dir execute) h).1 = true <->
   detected certManagerCRDs
     (execute (commands h) (placed (Command "kubectl" ["get"; "crds"]) h))) /\
  ((runState (IsPrometheusCRDsInstalled change_dir execute) h).1 = true <->
   detected prometheusCRDs
     (execute (commands h)
        (placed (Command "kubectl" ["get"; "crds"; "-o"; "custom-columns=NAME:.metadata.name"]) h))).
Proof.
  split;
    match goal with |- context [placed ?c h] => pose proof (Run_spec c h) as Hrun end;
    destruct (execute (commands h) _) as [output fails];
    destruct Hrun as (err & h' & Hr & He & _);
    unfold IsCertManagerCRDsInstalled, IsPrometheusCRDsInstalled, detected;
    cbn -[Run any_installed GetNonEmptyLines]; rewrite Hr; (destruct err as [e|];
      [split; [done|intros [Hf _]; discriminate (proj2 He Hf)]|]);
    cbn [runState fst snd]; rewrite any_installed_iff by (by apply (bool_decide_unpack _));
    pose proof (proj1 He eq_refl); tauto.
Qed.
(** Cert-manager is taken to be installed exactly when the one command
    that lists the CRDs succeeds and a line of its output contains the name of
    one of its CRDs; likewise the Prometheus operator.  Its installation applies
    the manifest and, if that succeeds, waits for the webhook; it succeeds if
    both commands do, and no other command is run.  A test started in the
    directory of the tests runs the first one in the root of the project, and
    whatever the working directory, no file is touched. *)
Theorem cluster_helpers_spec h :
  ((runState (IsCertManagerCRDsInstalled change_dir execute) h).1 = true <->
   detected certManagerCRDs
     (execute (commands h) (placed (Command "kubectl" ["get"; "crds"]) h))) /\
  ((runState (IsPrometheusCRDsInstalled change_dir execute) h).1 = true <->
   detected prometheusCRDs
     (execute (commands h)
        (placed (Command "kubectl" ["get"; "crds"; "-o"; "custom-columns=NAME:.metadata.name"]) h))) /\
  let applied := placed apply_certmanager h in
  exists err h', runState (InstallCertManager change_dir execute) h = (err, h') /\
    files h' = files h /\
    (forall root, wd h = (root +:+ "/test/e2e", None) ->
       (forall a b, root +:+ "/test/e2e" = a +:+ "/test/e2e" +:+ b -> b = "") -> Dir applied = root) /\
    match (execute (commands h) applied).2 with
    | Some _ => is_Some err /\ commands h' = commands h ++ [applied]
    | None => exists waited, Args waited = Args wait_for_webhook /\
        commands h' = commands h ++ [applied; waited] /\
        (err = None <-> (execute (commands h ++ [applied]) waited).2 = None)
    end.
Proof.
  split; [apply CRDs_installed_iff|]. split; [apply CRDs_installed_iff|].
  apply InstallCertManager_run.
Qed.
End properties.

(** Two entries of a list of resources, whose comments are taken out. *)
Definition kustomization (lines : list string) (behind : string) : Host :=
  mkHost ("/src/operator", None) []
    {[ "kustomization.yaml" :=
         "resources:" +:+ nl +:+ String.concat nl lines +:+ behind ]} [] [].

