(* ===== verification/Witnesses.v ===== *)
(** * Concrete instances

    A small platform on the server in memory: a tenant, a model and a service.
    Each theorem that has hypotheses is applied here, to runs whose outcome is
    computed. *)
From S2P Require Import Prelude.
From S2P Require Import Decimal.
From S2P Require Import ApiTypes.
From S2P Require Import ApiClient.
From S2P Require Import K8sLib.
From S2P Require Import ReferenceLib.
From S2P Require Import Conditions.
From S2P Require Import Priority.
From S2P Require Import ResourceProfile.
From S2P Require Import Admission.
From S2P Require Import Mutation.
From S2P Require Import Webhook.
From S2P Require Import Scheduling.
From S2P Require Import Kueue.
From S2P Require Import ModelController.
From S2P Require Import TenantController.
From S2P Require Import TenantQuota.
From S2P Require Import TenantIsolation.
From S2P Require Import InferenceServiceController.
From S2P Require Import Progress.
From S2P Require Import Rbac.
From S2P Require Import TenantAccess.
From S2P Require Import System.
From S2P Require Import Convergence.
From S2P Require Import Overlap.
From S2P Require Import Concurrent.
From S2P Require Import Workqueue.
From S2P Require Import Fairness.
From S2P Require Import Schema.
From S2P Require Import GoStd.
From S2P Require Import Manager.
From S2P Require Import MemCluster.

(** ** The platform *)

Definition acme : Tenant :=
  mkTenant (named "" "acme")
    (mkTenantSpec (mkTenantResourceQuota "4" "8Gi" "1" "10" "") (mkTenantPriority 90))
    (mkTenantStatus [] "").
Definition globex : Tenant :=
  mkTenant (named "" "globex")
    (mkTenantSpec (mkTenantResourceQuota "1.5" "512Mi" "0" "" "3") (mkTenantPriority 10))
    (mkTenantStatus [] "").
Definition llama : Model :=
  mkModel (named "acme" "llama")
    (mkModelSpec (mkModelSource "huggingface" "hf://llama" "sha256:1") "1" true)
    (mkModelStatus [] "" "").
Definition chat : InferenceService :=
  mkInferenceService (named "acme" "chat")
    (mkInferenceServiceSpec "llama" "batch" "shared-gpu" None "" (Some 2) None ""
       (mkInferenceSLO (Some 200) None (Some "99.9")))
    (mkInferenceServiceStatus [] "" "" 0 0).
Definition gpu_chat : InferenceService :=
  mkInferenceService (named "acme" "gpu-chat")
    (mkInferenceServiceSpec "llama" "interactive" "protected-gpu" None "" None (Some true)
       "mig-3g.40gb" (mkInferenceSLO None None None))
    (mkInferenceServiceStatus [] "" "" 0 0).

Definition empty_platform : MemState := mkMemState (fun _ => ∅).
Definition platform : MemState :=
  put KTenant acme (put KTenant globex
    (put KModel llama (put KInferenceService chat empty_platform))).

Definition acme_key : NamespacedName := mkNN "" "acme".
Definition globex_key : NamespacedName := mkNN "" "globex".
Definition llama_key : NamespacedName := mkNN "acme" "llama".
Definition chat_key : NamespacedName := mkNN "acme" "chat".

#[local] Instance server : Cluster MemState := mem_cluster healthy.
#[local] Instance server_laws : ClusterLaws MemState := mem_laws healthy.
#[local] Instance server_available : ApiClient.Available MemState := mem_available.

(** ** Pure components *)

Lemma BuildJob_admissible_witness :
  exists job, BuildJob chat (Some llama) "acme-queue" = Some job /\ Suspend (job_Spec job) = Some true.
Proof.
  destruct (BuildJob_admissible chat (Some llama) "acme-queue") as (job & Hj & _ & _ & _ & Hs & _).
  exists job. exact (conj Hj Hs).
Defined.

Definition chat_job : Job := default (mkJob (named "" "") (mkJobSpec None None None None
    (mkPodTemplateSpec None (mkPodSpec RestartPolicyNever [] None None))))
  (BuildJob chat (Some llama) "acme-queue").
Definition gpu_job : Job := default chat_job (BuildJob gpu_chat (Some llama) "acme-gpu-queue").

Lemma BuildJob_cpu_restricted_witness :
  pod_restricted (template_Spec (Template (job_Spec chat_job))).
Proof.
  refine (proj1 (BuildJob_cpu_restricted chat (Some llama) "acme-queue" chat_job _ _));
    vm_compute; reflexivity.
Defined.

Lemma gang_fits_iff_witness :
  admissible finance_cluster_queue (job_requests chat_job) /\
  admissible gpu_cluster_queue (job_requests gpu_job).
Proof.
  split.
  - refine (proj2 (gang_fits_iff chat (Some llama) "acme-queue" chat_job finance_cluster_queue _ _) _);
      [vm_compute; reflexivity|left; reflexivity|apply (bool_decide_unpack _); vm_compute; exact I].
  - refine (proj2 (gang_fits_iff gpu_chat (Some llama) "acme-gpu-queue" gpu_job gpu_cluster_queue _ _) _);
      [vm_compute; reflexivity|reflexivity|apply (bool_decide_unpack _); vm_compute; exact I].
Defined.

Lemma BuildJob_gpu_resource_witness :
  ~ pod_restricted (template_Spec (Template (job_Spec gpu_job))).
Proof.
  refine (proj2 (proj2
    (BuildJob_gpu_resource gpu_chat (Some llama) "acme-gpu-queue" gpu_job _ _)));
    vm_compute; reflexivity.
Defined.

Lemma buildQuotaResourceList_spec_witness :
  exists hard, buildQuotaResourceList (tenant_ResourceQuota (tenant_Spec globex)) = Ok hard.
Proof.
  apply (proj2 (buildQuotaResourceList_spec _)). split_and!.
  - exists "1", ".5". split; [reflexivity|]. split; [by vm_compute|]. right. by exists "5".
  - exists "512", "Mi". split; [reflexivity|]. split; [by vm_compute|]. by left.
  - by vm_compute.
  - by left.
  - right. by vm_compute.
Defined.

(** ** Admission and mutation *)

Lemma ValidateInferenceService_allowed_iff_witness :
  exists d, outcome (ValidateInferenceService chat) platform = Some d /\ Allowed d = true.
Proof.
  destruct (ValidateInferenceService_allowed_iff chat platform)
    as (d1 & d4 & d & _ & _ & _ & Hd & _ & Hiff).
  exists d. split; [exact Hd|]. vm_compute in Hd. injection Hd as <-. reflexivity.
Defined.

Lemma lookup_failure_witness :
  outcome (validateSignedModelPolicy chat) platform = Some Allow.
Proof.
  refine (proj2 (lookup_failure_closed_for_tenant_open_for_policy chat platform not_found) _).
  vm_compute. reflexivity.
Defined.

Lemma chat_priorities : priorities_int32 chat platform.
Proof.
  split; [done|]. intros t Ht. vm_compute in Ht. injection Ht as <-.
  by apply (bool_decide_unpack _).
Qed.

Definition mutated_chat : InferenceService :=
  match outcome (MutateInferenceService chat) platform with
  | Some (isvc, _) => isvc
  | None => chat
  end.


Lemma mutation_preserves_verdict_witness :
  outcome (ValidateCreate (Typed KInferenceService mutated_chat)) platform =
  outcome (ValidateCreate (Typed KInferenceService chat)) platform.
Proof.
  refine (mutation_preserves_verdict (Typed KInferenceService chat)
            (Typed KInferenceService mutated_chat) None platform _ _);
    [intros isvc [= <-]; exact chat_priorities|vm_compute; reflexivity].
Defined.

Lemma validation_handlers_spec_witness :
  outcome (ValidateDelete (Typed KModel llama)) platform = Some ([], None).
Proof.
  exact (proj2 (proj2 (validation_handlers_spec chat (Untyped "x") (Typed KModel llama) platform))).
Defined.

(** ** The Model controller *)

Lemma Model_Reconcile_reports_witness :
  exists m', stored KModel (final (ModelController.Reconcile 7 llama_key) platform) llama_key = Some m' /\
    reports true (model_Status m') /\
    quiet (ModelController.Reconcile 8 llama_key)
      (final (ModelController.Reconcile 7 llama_key) platform).
Proof.
  destruct (Model_Reconcile_reports 7 llama_key platform Result0 llama)
    as (_ & m' & Hm & Hr & _ & _ & Hq); [vm_compute; reflexivity..|].
  exists m'. exact (conj Hm (conj Hr (Hq 8))).
Defined.

(** A Ready model whose digest was changed in the spec since. *)
Definition stale_llama : Model :=
  mkModel (named "acme" "llama")
    (mkModelSpec (mkModelSource "huggingface" "hf://llama" "sha256:2") "1" true)
    (mkModelStatus [mkCondition "Ready" ConditionTrue 0 0 "ArtifactVerified" ""] "Ready" "sha256:1").

Lemma Model_Reconcile_keeps_stale_digest_witness :
  stored KModel (final (ModelController.Reconcile 7 llama_key)
                   (put KModel stale_llama platform)) llama_key = Some stale_llama /\
  ResolvedDigest (model_Status stale_llama) <> Digest (Source (model_Spec stale_llama)).
Proof.
  split; [|by vm_compute].
  refine (proj2 (Model_Reconcile_keeps_stale_digest 7 llama_key (put KModel stale_llama platform)
                   stale_llama _ _ _)).
  - vm_compute. reflexivity.
  - vm_compute. reflexivity.
  - by apply (bool_decide_unpack _); vm_compute.
Defined.

(** ** The Tenant controller *)

Lemma Tenant_Reconcile_provisions_witness :
  provisioned acme (final (TenantController.Reconcile 7 acme_key) platform).
Proof.
  refine (proj1 (proj2 (Tenant_Reconcile_provisions 7 acme_key platform Result0 acme _ _)));
    vm_compute; reflexivity.
Defined.

Lemma Tenant_Reconcile_idempotent_witness :
  final (TenantController.Reconcile 8 acme_key)
    (final (TenantController.Reconcile 7 acme_key) platform) =
  final (TenantController.Reconcile 7 acme_key) platform.
Proof.
  refine (Tenant_Reconcile_idempotent 7 8 acme_key platform Result0 Result0 _ _);
    vm_compute; reflexivity.
Defined.

Lemma Tenant_Reconcile_order_witness :
  guarded (tenant_may acme_key) [] (events (TenantController.Reconcile 7 acme_key) platform).
Proof.
  exact (proj1 (Tenant_Reconcile_order 7 acme_key _ _
                  (run_exec (TenantController.Reconcile 7 acme_key) platform))).
Defined.

(** Servers on which one step fails. *)
Definition fail_kind (k : Kind) : Req -> option error :=
  fun r => match r with
           | CreateOrUpdate k' _ _ => if decide (k' = k) then Some (errorf "refused") else None
           | Create k' _ => if decide (k' = k) then Some (errorf "refused") else None
           | _ => None
           end.

Lemma Tenant_status_truthful_witness :
  let t := @events _ (mem_cluster (fail_kind KServiceAccount)) _
             (TenantController.Reconcile 7 acme_key) platform in
  guarded truthful [] t /\ length t = 8%nat.
Proof.
  split; [|vm_compute; reflexivity].
  exact (Tenant_status_truthful 7 acme_key _ _
           (@run_exec _ (mem_cluster (fail_kind KServiceAccount)) _
              (TenantController.Reconcile 7 acme_key) platform)).
Defined.

Lemma Tenant_failure_overclaims_witness :
  let t := @events _ (mem_cluster (fail_kind KNamespace)) _
             (TenantController.Reconcile 7 acme_key) platform in
  guarded overclaims [] t /\ step_result KNamespace t = Some (Some (errorf "refused")) /\
  length t = 3%nat.
Proof.
  split; [|vm_compute; by split].
  exact (Tenant_failure_overclaims 7 acme_key _ _
           (@run_exec _ (mem_cluster (fail_kind KNamespace)) _
              (TenantController.Reconcile 7 acme_key) platform)).
Defined.

(** ** Isolation *)

(** Both tenants reconciled. *)
Definition provisioned_platform : MemState :=
  final (TenantController.Reconcile 8 globex_key)
    (final (TenantController.Reconcile 7 acme_key) platform).

Ltac compute_provisioned :=
  split; eexists; (split; [vm_compute; reflexivity|]); split_and?; vm_compute; reflexivity.

Lemma acme_provisioned : provisioned acme provisioned_platform.
Proof. compute_provisioned. Qed.
Lemma globex_provisioned : provisioned globex provisioned_platform.
Proof. compute_provisioned. Qed.

Lemma all_stored k (P : NamespacedName -> Prop) (w : MemState) :
  map_Forall (fun nn _ => P nn) (objects w k) -> forall nn o, stored k w nn = Some o -> P nn.
Proof.
  intros Hall nn o Hs. simpl in Hs. unfold mem_stored in Hs.
  destruct (objects w k !! nn) as [o'|] eqn:Hl; [|done]. by apply (Hall nn o').
Qed.

Lemma acme_sole_policy : sole_policy acme provisioned_platform.
Proof.
  intros name np Hs.
  refine (all_stored KNetworkPolicy
    (fun nn => nn_Namespace nn = "acme" -> nn_Name nn = "tenant-isolation") _ _ _ np Hs eq_refl).
  by apply (bool_decide_unpack _); vm_compute.
Qed.
Lemma globex_sole_policy : sole_policy globex provisioned_platform.
Proof.
  intros name np Hs.
  refine (all_stored KNetworkPolicy
    (fun nn => nn_Namespace nn = "globex" -> nn_Name nn = "tenant-isolation") _ _ _ np Hs eq_refl).
  by apply (bool_decide_unpack _); vm_compute.
Qed.
Lemma acme_sole_binding : sole_binding acme provisioned_platform.
Proof.
  intros name b Hs.
  refine (all_stored KRoleBinding
    (fun nn => nn_Namespace nn = "acme" -> nn_Name nn = "tenant-workload-binding") _ _ _ b Hs eq_refl).
  by apply (bool_decide_unpack _); vm_compute.
Qed.

Lemma tenants_isolated_witness :
  ~ connects provisioned_platform (mkPod "acme" ∅) (mkPod "globex" ∅) ProtocolTCP 8000.
Proof.
  refine (tenants_isolated acme globex provisioned_platform (mkPod "acme" ∅) (mkPod "globex" ∅)
            ProtocolTCP 8000 acme_provisioned globex_provisioned _ globex_sole_policy eq_refl eq_refl).
  by vm_compute.
Defined.

Lemma tenant_egress_witness :
  connects provisioned_platform (mkPod "acme" ∅) (mkPod "acme" ∅) ProtocolTCP 8000.
Proof.
  exact (proj1 (tenant_egress acme provisioned_platform (mkPod "acme" ∅) (mkPod "acme" ∅)
                  ProtocolTCP 8000 acme_provisioned acme_sole_policy eq_refl) eq_refl).
Defined.


(** ** The InferenceService controller *)

(** The platform with the tenant and the model reconciled. *)
Definition ready_platform : MemState :=
  final (ModelController.Reconcile 9 llama_key) provisioned_platform.

Lemma InferenceService_Reconcile_status_witness :
  exists isvc', stored KInferenceService
      (final (InferenceServiceController.Reconcile 9 chat_key) ready_platform) chat_key = Some isvc' /\
    status_due ready_platform chat (isvc_Status isvc') /\ deps_ready ready_platform chat = true.
Proof.
  destruct (InferenceService_Reconcile_status 9 chat_key ready_platform Result0 chat)
    as (_ & i & Hi & _ & Hd & _); [vm_compute; reflexivity..|].
  exists i. split; [exact Hi|]. split; [exact Hd|]. vm_compute. reflexivity.
Defined.


Lemma InferenceService_Reconcile_idempotent_witness :
  quiet (InferenceServiceController.Reconcile 10 chat_key)
    (final (InferenceServiceController.Reconcile 9 chat_key) ready_platform).
Proof.
  refine (InferenceService_Reconcile_idempotent 9 10 chat_key ready_platform Result0 Result0 chat
            _ _ _); vm_compute; reflexivity.
Defined.

Lemma InferenceService_Reconcile_order_witness :
  guarded (isvc_may chat_key) []
    (events (InferenceServiceController.Reconcile 9 chat_key) ready_platform).
Proof.
  exact (InferenceService_Reconcile_order 9 chat_key _ _
           (run_exec (InferenceServiceController.Reconcile 9 chat_key) ready_platform)).
Defined.

Lemma InferenceService_job_error_witness :
  exists e, @outcome _ (mem_cluster (fail_kind KJob)) _
              (InferenceServiceController.Reconcile 9 chat_key) ready_platform =
            Some (Result0, Some e).
Proof.
  refine (proj2 (InferenceService_job_error 9 chat_key _ _
           (@run_exec _ (mem_cluster (fail_kind KJob)) _
              (InferenceServiceController.Reconcile 9 chat_key) ready_platform))
           (errorf "refused") _).
  vm_compute. reflexivity.
Defined.

Lemma mapModelToInferenceServices_spec_witness :
  quiet (mapModelToInferenceServices (Typed KModel llama)) platform.
Proof. exact (proj1 (mapModelToInferenceServices_spec (Typed KModel llama) platform)). Defined.

(** ** The whole *)

(** In an awkward order: the service twice, the other tenant in between, its own
    tenant last. *)
Definition some_order : list Task :=
  [ReconcileInferenceService 5 chat_key; ReconcileTenant 6 globex_key; ReconcileModel 7 llama_key;
   ReconcileInferenceService 8 chat_key; ReconcileTenant 9 acme_key].

Lemma platform_brings_up_witness :
  provisioned acme (run_all some_order platform) /\
  service_up acme chat (run_all some_order platform).
Proof.
  assert (exists hard, buildQuotaResourceList (tenant_ResourceQuota (tenant_Spec acme)) = Ok hard)
    as [hard Hq] by (eexists; vm_compute; reflexivity).
  unshelve epose proof (platform_brings_up "acme" "llama" "chat" platform acme llama chat hard
    some_order _ Hq _ _ _ _ _ _) as (Hp & Hs & _);
    [vm_compute; reflexivity..| |]; [repeat constructor|].
  split.
  - apply (Hp 9). repeat first [apply list_elem_of_here | apply list_elem_of_further].
  - exact (Hs [ReconcileInferenceService 5 chat_key; ReconcileTenant 6 globex_key] 7 [] 8
              [ReconcileTenant 9 acme_key] eq_refl).
Defined.

(** All at once: the tenant, its model and the service overlap, and when the
    model has been reconciled so has the service, found not ready; it is
    reconciled once more while the tenant is at work again. *)
Definition busy : list Move :=
  [Begin (ReconcileTenant 5 acme_key); Begin (ReconcileModel 6 llama_key);
   Begin (ReconcileInferenceService 7 chat_key)] ++
  concat (replicate 4 [Proceed 2; Proceed 0]) ++ [Proceed 1; Proceed 0; Proceed 1] ++
  replicate 3 (Proceed 0).
Definition busier : list Move :=
  [Begin (ReconcileInferenceService 8 chat_key); Begin (ReconcileTenant 9 acme_key)] ++
  concat (replicate 7 [Proceed 3; Proceed 4]).

(** The task of a reconcile that has ended. *)
Definition ended (s : option (Sys MemState)) (i : nat) : option Task :=
  match s with
  | Some s =>
      match threads s !! i with Some (mkThread u _ (Ret _)) => Some u | _ => None end
  | None => None
  end.

Lemma ended_thread s i u :
  ended (Some s) i = Some u -> exists ev r, threads s !! i = Some (mkThread u ev (Ret r)).
Proof.
  simpl. destruct (threads s !! i) as [[v ev [r| |q cont]]|]; [|done..]. intros [= ->]. by do 2 eexists.
Qed.

Definition busy_state : option (Sys MemState) := acts busy (mkSys platform []).
Definition busier_state : option (Sys MemState) :=
  match busy_state with Some s => acts busier s | None => None end.

Lemma busy_ended :
  ended busy_state 0 = Some (ReconcileTenant 5 acme_key) /\
  ended busy_state 1 = Some (ReconcileModel 6 llama_key) /\
  ended busy_state 2 = Some (ReconcileInferenceService 7 chat_key) /\
  option_map (fun s => length (threads s)) busy_state = Some 3%nat /\
  ended busier_state 3 = Some (ReconcileInferenceService 8 chat_key).
Proof. vm_compute. done. Qed.

(** Nothing else happens to the cluster. *)
Definition undisturbed : MemState -> MemState -> Prop := fun _ _ => False.

Lemma operator_converges_witness :
  exists s, busier_state = Some s /\ provisioned acme (cluster s) /\ model_up llama (cluster s) /\
    service_up acme chat (cluster s).
Proof.
  destruct busy_ended as (H0 & H1 & _ & Hlen & H3). unfold busier_state in *.
  destruct busy_state as [s|] eqn:E; [|done]. destruct (acts busier s) as [s'|] eqn:E'; [|done].
  destruct (ended_thread _ _ _ H0) as (ev0 & r0 & T0). destruct (ended_thread _ _ _ H1) as (ev1 & r1 & T1).
  destruct (ended_thread _ _ _ H3) as (ev3 & r3 & T3). injection Hlen as Hlen.
  assert (exists hard, buildQuotaResourceList (tenant_ResourceQuota (tenant_Spec acme)) = Ok hard)
    as [hard Hq] by (eexists; vm_compute; reflexivity).
  pose proof (acts_sound undisturbed busy (mkSys platform []) s E) as Hs.
  pose proof (acts_sound undisturbed busier s s' E') as Hs'.
  clear E E'.
  unshelve epose proof (operator_converges undisturbed "acme" "llama" "chat" platform
    acme llama chat hard s s' _ Hq _ _ _ _ _ _ Hs Hs')
    as (_ & Ht & Hm & _); [vm_compute; reflexivity..|intros ? ? []|].
  unshelve epose proof (operator_converges undisturbed "acme" "llama" "chat" platform
    acme llama chat hard s' s' _ Hq _ _ _ _ _ _ (transitivity Hs Hs') (rtc_refl _ _))
    as (_ & _ & _ & Hi); [vm_compute; reflexivity..|intros ? ? []|].
  exists s'. split; [done|].
  split; [apply (Ht 5 ev0 r0), list_elem_of_lookup; by exists 0%nat|].
  destruct (Hm 6 ev1 r1) as (_ & Hup & Hsv); [apply list_elem_of_lookup; by exists 1%nat|].
  split; [exact Hup|]. rewrite (Hsv 3%nat 8 ev3 r3) in T3; [|rewrite Hlen; lia|exact T3].
  destruct (Hi 8 ev3 (Result0, None)) as [[_ Hsu]|[=]]; [|exact Hsu].
  apply list_elem_of_lookup. by exists 3%nat.
Defined.

(** All three wait, the service first, next to another tenant. *)
Definition backlog : list (Kind * NamespacedName) :=
  [(ISVC, chat_key); (KTenant, globex_key); (KTenant, acme_key); (KModel, llama_key)].

Lemma operator_settles_witness :
  exists q, rtc (qstep undisturbed) (mkQueued (mkSys platform []) backlog) q /\
    provisioned acme (cluster (system q)) /\ model_up llama (cluster (system q)) /\
    service_up acme chat (cluster (system q)).
Proof.
  assert (exists hard, buildQuotaResourceList (tenant_ResourceQuota (tenant_Spec acme)) = Ok hard)
    as [hard Hq] by (eexists; vm_compute; reflexivity).
  unshelve epose proof (fun q => operator_settles undisturbed "acme" "llama" "chat" platform backlog
    acme llama chat hard q _ Hq _ _ _ _ _ _ _) as Hall;
    [vm_compute; reflexivity..|intros ? ? []|intros x Hx; unfold backlog; set_solver|].
  destruct (proj2 (Hall _ (rtc_refl _ _))) as (q & Hr & Hn).
  exists q. split; [exact Hr|]. exact (proj1 (Hall q Hr) Hn q (rtc_refl _ _)).
Defined.

(** A fair run: the three are reconciled as often as they ask for it, and
    nothing happens any more. *)
Definition three_wait : list (Kind * NamespacedName) :=
  [(KTenant, acme_key); (KModel, llama_key); (ISVC, chat_key)].

Lemma fair_run_exists :
  exists run, run 0%nat = mkQueued (mkSys platform []) three_wait /\ endless undisturbed run /\ fair run.
Proof.
  assert (exists hard, buildQuotaResourceList (tenant_ResourceQuota (tenant_Spec acme)) = Ok hard)
    as [hard Hq] by (eexists; vm_compute; reflexivity).
  destruct (three_declared "acme" "llama" "chat" platform acme llama chat)
    as (Hd & Hns & Hof & Hsco & Kt & Km & Ki); [vm_compute; reflexivity..|].
  assert (qinv acme llama chat false (mkQueued (mkSys platform []) three_wait)) as HQ
    by (apply qinv_init; [exact Hd|unfold three_wait; rewrite !elem_of_cons, ?Kt, ?Km, ?Ki; auto..]).
  unshelve epose proof (drained_idle undisturbed acme llama chat hard Hq _ _ Hns Hof Hsco _ false _ HQ _)
    as (s & Hr & Hi & Hsub & Hno); [vm_compute; reflexivity..|intros ? ? []|constructor|].
  destruct (steps_run undisturbed _ _ Hr) as (run & N & Hrun & He & HN). exists run.
  split; [exact Hrun|]. split; [exact He|]. apply (rest_is_fair undisturbed run N s He HN Hi).
  destruct (queue s) as [|x l] eqn:Ex; [done|]. assert (x ∈ three_wait) as Hx
    by (apply Hsub; rewrite ?Ex; apply list_elem_of_here).
  rewrite Forall_forall in Hno. exfalso. apply (Hno x); [|rewrite ?Ex; apply list_elem_of_here].
  apply list_elem_of_In. by rewrite Kt, Km, Ki.
Qed.

Lemma operator_fair_witness :
  exists run, endless undisturbed run /\ fair run /\ exists n, forall n', (n <= n')%nat ->
    service_up acme chat (cluster (system (run n'))).
Proof.
  destruct fair_run_exists as (run & Hrun & He & Hf). exists run. split; [exact He|]. split; [exact Hf|].
  assert (exists hard, buildQuotaResourceList (tenant_ResourceQuota (tenant_Spec acme)) = Ok hard)
    as [hard Hq] by (eexists; vm_compute; reflexivity).
  unshelve epose proof (operator_fair undisturbed "acme" "llama" "chat" platform three_wait
    acme llama chat hard _ Hq _ _ _ _ _ _ _ run Hrun He Hf) as [n Hn];
    [vm_compute; reflexivity..|intros ? ? []|done|].
  exists n. intros n' Hn'. apply (Hn n' Hn').
Defined.

Lemma operator_authorized_witness :
  Forall (fun e => authorized (ev_req e)) (events (TenantController.Reconcile 7 acme_key) platform).
Proof.
  exact (proj1 operator_authorized 7 acme_key _ _
           (run_exec (TenantController.Reconcile 7 acme_key) platform)).
Defined.

(** ** The entry point *)

(** The flag of the logging library the deployment sets. *)
Definition zap_flags : FlagSet :=
  {[ "zap-log-level" := LibValue false (fun s => bool_decide (s ∈ ["debug"; "info"])) [] ]}.

(** The capacity of grown arrays in Go's runtime, for few elements of a word. *)
Definition runtime_growcap (n : nat) : nat := Nat.max 1 (2 * n).

(** As deployed, and nothing fails: the manager is started with leader
    election, and metrics for authorized clients only. *)
Definition deployed : Flags :=
  mkFlags ":8443" "" "tls.crt" "tls.key" "" "tls.crt" "tls.key" true ":8081" true false.

Lemma main_starts_registered_witness :
  exists o, calls (main runtime_growcap zap_flags manager_args (fun _ => None)).1 =
              [GetConfigOrDie; NewManager o] ++ registrations deployed ++ [Start] /\
    LeaderElection o = true /\ BindAddress (Metrics o) = ":8443" /\
    FilterProvider_ (Metrics o) = Some WithAuthenticationAndAuthorization.
Proof.
  assert (exists fs, Parse manager_args (declare_flags zap_flags) = Parsed fs /\
                     flag_vars fs = deployed) as (fs & Hp & Hv).
  { eexists. split; vm_compute; reflexivity. }
  destruct (main_starts_registered runtime_growcap zap_flags manager_args fs (fun _ => None)
              (main runtime_growcap zap_flags manager_args (fun _ => None)).1
              (main runtime_growcap zap_flags manager_args (fun _ => None)).2 Hp
              (surjective_pairing _))
    as (o & (H1 & _ & H2 & _ & H3) & [(_ & Hc & _)|(_ & i & (_ & He & _) & _)]);
    [|by destruct He].
  rewrite Hv in *. exists o. split; [exact Hc|]. rewrite H1, H2, H3. done.
Defined.

Lemma servers_configured_iff_witness : servers_configured runtime_growcap.
Proof. apply (servers_configured_iff runtime_growcap); [cbn; lia|reflexivity]. Defined.

(** The others register tenants the schema admits. *)
Definition registers (w w' : MemState) : Prop :=
  exists t, tenant_Status t = mkTenantStatus [] "" /\ tenant_spec_typed (tenant_Spec t) /\
    w' = put KTenant t w.

Lemma registers_well_behaved w w' : registers w w' -> well_behaved w w'.
Proof.
  intros (t & Ht & _ & ->). split; intros nn o Hs; simpl in Hs.
  1, 3, 4: rewrite mem_stored_put_ne in Hs by done; eauto 6.
  destruct (decide (nn = key KTenant t)) as [->|Hne].
  - rewrite mem_stored_put in Hs by done. left. congruence.
  - rewrite mem_stored_put_ne in Hs by congruence. eauto.
Qed.

Definition first_step : Sys MemState :=
  mkSys (put KTenant acme empty_platform)
    [mkThread (ReconcileTenant 7 acme_key) [] (program (ReconcileTenant 7 acme_key))].

Lemma acme_typed : tenant_spec_typed (tenant_Spec acme).
Proof.
  split; [|done]. split_and!.
  - exists "4", "". split; [reflexivity|]. split; [by vm_compute|by left].
  - exists "8", "Gi". split; [reflexivity|]. split; [by vm_compute|]. right. by left.
  - by vm_compute.
  - right. by vm_compute.
  - by left.
Qed.

Lemma first_step_reachable : reachable registers empty_platform first_step.
Proof.
  apply (reachable_step _ _ (mkSys (put KTenant acme empty_platform) [])).
  - apply (reachable_step _ _ (mkSys empty_platform [])); [constructor|].
    apply step_external. exists acme. split; [done|]. split; [exact acme_typed|done].
  - apply (step_start _ (mkSys (put KTenant acme empty_platform) [])).
Qed.

Lemma operator_consistent_witness : consistent (cluster first_step).
Proof.
  refine (operator_consistent registers registers_well_behaved empty_platform first_step _
            first_step_reachable).
  split; intros nn o Hs; vm_compute in Hs; discriminate.
Defined.

Lemma registers_typed w w' : registers w w' -> well_typed w -> well_typed w'.
Proof.
  intros (t & Ht & Hp & ->) Hw k nn o Hs. simpl in Hs.
  destruct (decide (k = KTenant)) as [->|Hk].
  - destruct (decide (nn = key KTenant t)) as [->|Hne].
    + rewrite mem_stored_put in Hs by done. injection Hs as <-. split; [done|].
      rewrite Ht. split; constructor.
    + rewrite mem_stored_put_ne in Hs by congruence. by apply (Hw _ nn).
  - rewrite mem_stored_put_ne in Hs by congruence. by apply (Hw _ nn).
Qed.

Lemma operator_well_typed_witness : well_typed (cluster first_step).
Proof.
  refine (proj1 (operator_well_typed registers registers_typed empty_platform first_step _
                   first_step_reachable)).
  intros k nn o Hs. destruct k; vm_compute in Hs; discriminate.
Defined.
