(* ===== verification/WatchWitness.v ===== *)
(** * A watched system at work

    A cluster in which anyone may create and change Tenants, Models and
    InferenceServices; it is empty at first.  A tenant, a model and a service are
    created while the operator runs, and the theorems on the watched system
    apply to what follows. *)
From S2P Require Import Prelude.
From S2P Require Import ApiTypes.
From S2P Require Import EqDec.
From S2P Require Import ApiClient.
From S2P Require Import K8sLib.
From S2P Require Import ReferenceLib.
From S2P Require Import Priority.
From S2P Require Import ModelController.
From S2P Require Import TenantController.
From S2P Require Import InferenceServiceController.
From S2P Require Import System.
From S2P Require Import Convergence.
From S2P Require Import Overlap.
From S2P Require Import Concurrent.
From S2P Require Import Workqueue.
From S2P Require Import Settled.
From S2P Require Import MemCluster.
From S2P Require Import Witnesses.
From S2P Require Import Manager.
From S2P Require Import Watch.
From S2P Require Import Settling.

#[local] Instance watched_server : Cluster MemState := mem_cluster healthy.
#[local] Instance watched_server_laws : ClusterLaws MemState := mem_laws healthy.
#[local] Instance watched_server_available : ApiClient.Available MemState := mem_available.

(** ** The cluster *)

(** Nobody changes the default priority of a tenant of this name. *)
#[local] Instance fixed_defaults : Defaults := fun ns d => ns = "acme" -> d = 90.

(** An edit of one object, of any content but for that. *)
Definition edits (w w' : MemState) : Prop :=
  exists k o, primary k /\ (within w -> within (put k o w)) /\ w' = put k o w.

Lemma edits_respect w w' : edits w w' -> respects w w' /\ (within w -> within w').
Proof.
  intros (k & o & Hk & Hw & ->). split; [|exact Hw].
  intros k1 nn1 k' nn' _ _ _ _ _ Hnp. apply same_eq, mem_stored_put_ne.
  intros [= -> _]. done.
Qed.

(** Of another kind, or of a tenant with that default. *)
Lemma put_within k o (w : MemState) :
  (forall t, o = t -> match k return obj k -> Prop with
     | KTenant => fun t => tenant_name t = "acme" -> Default (tenant_Priority (tenant_Spec t)) = 90
     | _ => fun _ => True end t) ->
  within w -> within (put k o w).
Proof.
  intros Ho Hw ns t Ht Hns. subst ns.
  destruct (decide ((KTenant, mkNN "" "acme") = (k, key k o))) as [Hkey|Hne].
  - assert (k = KTenant) as -> by congruence. assert (mkNN "" "acme" = key KTenant o) as Hk by congruence.
    assert (stored KTenant (put KTenant o w) (key KTenant o) = Some o) as Hs by (by apply mem_stored_put).
    rewrite <- Hk in Hs. assert (t = o) as -> by congruence. apply (Ho o eq_refl).
    unfold key, key_of in Hk. unfold tenant_name. by injection Hk as _ <-.
  - apply (Hw "acme" t); [|done]. rewrite <- Ht. symmetry. apply mem_stored_put_ne. congruence.
Qed.

Lemma empty_within : within empty_platform.
Proof. intros ns t Ht. simpl in Ht. done. Qed.

Lemma server_lists ns (w : MemState) : exists items, (handle (List_ ISVC ns) w).1 = Ok items.
Proof. by eexists. Qed.

Lemma empty_listed : listed empty_platform [].
Proof. split; [done|]. intros c k nn _ _ [o Ho]. simpl in Ho. by destruct k. Qed.

(** An edit is announced to all three controllers. *)
Definition told (k : Kind) (o : obj k) : list (Controller * Object) :=
  map (fun c => (c, Typed k o)) operator_controllers.

Lemma put_announced k o (w : MemState) : announced w (put k o w) (told k o).
Proof.
  split; [apply Forall_forall; intros a (c & <- & Hc)%in_map_iff; by apply list_elem_of_In|].
  intros c k' nn Hc _ Hne. destruct (decide ((k', nn) = (k, key k o))) as [[= -> ->]|Hk].
  - exists (Typed k o). split; [done|]. apply list_elem_of_fmap. by exists c.
  - destruct Hne. by apply mem_stored_put_ne.
Qed.

Lemma put_step k o w q p :
  primary k -> (within w -> within (put k o w)) ->
  wstep edits (mkWatched (mkQueued (mkSys w []) q) p)
    (mkWatched (mkQueued (mkSys (put k o w) []) q) (p ++ told k o)).
Proof.
  intros Hk Hw. apply w_step; [|apply put_announced].
  apply (q_external edits (mkSys w []) q). by exists k, o.
Qed.

(** ** A tenant, a model and a service are created *)

Definition created : Watched MemState :=
  mkWatched (mkQueued (mkSys (put KInferenceService chat (put KModel llama (put KTenant acme empty_platform))) []) [])
    ((([] ++ told KTenant acme) ++ told KModel llama) ++ told KInferenceService chat).

Lemma created_reached :
  rtc (wstep edits) (mkWatched (mkQueued (mkSys empty_platform []) []) []) created.
Proof.
  eapply rtc_l; [apply (put_step KTenant acme); [by left|apply put_within; by intros t <-]|].
  eapply rtc_l; [apply (put_step KModel llama); [right; by left|by apply put_within]|].
  apply rtc_once, (put_step KInferenceService chat); [right; by right|by apply put_within].
Qed.

Lemma acme_quota : exists hard, buildQuotaResourceList (tenant_ResourceQuota (tenant_Spec acme)) = Ok hard.
Proof. eexists. vm_compute. reflexivity. Qed.

(** A third of it, for a batch service. *)
Lemma chat_priority w i :
  declared acme llama chat w -> stored ISVC w chat_key = Some i -> service_settled i w ->
  DerivedPriority (isvc_Status i) = 30.
Proof.
  intros [_ _ (i' & Hi' & Hs & Hm)] Hi [_ _ _ (d & Hd & Hr) _].
  assert (i' = i) as ->.
  { change (key ISVC chat) with chat_key in Hi'. congruence. }
  destruct Hr as (_ & -> & _). rewrite Hs. unfold same_meta in Hm. rewrite Hd; [done|].
  injection Hm as _ Hns _ _ _ _ _. by rewrite <- Hns.
Qed.

(** The service is Ready in the end, with a Job and the priority of its tenant. *)
Lemma watched_settles_witness :
  exists s, rtc (wstep nobody) created s /\
    provisioned acme (cluster (system (queued s))) /\ model_up llama (cluster (system (queued s))) /\
    exists i, stored ISVC (cluster (system (queued s))) chat_key = Some i /\
      service_settled i (cluster (system (queued s))) /\ DerivedPriority (isvc_Status i) = 30.
Proof.
  destruct acme_quota as [hard Hq].
  unshelve epose proof (watched_settles fixed_defaults edits empty_platform [] [] created "acme" "llama" "chat"
    acme llama chat hard edits_respect server_lists empty_within empty_listed created_reached
    _ Hq _ _ _ _ _) as (s & Hs & _ & Hd & Hp & Hm & (i & Hi & Hset)); [vm_compute; reflexivity..|].
  exists s. split; [exact Hs|]. split; [exact Hp|]. split; [exact Hm|]. exists i. split; [exact Hi|].
  split; [exact Hset|]. exact (chat_priority _ i Hd Hi Hset).
Defined.


(** ** The default of a tenant changes *)

(** The platform at rest, with the service up. *)
Definition settled_world : MemState := run_all some_order platform.
Definition acme_demoted : Tenant :=
  mkTenant (named "" "acme")
    (mkTenantSpec (tenant_ResourceQuota (tenant_Spec acme)) (mkTenantPriority 10))
    (mkTenantStatus [] "").

Definition any_edits (w w' : MemState) : Prop := exists k o, primary k /\ w' = put k o w.

(** The tenant has its new default, and is reconciled; the service still has the
    priority of the old one. *)
Lemma tenant_edit_not_followed_witness :
  exists s t i, rtc (wstep any_edits) (mkWatched (mkQueued (mkSys settled_world []) []) []) s /\
    resting s /\ queue (queued s) = [] /\
    stored KTenant (cluster (system (queued s))) acme_key = Some t /\
    stored ISVC (cluster (system (queued s))) chat_key = Some i /\
    DerivedPriority (isvc_Status i) <>
      Calculate (Default (tenant_Priority (tenant_Spec t)))
        (WorkloadClass (isvc_Spec chat)) (Priority (isvc_Spec chat)).
Proof.
  assert (exists hard, buildQuotaResourceList (tenant_ResourceQuota (tenant_Spec acme_demoted)) = Ok hard)
    as [hard Hq] by (eexists; vm_compute; reflexivity).
  pose (start := mkWatched (mkQueued (mkSys settled_world []) []) []).
  unshelve epose proof (tenant_edit_not_followed any_edits start (put KTenant acme_demoted settled_world)
    "acme" acme_demoted hard _ eq_refl _ _ _ Hq) as (s & Hr & Hs & He & (t & Ht & Hspec & _) & _ & Hsame).
  - by split; [constructor|].
  - exists KTenant, acme_demoted. split; [by left|done].
  - intros k nn Hne. by apply mem_stored_put_ne.
  - by apply mem_stored_put.
  - destruct platform_brings_up_witness as [_ (i & Hi & _ & Hd & _)].
    exists s, t, i. split; [exact Hr|]. split; [exact Hs|]. split; [exact He|]. split; [exact Ht|].
    split; [rewrite Hsame; exact Hi|]. rewrite Hd, Hspec. vm_compute. done.
Defined.
